(* ===== verification/_CoqProject ===== *)
-Q . S2P
Prelude.v
Async.v
Json.v
JsonParse.v
Redis.v
CacheFacts.v
Throttle.v
ThrottleBans.v
RateLimit.v
AiService.v
AiRaces.v
VoiceTypes.v
VoiceSessions.v
VoiceFacts.v
VoiceTasks.v
VoiceStates.v
VoiceRuns.v
VoiceLimit.v
VoiceQuota.v
VoiceQuotaFacts.v
LlmCache.v
LlmFacts.v
VoiceProcessing.v
Streaming.v
StreamingFacts.v
VoiceGateway.v
MarketCache.v
MarketData.v
MarketFacts.v
CampaignForm.v
CampaignWizard.v
CampaignFacts.v
QueueService.v
QueueFacts.v
QueueProcessors.v
Tracing.v
TelemetryFacts.v
TracingFacts.v
Repository.v
VoiceJobs.v
WorkflowTypes.v
StateMachine.v
Idempotency.v
WorkflowExecution.v
ExecutionFacts.v
ExecutionRuns.v
ExampleWorkflows.v
Compensation.v
ExecutionControl.v
Recovery.v
Monitoring.v
WorkflowService.v
Engine.v
StellarTypes.v
StellarConsumers.v
StellarEvents.v
WebhookDelivery.v
DeliveryRaces.v
StellarMonitor.v
StellarMonitorFacts.v
AuthTypes.v
Nonces.v
Wallets.v
JwtAuth.v
ApiTokens.v
AuthController.v
AuthFacts.v
AuthSafety.v
AuthWallets.v
AuthTokens.v
AuthRaces.v
ServerEdge.v
Witnesses.v
AuthWitnesses.v
RedisWitnesses.v
VoiceWitnesses.v
LlmWitnesses.v
MarketWitnesses.v
QueueWitnesses.v
MonitorWitnesses.v
