(* ===== verification/Prelude.v ===== *)
(** * The FarmExc backend and its campaign wizard

    A library of definitions that follow the TypeScript sources under
    [src/Backend/src], and of one part under [src/Frontend/web/src], method by method, and of
    theorems about them.  It is meant to be read beside the code: a definition has the name of the
    method it translates (services with a common method name have a prefix, [admin_] and
    [controller_] for controllers, [service_] for [WorkflowService], [llm_], [market_] and so on),
    local names are those of the source, and the conditions come in the order of the source.

    ** The program

    The workflow engine ([workflow/]) runs registered workflow definitions: a workflow is a row of
    one table, its steps are rows of another.  [WorkflowExecutionService] starts, runs, retries and
    cancels workflows, asking [WorkflowStateMachineService] which transitions are legal and
    [IdempotencyService] for the keys that make a request a duplicate; [CompensationService] rolls
    completed steps back; [RecoveryService] looks after workflows and steps that a crash left
    running; [MonitoringService] reports; [WorkflowService] and the admin controller are the face of
    it all.  The services share nothing but the two tables.

    The Stellar monitor ([stellar-monitor/]) watches two streams of the ledger
    ([StellarEventMonitorService]), stores what they report and delivers it to registered webhook
    consumers: [EventStorageService] and [ConsumerManagementService] own a table each,
    [WebhookDeliveryService] keeps a queue in memory, posts events to the consumers, records the
    results in both tables and schedules retries with timers.

    The authentication module ([auth/]) logs users in by wallet: [NonceService] draws nonces,
    [WalletService] verifies the signature over one and looks after the wallets bound to an account,
    [JwtAuthService] signs access tokens and keeps refresh tokens, [ApiTokenService] API tokens, and
    [AuthController] puts them together behind the guards.  [AuditService] keeps the log that
    the token services write.

    Around Redis ([redis/]) there are: the global guard that throttles and bans clients
    ([throttle/]) and the sliding window of the authentication routes; the AI service ([ai/]) with
    its quota, its cache, a circuit breaker around the model and a fallback; the voice module
    ([voice/]), whose gateway keeps sessions in Redis, moves them through a table of states, charges
    quotas, asks the language model through a cache and streams the answers word by word, while
    jobs that turn speech into text and back have a table and a queue of their own; the market data
    ([market-data/]), which are served from a cache that events invalidate; and the queues of
    the library Bull ([queue/]) with a list of the jobs that failed for good, their processors and
    an example of their use.

    At the edge there are the socket gateway with who is online and in which room ([websocket/]), the
    guards for roles and sockets, and the health checks.  Observability ([observability/]) traces
    requests, sockets and jobs: it hands contexts from service to service in headers, tells a
    library of metrics what happens and another one what to log.

    The campaign wizard (front end) keeps a form in a store that the browser persists, checks it
    with one schema per step and one for all of it, and lets the user walk from step to step.

    ** How it is modelled

    - An asynchronous method is an [eff W A]: a function from the world it runs in to an outcome,
      a value or an exception, and the world it leaves behind.  What a method wrote before it
      threw stays written.  A mutated object is passed on as a new value; where a caller goes on
      using an object that a callee has changed, the callee returns it ([executeWorkflow],
      [executeSteps]).
    - A method that others can interrupt is a [task]: its pieces between awaits.  [run_task] runs it
      alone, which is then the method; a pool of tasks takes its pieces in any order.
    - The worlds: [WorkflowExecution.World] (both tables, readings of the clock, the log of calls of
      step code); [StellarTypes.Monitor] (both tables, queue, flag, timers and the log of requests)
      and [StellarMonitor.Watch] around it (streams and the fields that name them);
      [AuthTypes.AuthWorld] (six tables); [Redis.RedisWorld] (Redis and a clock) and, with more
      beside it, [Throttle.HttpWorld], [AiService.AiWorld], [Streaming.VoiceWorld],
      [MarketData.MarketWorld], [QueueService.QueueWorld] and [ServerEdge.GatewayWorld];
      [VoiceJobs.JobWorld]; [Tracing.TracedWorld] (the telemetry and whatever is traced).  Code that
      only needs Redis is written for every world that has it ([HasRedis], [RedisLens], [Ticking]).
    - Redis is a parameter ([Redis], [RedisLaws]: what may be read at a key, and what a write does)
      with finite maps as an instance; its commands are definitions over it.  Time at the server is
      another clock than that of the program, and any command may fail ([RedisServer]).  A key
      that has expired is not there.  [KEYS] and the cursor of [SCAN] see every key, each once.
    - Code from outside is a parameter: the ORM and the database (classes [Repository],
      [WorkflowTable], ..., with their documented behaviour as laws and finite maps as an instance),
      the clock, chance, SHA-256 and UUIDs, the HTTP client and the HMAC, the signatures of
      wallets, JSON web tokens and bcrypt, the model behind the AI service, the client of Horizon,
      Bull, the file system, the libraries for metrics and logs (what they are told is kept), the
      sampling rate, and the step code of workflow definitions, which may do anything to
      the world.
    - Where the code relies on the database to refuse a row (unique columns, foreign keys), the
      refusal is a [QueryFailedError].  Settings are what the environment gives: texts.
    - The clock counts milliseconds; [Date] arithmetic is done in UTC, so that a day has 24 hours.
      Numbers that the code only counts with are integers; quotients are rationals in [Monitoring],
      the caches and the campaign, where sums and products are not rounded.
      The trade among the example workflows computes with binary fractions as the language does.
    - Texts are bytes; lower and upper case and blanks are those of ASCII.

    Fuel.  The recursion of [executeStep] has the number of attempts left, which
    [executeStep_terminates] shows to be enough, with the number of calls it makes; the parser of JSON has the length of the text;
    [bull_runs] the attempts that the library makes.

    ** The files

    - [Prelude]: effects, exceptions, loops, clocks, the invariant triples [keeps], sorting.
    - [Async]: methods cut at their awaits ([task]) and pools of them, every interleaving of which
      is considered: [pool_step], [play] for a given order, [pool_acc] (they all end), [within] and
      [pool_keeps] for their invariants, [phased] and [pool_phased] for tasks that go through phases that an
      invariant of the whole pool counts, [owes] and [pool_owes] for counters to which every task of a
      pool contributes its share.
    - [Json]: JavaScript values, [JSON.stringify] with its property list, dates in ISO form,
      case and blanks.  [JsonParse]: [JSON.parse], [parseInt] and dates read back.
    - [Redis], [CacheFacts]: the server, its commands, [RedisService], and the lemmas that the
      caches share.
    - [Throttle], [ThrottleBans], [RateLimit]: the guard, its bans, the sliding window.
    - [AiService], [AiRaces]: the service, the breaker in every interleaving, what is answered in an
      outage.
    - [VoiceTypes], [VoiceSessions], [VoiceTasks]: states, sessions and the same cut at their awaits;
      [VoiceFacts], [VoiceStates], [VoiceRuns], [VoiceLimit]: what holds of them.
      [VoiceQuota], [VoiceQuotaFacts]; [LlmCache] (with the service), [LlmFacts]; [VoiceProcessing],
      the example that puts them together; [Streaming], [StreamingFacts]; [VoiceGateway]; [VoiceJobs].
    - [MarketCache], [MarketData], [MarketFacts]; [QueueService], [QueueFacts], [QueueProcessors].
    - [Tracing]: contexts, logs, metrics, and what is traced: requests, sockets, jobs.
      [TelemetryFacts] counts jobs in every interleaving, [TracingFacts] has the rest.
    - [ServerEdge]: presence and the socket gateway with their specification, the adapter of Redis,
      roles and the routes they guard, the socket guard, health, start and shutdown, the clients of
      Redis.
    - [CampaignForm] (form and schemas), [CampaignWizard] (store and components), [CampaignFacts].
    - [Repository]: the repository interface, queries, a gmap instance.
    - [WorkflowTypes], [StateMachine], [Idempotency], [WorkflowExecution]: the entities and the
      definitions of the engine.  [ExecutionFacts], [ExecutionRuns] and [ExecutionControl] prove
      what steps, whole runs, retries and cancellations do.  [ExampleWorkflows]: the three
      workflows that are registered at the start, and what becomes of them.
    - [Compensation], [Recovery], [Monitoring], [WorkflowService]: one file per service, with its
      theorems; the admin controller is in the last.
    - [Engine]: every request as a step of a transition system, and what holds of the tables in all
      states it can reach.
    - [StellarTypes], [StellarConsumers], [StellarEvents], [WebhookDelivery]: the monitor, with its
      queue run delivery by delivery; [DeliveryRaces]: the deliveries of a batch in every
      interleaving; [StellarMonitor], [StellarMonitorFacts]: the streams and the requests, and what
      holds of the streams.
    - [AuthTypes] (with the audit log), [Nonces], [Wallets], [JwtAuth], [ApiTokens], [AuthController]: the
      tables, one file per service, and the requests from guard to answer.  [AuthFacts] says in
      which direction all of them move the tables; [AuthSafety], [AuthWallets] and [AuthTokens] draw
      the conclusions for nonces and refresh tokens, accounts, and API tokens; [AuthRaces] cuts two
      requests at their awaits.
    - [Witnesses], [AuthWitnesses], [RedisWitnesses], [VoiceWitnesses], [LlmWitnesses],
      [MarketWitnesses], [QueueWitnesses], [MonitorWitnesses]: the hypotheses of the
      theorems met by concrete tables, servers, clocks, networks and cryptography, and examples.

    ** What is proved

    - Running: [startWorkflow_run] describes whole runs whose steps fail a known number of times,
      [registered_workflows_fail] the runs of the workflows there are, [examples_as_meant] and
      [trade_as_meant] what their steps do when each gets its input, [unread_amount_trades] what a
      trade does with an amount that is no number;
      [executeStep_retries] and [executeStep_terminates] the retry recursion;
      [executeWorkflow_final_state] how any run ends;
      [startWorkflow_duplicate] and the theorems of [Idempotency] the keys.
    - Control: [retryWorkflow_never_resumes], [cancelWorkflow_spec], [compensateWorkflow_refines] and
      [forceCompensateWorkflow_refines] (both against the specification [compensates]),
      [compensates_once].
    - Recovery: [recoverOrphanedWorkflows_spec], [recoverStuckSteps_spec], [recovery_lock].
    - The engine as a whole: [engine_tables_ok], [retry_queue_empty]; the tables of transitions in
      [reachability] and [predicates_agree_with_table].
    - Reports and queries: the theorems of [Monitoring] and [WorkflowService].
    - The monitor: [delivery_statistics], [consumers_invariant] and [retries_until_suspension] for
      deliveries that run one after the other; [event_delivered] (from the queue to the consumers and the row
      of the event), [batch_interleavings], [consumers_survive_races], [never_processed] and
      [delivery_lost_update] for all orders; [monitor_watches_once],
      [restarted_stream_stays_open] and [stop_during_start] for the streams.
    - Authentication: [nonce_single_use], [refresh_single_use], [logout_revokes] and
      [api_token_revoked] hold across any requests in between; [login_authenticates] ties a login
      to the user the guard lets in; [accounts_ok_reachable] is the invariant of accounts and
      wallets; [createApiToken_expiry] the lifetime of API tokens.  [nonce_double_login] and
      [unbind_race] show that requests side by side break the first and the invariant.
    - Limits: [throttle_window], [ban_bounded], [rate_limit_window] with
      [rate_limit_same_millisecond], and [expire_failure_locks] when a command fails.
    - AI service: [outage_posts_bounded], [breaker_survives_races], [half_open_floods],
      [outage_poisons_cache].
    - Voice: [voice_sessions_ok] in every interleaving and whichever commands fail;
      [requests_follow_table], [interrupt_and_resume], [session_limit] with [limit_outlived] and
      [limit_raced], [cleanup_stale_spec], [termination_undone], [table_raced];
      [quota_per_minute] (the requests that the model answers and that are recorded, not those the cache
      answers); [repeated_prompt], with any requests in between; [chunks_only_while_open] and [stream_in_full];
      [message_for_own_session]; [text_spoken_once] for jobs.
    - Market data: [cached_value_is_read], [snapshot_served_again], [invalidateNamespace_spec],
      [asset_update_keeps_prices], [manual_invalidation_ignores], [market_survives_outage].
    - Queues: [failed_job_comes_back], [requeue_accounting]; what a processor reports and how it ends
      in [deploy_reports], [tts_reports] and [news_reports].
    - Telemetry: [jobs_accounted] for every interleaving of jobs, [connections_counted],
      [trace_roundtrip], [spans_chain], [intercept_transparent], [metrics_registered],
      [sanitize_redacts].
    - The edge: [gateway_refines] (handlers against [presence_step]), [role_routes_closed],
      [readiness_spec], [start_demands], [start_and_stop], [redis_connects], [reconnect_bounded].
    - The example of voice processing: [foreign_session_refused], [grant_adds].
    - Campaigns: [submission_checks] (the whole form against the steps, each with its own readings of
      the clock), [forward_only_validated],
      [reload_breaks_wizard].

    Some of these state behaviour that the code does not seem to intend: workflows that fail at
    their first step because its input is a promise, retries and recovery that
    never resume a workflow, cancellations overwritten by a run that ends, an idempotency key blind
    to nested input, a retry limit that is never reached, events that are never marked processed,
    updates lost between deliveries that run side by side, nonces used twice and accounts without
    a wallet when requests overlap, API tokens that live for years, apologies cached as answers,
    sessions that come back after their end, streams of the ledger that nobody can close, prices
    that outlive their update, failed jobs that are dropped, routes for roles that nobody reaches,
    users who are offline with an open socket, siblings in a trace that appear nested, and a wizard
    that does not survive a reload.

    ** What is not modelled

    Database failures other than refused rows, and rows that other processes write in the middle of
    a method (but for the methods that are also written as tasks); HTTP decoding and validation of
    requests; what services write to the log of NestJS.  In a stream the call of the model is one
    piece.  A message of the ledger is handled in one piece.  [clearAllLogs] of the
    audit log is for tests.  Module wiring, what the framework does when the server starts, database
    migrations and constants are left out.  The rest of the
    front end is markup over a form library; the contracts are another program in another
    language. *)
From stdpp Require Export base gmap strings list sorting numbers option relations.
From stdpp Require Export pretty.
From Stdlib Require Export Lia.

(** * JavaScript effects

    The backend is asynchronous TypeScript.  A method that awaits nothing but
    its own calls is modelled as a function from the world it runs in to the
    world it leaves behind, together with the way it ended: with a value, or
    with the exception it threw.  What a thrower has already written stays
    written, as in the source. *)

Record exn := Exn { exn_name : string; exn_message : string }.

Inductive outcome (A : Type) : Type :=
| Return (a : A)
| Throw (e : exn).
Arguments Return {_} _.
Arguments Throw {_} _.

#[export] Instance exn_eq_dec : EqDecision exn.
Proof. solve_decision. Defined.

Definition returned {A} (o : outcome A) : bool :=
  match o with Return _ => true | Throw _ => false end.

(** [new Error(msg)], the class most of the source throws. *)
Definition Error (msg : string) : exn := Exn "Error" msg.
Definition TypeError (msg : string) : exn := Exn "TypeError" msg.

(** The exceptions of NestJS that the services throw, and what TypeORM throws when the
    database refuses a statement. *)
Definition NotFoundException (msg : string) : exn := Exn "NotFoundException" msg.
Definition BadRequestException (msg : string) : exn := Exn "BadRequestException" msg.
Definition UnauthorizedException (msg : string) : exn := Exn "UnauthorizedException" msg.
Definition ConflictException (msg : string) : exn := Exn "ConflictException" msg.
Definition QueryFailedError (msg : string) : exn := Exn "QueryFailedError" msg.
(** [new HttpException(message, status)] *)
Definition HttpException (message : string) (status : Z) : exn := Exn ("HttpException " +:+ pretty status) message.

Definition eff (W A : Type) : Type := W → outcome A * W.

#[export] Instance eff_ret W : MRet (eff W) := λ A a w, (Return a, w).
#[export] Instance eff_bind W : MBind (eff W) := λ A B f m w,
  match m w with
  | (Return a, w') => f a w'
  | (Throw e, w') => (Throw e, w')
  end.

Declare Scope js_scope.
Delimit Scope js_scope with js.

(** Field update chains: [x |> set_a v |> set_b u]. *)
Notation "x |> f" := (f x) (at level 45, left associativity, only parsing) : js_scope.
Open Scope js_scope.

Section Effects.
Context {W : Type}.

Definition throw {A} (e : exn) : eff W A := λ w, (Throw e, w).
Definition gets {A} (f : W → A) : eff W A := λ w, (Return (f w), w).
(** An effect that is an outcome. *)
Definition of_outcome {A} (o : outcome A) : eff W A := λ w, (o, w).
Definition modify (f : W → W) : eff W unit := λ w, (Return tt, f w).

(** [try { m } catch (e) { h e }] *)
Definition try_catch {A} (m : eff W A) (h : exn → eff W A) : eff W A := λ w,
  match m w with
  | (Return a, w') => (Return a, w')
  | (Throw e, w') => h e w'
  end.

(** [try { m } finally { f }], for a [finally] block that does not throw. *)
Definition try_finally {A} (m : eff W A) (f : W → W) : eff W A := λ w,
  let '(o, w') := m w in (o, f w').

(** How [m] ended, as a value: what a [catch] block that also needs the
    local variables of the [try] block looks at. *)
Definition attempt {A} (m : eff W A) : eff W (outcome A) := λ w,
  let '(o, w') := m w in (Return o, w').

(** [Promise.all]: everything is done, then the first failure is thrown. *)
Fixpoint promise_all (ms : list (eff W unit)) : eff W unit :=
  match ms with
  | [] => mret tt
  | m :: ms => first ← attempt m; rest ← attempt (promise_all ms); of_outcome (match first with Return _ => rest | Throw e => Throw e end)
  end.

(** [for (const x of l) await f(x)] *)
Fixpoint foreach {A} (l : list A) (f : A → eff W unit) : eff W unit :=
  match l with
  | [] => mret tt
  | x :: l' => f x ;; foreach l' f
  end.

End Effects.

(** ** Running an effect *)

Section Running.
Context {W A B : Type}.
Implicit Types (m : eff W A) (f : A → eff W B).

Lemma bind_run m f w a w' : m w = (Return a, w') → (m ≫= f) w = f a w'.
Proof. intros H. unfold mbind, eff_bind. by rewrite H. Qed.

Lemma bind_throw m f w e w' : m w = (Throw e, w') → (m ≫= f) w = (Throw e, w').
Proof. intros H. unfold mbind, eff_bind. by rewrite H. Qed.

Lemma bind_ext m m' f f' w : m w = m' w → (∀ a w', f a w' = f' a w') → (m ≫= f) w = (m' ≫= f') w.
Proof. intros Hm Hf. unfold mbind, eff_bind. rewrite Hm. by destruct (m' w) as [[a|x] w']. Qed.

Lemma try_ext m m' h h' w : m w = m' w → (∀ x w', h x w' = h' x w') → try_catch m h w = try_catch m' h' w.
Proof. intros Hm Hh. unfold try_catch. rewrite Hm. by destruct (m' w) as [[a|x] w']. Qed.

Lemma bind_returned m f w b w' : (m ≫= f) w = (Return b, w') →
  ∃ a w1, m w = (Return a, w1) ∧ f a w1 = (Return b, w').
Proof. unfold mbind, eff_bind. destruct (m w) as [[a|e] w1]; [|done]. intros H. by exists a, w1. Qed.

Lemma try_returned m (h : exn → exn) w a w' :
  try_catch m (λ e, throw (h e)) w = (Return a, w') → m w = (Return a, w').
Proof. unfold try_catch. by destruct (m w) as [[b|e] w1]. Qed.

Lemma bind_assoc {C} m f (g : B → eff W C) w : (m ≫= λ a, f a ≫= g) w = ((m ≫= f) ≫= g) w.
Proof. unfold mbind, eff_bind. by destruct (m w) as [[a|e] w1]. Qed.

Lemma promise_all_cons (m : eff W unit) ms w :
  promise_all (m :: ms) w =
  let '(o, w1) := m w in let '(o', w2) := promise_all ms w1 in (match o with Return _ => o' | Throw e => Throw e end, w2).
Proof.
  cbn [promise_all]. unfold mbind, eff_bind, attempt. destruct (m w) as [o w1]. by destruct (promise_all ms w1) as [o' w2].
Qed.
Lemma bind_attempt m (f : outcome A → eff W B) w :
  (attempt m ≫= f) w = (let '(o, w') := m w in f o w').
Proof. unfold mbind, eff_bind, attempt. by destruct (m w). Qed.

Lemma bind_mret (a : A) f w : (mret a ≫= f) w = f a w.
Proof. done. Qed.

Lemma bind_gets (g : W → A) f w : (gets g ≫= f) w = f (g w) w.
Proof. done. Qed.

Lemma attempt_run m w o w' : m w = (o, w') → attempt m w = (Return o, w').
Proof. intros H. unfold attempt. by rewrite H. Qed.
End Running.

(** ** Effects that preserve an invariant

    [keeps I m Q]: started where [I] holds, [m] ends where [I] holds, whether it returns
    or throws, and what it returns satisfies [Q]. *)

Definition keeps {W A} (I : W → Prop) (m : eff W A) (Q : A → Prop) : Prop := ∀ w, I w →
  I (m w).2 ∧ ∀ a, (m w).1 = Return a → Q a.

(** Nothing is said of the result. *)
Definition anything {A} (_ : A) : Prop := True.
#[export] Hint Unfold anything : core.

Create HintDb keeps.

(** The world after [m] is related to the world before it. *)
Definition moves {W A} (R : relation W) (m : eff W A) : Prop := ∀ w, R w (m w).2.

Create HintDb moves.

Section Keeps.
Context {W : Type} (I : W → Prop).

Lemma keeps_ret {A} (a : A) (Q : A → Prop) : Q a → keeps I (mret a : eff W A) Q.
Proof. intros Ha w Hw. split; [done|]. by intros ? [= <-]. Qed.
Lemma keeps_throw {A} e (Q : A → Prop) : keeps I (throw e : eff W A) Q.
Proof. by intros w Hw. Qed.
Lemma keeps_gets {A} (f : W → A) (Q : A → Prop) : (∀ w, I w → Q (f w)) → keeps I (gets f) Q.
Proof. intros Hf w Hw. split; [done|]. intros ? [= <-]. by apply Hf. Qed.
Lemma keeps_modify f (Q : unit → Prop) : (∀ w, I w → I (f w)) → Q tt → keeps I (modify f) Q.
Proof. intros Hf HQ w Hw. split; [by apply Hf|]. by intros [] _. Qed.

Lemma keeps_weaken {A} (m : eff W A) (Q Q' : A → Prop) : keeps I m Q → (∀ a, Q a → Q' a) → keeps I m Q'.
Proof. intros Hm HQ w Hw. destruct (Hm w Hw) as [? Hr]. split; [done|]. intros a Ha. by apply HQ, Hr. Qed.

Lemma keeps_bind {A B} (m : eff W A) (f : A → eff W B) P (Q : B → Prop) :
  keeps I m P → (∀ a, P a → keeps I (f a) Q) → keeps I (m ≫= f) Q.
Proof.
  intros Hm Hf w Hw. unfold mbind, eff_bind. destruct (Hm w Hw) as [Hw' Hr].
  destruct (m w) as [[a|e] w']; [|done]. by apply Hf; [apply Hr|].
Qed.

Lemma keeps_assoc {A B C} (m : eff W A) (f : A → eff W B) (g : B → eff W C) (Q : C → Prop) :
  keeps I ((m ≫= f) ≫= g) Q → keeps I (m ≫= λ a, f a ≫= g) Q.
Proof. intros Hm w. rewrite bind_assoc. apply Hm. Qed.

(** An effect that only moves the world along a relation that keeps the invariant. *)
Lemma keeps_moves {A} (R : relation W) (m : eff W A) : moves R m → (∀ w w', R w w' → I w → I w') → keeps I m anything.
Proof. intros Hm HR w Hw. split; [by eapply HR|done]. Qed.

Lemma keeps_try {A} (m : eff W A) h (Q : A → Prop) :
  keeps I m Q → (∀ e, keeps I (h e) Q) → keeps I (try_catch m h) Q.
Proof.
  intros Hm Hh w Hw. unfold try_catch. destruct (Hm w Hw) as [Hw' Hr].
  destruct (m w) as [[a|e] w']; [done|]. by apply Hh.
Qed.

Lemma keeps_attempt {A} (m : eff W A) Q :
  keeps I m Q → keeps I (attempt m) (λ o, match o with Return a => Q a | Throw _ => True end).
Proof.
  intros Hm w Hw. unfold attempt. destruct (Hm w Hw) as [Hw' Hr]. destruct (m w) as [o w'].
  split; [done|]. intros ? [= <-]. destruct o; [by apply Hr|done].
Qed.

Lemma keeps_foreach {A} (l : list A) f :
  (∀ x, x ∈ l → keeps I (f x) anything) → keeps I (foreach l f) anything.
Proof.
  induction l as [|x l IH]; intros H; cbn [foreach]; [by apply keeps_ret|].
  eapply keeps_bind; [apply H; left|]. intros _ _. apply IH. intros y Hy. apply H. by right.
Qed.
End Keeps.

#[export] Hint Resolve keeps_throw : keeps.

(** ** Effects that move the world along a relation *)

Section Moves.
Context {W : Type} (R : relation W) `{!PreOrder R}.

Lemma moves_ret {A} (a : A) : moves R (mret a : eff W A).
Proof. by intros w. Qed.
Lemma moves_throw {A} e : moves R (throw e : eff W A).
Proof. by intros w. Qed.
Lemma moves_gets {A} (f : W → A) : moves R (gets f).
Proof. by intros w. Qed.
Lemma moves_of_outcome {A} (o : outcome A) : moves R (of_outcome o : eff W A).
Proof. by intros w. Qed.
Lemma moves_modify f : (∀ w, R w (f w)) → moves R (modify f).
Proof. by intros Hf w. Qed.
Lemma moves_bind {A B} (m : eff W A) (f : A → eff W B) :
  moves R m → (∀ a, moves R (f a)) → moves R (m ≫= f).
Proof.
  intros Hm Hf w. unfold mbind, eff_bind. specialize (Hm w). destruct (m w) as [[a|e] w']; [|done].
  etrans; [exact Hm|apply Hf].
Qed.
Lemma moves_try {A} (m : eff W A) h : moves R m → (∀ e, moves R (h e)) → moves R (try_catch m h).
Proof.
  intros Hm Hh w. unfold try_catch. specialize (Hm w). destruct (m w) as [[a|e] w']; [done|].
  etrans; [exact Hm|apply Hh].
Qed.
Lemma moves_attempt {A} (m : eff W A) : moves R m → moves R (attempt m).
Proof. intros Hm w. specialize (Hm w). unfold attempt. by destruct (m w). Qed.
End Moves.

#[export] Hint Resolve moves_throw moves_ret moves_gets moves_of_outcome : moves.

(** Follows the structure of a method down to the calls that [moves] knows. *)
Ltac moves_tac := repeat first
  [ progress auto with moves
  | apply moves_bind; [apply _| |intros ?; cbv beta zeta]
  | apply moves_try; [apply _| |intros ?; cbv beta zeta]
  | apply moves_attempt
  | case_match ].

(** ** Time, chance and identifiers

    The clock is read through [Date.now()] and [new Date()]; a world counts the
    readings, and the clock says what the [n]-th one shows.  Nothing is assumed
    of it unless a theorem says so ([MonotoneClock]). *)

Class Clock := clock_at : nat → Z.

(** [Math.random()]: the numerator [k] of [k / 2^53]. *)
Class Random := random_at : nat → Z.
Definition random_scale : Z := 2 ^ 53.
Class RandomRange `{!Random} := random_range n : (0 ≤ random_at n < random_scale)%Z.

(** [x.toString(radix)] for [x = k / 2^53]: the specification of the language leaves the digits
    to the implementation. *)
Class RadixText := radix_text : Z → Z → string.

(** Node's [crypto]: the hash in hexadecimal and the [n]-th UUID drawn. *)
Class Crypto := { sha256_hex : string → string; uuid_at : nat → string }.

(** Worlds that count their readings of the clock and of chance. *)
Class Ticking (W : Type) := { tick : W → nat; advance : W → W }.

Section Ticks.
Context {W : Type} `{!Ticking W, !Clock}.

Definition date_now : eff W Z := λ w, (Return (clock_at (tick w)), advance w).

(** [await new Promise((resolve) => setTimeout(resolve, ms))]: only time passes. *)
Definition delay (ms : Z) : eff W unit := modify advance.

Definition random `{!Random} : eff W Z := λ w, (Return (random_at (tick w)), advance w).
Definition randomUUID `{!Crypto} : eff W string := λ w, (Return (uuid_at (tick w)), advance w).
End Ticks.

(** ** A loop over distinct rows

    Each round of the loop writes the row of its own element ([look] reads a
    row) and moves the rest of the world along [G]. *)
Section ForeachRows.
Context {W X V : Type} (key : X → string) (look : string → W → V).
Context (G : relation W) `{!PreOrder G} (pre : X → V → Prop) (Q : X → W → W → V → Prop) (f : X → eff W unit).

Definition own_row (x : X) : Prop := ∀ w, pre x (look (key x) w) → ∃ w', f x w = (Return tt, w') ∧ G w w' ∧
  (∀ k, k ≠ key x → look k w' = look k w) ∧ Q x w w' (look (key x) w').

Lemma foreach_rows l : Forall own_row l → NoDup (key <$> l) → ∀ w,
  (∀ x, x ∈ l → pre x (look (key x) w)) →
  ∃ w', foreach l f w = (Return tt, w') ∧ G w w' ∧
    (∀ k, k ∉ key <$> l → look k w' = look k w) ∧
    ∀ x, x ∈ l → ∃ wx wy, G w wx ∧ G wx wy ∧ G wy w' ∧ Q x wx wy (look (key x) w').
Proof.
  induction l as [|x l IH]; intros Hf Hnd w Hpre.
  { exists w. split_and!; try done. set_solver. }
  apply Forall_cons in Hf as [Hx Hf]. csimpl in Hnd. apply NoDup_cons in Hnd as [Hni Hnd].
  destruct (Hx w) as (w1 & Hrun & HG1 & Ho1 & HQ); [apply Hpre; left|].
  assert (∀ y, y ∈ l → key y ≠ key x) as Hne.
  { intros y Hy Heq. apply Hni. rewrite <-Heq. by apply list_elem_of_fmap_2. }
  destruct (IH Hf Hnd w1) as (w' & Hrun' & HG' & Ho' & HQ').
  { intros y Hy. rewrite Ho1 by auto. apply Hpre. by right. }
  exists w'. cbn [foreach]. rewrite (bind_run _ _ w tt w1) by done. split_and!; [done|by etrans| |].
  - csimpl. intros k [? ?]%not_elem_of_cons. rewrite Ho' by done. by apply Ho1.
  - intros y [->|Hy]%elem_of_cons.
    + exists w, w1. split_and!; [done..|]. by rewrite Ho'.
    + destruct (HQ' y Hy) as (wx & wy & ? & ? & ? & ?). exists wx, wy. split_and!; [by etrans|done..].
Qed.
End ForeachRows.

(** * Small things of the language *)

Definition ms_per_day : Z := 86400000.

(** [date.setDate(date.getDate() - days)], local days being 24 hours long. *)
Definition days_before (days t : Z) : Z := t - days * ms_per_day.

(** [s.includes(t)] *)
Definition string_includes (t s : string) : bool := bool_decide (is_Some (String.index 0 t s)).

(** [a || b] on a number that may be undefined. *)
Definition or_number (o : option Z) (d : Z) : Z :=
  match o with Some z => if bool_decide (z = 0%Z) then d else z | None => d end.

(** [a || b] on a string that may be undefined. *)
Definition or_string (o : option string) (d : string) : string :=
  match o with Some s => if bool_decide (s = EmptyString) then d else s | None => d end.

(** [a || b], of texts that may be absent, and such a text as a condition. *)
Definition or_text (a b : option string) : option string := if bool_decide (or_string a EmptyString = EmptyString) then b else a.
Definition given (s : option string) : bool := negb (bool_decide (or_string s EmptyString = EmptyString)).
Lemma given_text s : given s = true → ∃ t, s = Some t ∧ t ≠ EmptyString.
Proof.
  unfold given, or_string. destruct s as [t|]; [|by vm_compute]. intros Ht. exists t. split; [done|]. intros ->. by vm_compute in Ht.
Qed.

Definition or_false (o : option bool) : bool := default false o.

(** [Array.prototype.find] *)
Definition array_find {A} (P : A → Prop) `{∀ x, Decision (P x)} (l : list A) : option A :=
  snd <$> list_find P l.

(** [LessThan(t)] and [Between(a, b)] on a nullable timestamp column. *)
Definition before (o : option Z) (t : Z) : Prop := match o with Some u => (u < t)%Z | None => False end.
#[export] Instance before_dec o t : Decision (before o t).
Proof. destruct o; simpl; apply _. Defined.

Definition between (a b : Z) (o : option Z) : Prop :=
  match o with Some u => (a ≤ u ≤ b)%Z | None => False end.
#[export] Instance between_dec a b o : Decision (between a b o).
Proof. destruct o; simpl; apply _. Defined.

(** [Array.prototype.sort((a, b) => key a - key b)]: stable, ascending. *)
Section SortOn.
Context {A : Type} (key : A → Z).
Definition key_le : relation A := λ x y, (key x ≤ key y)%Z.
#[export] Instance key_le_dec : RelDecision key_le.
Proof. intros x y. unfold key_le. apply _. Defined.
#[export] Instance key_le_total : Total key_le.
Proof. intros x y. unfold key_le. lia. Qed.
#[export] Instance key_le_trans : Transitive key_le.
Proof. intros x y z. unfold key_le. lia. Qed.

Fixpoint insert_on (x : A) (l : list A) : list A :=
  match l with
  | [] => [x]
  | y :: l' => if bool_decide (key x ≤ key y)%Z then x :: y :: l' else y :: insert_on x l'
  end.
Fixpoint sort_on (l : list A) : list A :=
  match l with [] => [] | x :: l' => insert_on x (sort_on l') end.

Lemma insert_on_perm x l : insert_on x l ≡ₚ x :: l.
Proof.
  induction l as [|y l IH]; simpl; [done|]. case_bool_decide; [done|].
  rewrite IH. by apply Permutation_swap.
Qed.
Lemma sort_on_perm l : sort_on l ≡ₚ l.
Proof. induction l as [|x l IH]; simpl; [done|]. by rewrite insert_on_perm, IH. Qed.

Lemma elem_of_sort_on x l : x ∈ sort_on l ↔ x ∈ l.
Proof. by rewrite sort_on_perm. Qed.
Lemma length_sort_on l : length (sort_on l) = length l.
Proof. by rewrite sort_on_perm. Qed.

Lemma insert_on_sorted x l :
  StronglySorted key_le l → StronglySorted key_le (insert_on x l).
Proof.
  induction l as [|y l IH]; intros Hl; simpl; [repeat constructor|].
  inversion_clear Hl as [|?? Hs Hall]. case_bool_decide as Hxy.
  - constructor; [by constructor|]. constructor; [done|].
    eapply Forall_impl; [done|]. intros z Hz. by etrans.
  - constructor; [by apply IH|]. rewrite insert_on_perm.
    constructor; [unfold key_le; lia|done].
Qed.
Lemma sort_on_sorted l : StronglySorted key_le (sort_on l).
Proof. induction l as [|x l IH]; simpl; [constructor|]. by apply insert_on_sorted. Qed.

(** A list already strictly sorted is what sorting any rearrangement of it gives. *)
Lemma sort_on_unique l l' :
  StronglySorted (λ x y, key x < key y)%Z l → l' ≡ₚ l → sort_on l' = l.
Proof.
  intros Hs Hp.
  assert (Hinj : ∀ x y, x ∈ l → y ∈ l → key x = key y → x = y).
  { clear l' Hp. induction Hs as [|a l Hs IH Hall]; [intros ??; by rewrite elem_of_nil|].
    rewrite Forall_forall in Hall.
    intros x y [->|Hx]%elem_of_cons [->|Hy]%elem_of_cons Hk; [done| | |by apply IH].
    - specialize (Hall y Hy). simpl in Hall. lia.
    - specialize (Hall x Hx). simpl in Hall. lia. }
  eapply (StronglySorted_unique_strong key_le).
  - intros x y Hx Hy ??. rewrite elem_of_sort_on, Hp in Hx. apply Hinj; [done..|].
    unfold key_le in *. lia.
  - apply sort_on_sorted.
  - clear -Hs. induction Hs as [|a l Hs IH Hall]; constructor; [done|].
    eapply Forall_impl; [done|]. intros z Hz. unfold key_le. simpl in Hz. lia.
  - by rewrite sort_on_perm.
Qed.
End SortOn.
