(* ===== verification/Async.v ===== *)
(** Asynchronous methods that run side by side.  A [task] is a method cut at its
    awaits: every piece runs without interruption, and between two pieces any other task may
    run.  [Promise.all] over calls of a method is a pool of such tasks. *)
From S2P Require Import Prelude.

(** [Segment m k] runs [m] and goes on with [k], which sees how [m] ended. *)
Inductive task (W A : Type) : Type :=
| Done (o : outcome A)
| Segment {X : Type} (m : eff W X) (k : outcome X → task W A).
Arguments Done {_ _} _.
Arguments Segment {_ _ _} _ _.

Section Tasks.
Context {W : Type}.

(** ** Writing tasks *)

Definition atomic {A} (m : eff W A) : task W A := Segment m Done.

Fixpoint task_bind {A B} (t : task W A) (f : A → task W B) : task W B :=
  match t with
  | Done (Return a) => f a
  | Done (Throw e) => Done (Throw e)
  | Segment m k => Segment m (λ o, task_bind (k o) f)
  end.

Fixpoint task_try {A} (t : task W A) (h : exn → task W A) : task W A :=
  match t with
  | Done (Return a) => Done (Return a)
  | Done (Throw e) => h e
  | Segment m k => Segment m (λ o, task_try (k o) h)
  end.

#[global] Instance task_mret : MRet (task W) := λ A a, Done (Return a).
#[global] Instance task_mbind : MBind (task W) := λ A B f t, task_bind t f.

(** ** A task on its own is an effect *)

Fixpoint run_task {A} (t : task W A) : eff W A := λ w,
  match t with
  | Done o => (o, w)
  | Segment m k => let '(o, w') := m w in run_task (k o) w'
  end.

Lemma run_atomic {A} (m : eff W A) w : run_task (atomic m) w = m w.
Proof. cbn. by destruct (m w). Qed.

Lemma run_bind {A B} (t : task W A) (f : A → task W B) w :
  run_task (t ≫= f) w = (run_task t ≫= λ a, run_task (f a)) w.
Proof.
  revert w. induction t as [[a|e]|X m k IH]; intros w; [done|done|].
  unfold mbind, eff_bind, task_mbind in *. cbn. destruct (m w) as [o w']. apply IH.
Qed.

Lemma run_piece {A B} (m : eff W A) (k : A → task W B) w :
  run_task (atomic m ≫= k) w = match m w with (Return a, w1) => run_task (k a) w1 | (Throw e, w1) => (Throw e, w1) end.
Proof. rewrite run_bind. unfold mbind, eff_bind. by rewrite run_atomic. Qed.
Lemma run_try {A} (t : task W A) h w :
  run_task (task_try t h) w = try_catch (run_task t) (λ e, run_task (h e)) w.
Proof.
  revert w. induction t as [[a|e]|X m k IH]; intros w; [done|done|].
  unfold try_catch in *. cbn. destruct (m w) as [o w']. apply IH.
Qed.

(** How a task ends, as a value. *)
Definition task_attempt {A} (t : task W A) : task W (outcome A) :=
  task_try (t ≫= λ a, mret (Return a)) (λ e, mret (Throw e)).
Lemma run_attempt {A} (t : task W A) w : run_task (task_attempt t) w = attempt (run_task t) w.
Proof.
  unfold task_attempt, attempt. rewrite run_try. unfold try_catch. rewrite run_bind. unfold mbind, eff_bind.
  by destruct (run_task t w) as [[a|e] w'].
Qed.

(** ** Pools *)

(** The next piece of a task. *)
Definition resume {A} (t : task W A) (w : W) : option (task W A * W) :=
  match t with
  | Done _ => None
  | Segment m k => let '(o, w') := m w in Some (k o, w')
  end.

Inductive pool_step : relation (list (task W unit) * W) :=
| pool_resume i t t' ts w w' :
    ts !! i = Some t → resume t w = Some (t', w') → pool_step (ts, w) (<[i := t']> ts, w').

Definition task_done {A} (t : task W A) : bool := match t with Done _ => true | Segment _ _ => false end.

(** The pieces of a pool in a given order of its tasks; a task that is done stays as it is. *)
Fixpoint play (order : list nat) (p : list (task W unit) * W) : list (task W unit) * W :=
  match order with
  | [] => p
  | i :: order =>
      play order (match p.1 !! i ≫= λ t, resume t p.2 with
                  | Some (t', w') => (<[i := t']> p.1, w')
                  | None => p
                  end)
  end.

Lemma play_steps order p : rtc pool_step p (play order p).
Proof.
  revert p. induction order as [|i order IH]; intros [ts w]; [done|]. cbn [play fst snd].
  destruct (ts !! i) as [t|] eqn:Hi; cbn [mbind option_bind]; [|apply IH].
  destruct (resume t w) as [[t' w']|] eqn:Hr; [|apply IH].
  eapply rtc_l; [by eapply pool_resume|apply IH].
Qed.

Lemma play_app order1 order2 p : play (order1 ++ order2) p = play order2 (play order1 p).
Proof. revert p. induction order1 as [|i order1 IH]; intros p; [done|]. apply IH. Qed.

(** Playing one piece, of which it is known how it ends. *)
Lemma play_piece i order ts X (m : eff W X) k o w w' : ts !! i = Some (Segment m k) → m w = (o, w') →
  play (i :: order) (ts, w) = play order (<[i := k o]> ts, w').
Proof. intros Hi Hm. cbn [play fst snd]. rewrite Hi. cbn [mbind option_bind resume]. by rewrite Hm. Qed.

(** A pool can go on as long as some task of it is not done. *)
Lemma pool_progress ts w : Forall (λ t, task_done t = true) ts ∨ ∃ p, pool_step (ts, w) p.
Proof.
  destruct (decide (Forall (λ t, task_done t = true) ts)) as [Hd|Hd]; [by left|right].
  apply not_Forall_Exists, Exists_exists in Hd as (t & Ht & Hnd); [|apply _].
  apply list_elem_of_lookup in Ht as [i Hi]. destruct t as [o|X m k]; [by destruct Hnd|].
  destruct (m w) as [o w'] eqn:Hm. exists (<[i := k o]> ts, w'). eapply pool_resume; [exact Hi|].
  cbn. by rewrite Hm.
Qed.

(** ** Every interleaving ends *)

Definition later (t' t : task W unit) : Prop := ∃ w w', resume t w = Some (t', w').

Lemma later_acc t : Acc later t.
Proof.
  induction t as [o|X m k IH]; constructor; intros t' (w & w' & Hr); cbn in Hr; [done|].
  destruct (m w) as [o ?]. injection Hr as <- <-. apply IH.
Qed.

Definition pool_later (ts' ts : list (task W unit)) : Prop :=
  ∃ i t t', ts !! i = Some t ∧ later t' t ∧ ts' = <[i := t']> ts.

Lemma pool_later_acc ts : Acc pool_later ts.
Proof.
  induction ts as [|t ts IH]; [by constructor; intros ? (i & ? & ? & ? & ?)|].
  revert ts IH. induction (later_acc t) as [t _ IHt]. intros ts Hts. pose proof Hts as Hts0.
  induction Hts as [ts _ IHts]. constructor. intros ts' ([|i] & t1 & t1' & Hi & Hl & ->); cbn in *.
  - injection Hi as <-. apply IHt; [done|exact Hts0].
  - assert (pool_later (<[i := t1']> ts) ts) as Hp by by exists i, t1, t1'.
    apply IHts; [exact Hp|]. by apply (Acc_inv Hts0).
Qed.

Lemma pool_acc ts w : Acc (flip pool_step) (ts, w).
Proof.
  revert w. induction (pool_later_acc ts) as [ts _ IH]. intros w. constructor. intros [ts' w'] Hstep.
  unfold flip in Hstep. inversion Hstep as [i t t' ? ? ? Hi Hr]; subst. apply IH.
  exists i, t, t'. split_and!; [done| |done]. by exists w, w'.
Qed.

(** ** Invariants of every interleaving

    [within I Q t]: each piece of [t] keeps [I], whatever ran before it, and [t] ends in an
    outcome that satisfies [Q]. *)
Fixpoint within {A} (I : W → Prop) (Q : outcome A → Prop) (t : task W A) : Prop :=
  match t with
  | Done o => Q o
  | Segment m k => ∀ w, I w → I (m w).2 ∧ within I Q (k (m w).1)
  end.

(** The task returns, and what it returns satisfies [P]. *)
Definition returning {A} (P : A → Prop) (o : outcome A) : Prop :=
  match o with Return a => P a | Throw _ => False end.
(** What the task returns satisfies [P]; it may also throw. *)
Definition if_returned {A} (P : A → Prop) (o : outcome A) : Prop :=
  match o with Return a => P a | Throw _ => True end.

Section Within.
Context (I : W → Prop).

Lemma within_keeps {A} (m : eff W A) (P : A → Prop) : keeps I m P → within I (if_returned P) (atomic m).
Proof. intros Hm w Hw. destruct (Hm w Hw) as [? HP]. split; [done|]. cbn. destruct (m w).1; [by apply HP|done]. Qed.

Lemma within_bind {A B} (t : task W A) (f : A → task W B) R (Q : outcome B → Prop) :
  within I R t → (∀ a, R (Return a) → within I Q (f a)) → (∀ e, R (Throw e) → Q (Throw e)) →
  within I Q (t ≫= f).
Proof.
  intros Ht Hf He. induction t as [[a|e]|X m k IH]; cbn in *; [by apply Hf|by apply He|].
  intros w Hw. destruct (Ht w Hw) as [? ?]. split; [done|]. by apply IH.
Qed.

Lemma within_try {A} (t : task W A) h R (Q : outcome A → Prop) :
  within I R t → (∀ a, R (Return a) → Q (Return a)) → (∀ e, R (Throw e) → within I Q (h e)) →
  within I Q (task_try t h).
Proof.
  intros Ht Ha Hh. induction t as [[a|e]|X m k IH]; cbn in *; [by apply Ha|by apply Hh|].
  intros w Hw. destruct (Ht w Hw) as [? ?]. split; [done|]. by apply IH.
Qed.

(** Sequences of pieces that may throw. *)
Lemma within_done {A} (o : outcome A) (P : A → Prop) : if_returned P o → within I (if_returned P) (Done o).
Proof. done. Qed.
Lemma within_seq {A B} (t : task W A) (f : A → task W B) P (Q : B → Prop) :
  within I (if_returned P) t → (∀ a, P a → within I (if_returned Q) (f a)) → within I (if_returned Q) (t ≫= f).
Proof. intros Ht Hf. eapply within_bind; [exact Ht|exact Hf|done]. Qed.
Lemma within_catch {A} (t : task W A) h (P : A → Prop) :
  within I (if_returned P) t → (∀ e, within I (if_returned P) (h e)) → within I (if_returned P) (task_try t h).
Proof. intros Ht Hh. by eapply within_try. Qed.
Lemma within_attempt {A} (t : task W A) (P : A → Prop) :
  within I (if_returned P) t → within I (if_returned (if_returned P)) (task_attempt t).
Proof. intros Ht. apply within_catch; [|done]. eapply within_seq; [exact Ht|done]. Qed.

(** A task on its own keeps what its pieces keep. *)
Lemma within_run {A} (t : task W A) P : within I (if_returned P) t → keeps I (run_task t) P.
Proof.
  induction t as [o|X m k IH]; intros Ht w Hw.
  { split; [done|]. cbn in *. intros a ->. apply Ht. }
  destruct (Ht w Hw) as [Hw' Hk]. cbn [run_task]. destruct (m w) as [o w']. by apply IH.
Qed.

Lemma pool_keeps Q p p' : rtc pool_step p p' →
  I p.2 → Forall (within I Q) p.1 → I p'.2 ∧ Forall (within I Q) p'.1.
Proof.
  induction 1 as [p|p1 p2 p3 Hstep _ IH]; [done|]. intros Hw Hts.
  destruct Hstep as [i t t' ts w w' Hi Hr]. cbn in *. destruct t as [o|X m k]; [done|]. cbn in Hr.
  pose proof (Forall_lookup_1 _ _ _ _ Hts Hi w Hw) as [HI Hk]. destruct (m w) as [o w1]. injection Hr as <- <-.
  apply IH; [done|]. by apply Forall_insert.
Qed.
End Within.

(** ** Counters that every task of a pool owes its share of

    [owes Q d t]: the task is in the phase [d]; a piece that takes it to the phase [d'] moves every
    counter [i] from the share [share i d] to [share i d']; a task that ends does so in a phase that
    fits its outcome.  Whatever the order of the pieces, the counters are the sum of the shares. *)
Section Debts.
Context {D ι : Type} (next : relation D) (count : ι → W → Z) (share : ι → D → Z) (live : D → Prop).

Fixpoint owes {A} (Q : outcome A → D → Prop) (d : D) (t : task W A) : Prop :=
  match t with
  | Done o => Q o d
  | Segment m k => live d ∧ ∀ w, ∃ d', next d d' ∧ (∀ i, count i (m w).2 = count i w + share i d' - share i d)%Z ∧ owes Q d' (k (m w).1)
  end.

Lemma owes_bind {A B} (t : task W A) (f : A → task W B) R (Q : outcome B → D → Prop) d :
  owes R d t → (∀ a d', R (Return a) d' → owes Q d' (f a)) → (∀ e d', R (Throw e) d' → Q (Throw e) d') →
  owes Q d (t ≫= f).
Proof.
  intros Ht Hf He. revert d Ht. induction t as [[a|e]|X m k IH]; intros d Ht; cbn in *; [by apply Hf|by apply He|].
  destruct Ht as [Hl Ht]. split; [done|]. intros w. destruct (Ht w) as (d' & ? & ? & ?). exists d'. by split_and!; [| |apply IH].
Qed.
Lemma owes_try {A} (t : task W A) h R (Q : outcome A → D → Prop) d :
  owes R d t → (∀ a d', R (Return a) d' → Q (Return a) d') → (∀ e d', R (Throw e) d' → owes Q d' (h e)) →
  owes Q d (task_try t h).
Proof.
  intros Ht Ha Hh. revert d Ht. induction t as [[a|e]|X m k IH]; intros d Ht; cbn in *; [by apply Ha|by apply Hh|].
  destruct Ht as [Hl Ht]. split; [done|]. intros w. destruct (Ht w) as (d' & ? & ? & ?). exists d'. by split_and!; [| |apply IH].
Qed.
Lemma owes_piece {A} (m : eff W A) d d' : live d → next d d' →
  (∀ w i, count i (m w).2 = count i w + share i d' - share i d)%Z → owes (λ _ x, x = d') d (atomic m).
Proof. intros Hl Hn Hm. split; [done|]. intros w. exists d'. by split_and!. Qed.

(** A task of which no piece touches the counters. *)
Fixpoint aside {A} (t : task W A) : Prop :=
  match t with
  | Done _ => True
  | Segment m k => ∀ w, (∀ i, count i (m w).2 = count i w) ∧ aside (k (m w).1)
  end.
Lemma owes_aside {A} (t : task W A) d : next d d → live d → aside t → owes (λ _ x, x = d) d t.
Proof.
  intros Hn Hl Ht. induction t as [o|X m k IH]; [done|]. split; [done|]. intros w. destruct (Ht w) as [Hc Hk].
  exists d. split_and!; [done| |by apply IH]. intros i. rewrite Hc. lia.
Qed.

Fixpoint total (i : ι) (ds : list D) : Z := match ds with [] => 0 | d :: ds => share i d + total i ds end%Z.
Lemma total_insert i ds j d d' : ds !! j = Some d → total i (<[j := d']> ds) = (total i ds + share i d' - share i d)%Z.
Proof.
  revert j. induction ds as [|x ds IH]; intros [|j] Hj; cbn in *; [done..|by injection Hj as ->; lia|]. rewrite IH by done. lia.
Qed.

Lemma pool_owes Q p p' : rtc pool_step p p' → ∀ ds, Forall2 (owes Q) ds p.1 →
  ∃ ds', Forall2 (rtc next) ds ds' ∧ Forall2 (owes Q) ds' p'.1 ∧
    ∀ i, count i p'.2 = (count i p.2 + total i ds' - total i ds)%Z.
Proof.
  induction 1 as [p|p1 p2 p3 Hstep _ IH]; intros ds Hds.
  { by exists ds; split_and!; [|done|intros; lia]. }
  destruct Hstep as [j t t' ts w w' Hj Hr]. cbn [fst snd] in *. destruct t as [o|X m k]; [done|]. cbn in Hr.
  destruct (Forall2_lookup_r _ _ _ _ _ Hds Hj) as (d & Hd & Hl & Hm). destruct (Hm w) as (d' & Hn & Hc & Hk).
  destruct (m w) as [o w1]. injection Hr as <- <-. destruct (IH (<[j := d']> ds)) as (ds' & Hnext & Hds' & Hcount).
  { by apply Forall2_insert. }
  exists ds'. split_and!; [|done|].
  - trans (<[j := d']> ds); [|exact Hnext]. rewrite <-(list_insert_id ds j d) at 1 by done.
    by apply Forall2_insert; [|apply rtc_once].
  - intros i. rewrite Hcount, Hc, (total_insert i ds j d d') by done. lia.
Qed.
End Debts.

(** ** Phases of the tasks of a pool

    [Inv ds w]: the world fits the phases of the tasks.  [phased Q i d t]: the task, the [i]-th, is in
    the phase [d]; each of its pieces takes it to a phase [d'] that the world fits then, whatever
    the other tasks have done before, and it ends with an outcome that fits its phase. *)
Section Phases.
Context {D : Type} (Inv : list D → W → Prop).

Fixpoint phased {A} (Q : outcome A → D → Prop) (i : nat) (d : D) (t : task W A) : Prop :=
  match t with
  | Done o => Q o d
  | Segment m k => ∀ ds w, Inv ds w → ds !! i = Some d → ∃ d', Inv (<[i := d']> ds) (m w).2 ∧ phased Q i d' (k (m w).1)
  end.

Lemma phased_bind {A B} (t : task W A) (f : A → task W B) R (Q : outcome B → D → Prop) i d :
  phased R i d t → (∀ a d', R (Return a) d' → phased Q i d' (f a)) → (∀ e d', R (Throw e) d' → Q (Throw e) d') →
  phased Q i d (t ≫= f).
Proof.
  intros Ht Hf He. revert d Ht. induction t as [[a|e]|X m k IH]; intros d Ht; cbn in *; [by apply Hf|by apply He|].
  intros ds w Hw Hi. destruct (Ht ds w Hw Hi) as (d' & ? & ?). exists d'. split; [done|]. by apply IH.
Qed.
Lemma phased_try {A} (t : task W A) h R (Q : outcome A → D → Prop) i d :
  phased R i d t → (∀ a d', R (Return a) d' → Q (Return a) d') → (∀ e d', R (Throw e) d' → phased Q i d' (h e)) →
  phased Q i d (task_try t h).
Proof.
  intros Ht Ha Hh. revert d Ht. induction t as [[a|e]|X m k IH]; intros d Ht; cbn in *; [by apply Ha|by apply Hh|].
  intros ds w Hw Hi. destruct (Ht ds w Hw Hi) as (d' & ? & ?). exists d'. split; [done|]. by apply IH.
Qed.
(** A piece that returns. *)
Lemma phased_piece {A B} (m : eff W A) (f : A → task W B) P d' (Q : outcome B → D → Prop) i d :
  (∀ ds w, Inv ds w → ds !! i = Some d → ∃ a w', m w = (Return a, w') ∧ Inv (<[i := d']> ds) w' ∧ P a) →
  (∀ a, P a → phased Q i d' (f a)) → phased Q i d (atomic m ≫= f).
Proof.
  intros Hm Hf ds w Hw Hi. destruct (Hm ds w Hw Hi) as (a & w' & -> & ? & ?). exists d'. split; [done|]. by apply Hf.
Qed.
Lemma phased_last {A} (m : eff W A) P d' i d :
  (∀ ds w, Inv ds w → ds !! i = Some d → ∃ a w', m w = (Return a, w') ∧ Inv (<[i := d']> ds) w' ∧ P a) →
  phased (λ o x, returning P o ∧ x = d') i d (atomic m).
Proof. intros Hm ds w Hw Hi. destruct (Hm ds w Hw Hi) as (a & w' & -> & ? & ?). by exists d'. Qed.

Lemma pool_phased Q p p' : rtc pool_step p p' → ∀ ds, Inv ds p.2 →
  (∀ i t, p.1 !! i = Some t → ∃ d, ds !! i = Some d ∧ phased Q i d t) →
  ∃ ds', Inv ds' p'.2 ∧ ∀ i t, p'.1 !! i = Some t → ∃ d, ds' !! i = Some d ∧ phased Q i d t.
Proof.
  induction 1 as [p|p1 p2 p3 Hstep _ IH]; intros ds Hw Hts; [by exists ds|].
  destruct Hstep as [j t t' ts w w' Hj Hr]. cbn [fst snd] in *. destruct t as [o|X m k]; [done|]. cbn in Hr.
  destruct (Hts j _ Hj) as (d & Hd & Hm). destruct (Hm ds w Hw Hd) as (d' & Hw' & Hk).
  destruct (m w) as [o w1]. injection Hr as <- <-. destruct (IH (<[j := d']> ds) Hw') as (ds' & Hw2 & Hts'); [|by exists ds'].
  intros i t Hi. destruct (decide (i = j)) as [->|Hne].
  - rewrite list_lookup_insert_eq in Hi by (by eapply lookup_lt_Some). injection Hi as <-. exists d'. split; [|done].
    apply list_lookup_insert_eq. by eapply lookup_lt_Some.
  - rewrite list_lookup_insert_ne in Hi by done. destruct (Hts i t Hi) as (x & Hx & Hp). exists x. by rewrite list_lookup_insert_ne.
Qed.
End Phases.

(** ** A task of a pool on its own *)

Lemma run_alone ts i t w : ts !! i = Some t →
  rtc pool_step (ts, w) (<[i := Done (run_task t w).1]> ts, (run_task t w).2).
Proof.
  revert ts w. induction t as [o|X m k IH]; intros ts w Hi.
  - cbn. by rewrite list_insert_id.
  - cbn [run_task]. destruct (m w) as [o w'] eqn:Hm. eapply rtc_l.
    + eapply pool_resume; [exact Hi|]. cbn. by rewrite Hm.
    + pose proof (IH o (<[i := k o]> ts) w') as Hk. rewrite list_insert_insert_eq in Hk. apply Hk.
      apply list_lookup_insert_eq. by eapply lookup_lt_Some.
Qed.

(** Some order of the pieces runs the tasks one after the other. *)
Lemma run_in_order ts : ∀ done_ w, ∃ ts',
  rtc pool_step (done_ ++ ts, w) (done_ ++ ts', (foreach ts (λ t, attempt (run_task t) ;; mret tt) w).2) ∧
  Forall (λ t, task_done t = true) ts' ∧ length ts' = length ts.
Proof.
  induction ts as [|t ts IH]; intros done_ w.
  { exists []. split; [done|]. by split. }
  destruct (IH (done_ ++ [Done (run_task t w).1]) (run_task t w).2) as (ts' & Hrtc & Hd & Hl).
  exists (Done (run_task t w).1 :: ts'). split; [|split; [by constructor|cbn; by rewrite Hl]].
  etrans; [apply (run_alone _ (length done_) t); by rewrite lookup_app_r, Nat.sub_diag|].
  rewrite insert_app_r_alt, Nat.sub_diag by done. cbn [insert list_insert].
  rewrite <-!app_assoc in Hrtc. cbn [foreach].
  rewrite (bind_run _ _ w tt (run_task t w).2); [exact Hrtc|].
  rewrite (bind_run _ _ w (run_task t w).1 (run_task t w).2); [done|].
  unfold attempt. by destruct (run_task t w).
Qed.
End Tasks.

(** A task on its own against the method it was cut from: both have the same structure. *)
Ltac run_tac := repeat first
  [ rewrite run_atomic | done
  | rewrite run_bind; apply bind_ext; [|intros ? ?; cbv beta zeta]
  | rewrite run_try; apply try_ext; [|intros ? ?; cbv beta zeta]
  | match goal with |- context [bool_decide ?P] => destruct (bool_decide P) end
  | match goal with |- context [if ?b then _ else _] => destruct b end ].
