(* ===== verification/Json.v ===== *)
(** JavaScript values as the services handle them: the untyped [Record<string,
    any>] inputs and outputs, property access, [Object.keys] and
    [JSON.stringify] with a property list, and the calendar day of a [Date]. *)
From S2P Require Import Prelude.

(** Decimal fractions, by their sign, whole part and digits, of which there is one at least. *)
Inductive digit := D0 | D1 | D2 | D3 | D4 | D5 | D6 | D7 | D8 | D9.
Record decimal := mkDecimal { dec_negative : bool; dec_whole : N; dec_first : digit; dec_rest : list digit }.

(** Numbers are integers or decimal fractions here: the services only write and read them. *)
Inductive jsval : Type :=
| JUndefined
| JNull
| JBool (b : bool)
| JNumber (n : Z)
| JDecimal (d : decimal)
| JString (s : string)
| JArray (l : list jsval)
| JObject (fields : list (string * jsval))
| JPromise (v : jsval).

(** A [Record<string, any>]: its own properties, in insertion order. *)
Abbreviation jsobj := (list (string * jsval)).

(** ** Associations *)

Fixpoint assoc {A} (k : string) (l : list (string * A)) : option A :=
  match l with
  | [] => None
  | (k', v) :: l' => if bool_decide (k = k') then Some v else assoc k l'
  end.

(** [o[k] = v] *)
Fixpoint assoc_set {A} (k : string) (v : A) (l : list (string * A)) : list (string * A) :=
  match l with
  | [] => [(k, v)]
  | (k', v') :: l' => if bool_decide (k = k') then (k, v) :: l' else (k', v') :: assoc_set k v l'
  end.

(** [undefined], as a value. *)
Definition js_undefined (o : option jsval) : jsval := default JUndefined o.
(** A text that may be undefined, as a value. *)
Definition text_value (s : option string) : jsval := from_option JString JUndefined s.
(** [v.k], which throws on [null] and [undefined]. *)
Definition property (v : jsval) (k : string) : outcome jsval :=
  match v with
  | JObject o => Return (js_undefined (assoc k o))
  | JNull | JUndefined => Throw (TypeError ("Cannot read properties of null (reading '" +:+ k +:+ "')"))
  | _ => Return JUndefined
  end.

Lemma assoc_set_eq {A} k (v : A) l : assoc k (assoc_set k v l) = Some v.
Proof.
  induction l as [|[k' v'] l IH]; simpl; [by rewrite bool_decide_true|].
  destruct (bool_decide (k = k')) eqn:E; simpl; [by rewrite bool_decide_true|by rewrite E].
Qed.

Lemma assoc_set_ne {A} k k' (v : A) l : k ≠ k' → assoc k' (assoc_set k v l) = assoc k' l.
Proof.
  intros Hne. induction l as [|[k0 v0] l IH]; simpl.
  - by rewrite bool_decide_false.
  - destruct (bool_decide (k = k0)) eqn:E; simpl.
    + apply bool_decide_eq_true in E as <-. by rewrite bool_decide_false.
    + by rewrite IH.
Qed.

Lemma assoc_elem {A} k (v : A) l : NoDup l.*1 → (k, v) ∈ l ↔ assoc k l = Some v.
Proof.
  induction l as [|[k' v'] l IH]; intros Hnd; simpl; [set_solver|].
  apply NoDup_cons in Hnd as [Hk Hnd]. rewrite elem_of_cons, (IH Hnd).
  case_bool_decide as E; [|naive_solver].
  subst k'. split; [|naive_solver]. intros [?|H]; [by simplify_eq|].
  exfalso. apply Hk. apply IH in H; [|done]. by apply (list_elem_of_fmap_2 fst) in H.
Qed.

Lemma assoc_perm {A} k (l l' : list (string * A)) :
  NoDup l.*1 → l ≡ₚ l' → assoc k l = assoc k l'.
Proof.
  intros Hnd Hp. assert (NoDup l'.*1) by by rewrite <-Hp.
  apply option_eq. intros v. by rewrite <-!assoc_elem, Hp.
Qed.

Lemma assoc_map {A B} (f : A → B) k l :
  assoc k (map (λ '(k, v), (k, f v)) l) = f <$> assoc k l.
Proof. induction l as [|[k' v] l IH]; simpl; [done|]. by case_bool_decide. Qed.

(** ** Access *)

Definition truthy (v : jsval) : bool :=
  match v with
  | JUndefined | JNull => false
  | JBool b => b
  | JNumber n => negb (bool_decide (n = 0%Z))
  | JDecimal d => negb (bool_decide (dec_whole d = 0%N) && forallb (λ x, match x with D0 => true | _ => false end) (dec_first d :: dec_rest d))
  | JString s => negb (bool_decide (s = EmptyString))
  | JArray _ | JObject _ | JPromise _ => true
  end.

(** [Object.keys]; a promise has no own enumerable property. *)
Definition object_keys (v : jsval) : list string :=
  match v with
  | JObject o => o.*1
  | JArray l => pretty <$> seq 0 (length l)
  | JString s => pretty <$> seq 0 (String.length s)
  | _ => []
  end.

(** ** Strings *)

Definition chr (n : nat) : string := String (Ascii.ascii_of_nat n) EmptyString.
Definition dquote : string := chr 34.
Definition backslash : string := chr 92.

Definition hex_digit (n : nat) : string :=
  if bool_decide (n < 10) then chr (48 + n) else chr (87 + n).

Definition escape_char (a : Ascii.ascii) : string :=
  match Ascii.nat_of_ascii a with
  | 34 => backslash +:+ dquote
  | 92 => backslash +:+ backslash
  | 8 => backslash +:+ "b"
  | 9 => backslash +:+ "t"
  | 10 => backslash +:+ "n"
  | 12 => backslash +:+ "f"
  | 13 => backslash +:+ "r"
  | n => if bool_decide (n < 32)
         then backslash +:+ "u00" +:+ hex_digit (n / 16) +:+ hex_digit (n mod 16)
         else String a EmptyString
  end.

Fixpoint escape (s : string) : string :=
  match s with EmptyString => EmptyString | String a s' => escape_char a +:+ escape s' end.

Definition quote (s : string) : string := dquote +:+ escape s +:+ dquote.

Lemma string_app_cons a (s t : string) : String a s +:+ t = String a (s +:+ t).
Proof. done. Qed.
Lemma string_app_nil_r (s : string) : s +:+ EmptyString = s.
Proof. induction s as [|a s IH]; [done|]. by rewrite string_app_cons, IH. Qed.
Lemma string_app_assoc (s1 s2 s3 : string) : s1 +:+ (s2 +:+ s3) = (s1 +:+ s2) +:+ s3.
Proof. induction s1 as [|a s IH]; [done|]. by rewrite !string_app_cons, IH. Qed.

Lemma string_length_app (s t : string) : String.length (s +:+ t) = (String.length s + String.length t)%nat.
Proof. induction s as [|a s IH]; [done|]. rewrite string_app_cons. cbn. by rewrite IH. Qed.
Lemma app_inj_l (s t u : string) : s +:+ t = s +:+ u → t = u.
Proof. induction s as [|a s IH]; [done|]. rewrite !string_app_cons. by intros [= ?%IH]. Qed.

(** ** Fractions *)

Definition digit_text (d : digit) : string :=
  match d with D0 => "0" | D1 => "1" | D2 => "2" | D3 => "3" | D4 => "4" | D5 => "5" | D6 => "6" | D7 => "7" | D8 => "8" | D9 => "9" end.
Fixpoint digits_text (l : list digit) : string :=
  match l with [] => EmptyString | d :: l => digit_text d +:+ digits_text l end.
Definition decimal_text (d : decimal) : string :=
  (if dec_negative d then "-" else EmptyString) +:+ pretty (dec_whole d) +:+ "." +:+ digits_text (dec_first d :: dec_rest d).

Fixpoint join (sep : string) (l : list string) : string :=
  match l with [] => EmptyString | [s] => s | s :: l' => s +:+ sep +:+ join sep l' end.

(** [s.split(c)] for a one-character separator. *)
Fixpoint split_go (c : Ascii.ascii) (cur : string) (s : string) : list string :=
  match s with
  | EmptyString => [cur]
  | String a s' =>
      if bool_decide (a = c) then cur :: split_go c EmptyString s'
      else split_go c (cur +:+ String a EmptyString) s'
  end.
Definition split_on (c : Ascii.ascii) (s : string) : list string := split_go c EmptyString s.

Fixpoint free_of (c : Ascii.ascii) (s : string) : bool :=
  match s with EmptyString => true | String a s' => negb (bool_decide (a = c)) && free_of c s' end.

Lemma split_go_free c s cur : free_of c s = true → split_go c cur s = [cur +:+ s].
Proof.
  revert cur; induction s as [|a s IH]; simpl; intros cur Hs; [by rewrite string_app_nil_r|].
  apply andb_true_iff in Hs as [Ha Hs]. apply negb_true_iff in Ha. rewrite Ha, IH by done.
  by rewrite <-string_app_assoc.
Qed.

Lemma split_go_cons c s cur rest : free_of c s = true →
  split_go c cur (s +:+ String c rest) = (cur +:+ s) :: split_go c EmptyString rest.
Proof.
  revert cur; induction s as [|a s IH]; simpl; intros cur Hs.
  - rewrite string_app_nil_r. by rewrite bool_decide_eq_true_2.
  - apply andb_true_iff in Hs as [Ha Hs]. apply negb_true_iff in Ha.
    rewrite Ha, IH by done. by rewrite <-string_app_assoc.
Qed.

(** The last separator of a text is where what follows is free of it. *)
Lemma free_not_last c (s x : string) : free_of c (s +:+ String c x) = false.
Proof.
  induction s as [|a s IH]; [change (EmptyString +:+ ?t) with t|rewrite string_app_cons]; cbn [free_of].
  - by rewrite bool_decide_eq_true_2.
  - by rewrite IH, andb_false_r.
Qed.
Lemma last_separator c (s t x y : string) : free_of c x = true → free_of c y = true →
  s +:+ String c x = t +:+ String c y → s = t ∧ x = y.
Proof.
  intros Hx Hy. revert t. induction s as [|a s IH]; intros [|b t]; rewrite ?string_app_cons; change (EmptyString +:+ ?t) with t.
  - by intros [= ->].
  - intros [= <- Heq]. by rewrite Heq, free_not_last in Hx.
  - intros [= -> Heq]. by rewrite <-Heq, free_not_last in Hy.
  - intros [= -> Heq]. by destruct (IH t Heq) as [-> ->].
Qed.

(** How a text ends. *)
Lemma ending_in (s t x y : string) : s +:+ x = t +:+ y → (String.length y ≤ String.length x)%nat → ∃ z, x = z +:+ y.
Proof.
  revert t. induction s as [|a s IH]; intros t Heq Hl; [by exists t|].
  destruct t as [|b t].
  - change (EmptyString +:+ y) with y in Heq. subst y. rewrite string_app_cons in Hl. cbn in Hl. rewrite string_length_app in Hl. lia.
  - rewrite !string_app_cons in Heq. injection Heq as _ Heq. by apply (IH t).
Qed.
Lemma same_length_ending (s t x y : string) : s +:+ x = t +:+ y → String.length x = String.length y → x = y.
Proof. intros Heq Hl. destruct (ending_in _ _ _ _ Heq ltac:(lia)) as [[|a z] ->]; [done|]. rewrite string_length_app in Hl. cbn in Hl. lia. Qed.

Fixpoint all_chars (P : Ascii.ascii → bool) (s : string) : bool :=
  match s with EmptyString => true | String a s => P a && all_chars P s end.
Lemma all_chars_app P s t : all_chars P (s +:+ t) = all_chars P s && all_chars P t.
Proof. induction s as [|a s IH]; [done|]. rewrite string_app_cons. cbn [all_chars]. by rewrite IH, andb_assoc. Qed.

(** The digit of a number below ten. *)
Definition digit_for (n : Z) : digit :=
  match n with 1 => D1 | 2 => D2 | 3 => D3 | 4 => D4 | 5 => D5 | 6 => D6 | 7 => D7 | 8 => D8 | 9 => D9 | _ => D0 end%Z.

(** [s.replace(/-/g, '')] *)
Fixpoint remove_dashes (s : string) : string :=
  match s with
  | EmptyString => EmptyString
  | String a s' => if bool_decide (a = Ascii.ascii_of_nat 45) then remove_dashes s' else String a (remove_dashes s')
  end.

(** ** [JSON.stringify(v, allow)]

    With a list as its second argument, [JSON.stringify] writes, for every
    object it meets at whatever depth, the properties named by the list, in
    the order of the list.  [None] stands for [undefined]. *)
Section Stringify.
Context (allow : list string).

Definition print_field (ser : list (string * option string)) (k : string) : option string :=
  s ← mjoin (assoc k ser); Some (quote k +:+ ":" +:+ s).

Definition print_object (ser : list (string * option string)) : string :=
  "{" +:+ join "," (omap (print_field ser) allow) +:+ "}".

Fixpoint stringify (v : jsval) : option string :=
  match v with
  | JUndefined => None
  | JNull => Some "null"
  | JBool b => Some (if b then "true" else "false")
  | JNumber n => Some (pretty n)
  | JDecimal d => Some (decimal_text d)
  | JString s => Some (quote s)
  | JArray l => Some ("[" +:+ join "," (map (λ v, default "null" (stringify v)) l) +:+ "]")
  | JObject o => Some (print_object (map (λ '(k, v), (k, stringify v)) o))
  | JPromise _ => Some "{}"
  end.
End Stringify.

(** [JSON.stringify(v)]: every property that is not undefined, in order. *)
Fixpoint json_text (v : jsval) : option string :=
  match v with
  | JUndefined => None
  | JNull => Some "null"
  | JBool b => Some (if b then "true" else "false")
  | JNumber n => Some (pretty n)
  | JDecimal d => Some (decimal_text d)
  | JString s => Some (quote s)
  | JArray l => Some ("[" +:+ join "," (map (λ v, default "null" (json_text v)) l) +:+ "]")
  | JObject o => Some ("{" +:+ join "," (omap (λ '(k, s), (λ s, quote k +:+ ":" +:+ s) <$> s)
                                           (map (λ '(k, v), (k, json_text v)) o)) +:+ "}")
  | JPromise _ => Some "{}"
  end.

Lemma print_object_ext allow ser ser' :
  (∀ k, k ∈ allow → assoc k ser = assoc k ser') → print_object allow ser = print_object allow ser'.
Proof.
  intros H. unfold print_object. do 3 f_equal.
  induction allow as [|k l IH]; [done|].
  assert (print_field ser k = print_field ser' k) as Hk.
  { unfold print_field. by rewrite H by by left. }
  cbn. rewrite Hk. destruct (print_field ser' k); [f_equal|];
    apply IH; intros k' ?; apply H; by right.
Qed.

(** Property names in the order of [Array.prototype.sort()]. *)
Definition sort_strings (l : list string) : list string := merge_sort String.le l.

Lemma sort_strings_perm l l' : l ≡ₚ l' → sort_strings l = sort_strings l'.
Proof.
  intros H. apply (StronglySorted_unique String.le).
  - apply (StronglySorted_merge_sort String.le).
  - apply (StronglySorted_merge_sort String.le).
  - unfold sort_strings. by rewrite !merge_sort_Permutation.
Qed.

(** ** Case and blanks

    [s.toLowerCase()], [s.toUpperCase()] and [s.trim()] on the characters of ASCII. *)
Definition lower_char (a : Ascii.ascii) : Ascii.ascii :=
  let n := Ascii.nat_of_ascii a in if bool_decide (65 ≤ n ≤ 90)%nat then Ascii.ascii_of_nat (n + 32) else a.
Fixpoint toLowerCase (s : string) : string :=
  match s with EmptyString => EmptyString | String a s => String (lower_char a) (toLowerCase s) end.
Definition upper_char (a : Ascii.ascii) : Ascii.ascii :=
  let n := Ascii.nat_of_ascii a in if bool_decide (97 ≤ n ≤ 122)%nat then Ascii.ascii_of_nat (n - 32) else a.
Fixpoint toUpperCase (s : string) : string :=
  match s with EmptyString => EmptyString | String a s => String (upper_char a) (toUpperCase s) end.
Definition blank (a : Ascii.ascii) : bool := let n := Ascii.nat_of_ascii a in bool_decide (n = 32 ∨ 9 ≤ n ≤ 13)%nat.
Fixpoint trim_start (s : string) : string :=
  match s with String a s' => if blank a then trim_start s' else s | EmptyString => EmptyString end.
Fixpoint trim_end (s : string) : string :=
  match s with
  | EmptyString => EmptyString
  | String a s => match trim_end s with EmptyString => if blank a then EmptyString else String a EmptyString | t => String a t end
  end.
Definition trim (s : string) : string := trim_end (trim_start s).

(** ** Calendar

    [new Date(t).toISOString().split('T')[0]]: the UTC day of a time in
    milliseconds, by the civil-from-days algorithm on the proleptic Gregorian
    calendar. *)
Definition civil_from_days (days : Z) : Z * Z * Z :=
  let z := (days + 719468)%Z in
  let era := (z / 146097)%Z in
  let doe := (z mod 146097)%Z in
  let yoe := ((doe - doe / 1460 + doe / 36524 - doe / 146096) / 365)%Z in
  let doy := (doe - (365 * yoe + yoe / 4 - yoe / 100))%Z in
  let mp := ((5 * doy + 2) / 153)%Z in
  let d := (doy - (153 * mp + 2) / 5 + 1)%Z in
  let m := if bool_decide (mp < 10)%Z then (mp + 3)%Z else (mp - 9)%Z in
  let y := (yoe + era * 400 + (if bool_decide (m ≤ 2)%Z then 1 else 0))%Z in
  (y, m, d).

Definition pad2 (n : Z) : string := (if bool_decide (n < 10)%Z then "0" else "") +:+ pretty n.

Definition iso_day (t : Z) : string :=
  let '(y, m, d) := civil_from_days (t / ms_per_day) in
  pretty y +:+ "-" +:+ pad2 m +:+ "-" +:+ pad2 d.

(** [new Date(t).toISOString()] *)
Definition pad3 (n : Z) : string := (if bool_decide (n < 100)%Z then "0" else "") +:+ pad2 n.
Definition iso_time (t : Z) : string :=
  let ms := (t mod ms_per_day)%Z in
  iso_day t +:+ "T" +:+ pad2 (ms / 3600000) +:+ ":" +:+ pad2 (ms / 60000 mod 60) +:+ ":" +:+
  pad2 (ms / 1000 mod 60) +:+ "." +:+ pad3 (ms mod 1000) +:+ "Z".

Example iso_day_epoch : iso_day 0 = "1970-01-01".
Proof. reflexivity. Qed.
Example iso_day_leap : iso_day 1709251199999 = "2024-02-29".
Proof. vm_compute. reflexivity. Qed.
Example iso_time_leap : iso_time 1709251199999 = "2024-02-29T23:59:59.999Z".
Proof. vm_compute. reflexivity. Qed.
Example json_text_nested : json_text (JObject [("a", JArray [JNull; JUndefined]); ("b", JUndefined)]) =
  Some ("{" +:+ quote "a" +:+ ":[null,null]}").
Proof. vm_compute. reflexivity. Qed.
