(* ===== verification/JsonParse.v ===== *)
(** Reading texts back: decimal numbers, [parseInt], [JSON.parse] on the texts that
    [JSON.stringify] writes, and [new Date(text)] on the texts that [toISOString] writes. *)
From S2P Require Import Prelude Json.
From Stdlib Require Import Ascii.
Open Scope nat_scope.

(** * Decimal numbers *)

Definition digit_of (a : ascii) : option N :=
  let n := N_of_ascii a in if bool_decide (48 ≤ n ∧ n < 58)%N then Some (n - 48)%N else None.

(** The digits at the front of a text, after a number that was read before. *)
Fixpoint read_digits (acc : N) (s : string) : N * string :=
  match s with
  | EmptyString => (acc, EmptyString)
  | String a s' => match digit_of a with
                   | Some d => read_digits (acc * 10 + d)%N s'
                   | None => (acc, s)
                   end
  end.

Definition starts_with_digit (s : string) : bool :=
  match s with String a _ => bool_decide (is_Some (digit_of a)) | EmptyString => false end.

(** A number at the front of a text, a sign and at least one digit. *)
Definition read_int (s : string) : option (Z * string) :=
  match s with
  | String a s' =>
      if bool_decide (a = "-"%char) then
        if starts_with_digit s' then let '(n, r) := read_digits 0 s' in Some (- Z.of_N n, r)%Z else None
      else if starts_with_digit s then let '(n, r) := read_digits 0 s in Some (Z.of_N n, r) else None
  | EmptyString => None
  end.

(** [parseInt(s, 10)] for a text without leading blanks; [None] stands for [NaN]. *)
Definition parseInt (s : string) : option Z := fst <$> read_int s.

(** A text that is a number as a whole. *)
Definition int_of_text (s : string) : option Z :=
  match read_int s with Some (z, EmptyString) => Some z | _ => None end.

Lemma digit_of_char n : (n < 10)%N → digit_of (pretty_N_char n) = Some n.
Proof.
  intros Hn. assert (n = 0 ∨ n = 1 ∨ n = 2 ∨ n = 3 ∨ n = 4 ∨ n = 5 ∨ n = 6 ∨ n = 7 ∨ n = 8 ∨ n = 9)%N as H by lia.
  by repeat destruct H as [->|H]; [..|subst].
Qed.

Lemma read_pretty_go n s : read_digits 0 (pretty_N_go n s) = read_digits n s.
Proof.
  revert s. induction (N.lt_wf_0 n) as [n _ IH]. intros s. destruct (decide (n = 0)%N) as [->|Hn]; [by rewrite pretty_N_go_0|].
  rewrite pretty_N_go_step by lia. rewrite IH by (apply N.div_lt; lia). cbn [read_digits].
  rewrite digit_of_char by (by apply N.mod_lt). f_equal. rewrite (N.div_mod n 10) at 3 by done. lia.
Qed.

Lemma read_pretty_N (n : N) rest : starts_with_digit rest = false → read_digits 0 (pretty n +:+ rest) = (n, rest).
Proof.
  intros Hr. assert (∀ acc s, read_digits acc (s +:+ rest) = let '(m, r) := read_digits acc s in
      if bool_decide (r = EmptyString) then read_digits m rest else (m, r +:+ rest)) as Happ.
  { intros acc s. revert acc. induction s as [|a s IH]; intros acc; [done|].
    rewrite string_app_cons. cbn [read_digits]. destruct (digit_of a); [apply IH|].
    by rewrite bool_decide_eq_false_2. }
  assert (∀ m, read_digits m rest = (m, rest)) as Hrest.
  { intros m. destruct rest as [|a rest]; [done|]. apply bool_decide_eq_false in Hr. cbn [read_digits].
    destruct (digit_of a); [|done]. by destruct Hr. }
  rewrite Happ. assert (read_digits 0 (pretty n) = (n, EmptyString)) as ->.
  { unfold pretty, pretty_N. case_decide; [by subst|]. by rewrite read_pretty_go. }
  rewrite bool_decide_eq_true_2 by done. apply Hrest.
Qed.

Lemma pretty_digit_first (n : N) : ∃ a s, pretty n = String a s ∧ is_Some (digit_of a).
Proof.
  unfold pretty, pretty_N. case_decide as Hn; [eexists _, _; split; [done|by eexists]|].
  assert (∀ m s, (m ≠ 0)%N → ∃ a t, pretty_N_go m s = String a t ∧ is_Some (digit_of a)) as H; [|by apply H].
  intros m. induction (N.lt_wf_0 m) as [m _ IH]. intros s Hm. rewrite pretty_N_go_step by lia.
  destruct (decide (m / 10 = 0)%N) as [Hd|Hd]; [|apply IH; [apply N.div_lt; lia|done]].
  rewrite Hd, pretty_N_go_0. eexists _, _. split; [done|]. rewrite digit_of_char; [by eexists|by apply N.mod_lt].
Qed.

Lemma pretty_Z_spec z :
  pretty z = (if bool_decide (z < 0)%Z then "-" else EmptyString) +:+ pretty (Z.abs_N z).
Proof. by destruct z. Qed.

Lemma starts_pretty_N (n : N) rest : starts_with_digit (pretty n +:+ rest) = true.
Proof. destruct (pretty_digit_first n) as (a & s & -> & Ha). cbn. by apply bool_decide_eq_true. Qed.

Lemma read_int_pretty z rest : starts_with_digit rest = false → read_int (pretty z +:+ rest) = Some (z, rest).
Proof.
  intros Hr. rewrite pretty_Z_spec. case_bool_decide as Hz.
  - rewrite <-string_app_assoc, string_app_cons. unfold read_int. rewrite bool_decide_eq_true_2 by done.
    change (EmptyString +:+ (pretty (Z.abs_N z) +:+ rest)) with (pretty (Z.abs_N z) +:+ rest).
    rewrite starts_pretty_N, read_pretty_N by done. do 2 f_equal. lia.
  - change (EmptyString +:+ pretty (Z.abs_N z)) with (pretty (Z.abs_N z)).
    pose proof (starts_pretty_N (Z.abs_N z) rest) as Hs. pose proof (read_pretty_N (Z.abs_N z) rest Hr) as Hd.
    destruct (pretty_digit_first (Z.abs_N z)) as (a & s & Heq & Ha). rewrite Heq, string_app_cons in *. unfold read_int.
    rewrite bool_decide_eq_false_2, Hs, Hd; [do 2 f_equal; lia|]. intros ->. by destruct Ha.
Qed.

Lemma read_int_signed (neg : bool) (n : N) rest : starts_with_digit rest = false →
  read_int ((if neg then "-" else EmptyString) +:+ pretty n +:+ rest) = Some (if neg then - Z.of_N n else Z.of_N n, rest)%Z.
Proof.
  intros Hr. destruct neg.
  - rewrite string_app_cons. unfold read_int. rewrite bool_decide_eq_true_2 by done. change (EmptyString +:+ ?x) with x.
    by rewrite starts_pretty_N, read_pretty_N.
  - change (EmptyString +:+ ?x) with x. rewrite <-(read_int_pretty (Z.of_N n) rest Hr). by destruct n.
Qed.

Lemma parseInt_pretty z : parseInt (pretty z) = Some z.
Proof. unfold parseInt. rewrite <-(string_app_nil_r (pretty z)). by rewrite read_int_pretty. Qed.
Lemma int_of_text_pretty z : int_of_text (pretty z) = Some z.
Proof. unfold int_of_text. rewrite <-(string_app_nil_r (pretty z)). by rewrite read_int_pretty. Qed.
(** No number contains a character that is neither a digit nor the sign. *)
Lemma free_digits c n s : digit_of c = None → free_of c s = true → free_of c (pretty_N_go n s) = true.
Proof.
  intros Hc. revert s. induction (N.lt_wf_0 n) as [n _ IH]. intros s Hs.
  destruct (decide (n = 0)%N) as [->|Hn]; [by rewrite pretty_N_go_0|].
  rewrite pretty_N_go_step by lia. apply IH; [apply N.div_lt; lia|]. cbn [free_of]. rewrite Hs, andb_true_r.
  rewrite bool_decide_eq_false_2; [done|]. intros <-. rewrite digit_of_char in Hc by by apply N.mod_lt. done.
Qed.
Lemma free_pretty c (z : Z) : digit_of c = None → c ≠ "-"%char → free_of c (pretty z) = true.
Proof.
  intros Hc Hsign. assert (∀ n : N, free_of c (pretty n) = true) as Hn.
  { intros n. unfold pretty, pretty_N. case_decide; [|by apply free_digits]. cbn [free_of]. rewrite andb_true_r.
    rewrite bool_decide_eq_false_2; [done|]. by intros <-. }
  rewrite pretty_Z_spec. case_bool_decide; [|apply Hn]. change ("-" +:+ ?x) with (String "-"%char x). cbn [free_of].
  rewrite Hn, andb_true_r. rewrite bool_decide_eq_false_2; [done|]. by intros <-.
Qed.
Lemma pretty_Z_nonempty (z : Z) : pretty z ≠ EmptyString.
Proof. intros H. pose proof (parseInt_pretty z) as Hp. by rewrite H in Hp. Qed.

(** ** Fractions *)

Definition digit_value (a : ascii) : option digit :=
  match nat_of_ascii a with
  | 48 => Some D0 | 49 => Some D1 | 50 => Some D2 | 51 => Some D3 | 52 => Some D4
  | 53 => Some D5 | 54 => Some D6 | 55 => Some D7 | 56 => Some D8 | 57 => Some D9
  | _ => None
  end.
Fixpoint read_fraction (s : string) : list digit * string :=
  match s with
  | String a s' => match digit_value a with
                   | Some d => let '(ds, r) := read_fraction s' in (d :: ds, r)
                   | None => ([], s)
                   end
  | EmptyString => ([], s)
  end.
(** An integer, or a fraction where a point and a digit follow. *)
Definition read_number (s : string) : option (jsval * string) :=
  '(z, r) ← read_int s;
  match r with
  | String p (String a r') =>
      match digit_value a with
      | Some d =>
          if bool_decide (p = "."%char) then
            let '(ds, r'') := read_fraction r' in
            Some (JDecimal (mkDecimal (String.prefix "-" s) (Z.abs_N z) d ds), r'')
          else Some (JNumber z, r)
      | None => Some (JNumber z, r)
      end
  | _ => Some (JNumber z, r)
  end.

(** What can follow a number. *)
Definition ends_number (s : string) : bool :=
  negb (starts_with_digit s) && match s with String a _ => negb (bool_decide (a = "."%char)) | EmptyString => true end.

Lemma digit_value_none a : digit_of a = None → digit_value a = None.
Proof. by destruct a as [[] [] [] [] [] [] [] []]. Qed.
Lemma read_fraction_text ds rest : starts_with_digit rest = false → read_fraction (digits_text ds +:+ rest) = (ds, rest).
Proof.
  intros Hr. induction ds as [|d ds IH]; cbn [digits_text].
  - change (EmptyString +:+ rest) with rest. destruct rest as [|a rest]; [done|]. cbn [read_fraction].
    rewrite digit_value_none; [done|]. cbn in Hr. apply bool_decide_eq_false in Hr. destruct (digit_of a); [by destruct Hr|done].
  - rewrite <-string_app_assoc. destruct d; cbn [digit_text]; rewrite string_app_cons; cbn [read_fraction digit_value];
      change (EmptyString +:+ ?x) with x; cbv [nat_of_ascii N_of_ascii N_of_digits N.to_nat]; cbn; by rewrite IH.
Qed.

(** * JSON *)

Definition quote_mark : ascii := ascii_of_nat 34.
Definition escape_mark : ascii := ascii_of_nat 92.

Definition hex_value (a : ascii) : option nat :=
  let n := nat_of_ascii a in
  if bool_decide (48 ≤ n ∧ n < 58) then Some (n - 48)
  else if bool_decide (97 ≤ n ∧ n < 103) then Some (n - 87) else None.

(** The characters that follow a backslash, but for [u]. *)
Definition unescape (a : ascii) : option ascii :=
  match nat_of_ascii a with
  | 34 | 47 | 92 => Some a
  | 98 => Some (ascii_of_nat 8)
  | 116 => Some (ascii_of_nat 9)
  | 110 => Some (ascii_of_nat 10)
  | 102 => Some (ascii_of_nat 12)
  | 114 => Some (ascii_of_nat 13)
  | _ => None
  end.

(** The rest of a string after its opening quote. *)
Fixpoint read_string (s : string) : option (string * string) :=
  match s with
  | EmptyString => None
  | String a s1 =>
      if bool_decide (a = quote_mark) then Some (EmptyString, s1)
      else if bool_decide (a = escape_mark) then
        match s1 with
        | String e s2 =>
            if bool_decide (e = "u"%char) then
              match s2 with
              | String z1 (String z2 (String h (String l s3))) =>
                  h ← hex_value h; l ← hex_value l;
                  if bool_decide (z1 = "0"%char ∧ z2 = "0"%char) then
                    '(t, r) ← read_string s3; Some (String (ascii_of_nat (16 * h + l)) t, r)
                  else None
              | _ => None
              end
            else c ← unescape e; '(t, r) ← read_string s2; Some (String c t, r)
        | EmptyString => None
        end
      else '(t, r) ← read_string s1; Some (String a t, r)
  end.

(** Elements up to a closing bracket, the first of which has to be there. *)
Fixpoint read_seq {A} (read : string → option (A * string)) (close : ascii) (n : nat) (s : string) : option (list A * string) :=
  match n with
  | 0 => None
  | S n =>
      '(x, r) ← read s;
      match r with
      | String c r' =>
          if bool_decide (c = close) then Some ([x], r')
          else if bool_decide (c = ","%char) then '(l, r'') ← read_seq read close n r'; Some (x :: l, r'')
          else None
      | EmptyString => None
      end
  end.
Definition read_list {A} (read : string → option (A * string)) (close : ascii) (n : nat) (s : string) : option (list A * string) :=
  match s with
  | String c r => if bool_decide (c = close) then Some ([], r) else read_seq read close n s
  | EmptyString => None
  end.

Definition read_field (read : string → option (jsval * string)) (s : string) : option ((string * jsval) * string) :=
  match s with
  | String a s1 =>
      if bool_decide (a = quote_mark) then
        '(k, r) ← read_string s1;
        match r with
        | String c r' => if bool_decide (c = ":"%char) then '(v, r'') ← read r'; Some ((k, v), r'') else None
        | EmptyString => None
        end
      else None
  | EmptyString => None
  end.

(** The text after a literal. *)
Fixpoint strip (lit s : string) : option string :=
  match lit, s with
  | EmptyString, _ => Some s
  | String a lit', String b s' => if bool_decide (a = b) then strip lit' s' else None
  | _, EmptyString => None
  end.

(** A value at the front of a text without blanks; the fuel bounds its depth and the length of its
    lists. *)
Fixpoint read_value (n : nat) (s : string) : option (jsval * string) :=
  match n, s with
  | S n, String a r =>
      if bool_decide (a = "n"%char) then r' ← strip "null" s; Some (JNull, r')
      else if bool_decide (a = "t"%char) then r' ← strip "true" s; Some (JBool true, r')
      else if bool_decide (a = "f"%char) then r' ← strip "false" s; Some (JBool false, r')
      else if bool_decide (a = "["%char) then '(l, r') ← read_list (read_value n) "]" n r; Some (JArray l, r')
      else if bool_decide (a = "{"%char) then '(l, r') ← read_list (read_field (read_value n)) "}" n r; Some (JObject l, r')
      else if bool_decide (a = quote_mark) then '(t, r') ← read_string r; Some (JString t, r')
      else read_number s
  | _, _ => None
  end.

(** [JSON.parse(s)], which throws a SyntaxError on a text that is no value. *)
Definition JSON_parse (s : string) : outcome jsval :=
  match read_value (String.length s) s with
  | Some (v, EmptyString) => Return v
  | _ => Throw (Exn "SyntaxError" "Unexpected token in JSON")
  end.

(** What is left of a value in its text: no [undefined], promises without properties. *)
Fixpoint json_value (v : jsval) : option jsval :=
  match v with
  | JUndefined => None
  | JArray l => Some (JArray (map (λ v, default JNull (json_value v)) l))
  | JObject o => Some (JObject (omap (λ '(k, v), (λ v, (k, v)) <$> v) (map (λ '(k, v), (k, json_value v)) o)))
  | JPromise _ => Some (JObject [])
  | v => Some v
  end.

(** ** What is written can be read *)

Section JsvalInd.
Context (P : jsval → Prop).
Context (Hu : P JUndefined) (Hn : P JNull) (Hb : ∀ b, P (JBool b)) (Hz : ∀ n, P (JNumber n)) (Hd : ∀ d, P (JDecimal d)) (Hs : ∀ s, P (JString s)).
Context (Ha : ∀ l, Forall P l → P (JArray l)) (Ho : ∀ o, Forall (λ kv, P kv.2) o → P (JObject o)) (Hp : ∀ v, P (JPromise v)).

Fixpoint jsval_nested_ind (v : jsval) : P v :=
  match v with
  | JUndefined => Hu | JNull => Hn | JBool b => Hb b | JNumber n => Hz n | JDecimal d => Hd d | JString s => Hs s
  | JArray l => Ha l ((fix go l : Forall P l := match l with
      | [] => Forall_nil_2 _ | v :: l => Forall_cons_2 _ _ _ (jsval_nested_ind v) (go l) end) l)
  | JObject o => Ho o ((fix go o : Forall (λ kv, P kv.2) o := match o with
      | [] => Forall_nil_2 _ | kv :: o => Forall_cons_2 _ kv _ (jsval_nested_ind kv.2) (go o) end) o)
  | JPromise v => Hp v
  end.
End JsvalInd.

Lemma escape_char_cases a :
  (escape_char a = String a EmptyString ∧ a ≠ quote_mark ∧ a ≠ escape_mark) ∨
  (∃ e, escape_char a = String escape_mark (String e EmptyString) ∧ e ≠ "u"%char ∧ unescape e = Some a) ∨
  (∃ h l x y, escape_char a = String escape_mark (String "u" (String "0" (String "0" (String h (String l EmptyString))))) ∧
    hex_value h = Some x ∧ hex_value l = Some y ∧ a = ascii_of_nat (16 * x + y)).
Proof.
  destruct a as [[] [] [] [] [] [] [] []];
    first [ left; split_and!; [reflexivity|discriminate|discriminate]
          | right; left; eexists; split_and!; [reflexivity|discriminate|reflexivity]
          | right; right; do 4 eexists; split_and!; [reflexivity|reflexivity|reflexivity|reflexivity] ].
Qed.

Lemma read_string_escape s rest : read_string (escape s +:+ String quote_mark rest) = Some (s, rest).
Proof.
  induction s as [|a s IH]; [done|]. cbn [escape]. rewrite <-string_app_assoc.
  destruct (escape_char_cases a) as [(-> & ? & ?)|[(e & -> & ? & He)|(h & l & x & y & -> & Hh & Hl & ->)]];
    rewrite !string_app_cons; cbn [read_string].
  - do 2 rewrite bool_decide_eq_false_2 by done. change (EmptyString +:+ ?x) with x. by rewrite IH.
  - rewrite bool_decide_eq_false_2, bool_decide_eq_true_2, bool_decide_eq_false_2, He by done.
    change (EmptyString +:+ ?x) with x. cbn. by rewrite IH.
  - rewrite bool_decide_eq_false_2, 2!bool_decide_eq_true_2, Hh, Hl by done.
    change (EmptyString +:+ ?x) with x. cbn. by rewrite IH.
Qed.

Lemma read_string_quote s rest : ∃ r, quote s +:+ rest = String quote_mark r ∧ read_string r = Some (s, rest).
Proof.
  eexists. split; [done|]. rewrite <-!string_app_assoc. apply (read_string_escape s).
Qed.

(** [reads read t x]: a text that can be read off the front, whatever comes next. *)
Definition reads {A} (read : string → option (A * string)) (t : string) (x : A) : Prop :=
  ∀ rest, ends_number rest = true → read (t +:+ rest) = Some (x, rest).

Lemma read_seq_join {A} (read : string → option (A * string)) close ts xs n rest :
  Forall2 (reads read) ts xs → ts ≠ [] → length ts ≤ n → ends_number (String close rest) = true → close ≠ ","%char →
  read_seq read close n (join "," ts +:+ String close rest) = Some (xs, rest).
Proof.
  intros Hts Hne Hlen Hd Hc. revert n Hne Hlen.
  induction Hts as [|t x ts xs Hr Hts IH]; intros [|n] Hne Hlen; [done|done|cbn in *; lia|].
  destruct ts as [|t2 ts]; cbn [read_seq join].
  - apply Forall2_nil_inv_l in Hts as ->. rewrite Hr by done. cbn. by rewrite bool_decide_eq_true_2.
  - rewrite <-!string_app_assoc. rewrite Hr by done. cbn [mbind option_bind]. rewrite string_app_cons.
    rewrite bool_decide_eq_false_2, bool_decide_eq_true_2 by done. change (EmptyString +:+ ?x) with x.
    rewrite IH by (done || (cbn in *; lia)). done.
Qed.

Lemma read_list_join {A} (read : string → option (A * string)) close ts xs n rest :
  Forall2 (reads read) ts xs → length ts ≤ n → ends_number (String close rest) = true → close ≠ ","%char →
  (∀ s, read (String close s) = None) →
  read_list read close n (join "," ts +:+ String close rest) = Some (xs, rest).
Proof.
  intros Hts Hlen Hd Hc Hclose. destruct ts as [|t ts].
  { apply Forall2_nil_inv_l in Hts as ->. change (join "," [] +:+ ?x) with x. cbn [read_list].
    by rewrite bool_decide_eq_true_2. }
  pose proof (read_seq_join read close (t :: ts) xs n rest Hts ltac:(done) Hlen Hd Hc) as Hseq.
  unfold read_list. destruct n as [|n]; [cbn in Hlen; lia|].
  destruct (join "," (t :: ts) +:+ String close rest) as [|c s] eqn:Hj; [by destruct (join "," (t :: ts))|]. clear Hj.
  rewrite bool_decide_eq_false_2; [done|]. intros ->. cbn [read_seq] in Hseq. by rewrite Hclose in Hseq.
Qed.

(** ** Every value *)

Lemma length_join sep l t : t ∈ l → String.length t ≤ String.length (join sep l).
Proof.
  induction l as [|x [|y l] IH]; intros Ht; [by apply elem_of_nil in Ht| |].
  - by apply list_elem_of_singleton in Ht as ->.
  - cbn [join] in *. rewrite !string_length_app. apply elem_of_cons in Ht as [->|Ht]; [lia|]. specialize (IH Ht). lia.
Qed.
Lemma length_join_commas l : length l ≤ S (String.length (join "," l)).
Proof.
  induction l as [|x [|y l] IH]; [cbn; lia..|]. cbn [join] in *. rewrite !string_length_app. cbn in *. lia.
Qed.

Lemma strip_app lit rest : strip lit (lit +:+ rest) = Some rest.
Proof. induction lit as [|a lit IH]; [done|]. rewrite string_app_cons. cbn [strip]. by rewrite bool_decide_eq_true_2. Qed.

Lemma ends_number_spec s : ends_number s = true → starts_with_digit s = false ∧ ∀ t, s ≠ String "." t.
Proof. unfold ends_number. rewrite andb_true_iff, negb_true_iff. intros [Hd Hp]. split; [done|]. by intros t ->. Qed.

(** Anything that starts as a number is read as one. *)
Lemma read_value_of_number n s v rest : read_number s = Some (v, rest) → read_value (S n) s = Some (v, rest).
Proof.
  intros Hi. destruct s as [|a s]; [done|]. assert (a = "-"%char ∨ is_Some (digit_of a)) as Ha.
  { unfold read_number, read_int, starts_with_digit in Hi. repeat case_bool_decide; naive_solver. }
  cbn [read_value]. repeat rewrite bool_decide_eq_false_2 by (intros ->; by destruct Ha as [|[]]). done.
Qed.
Lemma read_value_number n z rest :
  ends_number rest = true → read_value (S n) (pretty z +:+ rest) = Some (JNumber z, rest).
Proof.
  intros [Hr Hp]%ends_number_spec. apply read_value_of_number. unfold read_number. rewrite (read_int_pretty z rest Hr). cbn [mbind option_bind].
  destruct rest as [|p [|a rest]]; [done..|]. destruct (digit_value a); [|done]. rewrite bool_decide_eq_false_2; [done|].
  intros ->. by apply (Hp (String a rest)).
Qed.
Lemma read_value_decimal n d rest :
  ends_number rest = true → read_value (S n) (decimal_text d +:+ rest) = Some (JDecimal d, rest).
Proof.
  intros [Hr Hp]%ends_number_spec. apply read_value_of_number. destruct d as [neg w f ds]. unfold decimal_text.
  cbn [dec_negative dec_whole dec_first dec_rest]. rewrite <-!string_app_assoc. unfold read_number.
  set (text := digits_text (f :: ds) +:+ rest). rewrite (read_int_signed neg w ("." +:+ text)) by done. cbn [mbind option_bind].
  assert (String.prefix "-" ((if neg then "-" else EmptyString) +:+ pretty w +:+ "." +:+ text) = neg) as ->.
  { destruct neg; [rewrite string_app_cons; cbn; generalize (EmptyString +:+ pretty w +:+ "." +:+ text); by intros []|].
    change (EmptyString +:+ ?x) with x. destruct (pretty_digit_first w) as (a & s & -> & Ha).
    rewrite string_app_cons. cbn [String.prefix]. destruct (ascii_dec "-" a) as [<-|]; [by destruct Ha|done]. }
  pose proof (read_fraction_text (f :: ds) rest Hr) as Hf. fold text in Hf.
  assert (∃ a r, text = String a r ∧ digit_value a = Some f ∧ read_fraction r = (ds, rest)) as (a & r & -> & Ha & Hds).
  { unfold text. cbn [digits_text]. rewrite <-string_app_assoc. destruct f; cbn [digit_text]; eexists _, _;
      (split; [reflexivity|]); (split; [reflexivity|]); by apply read_fraction_text. }
  change ("." +:+ String a r) with (String "." (String a r)). cbv beta iota. rewrite Ha, bool_decide_eq_true_2, Hds by done.
  do 4 f_equal. destruct neg; lia.
Qed.

Lemma read_value_close n s : read_value n (String "]" s) = None.
Proof. by destruct n. Qed.

(** The property of a value that the induction carries. *)
Definition text_readable (v : jsval) : Prop := ∀ n t, json_text v = Some t → String.length t ≤ n →
  ∃ u, json_value v = Some u ∧ reads (read_value n) t u.

Lemma json_text_value v : json_text v = None ↔ json_value v = None.
Proof. by destruct v. Qed.

(** The elements of an array and the fields of an object. *)
Lemma readable_elements n l : Forall text_readable l →
  (∀ t, t ∈ map (λ v, default "null" (json_text v)) l → String.length t ≤ n) →
  Forall2 (reads (read_value n)) (map (λ v, default "null" (json_text v)) l) (map (λ v, default JNull (json_value v)) l).
Proof.
  intros Hl. induction Hl as [|v l Hv Hl IH]; intros Hlen; cbn [map]; constructor.
  - specialize (Hv n). specialize (Hlen (default "null" (json_text v)) ltac:(left)).
    destruct (json_text v) as [t|] eqn:Ht; [by destruct (Hv t) as (u & -> & ?)|].
    apply json_text_value in Ht. rewrite Ht. intros rest _. destruct n as [|n]; [cbn in Hlen; lia|]. done.
  - apply IH. intros t Ht. apply Hlen. by right.
Qed.

Definition field_text (kv : string * jsval) : option string := (λ s, quote kv.1 +:+ ":" +:+ s) <$> json_text kv.2.
Definition field_value (kv : string * jsval) : option (string * jsval) := (λ v, (kv.1, v)) <$> json_value kv.2.

Lemma omap_map {A B C} (f : A → B) (g : B → option C) (h : A → option C) l :
  (∀ x, g (f x) = h x) → omap g (map f l) = omap h l.
Proof. intros Hh. induction l as [|x l IH]; [done|]. cbn. rewrite Hh. destruct (h x); [f_equal|]; apply IH. Qed.

Lemma json_text_object o : json_text (JObject o) = Some ("{" +:+ join "," (omap field_text o) +:+ "}").
Proof. cbn [json_text]. do 4 f_equal. apply omap_map. by intros [k v]. Qed.
Lemma json_value_object o : json_value (JObject o) = Some (JObject (omap field_value o)).
Proof. cbn [json_value]. do 2 f_equal. apply omap_map. by intros [k v]. Qed.

Lemma readable_fields n o : Forall (λ kv, text_readable kv.2) o →
  (∀ t, t ∈ omap field_text o → String.length t ≤ n) →
  Forall2 (reads (read_field (read_value n))) (omap field_text o) (omap field_value o).
Proof.
  intros Ho. induction Ho as [|[k v] o Hv Ho IH]; intros Hlen; [constructor|]. cbn [omap list_omap] in *.
  unfold field_text at 1, field_value at 1. unfold field_text at 1 in Hlen. cbn [fst snd] in *.
  destruct (json_text v) as [s|] eqn:Ht; cbn [fmap option_fmap option_map] in *.
  - destruct (Hv n s Ht) as (u & -> & Hu).
    { specialize (Hlen (quote k +:+ ":" +:+ s) ltac:(left)). rewrite !string_length_app in Hlen. lia. }
    constructor; [|apply IH; intros; apply Hlen; by right].
    intros rest Hr. rewrite <-!string_app_assoc. destruct (read_string_quote k (":" +:+ s +:+ rest)) as (r & -> & Hk).
    cbn [read_field]. rewrite bool_decide_eq_true_2, Hk by done. cbn [mbind option_bind]. rewrite string_app_cons.
    rewrite bool_decide_eq_true_2 by done. change (EmptyString +:+ ?x) with x. by rewrite Hu.
  - apply json_text_value in Ht as ->. by apply IH.
Qed.

Lemma read_value_text v : text_readable v.
Proof.
  induction v as [| |b|z|d|s|l IH|o IH|v] using jsval_nested_ind; intros n t Ht Hlen.
  - done.
  - injection Ht as <-. destruct n as [|n]; [cbn in Hlen; lia|]. by exists JNull.
  - injection Ht as <-. exists (JBool b). split; [done|]. destruct b, n as [|n]; cbn in Hlen; try lia; done.
  - injection Ht as <-. exists (JNumber z). split; [done|]. intros rest Hr. destruct n as [|n]; [|by apply read_value_number].
    destruct (pretty z) eqn:Hz; [by apply pretty_Z_nonempty in Hz|cbn in Hlen; lia].
  - injection Ht as <-. exists (JDecimal d). split; [done|]. intros rest Hr. destruct n as [|n]; [|by apply read_value_decimal].
    unfold decimal_text in Hlen. rewrite !string_length_app in Hlen. cbn in Hlen. lia.
  - injection Ht as <-. exists (JString s). split; [done|]. intros rest Hr.
    destruct n as [|n]; [unfold quote in Hlen; rewrite string_length_app in Hlen; cbn in Hlen; lia|].
    destruct (read_string_quote s rest) as (r & -> & Hs). change (read_value (S n) (String quote_mark r))
      with ('(t, r') ← read_string r; Some (JString t, r')). by rewrite Hs.
  - injection Ht as <-. rewrite !string_length_app in Hlen. cbn [String.length] in Hlen. eexists. split; [done|].
    destruct n as [|n]; [lia|]. intros rest Hr. rewrite <-!string_app_assoc, string_app_cons.
    change (read_value (S n) (String "[" ?r)) with ('(l, r') ← read_list (read_value n) "]" n r; Some (JArray l, r')).
    change (EmptyString +:+ ?x) with x. change ("]" +:+ rest) with (String "]" rest).
    rewrite (read_list_join _ _ _ (map (λ v, default JNull (json_value v)) l)); [done| | |done|done|apply read_value_close].
    + apply readable_elements; [done|]. intros t Ht. pose proof (length_join "," _ _ Ht). lia.
    + etrans; [apply length_join_commas|lia].
  - rewrite json_text_object in Ht. injection Ht as <-. rewrite !string_length_app in Hlen. cbn [String.length] in Hlen.
    rewrite json_value_object. eexists. split; [done|].
    destruct n as [|n]; [lia|]. intros rest Hr. rewrite <-!string_app_assoc, string_app_cons.
    change (read_value (S n) (String "{" ?r)) with
      ('(l, r') ← read_list (read_field (read_value n)) "}" n r; Some (JObject l, r')).
    change (EmptyString +:+ ?x) with x. change ("}" +:+ rest) with (String "}" rest).
    rewrite (read_list_join _ _ _ (omap field_value o)); [done| | |done|done|done].
    + apply readable_fields; [done|]. intros t Ht. pose proof (length_join "," _ _ Ht). lia.
    + etrans; [apply length_join_commas|lia].
  - injection Ht as <-. destruct n as [|[|n]]; cbn in Hlen; try lia. by exists (JObject []).
Qed.

(** A value comes back from its text without what the text leaves out. *)
Theorem JSON_parse_text v t : json_text v = Some t → ∃ u, json_value v = Some u ∧ JSON_parse t = Return u.
Proof.
  intros Ht. destruct (read_value_text v (String.length t) t Ht) as (u & Hu & Hr); [done|]. exists u. split; [done|].
  unfold JSON_parse. specialize (Hr EmptyString). rewrite string_app_nil_r in Hr. by rewrite Hr.
Qed.

(** * Dates

    [Date.prototype.toJSON] is [toISOString]. *)

(** The day number of a civil date, the inverse of [civil_from_days]. *)
Definition days_from_civil (y m d : Z) : Z :=
  let y := (if bool_decide (m ≤ 2) then y - 1 else y)%Z in
  let era := (y / 400)%Z in
  let yoe := (y - era * 400)%Z in
  let mp := (if bool_decide (m ≤ 2) then m + 9 else m - 3)%Z in
  let doy := ((153 * mp + 2) / 5 + d - 1)%Z in
  let doe := (yoe * 365 + yoe / 4 - yoe / 100 + doy)%Z in
  (era * 146097 + doe - 719468)%Z.

Definition yoe_of (doe : Z) : Z := ((doe - doe / 1460 + doe / 36524 - doe / 146096) / 365)%Z.
Definition doy_of (doe : Z) : Z := (doe - (365 * yoe_of doe + yoe_of doe / 4 - yoe_of doe / 100))%Z.

Lemma yoe_range doe : (0 ≤ doe < 146097)%Z → (0 ≤ yoe_of doe < 400)%Z.
Proof. unfold yoe_of. intros. Z.to_euclidean_division_equations. lia. Qed.
Lemma doy_range doe : (0 ≤ doe < 146097)%Z → (0 ≤ doy_of doe ≤ 366)%Z.
Proof. unfold doy_of, yoe_of. intros. Z.to_euclidean_division_equations. lia. Qed.

Lemma civil_from_days_spec days : ∃ era doe mp,
  (days + 719468 = era * 146097 + doe)%Z ∧ (0 ≤ doe < 146097)%Z ∧ (0 ≤ mp < 12)%Z ∧
  mp = ((5 * doy_of doe + 2) / 153)%Z ∧
  civil_from_days days = let m := (if bool_decide (mp < 10) then mp + 3 else mp - 9)%Z in
    ((yoe_of doe + era * 400 + (if bool_decide (m ≤ 2) then 1 else 0))%Z, m, (doy_of doe - (153 * mp + 2) / 5 + 1)%Z).
Proof.
  set (z := (days + 719468)%Z). exists (z / 146097)%Z, (z mod 146097)%Z, ((5 * doy_of (z mod 146097) + 2) / 153)%Z.
  assert (0 ≤ z mod 146097 < 146097)%Z as Hdoe by (apply Z.mod_pos_bound; lia).
  pose proof (doy_range _ Hdoe). split; [rewrite (Z.div_mod z 146097) at 1; lia|]. split; [done|].
  split; [Z.to_euclidean_division_equations; lia|]. split; [done|]. done.
Qed.

Lemma days_from_civil_from_days days y m d : civil_from_days days = (y, m, d) → days_from_civil y m d = days.
Proof.
  destruct (civil_from_days_spec days) as (era & doe & mp & Hz & Hdoe & Hmp & _ & ->). cbv zeta.
  pose proof (yoe_range _ Hdoe) as Hyoe. unfold doy_of. generalize dependent (yoe_of doe). intros yoe Hyoe [= <- <- <-].
  unfold days_from_civil.
  assert (∀ a, (yoe + era * 400 + a - a) = (yoe + era * 400))%Z as Ha by lia.
  assert ((yoe + era * 400) / 400 = era)%Z as Hera by (Z.to_euclidean_division_equations; lia).
  destruct (bool_decide_reflect (mp < 10)%Z).
  - rewrite (bool_decide_eq_false_2 (mp + 3 ≤ 2)%Z) by lia.
    replace (yoe + era * 400 + 0)%Z with (yoe + era * 400)%Z by lia. rewrite Hera.
    replace (mp + 3 - 3)%Z with mp by lia. replace (yoe + era * 400 - era * 400)%Z with yoe by lia. lia.
  - rewrite (bool_decide_eq_true_2 (mp - 9 ≤ 2)%Z) by lia. rewrite Ha, Hera.
    replace (mp - 9 + 9)%Z with mp by lia. replace (yoe + era * 400 - era * 400)%Z with yoe by lia. lia.
Qed.

(** Every part of the date is a natural number from the epoch on. *)
Lemma civil_nonneg days y m d : (0 ≤ days)%Z → civil_from_days days = (y, m, d) → (0 ≤ y ∧ 1 ≤ m ∧ 1 ≤ d)%Z.
Proof.
  intros Hdays. destruct (civil_from_days_spec days) as (era & doe & mp & Hz & Hdoe & Hmp & Hmpd & ->). cbv zeta.
  pose proof (yoe_range _ Hdoe). pose proof (doy_range _ Hdoe). intros [= <- <- <-]. split_and!.
  - repeat case_bool_decide; lia.
  - case_bool_decide; lia.
  - rewrite Hmpd. generalize dependent (doy_of doe). intros doy _ Hd. Z.to_euclidean_division_equations. lia.
Qed.

(** A number and the mark after it. *)
Definition read_part (mark : ascii) (s : string) : option (Z * string) :=
  if starts_with_digit s then
    let '(n, r) := read_digits 0 s in
    match r with
    | String a r' => if bool_decide (a = mark) then Some (Z.of_N n, r') else None
    | EmptyString => None
    end
  else None.

(** [new Date(text).getTime()] for a text in the format of [toISOString]; [None] stands for [NaN]. *)
Definition date_parse (s : string) : option Z :=
  '(y, s) ← read_part "-" s; '(mo, s) ← read_part "-" s; '(d, s) ← read_part "T" s;
  '(h, s) ← read_part ":" s; '(mi, s) ← read_part ":" s; '(sec, s) ← read_part "." s; '(ms, s) ← read_part "Z" s;
  Some (days_from_civil y mo d * ms_per_day + h * 3600000 + mi * 60000 + sec * 1000 + ms)%Z.

Lemma read_part_digits (n : N) mark rest : digit_of mark = None →
  read_part mark (pretty n +:+ String mark rest) = Some (Z.of_N n, rest).
Proof.
  intros Hm. unfold read_part. rewrite starts_pretty_N, read_pretty_N by (cbn; by rewrite Hm).
  by rewrite bool_decide_eq_true_2.
Qed.
Lemma read_part_zero mark s z rest : read_part mark s = Some (z, rest) → read_part mark ("0" +:+ s) = Some (z, rest).
Proof. unfold read_part. by destruct (starts_with_digit s). Qed.

Lemma pretty_nonneg z : (0 ≤ z)%Z → pretty z = pretty (Z.to_N z).
Proof. intros Hz. rewrite pretty_Z_spec, bool_decide_eq_false_2 by lia. by replace (Z.abs_N z) with (Z.to_N z) by lia. Qed.
Lemma read_part_pretty z mark rest : (0 ≤ z)%Z → digit_of mark = None →
  read_part mark (pretty z +:+ String mark rest) = Some (z, rest).
Proof. intros Hz Hm. rewrite pretty_nonneg, read_part_digits, Z2N.id by done. done. Qed.
Lemma read_part_pad2 z mark rest : (0 ≤ z)%Z → digit_of mark = None →
  read_part mark (pad2 z +:+ String mark rest) = Some (z, rest).
Proof.
  intros Hz Hm. unfold pad2. case_bool_decide; [|by apply read_part_pretty].
  rewrite <-string_app_assoc. by apply read_part_zero, read_part_pretty.
Qed.
Lemma read_part_pad3 z mark rest : (0 ≤ z)%Z → digit_of mark = None →
  read_part mark (pad3 z +:+ String mark rest) = Some (z, rest).
Proof.
  intros Hz Hm. unfold pad3. case_bool_decide; [|by apply read_part_pad2].
  rewrite <-string_app_assoc. by apply read_part_zero, read_part_pad2.
Qed.

Theorem date_parse_iso t : (0 ≤ t)%Z → date_parse (iso_time t) = Some t.
Proof.
  intros Ht. unfold iso_time, iso_day. destruct (civil_from_days (t / ms_per_day)) as [[y m] d] eqn:Hc.
  assert (0 ≤ t / ms_per_day)%Z as Hd0 by (apply Z.div_pos; done).
  destruct (civil_nonneg _ _ _ _ Hd0 Hc) as (Hy & Hm & Hd).
  assert (0 ≤ t mod ms_per_day < ms_per_day)%Z as Hms by by apply Z.mod_pos_bound.
  rewrite <-!string_app_assoc, !string_app_cons, <-(string_app_nil_r "Z"), string_app_cons. unfold date_parse.
  repeat change (EmptyString +:+ ?x) with x.
  rewrite read_part_pretty by done. cbn [mbind option_bind].
  do 5 (rewrite read_part_pad2 by (done || Z.to_euclidean_division_equations; lia); cbn [mbind option_bind]).
  rewrite read_part_pad3 by (done || Z.to_euclidean_division_equations; lia). cbn [mbind option_bind].
  rewrite (days_from_civil_from_days _ _ _ _ Hc). f_equal.
  rewrite (Z.div_mod t ms_per_day) at 6 by done. unfold ms_per_day in *. clear Hc Hd0.
  generalize dependent (t mod 86400000)%Z. intros ms Hms. Z.to_euclidean_division_equations. lia.
Qed.
