(* ===== verification/Redis.v ===== *)
(** The Redis server as the services use it through [RedisService.client].

    Server and client library are not code of this repository.  The class [Redis] says that the
    server holds entries under keys and forgets them when their time has come; the commands are
    those of the documentation, written with it.  A command can fail at any time ([RedisServer]);
    what it would have done is then not done. *)
From S2P Require Import Prelude Json JsonParse.

(** * What the server holds *)

Inductive rvalue :=
| RText (s : string)
| RSet (members : gset string)
| RSorted (scores : gmap string Z)
| RList (elements : list string).

#[export] Instance rvalue_eq_dec : EqDecision rvalue.
Proof. solve_decision. Defined.

(** A value, and the time in milliseconds at which it is forgotten. *)
Record entry := mkEntry { e_value : rvalue; e_deadline : option Z }.

Definition unexpired (t : Z) (e : entry) : Prop :=
  match e_deadline e with Some d => (t < d)%Z | None => True end.
#[export] Instance unexpired_dec t e : Decision (unexpired t e).
Proof. unfold unexpired. destruct (e_deadline e); apply _. Defined.

(** An entry as it is seen at a time. *)
Definition seen_at (t : Z) (o : option entry) : option entry := e ← o; if decide (unexpired t e) then Some e else None.

Class Redis (S : Type) := {
  live : Z → string → S → option entry;              (* what a key holds at a time *)
  write_key : string → option entry → S → S;         (* gives a key another entry, or none *)
  matching : Z → string → S → list string;           (* the keys that match a glob pattern *)
  scan_page : Z → string → string → S → string * list string;  (* SCAN: cursor, pattern; next cursor, keys *)
}.

(** A text without characters that mean something in a glob pattern. *)
Definition glob_free (s : string) : bool :=
  free_of (Ascii.ascii_of_nat 42) s && free_of (Ascii.ascii_of_nat 63) s && free_of (Ascii.ascii_of_nat 91) s &&
  free_of (Ascii.ascii_of_nat 93) s && free_of (Ascii.ascii_of_nat 92) s.

Definition star : string := chr 42.

(** The pages of an iteration that starts with a cursor, at the times [τ 0], [τ 1], ... *)
Fixpoint scan_from {DB} `{!Redis DB} (fuel : nat) (τ : nat → Z) (cursor p : string) (s : DB) : option (list string) :=
  match fuel with
  | 0 => None
  | S fuel =>
      let '(c, ks) := scan_page (τ 0) cursor p s in
      if bool_decide (c = "0") then Some ks else (ks ++.) <$> scan_from fuel (λ i, τ (S i)) c p s
  end.

(** The guarantees of SCAN: an iteration over a store that stays as it is ends, what is there all
    the time is returned, perhaps more than once, and nothing else but what was there. *)
Class RedisLaws (S : Type) `{!Redis S} := {
  live_write_eq t k e s : live t k (write_key k e s) = seen_at t e;
  live_write_ne t k k' e s : k ≠ k' → live t k (write_key k' e s) = live t k s;
  live_later t t' k s : (t ≤ t')%Z → live t' k s = seen_at t' (live t k s);
  elem_of_matching t p k s : glob_free p = true →
    k ∈ matching t (p +:+ star) s ↔ is_Some (live t k s) ∧ ∃ r, k = p +:+ r;
  scan_ends p s : ∃ fuel, ∀ τ, is_Some (scan_from fuel τ "0" p s);
  scan_sound fuel τ p k l s : glob_free p = true → scan_from fuel τ "0" (p +:+ star) s = Some l →
    k ∈ l → ∃ i r, is_Some (live (τ i) k s) ∧ k = p +:+ r;
  scan_complete fuel τ p k r l s : glob_free p = true → scan_from fuel τ "0" (p +:+ star) s = Some l →
    (∀ i, is_Some (live (τ i) k s)) → k = p +:+ r → k ∈ l;
}.

(** The clock of the server, and which of the commands fail. *)
Class RedisServer := {
  server_at : nat → Z;
  server_fault : nat → option exn;
}.
(** The server never fails. *)
Class RedisUp `{!RedisServer} := redis_up n : server_fault n = None.
(** Its clock does not go back. *)
Class MonotoneServer `{!RedisServer} := server_mono n m : n ≤ m → (server_at n ≤ server_at m)%Z.

(** Worlds with a Redis connection. *)
Class HasRedis (DB W : Type) := {
  redis : W → DB;
  set_redis : DB → W → W;
}.

(** The laws of a field of a world. *)
Class RedisLens (DB W : Type) `{!HasRedis DB W, !Ticking W} := {
  redis_set s w : redis (set_redis s w) = s;
  redis_advance w : redis (advance w) = redis w;
  tick_set s w : tick (set_redis s w) = tick w;
  tick_advance w : tick (advance w) = S (tick w);
}.

(** * Commands *)

Section Commands.
Context {DB : Type} `{!Redis DB}.
Implicit Types (s : DB) (t : Z) (k v : string).

Definition WRONGTYPE : exn := Exn "ErrorReply" "WRONGTYPE Operation against a key holding the wrong kind of value".
Definition NotInteger : exn := Exn "ErrorReply" "ERR value is not an integer or out of range".
Definition InvalidExpire : exn := Exn "ErrorReply" "ERR invalid expire time".

Definition put k (v : rvalue) (d : option Z) s : DB := write_key k (Some (mkEntry v d)) s.

(** [GET] *)
Definition cmd_get k t s : outcome (option string) * DB :=
  (match live t k s with
   | None => Return None
   | Some (mkEntry (RText v) _) => Return (Some v)
   | Some _ => Throw WRONGTYPE
   end, s).

(** [SET] without and with a time to live in seconds ([SETEX], [SET ... EX]) *)
Definition cmd_set k v t s : outcome unit * DB := (Return tt, put k (RText v) None s).
Definition cmd_setEx k (ttl : Z) v t s : outcome unit * DB :=
  if bool_decide (0 < ttl)%Z then (Return tt, put k (RText v) (Some (t + ttl * 1000)%Z) s) else (Throw InvalidExpire, s).

(** [DEL], which returns the number of keys that were there *)
Definition cmd_del (ks : list string) t s : outcome Z * DB :=
  (Return (Z.of_nat (length (filter (λ k, is_Some (live t k s)) (remove_dups ks)))), foldr (λ k, write_key k None) s ks).

(** [INCR] keeps the time to live. *)
Definition cmd_incr k t s : outcome Z * DB :=
  match live t k s with
  | None => (Return 1%Z, put k (RText (pretty 1%Z)) None s)
  | Some (mkEntry (RText v) d) =>
      match int_of_text v with
      | Some n => (Return (n + 1)%Z, put k (RText (pretty (n + 1)%Z)) d s)
      | None => (Throw NotInteger, s)
      end
  | Some _ => (Throw WRONGTYPE, s)
  end.

(** [EXPIRE]: 1 when the key is there, 0 otherwise *)
Definition cmd_expire k (ttl : Z) t s : outcome Z * DB :=
  match live t k s with
  | None => (Return 0%Z, s)
  | Some e =>
      (Return 1%Z, if bool_decide (0 < ttl)%Z then put k (e_value e) (Some (t + ttl * 1000)%Z) s else write_key k None s)
  end.

(** [TTL]: the seconds that are left, rounded; -1 without a deadline, -2 without a key *)
Definition cmd_ttl k t s : outcome Z * DB :=
  (Return (match live t k s with
           | None => -2
           | Some (mkEntry _ None) => -1
           | Some (mkEntry _ (Some d)) => (d - t + 500) / 1000
           end)%Z, s).

(** [SADD] and [SREM] of one member; a set without members is no key. *)
Definition cmd_sAdd k v t s : outcome Z * DB :=
  match live t k s with
  | None => (Return 1%Z, put k (RSet {[v]}) None s)
  | Some (mkEntry (RSet l) d) => (Return (if decide (v ∈ l) then 0 else 1)%Z, put k (RSet ({[v]} ∪ l)) d s)
  | Some _ => (Throw WRONGTYPE, s)
  end.
Definition cmd_sRem k v t s : outcome Z * DB :=
  match live t k s with
  | None => (Return 0%Z, s)
  | Some (mkEntry (RSet l) d) =>
      (Return (if decide (v ∈ l) then 1 else 0)%Z,
       if decide (l ∖ {[v]} = ∅) then write_key k None s else put k (RSet (l ∖ {[v]})) d s)
  | Some _ => (Throw WRONGTYPE, s)
  end.
Definition cmd_sMembers k t s : outcome (list string) * DB :=
  (match live t k s with
   | None => Return []
   | Some (mkEntry (RSet l) _) => Return (elements l)
   | Some _ => Throw WRONGTYPE
   end, s).

(** [ZADD] of one member with its score, [ZREMRANGEBYSCORE], [ZCARD], and [ZRANGE key 0 0], the
    member with the lowest score, the first in the order of texts among several *)
Definition cmd_zAdd k (score : Z) v t s : outcome Z * DB :=
  match live t k s with
  | None => (Return 1%Z, put k (RSorted {[v := score]}) None s)
  | Some (mkEntry (RSorted m) d) =>
      (Return (if decide (is_Some (m !! v)) then 0 else 1)%Z, put k (RSorted (<[v := score]> m)) d s)
  | Some _ => (Throw WRONGTYPE, s)
  end.
Definition outside (a b : Z) (kv : string * Z) : Prop := ¬ (a ≤ kv.2 ≤ b)%Z.
Definition cmd_zRemRangeByScore k (a b : Z) t s : outcome Z * DB :=
  match live t k s with
  | None => (Return 0%Z, s)
  | Some (mkEntry (RSorted m) d) =>
      let m' := filter (outside a b) m in
      (Return (Z.of_nat (size m) - Z.of_nat (size m'))%Z,
       if decide (m' = ∅) then write_key k None s else put k (RSorted m') d s)
  | Some _ => (Throw WRONGTYPE, s)
  end.
Definition cmd_zCard k t s : outcome Z * DB :=
  (match live t k s with
   | None => Return 0%Z
   | Some (mkEntry (RSorted m) _) => Return (Z.of_nat (size m))
   | Some _ => Throw WRONGTYPE
   end, s).
Definition first_of (x y : string * Z) : string * Z :=
  if decide (x.2 < y.2 ∨ x.2 = y.2 ∧ String.le x.1 y.1)%Z then x else y.
Definition lowest (m : gmap string Z) : list string :=
  match map_to_list m with [] => [] | x :: l => [(foldr first_of x l).1] end.
Definition cmd_zRange_first k t s : outcome (list string) * DB :=
  (match live t k s with
   | None => Return []
   | Some (mkEntry (RSorted m) _) => Return (lowest m)
   | Some _ => Throw WRONGTYPE
   end, s).

(** [RPUSH] of one element, which returns the length; [LRANGE] and [LTRIM], whose negative indices count
    from the end; a list without elements is no key *)
Definition cmd_rPush k v t s : outcome Z * DB :=
  match live t k s with
  | None => (Return 1%Z, put k (RList [v]) None s)
  | Some (mkEntry (RList l) d) => (Return (Z.of_nat (length l) + 1)%Z, put k (RList (l ++ [v])) d s)
  | Some _ => (Throw WRONGTYPE, s)
  end.
Definition list_range {A} (start stop : Z) (l : list A) : list A :=
  let len := Z.of_nat (length l) in
  let from := Z.max 0 (if bool_decide (start < 0)%Z then start + len else start) in
  let to := if bool_decide (stop < 0)%Z then (stop + len)%Z else stop in
  take (Z.to_nat (to + 1 - from)) (drop (Z.to_nat from) l).
Definition cmd_lRange k (start stop : Z) t s : outcome (list string) * DB :=
  (match live t k s with
   | None => Return []
   | Some (mkEntry (RList l) _) => Return (list_range start stop l)
   | Some _ => Throw WRONGTYPE
   end, s).
Definition cmd_lTrim k (start stop : Z) t s : outcome unit * DB :=
  match live t k s with
  | None => (Return tt, s)
  | Some (mkEntry (RList l) d) =>
      (Return tt, if decide (list_range start stop l = []) then write_key k None s else put k (RList (list_range start stop l)) d s)
  | Some _ => (Throw WRONGTYPE, s)
  end.

(** [EXISTS] of one key *)
Definition cmd_exists k t s : outcome Z * DB := (Return (if decide (is_Some (live t k s)) then 1 else 0)%Z, s).

(** [KEYS], and a page of [SCAN] *)
Definition cmd_keys (pattern : string) t s : outcome (list string) * DB := (Return (matching t pattern s), s).
Definition cmd_scan (cursor pattern : string) t s : outcome (string * list string) * DB :=
  (Return (scan_page t cursor pattern s), s).
End Commands.

(** A command sent from a service. *)
Definition command {DB W A} `{!HasRedis DB W, !Ticking W, !RedisServer} (c : Z → DB → outcome A * DB) : eff W A := λ w,
  match server_fault (tick w) with
  | Some e => (Throw e, advance w)
  | None => let '(o, s) := c (server_at (tick w)) (redis w) in (o, advance (set_redis s w))
  end.

(** * A world that has nothing but Redis *)

Record RedisWorld (DB : Type) := mkRedisWorld { rw_redis : DB; rw_ticks : nat }.
Arguments rw_redis {_} _.
Arguments rw_ticks {_} _.
Arguments mkRedisWorld {_} _ _.

#[export] Instance RedisWorld_redis DB : HasRedis DB (RedisWorld DB) := {|
  redis := rw_redis; set_redis s w := mkRedisWorld s (rw_ticks w) |}.
#[export] Instance RedisWorld_ticking DB : Ticking (RedisWorld DB) := {|
  tick := rw_ticks; advance w := mkRedisWorld (rw_redis w) (S (rw_ticks w)) |}.
#[export] Instance RedisWorld_lens DB : RedisLens DB (RedisWorld DB).
Proof. by split. Qed.

(** * A server in memory *)

Abbreviation entries := (gmap string entry).

Definition mem_live (t : Z) (k : string) (s : entries) : option entry := seen_at t (s !! k).
(** Whether a text matches a pattern, of which only a final star is understood. *)
Fixpoint mem_match (p k : string) : bool :=
  match p, k with
  | EmptyString, EmptyString => true
  | String a EmptyString, _ => bool_decide (String a EmptyString = star ∨ String a EmptyString = k)
  | String a p', String b k' => bool_decide (a = b) && mem_match p' k'
  | _, _ => false
  end.
Definition mem_matching (t : Z) (p : string) (s : entries) : list string :=
  filter (λ k, mem_match p k = true ∧ is_Some (mem_live t k s)) (map_to_list s).*1.

#[export] Instance mem_redis : Redis entries := {|
  live := mem_live;
  write_key k e s := partial_alter (λ _, e) k s;
  matching := mem_matching;
  scan_page t _ p s := ("0", mem_matching t p s);
|}.

Lemma mem_match_star p k : mem_match (p +:+ star) k = true ↔ ∃ r, k = p +:+ r.
Proof.
  revert k. induction p as [|a p IH]; intros k.
  { split; [intros _; by exists k|done]. }
  rewrite string_app_cons. destruct (p +:+ star) as [|b q] eqn:Hq; [by destruct p|].
  destruct k as [|c k]; [split; [done|intros [r Hr]; done]|].
  change (mem_match (String a (String b q)) (String c k)) with (bool_decide (a = c) && mem_match (String b q) k).
  rewrite andb_true_iff, bool_decide_eq_true, IH. setoid_rewrite string_app_cons. naive_solver.
Qed.

Lemma seen_seen t t' o : (t ≤ t')%Z → seen_at t' (seen_at t o) = seen_at t' o.
Proof.
  intros Ht. destruct o as [[v [d|]]|]; cbn; unfold seen_at, unexpired; cbn; [|done..].
  case_decide as H1; cbn; [done|]. rewrite decide_False; [done|lia].
Qed.

Lemma elem_of_mem_matching t p k s : k ∈ mem_matching t (p +:+ star) s ↔ is_Some (mem_live t k s) ∧ ∃ r, k = p +:+ r.
Proof.
  unfold mem_matching. rewrite list_elem_of_filter, mem_match_star. split; [naive_solver|].
  intros [Hl Hr]. split; [done|]. unfold mem_live, seen_at in Hl. destruct (s !! k) as [e|] eqn:He; [|by destruct Hl].
  apply list_elem_of_fmap. exists (k, e). split; [done|]. by apply elem_of_map_to_list.
Qed.

#[export] Instance mem_redis_laws : RedisLaws entries.
Proof.
  split.
  - intros t k e s. cbn. unfold mem_live. by rewrite lookup_partial_alter_eq.
  - intros t k k' e s Hne. cbn. unfold mem_live. by rewrite lookup_partial_alter_ne.
  - intros t t' k s Ht. symmetry. by apply seen_seen.
  - intros t p k s _. apply elem_of_mem_matching.
  - intros p s. exists 1. intros τ. by eexists.
  - intros [|fuel] τ p k l s _ [= <-] [Hl [r Hr]]%elem_of_mem_matching. by exists 0, r.
  - intros [|fuel] τ p k r l s _ [= <-] Hl Hr. apply elem_of_mem_matching. split; [apply (Hl 0)|by exists r].
Qed.

(** * What the commands do *)

Section CommandRuns.
Context {DB W : Type} `{!Redis DB, !RedisLaws DB, !HasRedis DB W, !Ticking W, !RedisServer, !RedisLens DB W}.

Lemma command_run {A} (c : Z → DB → outcome A * DB) w o s :
  server_fault (tick w) = None → c (server_at (tick w)) (redis w) = (o, s) → command c w = (o, advance (set_redis s w)).
Proof. intros Hf Hc. unfold command. by rewrite Hf, Hc. Qed.

Lemma command_fault {A} (c : Z → DB → outcome A * DB) w e :
  server_fault (tick w) = Some e → command c w = (Throw e, advance w).
Proof. intros Hf. unfold command. by rewrite Hf. Qed.

Lemma tick_command {A} (c : Z → DB → outcome A * DB) w : tick (command c w).2 = S (tick w).
Proof.
  unfold command. destruct (server_fault (tick w)); cbn; [by rewrite tick_advance|].
  destruct (c (server_at (tick w)) (redis w)). cbn. by rewrite tick_advance, tick_set.
Qed.

Lemma live_put t k k' v d (s : DB) :
  live t k (put k' v d s) = if decide (k = k') then seen_at t (Some (mkEntry v d)) else live t k s.
Proof. unfold put. case_decide; [subst; apply live_write_eq|by apply live_write_ne]. Qed.

Lemma live_unexpired t k (s : DB) e : live t k s = Some e → unexpired t e.
Proof.
  intros Hl. pose proof (live_later t t k s ltac:(lia)) as Hs. rewrite Hl in Hs. unfold seen_at in Hs. cbn in Hs.
  by case_decide.
Qed.

(** What a key holds now. *)
Definition held (k : string) (w : W) : option entry := live (server_at (tick w)) k (redis w).

(** Commands that leave a key alone. *)
Definition spares {A} (k : string) (c : Z → DB → outcome A * DB) : Prop :=
  ∀ t s t', live t' k (c t s).2 = live t' k s.

Lemma spares_get k k' : spares k (cmd_get (DB:=DB) k').
Proof. by intros t s t'. Qed.
Lemma spares_ttl k k' : spares k (cmd_ttl (DB:=DB) k').
Proof. by intros t s t'. Qed.
Lemma spares_keys k p : spares k (cmd_keys (DB:=DB) p).
Proof. by intros t s t'. Qed.
Lemma spares_scan k c p : spares k (cmd_scan (DB:=DB) c p).
Proof. by intros t s t'. Qed.
Lemma spares_sMembers k k' : spares k (cmd_sMembers (DB:=DB) k').
Proof. by intros t s t'. Qed.
Lemma spares_zCard k k' : spares k (cmd_zCard (DB:=DB) k').
Proof. by intros t s t'. Qed.
Lemma spares_zRange k k' : spares k (cmd_zRange_first (DB:=DB) k').
Proof. by intros t s t'. Qed.

(** Every command writes at most its own key. *)
Ltac spares_tac := intros Hne t s t'; cbv beta delta [cmd_incr cmd_expire cmd_set cmd_setEx cmd_sAdd cmd_sRem cmd_zAdd
    cmd_zRemRangeByScore cmd_rPush cmd_lTrim] zeta;
  repeat case_match; cbn [snd]; rewrite ?live_put; rewrite ?live_write_ne by done; try rewrite decide_False by done; done.

Lemma spares_set k k' v : k ≠ k' → spares k (cmd_set (DB:=DB) k' v).
Proof. spares_tac. Qed.
Lemma spares_setEx k k' n v : k ≠ k' → spares k (cmd_setEx (DB:=DB) k' n v).
Proof. spares_tac. Qed.
Lemma spares_incr k k' : k ≠ k' → spares k (cmd_incr (DB:=DB) k').
Proof. spares_tac. Qed.
Lemma spares_expire k k' n : k ≠ k' → spares k (cmd_expire (DB:=DB) k' n).
Proof. spares_tac. Qed.
Lemma spares_sAdd k k' v : k ≠ k' → spares k (cmd_sAdd (DB:=DB) k' v).
Proof. spares_tac. Qed.
Lemma spares_sRem k k' v : k ≠ k' → spares k (cmd_sRem (DB:=DB) k' v).
Proof. spares_tac. Qed.
Lemma spares_zAdd k k' n v : k ≠ k' → spares k (cmd_zAdd (DB:=DB) k' n v).
Proof. spares_tac. Qed.
Lemma spares_zRem k k' a b : k ≠ k' → spares k (cmd_zRemRangeByScore (DB:=DB) k' a b).
Proof. spares_tac. Qed.
Lemma spares_rPush k k' v : k ≠ k' → spares k (cmd_rPush (DB:=DB) k' v).
Proof. spares_tac. Qed.
Lemma spares_lRange k k' a b : spares k (cmd_lRange (DB:=DB) k' a b).
Proof. by intros t s t'. Qed.
Lemma spares_lTrim k k' a b : k ≠ k' → spares k (cmd_lTrim (DB:=DB) k' a b).
Proof. spares_tac. Qed.
Lemma spares_exists k k' : spares k (cmd_exists (DB:=DB) k').
Proof. by intros t s t'. Qed.
Lemma spares_del k ks : k ∉ ks → spares k (cmd_del (DB:=DB) ks).
Proof.
  intros Hk t s t'. cbn [cmd_del snd]. induction ks as [|k' ks IH]; [done|]. apply not_elem_of_cons in Hk as [Hne Hk].
  cbn [foldr]. rewrite live_write_ne by done. by apply IH.
Qed.

(** A key after a command: what it held, as far as time has left it there, ... *)
Lemma held_spared `{!MonotoneServer} {A} k (c : Z → DB → outcome A * DB) w :
  spares k c → held k (command c w).2 = seen_at (server_at (S (tick w))) (held k w).
Proof.
  intros Hc. unfold held. rewrite tick_command. rewrite <-live_later by (apply server_mono; lia). unfold command.
  destruct (server_fault (tick w)); cbn; [by rewrite redis_advance|].
  specialize (Hc (server_at (tick w)) (redis w) (server_at (S (tick w)))).
  destruct (c (server_at (tick w)) (redis w)). cbn in *. by rewrite redis_advance, redis_set.
Qed.
Lemma held_fault `{!MonotoneServer} {A} k (c : Z → DB → outcome A * DB) w e :
  server_fault (tick w) = Some e → held k (command c w).2 = seen_at (server_at (S (tick w))) (held k w).
Proof.
  intros Hf. unfold held. rewrite tick_command, (command_fault _ _ _ Hf). cbn. rewrite redis_advance.
  apply live_later, server_mono. lia.
Qed.
(** ... or what the command has put there. *)
Lemma held_run {A} k (c : Z → DB → outcome A * DB) w o s :
  server_fault (tick w) = None → c (server_at (tick w)) (redis w) = (o, s) →
  held k (command c w).2 = live (server_at (S (tick w))) k s.
Proof. intros Hf Hc. unfold held. rewrite tick_command, (command_run _ _ _ _ Hf Hc). cbn. by rewrite redis_advance, redis_set. Qed.
End CommandRuns.

(** The two parts of [H : (o, s) = (o', s')] for variables [o'] and [s']. *)
Ltac pair_inj H :=
  let Ho := fresh in let Hs := fresh in
  pose proof (f_equal fst H) as Ho; pose proof (f_equal snd H) as Hs; cbn [fst snd] in Ho, Hs; clear H; subst.

Create HintDb spares.
#[export] Hint Resolve spares_get spares_ttl spares_keys spares_scan spares_sMembers spares_zCard spares_zRange spares_set spares_setEx
  spares_incr spares_expire spares_sAdd spares_sRem spares_zAdd spares_zRem spares_rPush spares_lRange spares_lTrim spares_exists spares_del : spares.

(** * Commands of a server that does its work *)

Section UpRuns.
Context {DB W : Type} `{!Redis DB, !RedisLaws DB, !HasRedis DB W, !Ticking W, !RedisServer, !RedisLens DB W}.
Context `{!RedisUp, !MonotoneServer}.
Implicit Types (w : W).

Lemma command_up {A} (c : Z → DB → outcome A * DB) w :
  command c w = let '(o, s) := c (server_at (tick w)) (redis w) in (o, advance (set_redis s w)).
Proof. unfold command. by rewrite redis_up. Qed.

(** [k] holds [o] after a command that has returned [a], but for what time takes; every other key
    holds what it held. *)
Definition runs_to {A} (m : eff W A) w (a : A) k (o : option entry) : Prop := ∃ w',
  m w = (Return a, w') ∧ tick w' = S (tick w) ∧ held k w' = seen_at (server_at (tick w')) o ∧
  ∀ k', k' ≠ k → held k' w' = seen_at (server_at (tick w')) (held k' w).

Lemma runs_to_intro {A} (c : Z → DB → outcome A * DB) w a k o s :
  c (server_at (tick w)) (redis w) = (Return a, s) → (∀ k', k' ≠ k → spares k' c) →
  (∀ t, (server_at (tick w) ≤ t)%Z → live t k s = seen_at t o) → runs_to (command c) w a k o.
Proof.
  intros Hc Hs Ho. exists (command c w).2. rewrite tick_command. split_and!.
  - by rewrite command_up, Hc.
  - done.
  - rewrite (held_run k c w _ _ (redis_up _) Hc). apply Ho, server_mono. lia.
  - intros k' Hk. by apply held_spared, Hs.
Qed.

Lemma run_incr_none k w : held k w = None →
  runs_to (command (cmd_incr k)) w 1%Z k (Some (mkEntry (RText (pretty 1%Z)) None)).
Proof.
  intros Hh. eapply runs_to_intro; [unfold cmd_incr; fold (held k w); by rewrite Hh|auto with spares|].
  intros t Ht. rewrite live_put. by rewrite decide_True.
Qed.
Lemma run_incr_some k w n d : held k w = Some (mkEntry (RText (pretty n)) d) →
  runs_to (command (cmd_incr k)) w (n + 1)%Z k (Some (mkEntry (RText (pretty (n + 1)%Z)) d)).
Proof.
  intros Hh. eapply runs_to_intro; [unfold cmd_incr; fold (held k w); by rewrite Hh, int_of_text_pretty|auto with spares|].
  intros t Ht. rewrite live_put. by rewrite decide_True.
Qed.
Lemma run_expire k w v d n : held k w = Some (mkEntry v d) → (0 < n)%Z →
  runs_to (command (cmd_expire k n)) w 1%Z k (Some (mkEntry v (Some (server_at (tick w) + n * 1000)%Z))).
Proof.
  intros Hh Hn. eapply runs_to_intro; [unfold cmd_expire; fold (held k w); by rewrite Hh|auto with spares|].
  intros t Ht. rewrite bool_decide_eq_true_2 by done. rewrite live_put. by rewrite decide_True.
Qed.
Lemma run_setEx k w n v : (0 < n)%Z →
  runs_to (command (cmd_setEx k n v)) w tt k (Some (mkEntry (RText v) (Some (server_at (tick w) + n * 1000)%Z))).
Proof.
  intros Hn. eapply runs_to_intro; [unfold cmd_setEx; by rewrite bool_decide_eq_true_2|auto with spares|].
  intros t Ht. rewrite live_put. by rewrite decide_True.
Qed.
End UpRuns.

(** * [RedisService] ([redis/redis.service.ts]): the iteration over the keys of the server and the
    refreshing of a deadline. *)

Section RedisService.
Context {DB W : Type} `{!Redis DB, !HasRedis DB W, !Ticking W, !RedisServer}.

(** The loop of [scanKeys]; the fuel bounds the number of pages. *)
Fixpoint scan_keys_from (fuel : nat) (cursor pattern : string) : eff W (list string) :=
  match fuel with
  | 0 => throw (Error "out of fuel")
  | S fuel =>
      '(c, ks) ← command (cmd_scan cursor pattern);
      if bool_decide (c = "0") then mret ks
      else rest ← scan_keys_from fuel c pattern; mret (ks ++ rest)
  end.
Definition scanKeys (fuel : nat) (pattern : string) : eff W (list string) := scan_keys_from fuel "0" pattern.

Definition refreshTTL (key : string) (ttlSeconds : Z) : eff W bool :=
  result ← command (cmd_expire key ttlSeconds);
  mret (bool_decide (result = 1%Z)).
End RedisService.

(** ** The iteration ends with the keys that were there *)

Section Theory.
Context {DB W : Type} `{!Redis DB, !RedisLaws DB, !HasRedis DB W, !Ticking W, !RedisServer, !RedisLens DB W}.
Implicit Types (w : W).

(** The fuel is enough for the store as it is. *)
Definition enough_fuel (fuel : nat) (pattern : string) w : Prop :=
  ∀ τ, is_Some (scan_from fuel τ "0" pattern (redis w)).

Lemma fuel_exists pattern w : ∃ fuel, enough_fuel fuel pattern w.
Proof. destruct (scan_ends pattern (redis w)) as [fuel Hf]. by exists fuel. Qed.

Lemma scan_keys_run `{!RedisUp} fuel cursor pattern w τ : is_Some (scan_from fuel τ cursor pattern (redis w)) →
  (∀ i, τ i = server_at (tick w + i)) →
  ∃ l n w', scan_keys_from fuel cursor pattern w = (Return l, w') ∧ redis w' = redis w ∧ tick w' = tick w + S n ∧
    ∀ τ', (∀ i, i ≤ n → τ' i = τ i) → scan_from fuel τ' cursor pattern (redis w) = Some l.
Proof.
  revert cursor w τ. induction fuel as [|fuel IH]; intros cursor w τ [l Hs] Hτ; [done|]. cbn [scan_from scan_keys_from] in *.
  rewrite Hτ, Nat.add_0_r in Hs. destruct (scan_page (server_at (tick w)) cursor pattern (redis w)) as [c ks] eqn:Hp.
  set (w1 := (command (cmd_scan cursor pattern) w).2).
  assert (command (cmd_scan cursor pattern) w = (Return (c, ks), w1)) as Hrun.
  { unfold w1. rewrite command_up. unfold cmd_scan. by rewrite Hp. }
  assert (redis w1 = redis w) as Hr1 by (unfold w1; rewrite command_up; cbn; by rewrite redis_advance, redis_set).
  assert (tick w1 = S (tick w)) as Ht1 by apply tick_command. assert (τ 0 = server_at (tick w)) as H0t by by rewrite Hτ, Nat.add_0_r.
  rewrite (bind_run _ _ _ _ _ Hrun). case_bool_decide as Hc.
  - exists ks, 0, w1. split_and!; [done|done|lia|]. intros τ' Hτ'. rewrite Hτ', H0t, Hp by lia. by rewrite bool_decide_eq_true_2.
  - apply fmap_Some in Hs as (rest & Hs & _). rewrite <-Hr1 in Hs.
    destruct (IH c w1 (λ i, τ (S i))) as (l2 & n & w2 & Hrun2 & Hr2 & Ht2 & Hall).
    { by eexists. } { intros i. rewrite Hτ, Ht1. f_equal. lia. }
    exists (ks ++ l2), (S n), w2. rewrite (bind_run _ _ _ _ _ Hrun2). split_and!; [done|congruence|lia|].
    intros τ' Hτ'. rewrite Hτ', H0t, Hp by lia. rewrite bool_decide_eq_false_2 by done. rewrite <-Hr1.
    rewrite Hall; [done|]. intros i Hi. apply Hτ'. lia.
Qed.

Lemma scanKeys_run `{!RedisUp, !MonotoneServer} fuel p w : glob_free p = true → enough_fuel fuel (p +:+ star) w →
  ∃ l w', scanKeys fuel (p +:+ star) w = (Return l, w') ∧ redis w' = redis w ∧ tick w ≤ tick w' ∧
    (∀ k, k ∈ l → is_Some (held k w) ∧ ∃ r, k = p +:+ r) ∧
    (∀ r, is_Some (held (p +:+ r) w') → p +:+ r ∈ l).
Proof.
  intros Hp Hfuel. destruct (scan_keys_run fuel "0" (p +:+ star) w (λ i, server_at (tick w + i)) (Hfuel _))
    as (l & n & w' & Hrun & Hr & Ht & Hall); [done|]. exists l, w'.
  set (τ := λ i, server_at (tick w + Nat.min i n)).
  assert (scan_from fuel τ "0" (p +:+ star) (redis w) = Some l) as Hscan.
  { apply Hall. intros i Hi. unfold τ. do 2 f_equal. lia. }
  split_and!; [done|done|lia| |].
  - intros k Hk. destruct (scan_sound _ _ _ _ _ _ Hp Hscan Hk) as (i & r & Hl & ->). split; [|by exists r].
    unfold held. rewrite (live_later (server_at (tick w))) in Hl by (apply server_mono; lia).
    destruct (live (server_at (tick w)) (p +:+ r) (redis w)); [by eexists|by destruct Hl].
  - intros r Hh. eapply scan_complete; [exact Hp|exact Hscan| |done]. intros i. unfold held in Hh. rewrite Hr in Hh.
    rewrite (live_later (τ i)) in Hh by (apply server_mono; lia).
    destruct (live (τ i) (p +:+ r) (redis w)); [by eexists|by destruct Hh].
Qed.
End Theory.
