(* ===== verification/CacheFacts.v ===== *)
(** What the caches over Redis share: keys that an effect leaves alone, entries that last until a time,
    counters, and the deletion of all keys with a prefix. *)
From S2P Require Import Prelude Json JsonParse Redis.
Open Scope Z_scope.

(** SHA-256 in hexadecimal: sixty-four lower-case digits. *)
Definition hex_char (a : Ascii.ascii) : bool := bool_decide (is_Some (hex_value a)).
Class Sha256Hex `{!Crypto} := sha256_hex_digits s : String.length (sha256_hex s) = 64%nat ∧ all_chars hex_char (sha256_hex s) = true.
Lemma hex_digest `{!Crypto, !Sha256Hex} s : ∃ a t, sha256_hex s = String a t ∧ hex_char a = true.
Proof.
  destruct (sha256_hex_digits s) as [Hl Hh]. destruct (sha256_hex s) as [|a t]; [done|]. exists a, t. split; [done|].
  by apply andb_true_iff in Hh as [Ha _].
Qed.

Section Facts.
Context {DB W : Type} `{!Redis DB, !RedisLaws DB, !HasRedis DB W, !Ticking W, !RedisServer, !RedisLens DB W}.
Context `{!MonotoneServer, !Clock}.
Implicit Types (w : W).

(** ** Nothing throws *)

Definition total {A} (m : eff W A) : Prop := ∀ w, ∃ a w', m w = (Return a, w').
Lemma total_ret {A} (a : A) : total (mret a).
Proof. intros w. by exists a, w. Qed.
Lemma total_bind {A B} (m : eff W A) (f : A → eff W B) : total m → (∀ a, total (f a)) → total (m ≫= f).
Proof. intros Hm Hf w. unfold mbind, eff_bind. destruct (Hm w) as (a & w1 & ->). apply Hf. Qed.
Lemma total_try {A} (m : eff W A) h : (∀ e, total (h e)) → total (try_catch m h).
Proof. intros Hh w. unfold try_catch. destruct (m w) as [[a|e] w1]; [by exists a, w1|apply Hh]. Qed.

(** ** A key that nothing touches *)

Definition leaves (K : string) w w' : Prop := (tick w ≤ tick w')%nat ∧ held K w' = seen_at (server_at (tick w')) (held K w).
#[global] Instance leaves_preorder K : PreOrder (leaves K).
Proof.
  split.
  - intros w. split; [done|]. unfold held. by rewrite <-live_later by lia.
  - intros w1 w2 w3 [Ht1 H1w] [Ht2 H2w]. split; [lia|]. rewrite H2w, H1w. apply seen_seen, server_mono. lia.
Qed.
Lemma leaves_command {A} K (c : Z → DB → outcome A * DB) : spares K c → moves (leaves K) (command c).
Proof. intros Hc w. split; [rewrite tick_command; lia|]. rewrite held_spared by done. by rewrite tick_command. Qed.
Lemma leaves_advance K w : leaves K w (advance w).
Proof.
  split; [rewrite tick_advance; lia|]. unfold held. rewrite redis_advance. apply live_later, server_mono. rewrite tick_advance. lia.
Qed.
Lemma leaves_date_now K : moves (leaves K) date_now.
Proof. intros w. apply leaves_advance. Qed.
Lemma leaves_delay K ms : moves (leaves K) (delay ms).
Proof. intros w. apply leaves_advance. Qed.
#[local] Hint Resolve leaves_preorder : moves.
Lemma leaves_all K (ms : list (eff W unit)) : Forall (moves (leaves K)) ms → moves (leaves K) (promise_all ms).
Proof.
  induction 1 as [|m ms Hm Hms IH]; cbn [promise_all]; [auto with moves|]. do 2 (apply moves_bind; [apply _|by apply moves_attempt|]; intros ?).
  auto with moves.
Qed.

Lemma keeps_all (I : W → Prop) (ms : list (eff W unit)) : Forall (λ m, keeps I m anything) ms → keeps I (promise_all ms) anything.
Proof.
  induction 1 as [|m ms Hm Hms IH]; cbn [promise_all]; [by apply keeps_ret|].
  eapply keeps_bind; [by eapply keeps_attempt|]. intros o _. eapply keeps_bind; [by eapply keeps_attempt|]. intros o' _.
  destruct (match o with Return _ => _ | Throw _ => _ end); by (apply keeps_ret || apply keeps_throw).
Qed.

(** ** Entries that last *)

(** A text under a key, until a time. *)
Definition cached_until (K text : string) (d : Z) w : Prop := server_at (tick w) < d → ∃ d', d <= d' ∧ held K w = Some (mkEntry (RText text) (Some d')).

Lemma cached_later K text d w w' : leaves K w w' → cached_until K text d w → cached_until K text d w'.
Proof.
  intros [Ht Hh] Hc Hd. assert (server_at (tick w) <= server_at (tick w')) by by apply server_mono.
  destruct (Hc ltac:(lia)) as (d' & Hd' & Hheld). exists d'. split; [done|]. rewrite Hh, Hheld. unfold seen_at, unexpired. cbn.
  by rewrite decide_True by lia.
Qed.

Lemma cached_setEx K text n w w' : 0 < n → held K w' = seen_at (server_at (tick w')) (Some (mkEntry (RText text) (Some (server_at (tick w) + n * 1000)))) →
  cached_until K text (server_at (tick w) + n * 1000) w'.
Proof.
  intros Hn Hh Hd. exists (server_at (tick w) + n * 1000). split; [done|]. rewrite Hh. unfold seen_at, unexpired. cbn.
  by rewrite decide_True.
Qed.

(** ** Counters *)

Context `{!RedisUp}.

(** A counter that INCR can raise. *)
Definition countable (o : option entry) : Prop := o = None ∨ ∃ (n : Z) d, o = Some (mkEntry (RText (pretty n)) d).
Lemma countable_seen t o : countable o → countable (seen_at t o).
Proof.
  intros [->|(n & d & ->)]; [by left|]. unfold seen_at. cbn [mbind option_bind]. case_decide; [right; by exists n, d|by left].
Qed.
Lemma incr_countable k w : countable (held k w) → ∃ n w', command (cmd_incr k) w = (Return n, w') ∧
  (∀ k', k' ≠ k → held k' w' = seen_at (server_at (tick w')) (held k' w)) ∧ (tick w ≤ tick w')%nat ∧
  (∀ k', countable (held k' w) → countable (held k' w')).
Proof.
  intros Hc. assert (∃ (n : Z) d, runs_to (command (cmd_incr k)) w n k (Some (mkEntry (RText (pretty n)) d))) as (n & d & w' & Hrun & Ht & Hk & Hothers).
  { destruct Hc as [Hh|(n & d & Hh)]; [by exists 1, None; apply run_incr_none|by exists (n + 1), d; apply run_incr_some]. }
  exists n, w'. split; [done|]. split; [done|]. split; [lia|]. intros k' Hk'. destruct (decide (k' = k)) as [->|Hne].
  - rewrite Hk. apply countable_seen. right. by exists n, d.
  - rewrite Hothers by done. by apply countable_seen.
Qed.
(** Two counters, one after the other. *)
Lemma incr_two k1 k2 w : countable (held k1 w) → countable (held k2 w) → ∃ w',
  promise_all [command (cmd_incr k1) ;; mret tt; command (cmd_incr k2) ;; mret tt] w = (Return tt, w') ∧
  (tick w ≤ tick w')%nat ∧ (∀ k, k ≠ k1 → k ≠ k2 → leaves k w w') ∧ (∀ k, countable (held k w) → countable (held k w')).
Proof.
  intros H1c H2c. destruct (incr_countable k1 w H1c) as (n & w1 & Hrun1 & Hh1 & Ht1 & Hc1).
  destruct (incr_countable k2 w1 (Hc1 _ H2c)) as (m & w2 & Hrun2 & Hh2 & Ht2 & Hc2). exists w2. split; [|split; [lia|split]].
  - cbn [promise_all]. unfold mbind, eff_bind, attempt. rewrite Hrun1. cbn. by rewrite Hrun2.
  - intros k Hk1 Hk2. trans w1; split; [done|by apply Hh1|done|by apply Hh2].
  - intros k Hk. by apply Hc2, Hc1.
Qed.

(** Whether INCR succeeds or not, and whichever key it raises, a counter stays one. *)
Lemma keeps_countable_incr k k' : keeps (λ w, countable (held k w)) (command (cmd_incr k')) anything.
Proof.
  intros w Hc. split; [|done]. destruct (decide (k = k')) as [->|Hne].
  - destruct (incr_countable k' w Hc) as (n & w' & Hrun & _ & _ & Hall). rewrite Hrun. by apply Hall.
  - destruct (leaves_command k _ (spares_incr k k' Hne) w) as [_ ->]. by apply countable_seen.
Qed.
Lemma keeps_countable_leaves {A} k (m : eff W A) : moves (leaves k) m → keeps (λ w, countable (held k w)) m anything.
Proof. intros Hm. apply (keeps_moves _ (leaves k)); [done|]. intros w w' [_ ->]. apply countable_seen. Qed.

(** ** All keys with a prefix *)

Lemma live_del (ks : list string) t k (s : DB) : k ∈ ks → live t k (foldr (λ k, write_key k None) s ks) = None.
Proof.
  induction ks as [|k' ks IH]; intros Hin; [by apply elem_of_nil in Hin|]. cbn [foldr]. destruct (decide (k = k')) as [->|Hne].
  - by rewrite live_write_eq.
  - rewrite live_write_ne by done. apply IH. by apply elem_of_cons in Hin as [->|].
Qed.

Lemma keys_run p w : glob_free p = true → ∃ ks w', command (cmd_keys (p +:+ star)) w = (Return ks, w') ∧ (∀ k, leaves k w w') ∧
  tick w' = S (tick w) ∧ (∀ k, k ∈ ks ↔ is_Some (held k w) ∧ ∃ r, k = p +:+ r).
Proof.
  intros Hp. exists (matching (server_at (tick w)) (p +:+ star) (redis w)), (command (cmd_keys (p +:+ star)) w).2.
  split; [by rewrite command_up|]. split; [|split; [apply tick_command|by intros k; apply elem_of_matching]].
  intros k. by apply leaves_command, spares_keys.
Qed.
Lemma del_run ks w : ∃ n w', command (cmd_del ks) w = (Return n, w') ∧ tick w' = S (tick w) ∧ (∀ k, k ∈ ks → held k w' = None) ∧
  (∀ k, k ∉ ks → leaves k w w').
Proof.
  eexists _, (command (cmd_del ks) w).2. split; [by rewrite command_up|]. split; [apply tick_command|]. split.
  - intros k Hk. erewrite (held_run _ _ _ _ _ (redis_up _) eq_refl). by apply live_del.
  - intros k Hk. by apply leaves_command, spares_del.
Qed.

(** What is left when every key with a prefix that was found is deleted: none of them, and all others. *)
Definition deleted_prefix (p : string) w w' : Prop :=
  (∀ r, held (p +:+ r) w' = None) ∧ ∀ k, (∀ r, k ≠ p +:+ r) → leaves k w w'.
Lemma delete_prefix_parts p w : glob_free p = true → ∃ ks w1, command (cmd_keys (p +:+ star)) w = (Return ks, w1) ∧
  (∀ k, k ∈ ks ↔ is_Some (held k w) ∧ ∃ r, k = p +:+ r) ∧
  (length ks = 0%nat → deleted_prefix p w w1) ∧
  ∃ n w2, command (cmd_del ks) w1 = (Return n, w2) ∧ deleted_prefix p w w2.
Proof.
  intros Hp. destruct (keys_run p w Hp) as (ks & w1 & Hkeys & Hl1 & Ht1 & Hks). exists ks, w1. split; [done|]. split; [done|]. split.
  - intros Hlen. split; [|intros k _; apply Hl1]. intros r. destruct (Hl1 (p +:+ r)) as [_ ->].
    destruct (held (p +:+ r) w) as [e|] eqn:Hr; [|done]. exfalso. assert (p +:+ r ∈ ks) as Hin by (apply Hks; split; [rewrite Hr; by eexists|by exists r]).
    apply length_zero_iff_nil in Hlen as ->. by apply elem_of_nil in Hin.
  - destruct (del_run ks w1) as (n & w2 & Hdel & Ht2 & Hgone & Hkept). exists n, w2. split; [done|]. split.
    + intros r. destruct (decide (p +:+ r ∈ ks)) as [Hin|Hin]; [by apply Hgone|]. destruct (Hkept _ Hin) as [_ ->]. destruct (Hl1 (p +:+ r)) as [_ ->].
      destruct (held (p +:+ r) w) as [e|] eqn:Hr; [|done]. exfalso. apply Hin, Hks. split; [rewrite Hr; by eexists|by exists r].
    + intros k Hk. etrans; [apply Hl1|]. apply Hkept. intros [_ [r Hr]]%Hks. by apply (Hk r).
Qed.
Lemma delete_prefix_run {A} p w (f : list string → A) (z : A) : glob_free p = true → ∃ ks w',
  (keys ← command (cmd_keys (p +:+ star));
   if bool_decide (length keys = 0%nat) then mret z else command (cmd_del keys) ;; mret (f keys)) w =
    (Return (if bool_decide (length ks = 0%nat) then z else f ks), w') ∧
  (∀ k, k ∈ ks ↔ is_Some (held k w) ∧ ∃ r, k = p +:+ r) ∧ deleted_prefix p w w'.
Proof.
  intros Hp. destruct (delete_prefix_parts p w Hp) as (ks & w1 & Hkeys & Hks & Hnone & n & w2 & Hdel & Hsome).
  rewrite (bind_run _ _ _ _ _ Hkeys). exists ks. case_bool_decide as Hlen.
  - exists w1. split; [done|]. split; [exact Hks|by apply Hnone].
  - exists w2. by rewrite (bind_run _ _ _ _ _ Hdel).
Qed.
End Facts.

#[export] Hint Resolve leaves_preorder leaves_date_now leaves_delay : moves.
#[export] Hint Extern 1 (moves (leaves _) (command _)) => apply leaves_command; auto with spares : moves.
