(* ===== verification/Throttle.v ===== *)
(** The throttling of every request ([throttle/]): [ThrottleService] counts requests per path and
    client in windows of a fixed length and bans clients that exceed the limit again and again;
    [ThrottleGuard], which [main.ts] puts before all routes, asks it. *)
From S2P Require Import Prelude Json JsonParse Redis.
Open Scope Z_scope.

(** * Requests and responses *)

(** A world in which a request is answered: Redis, and the headers of the response. *)
Record HttpWorld (DB : Type) := mkHttpWorld {
  hw_redis : DB;
  hw_headers : list (string * string);
  hw_ticks : nat;
}.
Arguments hw_redis {_} _.
Arguments hw_headers {_} _.
Arguments hw_ticks {_} _.
Arguments mkHttpWorld {_} _ _ _.

#[export] Instance HttpWorld_redis DB : HasRedis DB (HttpWorld DB) := {|
  redis := hw_redis; set_redis s w := mkHttpWorld s (hw_headers w) (hw_ticks w) |}.
#[export] Instance HttpWorld_ticking DB : Ticking (HttpWorld DB) := {|
  tick := hw_ticks; advance w := mkHttpWorld (hw_redis w) (hw_headers w) (S (hw_ticks w)) |}.
#[export] Instance HttpWorld_lens DB : RedisLens DB (HttpWorld DB).
Proof. by split. Qed.

(** [response.setHeader(name, value)] *)
Definition setHeader {DB} (name value : string) : eff (HttpWorld DB) unit :=
  modify (λ w, mkHttpWorld (hw_redis w) (assoc_set name value (hw_headers w)) (hw_ticks w)).

(** * [throttle.constants.ts] and [throttle.util.ts] *)

Record RateConfig := mkRateConfig { rc_limit : Z; rc_window : Z }.
Definition RATE_LIMITS_GLOBAL : RateConfig := mkRateConfig 100 60.
Definition RATE_LIMITS_AUTH : RateConfig := mkRateConfig 5 60.
Definition MAX_VIOLATIONS : Z := 3.
Definition BASE_BAN_SECONDS : Z := 60.

Definition buildBanKey (identifier : string) : string := "ban:" +:+ identifier.

(** * [ThrottleService] *)

Section ThrottleService.
Context {DB W : Type} `{!Redis DB, !HasRedis DB W, !Ticking W, !RedisServer}.

Record RateStatus := mkRateStatus { current : Z; limit : Z; ttl : Z }.

Definition throttle_checkRateLimit (key : string) (limit windowSeconds : Z) : eff W RateStatus :=
  current ← command (cmd_incr key);
  (if bool_decide (current = 1) then command (cmd_expire key windowSeconds) ;; mret tt else mret tt) ;;
  ttl ← command (cmd_ttl key);
  mret (mkRateStatus current limit ttl).

Definition checkBan (identifier : string) : eff W unit :=
  banned ← command (cmd_get (buildBanKey identifier));
  match banned with
  | Some v => if bool_decide (v = EmptyString) then mret tt else throw (HttpException "Temporarily banned" 429)
  | None => mret tt
  end.

Definition violations_key (identifier : string) : string := "violations:" +:+ identifier.

Definition registerViolation (identifier : string) : eff W unit :=
  let violationsKey := violations_key identifier in
  violations ← command (cmd_incr violationsKey);
  (if bool_decide (violations = 1) then command (cmd_expire violationsKey 3600) ;; mret tt else mret tt) ;;
  if bool_decide (violations >= MAX_VIOLATIONS) then
    let banSeconds := BASE_BAN_SECONDS * 2 ^ (violations - 1) in
    command (cmd_setEx (buildBanKey identifier) banSeconds "1")
  else mret tt.
End ThrottleService.

(** * [ThrottleGuard] *)

Record ThrottledRequest := mkThrottledRequest {
  tr_ip : string;
  tr_userId : option string;   (* req.user?.id *)
  tr_path : string;
}.

Definition identifier_of (req : ThrottledRequest) : string := default (tr_ip req) (tr_userId req).
Definition config_of (req : ThrottledRequest) : RateConfig :=
  if string_includes "/auth" (tr_path req) then RATE_LIMITS_AUTH else RATE_LIMITS_GLOBAL.
Definition rate_key (req : ThrottledRequest) : string :=
  "rate:" +:+ tr_path req +:+ ":" +:+ identifier_of req.

Section ThrottleGuard.
Context {DB : Type} `{!Redis DB, !RedisServer}.
Local Abbreviation W := (HttpWorld DB).

Definition throttle_canActivate (req : ThrottledRequest) : eff W bool :=
  let identifier := identifier_of req in
  checkBan identifier ;;
  let config := config_of req in
  st ← throttle_checkRateLimit (rate_key req) (rc_limit config) (rc_window config);
  setHeader "X-RateLimit-Limit" (pretty (limit st)) ;;
  setHeader "X-RateLimit-Remaining" (pretty (Z.max 0 (limit st - current st))) ;;
  setHeader "X-RateLimit-Reset" (pretty (ttl st)) ;;
  if bool_decide (current st > limit st) then
    registerViolation identifier ;;
    throw (HttpException "Rate limit exceeded" 429)
  else mret true.
End ThrottleGuard.

(** Requests one after the other, with their answers. *)
Fixpoint serve_requests `{!Redis DB, !RedisServer} (reqs : list ThrottledRequest) (w : HttpWorld DB) :
    list (outcome bool) * HttpWorld DB :=
  match reqs with
  | [] => ([], w)
  | req :: reqs =>
      let '(o, w1) := throttle_canActivate req w in
      let '(os, w2) := serve_requests reqs w1 in (o :: os, w2)
  end.

(** How many of them passed under a key with a limit. *)
Definition passed (key : string) (L : Z) (ro : ThrottledRequest * outcome bool) : Prop :=
  match ro.2 with Return true => rate_key ro.1 = key ∧ rc_limit (config_of ro.1) = L | _ => False end.
#[export] Instance passed_dec key L ro : Decision (passed key L ro).
Proof. destruct ro as [req [[] |e]]; apply _. Defined.
Definition admitted (key : string) (L : Z) (reqs : list ThrottledRequest) (os : list (outcome bool)) : Z :=
  Z.of_nat (length (filter (passed key L) (zip reqs os))).

(** * How much passes in a window *)

Lemma rc_window_config req : rc_window (config_of req) = 60.
Proof. unfold config_of. by destruct (string_includes _ _). Qed.
Lemma rc_limit_pos req : 0 < rc_limit (config_of req).
Proof. unfold config_of. by destruct (string_includes _ _). Qed.
Lemma rate_key_ban req x : rate_key req ≠ buildBanKey x.
Proof. done. Qed.
Lemma rate_key_violations req x : rate_key req ≠ violations_key x.
Proof. done. Qed.
#[export] Hint Resolve rate_key_ban rate_key_violations : spares.

Lemma seen_at_cases t o : seen_at t o = o ∨
  seen_at t o = None ∧ ∃ v d, o = Some (mkEntry v (Some d)) ∧ d <= t.
Proof.
  destruct o as [[v [d|]]|]; cbn; unfold seen_at, unexpired; cbn; [|by left..].
  case_decide; [by left|]. right. split; [done|]. exists v, d. split; [done|lia].
Qed.

Section Window.
Context {DB : Type} `{!Redis DB, !RedisLaws DB, !RedisServer, !MonotoneServer}.
Local Abbreviation W := (HttpWorld DB).
Implicit Types (w : W).
(** A key of the counters, and a span of commands from the [n0]-th to the [N]-th that takes
    less than a minute. *)
Context (req0 : ThrottledRequest) (L : Z) (HL : 0 < L) (n0 N : nat) (Hspan : server_at N < server_at n0 + 60 * 1000).
Local Abbreviation key := (rate_key req0).
Local Abbreviation E := (server_at N).

(** How many requests can still pass, given what the key holds. *)
Definition budget (o : option entry) : Z :=
  match o with
  | Some (mkEntry (RText v) d) =>
      match int_of_text v with
      | Some c => Z.max 0 (L - c) + match d with Some D => if decide (D <= E) then L else 0 | None => 0 end
      | None => L
      end
  | _ => L
  end.

Lemma budget_range o : 0 <= budget o.
Proof. unfold budget. repeat case_match; lia. Qed.

Lemma budget_seen t o : t <= E → budget (seen_at t o) <= budget o.
Proof.
  intros Ht. destruct (seen_at_cases t o) as [->|[-> (v & d & -> & Hd)]]; [done|]. cbn.
  destruct v as [v| | |]; [|done..]. destruct (int_of_text v); [|done]. rewrite decide_True by lia. lia.
Qed.

Definition spends w w' : Prop :=
  (tick w <= tick w')%nat ∧ ((n0 <= tick w)%nat → (tick w' <= N)%nat → budget (held key w') <= budget (held key w)).

#[export] Instance spends_preorder : PreOrder spends.
Proof.
  split; [by intros w|]. intros w1 w2 w3 [H1 B1] [H2 B2]. split; [lia|]. intros.
  etrans; [apply B2|apply B1]; lia.
Qed.

Lemma spends_spared {A} (c : Z → DB → outcome A * DB) : spares key c → moves spends (command c).
Proof.
  intros Hc w. split; [rewrite tick_command; lia|]. intros Hn HN. rewrite tick_command in HN.
  rewrite (held_spared _ _ _ Hc). apply budget_seen, server_mono. lia.
Qed.

(** INCR spends one request when its result is within the limit. *)
Lemma budget_incr w : (n0 <= tick w)%nat → (S (tick w) <= N)%nat →
  let '(o, w') := command (cmd_incr key) w in
  budget (held key w') + (match o with Return c => if decide (c <= L) then 1 else 0 | Throw _ => 0 end) <= budget (held key w).
Proof.
  intros Hn HN. assert (∀ o, budget (seen_at (server_at (S (tick w))) o) <= budget o) as Hseen.
  { intros o. apply budget_seen, server_mono. done. }
  destruct (server_fault (tick w)) as [e|] eqn:Hf.
  { pose proof (held_fault key (cmd_incr key) w e Hf) as Hh. rewrite (command_fault _ _ _ Hf) in *. cbn [snd] in Hh.
    rewrite Hh. specialize (Hseen (held key w)). lia. }
  destruct (cmd_incr key (server_at (tick w)) (redis w)) as [o s] eqn:Hc.
  pose proof (held_run key _ w o s Hf Hc) as Hh. rewrite (command_run _ _ _ _ Hf Hc) in *. cbn [snd] in Hh. rewrite Hh.
  assert (live (server_at (S (tick w))) key (redis w) = seen_at (server_at (S (tick w))) (held key w)) as Hlater.
  { apply live_later, server_mono. lia. }
  unfold cmd_incr in Hc. fold (held key w) in Hc. clear Hh. destruct (held key w) as [[[v|l|m|l] d]|].
  - destruct (int_of_text v) as [c|] eqn:Hv; pair_inj Hc.
    + rewrite live_put, decide_True by done. etrans; [apply Z.add_le_mono_r, Hseen|]. unfold budget. rewrite int_of_text_pretty, Hv.
      repeat case_decide; lia.
    + rewrite Hlater. specialize (Hseen (Some (mkEntry (RText v) d))). lia.
  - pair_inj Hc. rewrite Hlater. specialize (Hseen (Some (mkEntry (RSet l) d))). lia.
  - pair_inj Hc. rewrite Hlater. specialize (Hseen (Some (mkEntry (RSorted m) d))). lia.
  - pair_inj Hc. rewrite Hlater. specialize (Hseen (Some (mkEntry (RList l) d))). lia.
  - pair_inj Hc. rewrite live_put, decide_True by done. etrans; [apply Z.add_le_mono_r, Hseen|].
    unfold budget. rewrite int_of_text_pretty. repeat case_decide; lia.
Qed.

Lemma spends_incr k : moves spends (command (cmd_incr k)).
Proof.
  destruct (decide (key = k)) as [<-|Hne]; [|apply spends_spared; auto with spares].
  intros w. split; [rewrite tick_command; lia|]. intros Hn HN. rewrite tick_command in HN.
  pose proof (budget_incr w Hn HN) as Hb. destruct (command (cmd_incr key) w) as [o w']. cbn.
  repeat case_match; lia.
Qed.

(** EXPIRE puts the end of the counter behind the end of the span. *)
Lemma spends_expire k : moves spends (command (cmd_expire k 60)).
Proof.
  destruct (decide (key = k)) as [<-|Hne]; [|apply spends_spared; auto with spares].
  intros w. split; [rewrite tick_command; lia|]. intros Hn HN. rewrite tick_command in HN.
  destruct (server_fault (tick w)) as [e|] eqn:Hf.
  { rewrite (held_fault key _ w e Hf). apply budget_seen, server_mono. lia. }
  destruct (cmd_expire key 60 (server_at (tick w)) (redis w)) as [o s] eqn:Hc.
  rewrite (held_run key _ w o s Hf Hc). unfold cmd_expire in Hc. fold (held key w) in Hc.
  assert (live (server_at (S (tick w))) key (redis w) = seen_at (server_at (S (tick w))) (held key w)) as Hlater.
  { apply live_later, server_mono. lia. }
  pose proof (server_mono n0 (tick w) ltac:(lia)).
  destruct (held key w) as [[v d]|]; pair_inj Hc; [|by rewrite Hlater].
  rewrite bool_decide_eq_true_2 by lia. rewrite live_put, decide_True by done.
  etrans; [apply budget_seen, server_mono; lia|]. unfold budget, e_value. destruct v as [v| | |]; [|done..]. destruct (int_of_text v); [|done].
  rewrite decide_False by lia. repeat case_match; lia.
Qed.

#[local] Hint Resolve spends_preorder spends_incr spends_expire : moves.
#[local] Hint Extern 1 (moves spends (command _)) => apply spends_spared; auto with spares : moves.

Lemma spends_setHeader name value : moves spends (setHeader name value).
Proof. by intros w. Qed.
#[local] Hint Resolve spends_setHeader : moves.

Lemma spends_checkBan x : moves spends (checkBan x).
Proof. unfold checkBan. moves_tac. Qed.
Lemma spends_registerViolation x : moves spends (registerViolation x).
Proof. unfold registerViolation. cbv zeta. moves_tac. Qed.
#[local] Hint Resolve spends_checkBan spends_registerViolation : moves.

(** What the guard does once it has counted the request. *)
Definition counted (req : ThrottledRequest) (current : Z) : eff W bool :=
  st ← ((if bool_decide (current = 1) then command (cmd_expire (rate_key req) (rc_window (config_of req))) ;; mret tt else mret tt) ;;
        ttl ← command (cmd_ttl (rate_key req));
        mret (mkRateStatus current (rc_limit (config_of req)) ttl));
  setHeader "X-RateLimit-Limit" (pretty (limit st)) ;;
  setHeader "X-RateLimit-Remaining" (pretty (Z.max 0 (limit st - Throttle.current st))) ;;
  setHeader "X-RateLimit-Reset" (pretty (ttl st)) ;;
  if bool_decide (Throttle.current st > limit st) then
    registerViolation (identifier_of req) ;;
    throw (HttpException "Rate limit exceeded" 429)
  else mret true.

Lemma throttle_counted req w :
  throttle_canActivate req w = (checkBan (identifier_of req) ;; c ← command (cmd_incr (rate_key req)); counted req c) w.
Proof.
  unfold throttle_canActivate. cbv zeta. apply bind_ext; [done|]. intros [] w'. symmetry.
  apply (bind_assoc (command (cmd_incr (rate_key req)))).
Qed.

Lemma spends_counted req c : moves spends (counted req c).
Proof. unfold counted. rewrite rc_window_config. moves_tac. Qed.
#[local] Hint Resolve spends_counted : moves.

Lemma counted_passes req c w w' : counted req c w = (Return true, w') → c <= rc_limit (config_of req).
Proof.
  intros Hrun. apply bind_returned in Hrun as (st & w1 & Hst & Hrun).
  apply bind_returned in Hst as (_ & w2 & _ & Hst). apply bind_returned in Hst as (t & w3 & _ & [= <- <-]).
  do 3 apply bind_returned in Hrun as (_ & ? & _ & Hrun). cbn in Hrun. case_bool_decide; [|lia].
  by apply bind_returned in Hrun as (_ & ? & _ & [=]).
Qed.

Lemma spends_guard req : moves spends (throttle_canActivate req).
Proof. intros w. rewrite throttle_counted. revert w. change (moves spends (checkBan (identifier_of req) ;; c ← command (cmd_incr (rate_key req)); counted req c)). moves_tac. Qed.

Lemma guard_passes req w w' : throttle_canActivate req w = (Return true, w') → rate_key req = key → rc_limit (config_of req) = L →
  (n0 <= tick w)%nat → (tick w' <= N)%nat → budget (held key w') + 1 <= budget (held key w).
Proof.
  rewrite throttle_counted. intros Hrun Hk HLc Hn HN. apply bind_returned in Hrun as ([] & w1 & Hban & Hrun).
  apply bind_returned in Hrun as (c & w2 & Hincr & Hrun). rewrite Hk in Hincr.
  pose proof (counted_passes _ _ _ _ Hrun) as Hc.
  pose proof (spends_checkBan (identifier_of req) w) as [T1 B1]. rewrite Hban in T1, B1.
  pose proof (spends_counted req c w2) as [T2 B2]. rewrite Hrun in T2, B2.
  pose proof (tick_command (cmd_incr key) w1) as Ht. pose proof (budget_incr w1) as Hi. rewrite Hincr in Ht, Hi.
  cbn [snd] in *. specialize (B1 Hn ltac:(lia)). specialize (Hi ltac:(lia) ltac:(lia)). specialize (B2 ltac:(lia) HN).
  rewrite decide_True in Hi by lia. lia.
Qed.

Lemma serve_spends reqs w : spends w (serve_requests reqs w).2.
Proof.
  revert w. induction reqs as [|req reqs IH]; intros w; [done|]. cbn [serve_requests]. pose proof (spends_guard req w) as Hr.
  destruct (throttle_canActivate req w) as [o w1]. specialize (IH w1). destruct (serve_requests reqs w1). cbn in *. by etrans.
Qed.

Lemma admitted_budget reqs w : (n0 <= tick w)%nat → (tick (serve_requests reqs w).2 <= N)%nat →
  admitted key L reqs (serve_requests reqs w).1 <= budget (held key w).
Proof.
  revert w. induction reqs as [|req reqs IH]; intros w Hn HN; [apply budget_range|].
  cbn [serve_requests] in HN |- *. pose proof (spends_guard req w) as [Ht Hb]. destruct (throttle_canActivate req w) as [o w1] eqn:Hrun.
  pose proof (serve_spends reqs w1) as [Ht1 _]. specialize (IH w1). destruct (serve_requests reqs w1) as [os w2].
  cbn [fst snd] in *. specialize (IH ltac:(lia) HN). specialize (Hb Hn ltac:(lia)).
  unfold admitted in *. change (zip (req :: reqs) (o :: os)) with ((req, o) :: zip reqs os). rewrite filter_cons.
  case_decide as Hp; [|lia].
  destruct o as [[]|]; [|done..]. destruct Hp as [Hk HLc]. cbn [length].
  pose proof (guard_passes _ _ _ Hrun Hk HLc Hn ltac:(lia)). lia.
Qed.
End Window.

(** A counter that does not hold a negative number; INCR never writes one. *)
Definition nonnegative (o : option entry) : Prop :=
  match o with Some (mkEntry (RText v) _) => default 0 (int_of_text v) >= 0 | _ => True end.

(** C28: whichever commands fail, requests that are served one after the other within less than a
    minute pass at most twice the limit under one key, and at most the limit when the key has no
    counter at the beginning. *)
Theorem throttle_window `{!Redis DB, !RedisLaws DB, !RedisServer, !MonotoneServer} req (reqs : list ThrottledRequest) (w w' : HttpWorld DB) os :
  serve_requests reqs w = (os, w') → server_at (tick w') < server_at (tick w) + 60 * 1000 →
  nonnegative (held (rate_key req) w) →
  let L := rc_limit (config_of req) in
  admitted (rate_key req) L reqs os <= 2 * L ∧
  (held (rate_key req) w = None → admitted (rate_key req) L reqs os <= L).
Proof.
  intros Hrun Hspan Hnn L. assert (0 < L) as HL by apply rc_limit_pos. clearbody L.
  pose proof (admitted_budget req L HL (tick w) (tick w') Hspan reqs w) as Hb. rewrite Hrun in Hb.
  specialize (Hb ltac:(done) ltac:(done)). cbn [fst] in Hb. split.
  - etrans; [exact Hb|]. unfold budget, nonnegative in *. destruct (held (rate_key req) w) as [[[v| | |] d]|]; try lia.
    destruct (int_of_text v); cbn in Hnn; [|lia]. repeat case_match; lia.
  - intros Hh. by rewrite Hh in Hb.
Qed.
