(* ===== verification/ThrottleBans.v ===== *)
(** How long the throttle bans a client: never for more than 32 minutes as long as Redis does
    its work and requests come one after the other; and what becomes of a counter whose time to live
    could not be set. *)
From S2P Require Import Prelude Json JsonParse Redis Throttle.
Open Scope Z_scope.

(** * Bans *)

Lemma unexpired_held {DB W} `{!Redis DB, !RedisLaws DB, !HasRedis DB W, !Ticking W, !RedisServer, !RedisLens DB W} k (w : W) v d :
  held k w = Some (mkEntry v (Some d)) → server_at (tick w) < d.
Proof. intros Hh. by apply live_unexpired in Hh. Qed.

Section Bans.
Context {DB : Type} `{!Redis DB, !RedisLaws DB, !RedisServer, !RedisUp, !MonotoneServer}.
Local Abbreviation W := (HttpWorld DB).
Implicit Types (w : W).
Context (x : string).

(** The end of the [n]-th ban at the earliest, when the counter of violations ends at [D]: the
    bans before it have lasted 4, 8, ... minutes. *)
Definition ban_bound (n D : Z) : Z := D - 3600 * 1000 + 60 * 1000 * (2 ^ n - 4).

(** The counter of violations at a time [t], and the ban that goes with it. *)
Definition violations_ok (t : Z) (v b : option entry) : Prop :=
  v = None ∨ ∃ n D, v = Some (mkEntry (RText (pretty n)) (Some D)) ∧ 1 <= n <= 6 ∧ D <= t + 3600 * 1000 ∧
    (3 <= n → t < ban_bound n D → ∃ d, b = Some (mkEntry (RText "1") (Some d)) ∧ ban_bound n D <= d).
Definition ban_ok (t : Z) (b : option entry) : Prop :=
  b = None ∨ ∃ d, b = Some (mkEntry (RText "1") (Some d)) ∧ d <= t + 32 * 60 * 1000.
(** The same for a client that is not banned: one violation more can be counted. *)
Definition violations_free (t : Z) (v : option entry) : Prop :=
  v = None ∨ ∃ n D, v = Some (mkEntry (RText (pretty n)) (Some D)) ∧ 1 <= n <= 5 ∧ D <= t + 3600 * 1000 ∧
    (3 <= n → ban_bound n D <= t).

Lemma violations_ok_later t t' v b : t <= t' → violations_ok t v b → violations_ok t' (seen_at t' v) (seen_at t' b).
Proof.
  intros Ht [->|(n & D & -> & Hn & HD & Hb)]; [by left|]. unfold seen_at at 1. cbn. case_decide; [right|by left].
  exists n, D. split_and!; [done|lia|lia|lia|]. intros H3 Hlt. destruct Hb as (d & -> & Hd); [done|lia|]. exists d.
  split; [|done]. cbn. rewrite decide_True; [done|]. cbn. lia.
Qed.
Lemma ban_ok_later t t' b : t <= t' → ban_ok t b → ban_ok t' (seen_at t' b).
Proof.
  intros Ht [->|(d & -> & Hd)]; [by left|]. unfold seen_at. cbn. case_decide; [right|by left]. exists d. split; [done|lia].
Qed.
Lemma violations_free_later t t' v : t <= t' → violations_free t v → violations_free t' (seen_at t' v).
Proof.
  intros Ht [->|(n & D & -> & Hn & HD & Hb)]; [by left|]. unfold seen_at. cbn. case_decide; [right|by left].
  exists n, D. split_and!; [done|lia|lia|lia|]. intros H3. specialize (Hb H3). lia.
Qed.

Local Abbreviation vk := (violations_key x).
Local Abbreviation bk := (buildBanKey x).

Definition clients_ok w : Prop :=
  violations_ok (server_at (tick w)) (held vk w) (held bk w) ∧ ban_ok (server_at (tick w)) (held bk w).
Definition not_banned w : Prop := violations_free (server_at (tick w)) (held vk w) ∧ held bk w = None.

Lemma not_banned_ok w : not_banned w → clients_ok w.
Proof.
  intros [Hv Hb]. split; [|by left]. destruct Hv as [Hv|(n & D & Hv & Hn & HD & Hbd)]; [by left|right].
  exists n, D. split_and!; [done|lia|lia|lia|]. intros H3 Hlt. specialize (Hbd H3). lia.
Qed.
Lemma ok_not_banned w : clients_ok w → held bk w = None → not_banned w.
Proof.
  intros [Hv _] Hb. split; [|done]. destruct Hv as [->|(n & D & Hv & Hn & HD & Hbd)]; [by left|right].
  pose proof (unexpired_held _ _ _ _ Hv) as Hlive. exists n, D.
  assert (3 <= n → ban_bound n D <= server_at (tick w)) as Hfree.
  { intros H3. destruct (decide (server_at (tick w) < ban_bound n D)) as [Hlt|]; [|lia].
    destruct (Hbd H3 Hlt) as (d & Hd & _). congruence. }
  split_and!; [done|lia| |lia|done]. destruct (decide (n = 6)) as [->|]; [|lia].
  specialize (Hfree ltac:(lia)). unfold ban_bound in Hfree. lia.
Qed.

(** Where [P] holds, [m] ends with [Q] or throws where the client is in order. *)
Definition triple {A} (P : W → Prop) (m : eff W A) (Q : A → W → Prop) : Prop := ∀ w, P w →
  match m w with (Return a, w') => Q a w' | (Throw _, w') => clients_ok w' end.

Lemma triple_bind {A B} P (m : eff W A) R (f : A → eff W B) Q :
  triple P m R → (∀ a, triple (R a) (f a) Q) → triple P (m ≫= f) Q.
Proof.
  intros Hm Hf w Hw. specialize (Hm w Hw). unfold mbind, eff_bind. destruct (m w) as [[a|e] w']; [|done]. by apply Hf.
Qed.
Lemma triple_ret {A} P (a : A) Q : (∀ w, P w → Q a w) → triple P (mret a) Q.
Proof. by intros Hpq w Hw; apply Hpq. Qed.
Lemma triple_weaken {A} P P' (m : eff W A) Q Q' :
  triple P m Q → (∀ w, P' w → P w) → (∀ a w, Q a w → Q' a w) → triple P' m Q'.
Proof. intros Hm Hp Hq w Hw. specialize (Hm w (Hp w Hw)). destruct (m w) as [[a|e] w']; [by apply Hq|done]. Qed.

(** Commands on other keys. *)
Lemma not_banned_spared {A} (c : Z → DB → outcome A * DB) w :
  spares vk c → spares bk c → not_banned w → not_banned (command c w).2.
Proof.
  intros Hv Hb [Hfree Hban]. split; rewrite ?(held_spared _ _ _ Hv), ?(held_spared _ _ _ Hb).
  - rewrite tick_command. apply (violations_free_later (server_at (tick w))); [apply server_mono; lia|done].
  - by rewrite Hban.
Qed.
Lemma clients_ok_spared {A} (c : Z → DB → outcome A * DB) w :
  spares vk c → spares bk c → clients_ok w → clients_ok (command c w).2.
Proof.
  intros Hv Hb [Hok Hban]. pose proof (server_mono (tick w) (S (tick w)) ltac:(lia)).
  split; rewrite ?(held_spared _ _ _ Hv), (held_spared _ _ _ Hb), tick_command; [by apply (violations_ok_later (server_at (tick w)))|by apply (ban_ok_later (server_at (tick w)))].
Qed.

Definition banned_free {A} (_ : A) w : Prop := not_banned w.

Lemma triple_spared {A} (c : Z → DB → outcome A * DB) :
  spares vk c → spares bk c → triple not_banned (command c) banned_free.
Proof.
  intros Hv Hb w Hw. pose proof (not_banned_spared c w Hv Hb Hw) as H'.
  destruct (command c w) as [[a|e] w']; [done|by apply not_banned_ok].
Qed.
Lemma triple_setHeader name value : triple not_banned (setHeader name value) banned_free.
Proof. by intros w Hw. Qed.

Lemma triple_checkBan : triple clients_ok (checkBan x) banned_free.
Proof.
  intros w Hw. unfold checkBan. fold bk.
  pose proof (clients_ok_spared (cmd_get bk) w ltac:(auto with spares) ltac:(auto with spares) Hw) as Hok.
  pose proof (held_spared bk (cmd_get bk) w ltac:(auto with spares)) as Hheld.
  unfold mbind, eff_bind. rewrite command_up in *. unfold cmd_get in *. fold (held bk w) in *. cbn [snd] in *.
  destruct Hw as [_ [Hb|(d & Hb & _)]]; rewrite Hb in *; [by apply ok_not_banned|done].
Qed.

(** A violation of a client that is not banned. *)
Lemma triple_registerViolation : triple not_banned (registerViolation x) (λ _, clients_ok).
Proof.
  intros w [Hv Hb]. unfold registerViolation. cbv zeta. fold vk bk.
  destruct Hv as [Hv|(n & D & Hv & Hn & HD & Hbound)].
  - destruct (run_incr_none vk w Hv) as (w1 & Hrun1 & Ht1 & Hv1 & Ho1). rewrite (bind_run _ _ _ _ _ Hrun1).
    rewrite (bool_decide_eq_true_2 (1 = 1)) by done.
    destruct (run_expire vk w1 _ _ 3600 Hv1 ltac:(done)) as (w2 & Hrun2 & Ht2 & Hv2 & Ho2).
    rewrite (bind_run _ _ w1 tt w2) by (by rewrite (bind_run _ _ _ _ _ Hrun2)).
    rewrite bool_decide_eq_false_2 by (unfold MAX_VIOLATIONS; lia). apply not_banned_ok. split.
    + rewrite Hv2, Ht2. pose proof (server_mono (tick w1) (S (tick w1)) ltac:(lia)).
      apply (violations_free_later (server_at (tick w1))); [done|]. right. eexists _, _. split_and!; [done|lia|lia|lia|lia].
    + by rewrite Ho2, Ho1, Hb by done.
  - destruct (run_incr_some vk w n (Some D) Hv) as (w1 & Hrun1 & Ht1 & Hv1 & Ho1). rewrite (bind_run _ _ _ _ _ Hrun1).
    rewrite (bool_decide_eq_false_2 (n + 1 = 1)) by lia. rewrite bind_mret.
    pose proof (server_mono (tick w) (tick w1) ltac:(lia)) as Hm1.
    case_bool_decide as H3; unfold MAX_VIOLATIONS in H3.
    + assert (0 < 2 ^ (n + 1 - 1) <= 2 ^ 5) as Hpow by (split; [apply Z.pow_pos_nonneg|apply Z.pow_le_mono_r]; lia).
      destruct (run_setEx bk w1 (BASE_BAN_SECONDS * 2 ^ (n + 1 - 1)) "1") as (w2 & Hrun2 & Ht2 & Hb2 & Ho2).
      { unfold BASE_BAN_SECONDS. lia. }
      rewrite Hrun2. pose proof (server_mono (tick w1) (tick w2) ltac:(lia)) as Hm2. unfold BASE_BAN_SECONDS in Hb2.
      change (2 ^ 5) with 32 in Hpow. split; rewrite Hb2.
      * rewrite Ho2, Hv1 by done. apply (violations_ok_later (server_at (tick w1))); [done|].
        destruct (seen_at_cases (server_at (tick w1)) (Some (mkEntry (RText (pretty (n + 1))) (Some D)))) as [->|[-> _]]; [right|by left].
        exists (n + 1), D. split_and!; [done|lia|lia|lia|]. intros _ _. eexists. split; [done|].
        replace (n + 1 - 1) with n in * by lia. unfold ban_bound in *. rewrite Z.pow_add_r by lia.
        destruct (decide (n = 2)) as [->|]; [lia|]. specialize (Hbound ltac:(lia)). lia.
      * apply (ban_ok_later (server_at (tick w1))); [done|]. right. eexists. split; [done|]. lia.
    + apply not_banned_ok. split; [|by rewrite Ho1, Hb]. rewrite Hv1.
      apply (violations_free_later (server_at (tick w))); [done|]. right. exists (n + 1), D. split_and!; [done|lia..].
Qed.

(** The guard, for a request of this client and for one of another. *)
Lemma triple_counted req c : identifier_of req = x → triple not_banned (counted req c) (λ _, clients_ok).
Proof.
  intros Hx. unfold counted. eapply triple_bind.
  { eapply triple_bind; [|intros ?; eapply triple_bind; [apply triple_spared; auto with spares|]].
    - case_bool_decide; [|by apply (triple_ret _ _ banned_free)].
      eapply triple_bind; [apply triple_spared; auto with spares|]. intros ?. by apply (triple_ret _ _ banned_free).
    - intros ?. by apply (triple_ret _ _ banned_free). }
  intros st. do 3 (eapply triple_bind; [apply triple_setHeader|]; intros []). rewrite Hx. case_bool_decide.
  - eapply triple_bind; [apply triple_registerViolation|]. by intros [] w Hw.
  - apply triple_ret, not_banned_ok.
Qed.

Lemma clients_guard_own req : identifier_of req = x → keeps clients_ok (throttle_canActivate req) anything.
Proof.
  intros Hx w Hw. rewrite throttle_counted. split; [|done].
  assert (triple clients_ok (checkBan (identifier_of req) ;; c ← command (cmd_incr (rate_key req)); counted req c) (λ _, clients_ok)) as Ht.
  { rewrite Hx. eapply triple_bind; [apply triple_checkBan|]. intros []. eapply triple_bind; [apply triple_spared; auto with spares|].
    intros c. by apply triple_counted. }
  specialize (Ht w Hw). by destruct ((checkBan _ ;; _) w) as [[a|e] w'].
Qed.

Lemma buildBanKey_inj y : y ≠ x → bk ≠ buildBanKey y.
Proof. intros Hne [= Heq]. done. Qed.
Lemma violations_key_inj y : y ≠ x → vk ≠ violations_key y.
Proof. intros Hne [= Heq]. done. Qed.

Lemma keeps_spared {A} (c : Z → DB → outcome A * DB) : spares vk c → spares bk c → keeps clients_ok (command c) anything.
Proof. intros Hv Hb w Hw. split; [by apply clients_ok_spared|done]. Qed.

Lemma clients_guard_other req : identifier_of req ≠ x → keeps clients_ok (throttle_canActivate req) anything.
Proof.
  intros Hx. pose proof (buildBanKey_inj _ Hx). pose proof (violations_key_inj _ Hx).
  assert (∀ A (c : Z → DB → outcome A * DB), spares vk c → spares bk c → moves (λ w w', clients_ok w → clients_ok w') (command c)) as Hc.
  { intros A c Hv Hb w Hw. by apply clients_ok_spared. }
  assert (PreOrder (λ w w' : W, clients_ok w → clients_ok w')) as Hpre by (split; [by intros ?|intros ?; naive_solver]).
  assert (∀ name value, moves (λ w w', clients_ok w → clients_ok w') (setHeader name value)) as Hset by by intros ? ? w.
  assert (moves (λ w w', clients_ok w → clients_ok w') (throttle_canActivate req)) as Hm; [|by intros w Hw; split; [apply Hm|]].
  unfold throttle_canActivate, checkBan, throttle_checkRateLimit, registerViolation. cbv zeta.
  repeat first [apply Hset | apply Hc; solve [auto with spares] | progress moves_tac].
Qed.

Lemma clients_serve reqs w : clients_ok w → clients_ok (serve_requests reqs w).2.
Proof.
  revert w. induction reqs as [|req reqs IH]; intros w Hw; [done|]. cbn [serve_requests].
  assert (clients_ok (throttle_canActivate req w).2) as Hw1.
  { destruct (decide (identifier_of req = x)); [by apply clients_guard_own|by apply clients_guard_other]. }
  destruct (throttle_canActivate req w) as [o w1]. specialize (IH w1 Hw1). by destruct (serve_requests reqs w1).
Qed.
End Bans.

(** C8: when requests are served one after the other from an empty Redis that does its work, no
    client ever has more than six violations on its account, and no ban lasts longer than 32
    minutes, although the length of a ban doubles with every violation: bans outlast the counter. *)
Theorem ban_bounded `{!Redis DB, !RedisLaws DB, !RedisServer, !RedisUp, !MonotoneServer}
    (reqs : list ThrottledRequest) (w w' : HttpWorld DB) os x :
  (∀ k, held k w = None) → serve_requests reqs w = (os, w') →
  (∀ e, held (violations_key x) w' = Some e →
    ∃ n D, e = mkEntry (RText (pretty n)) (Some D) ∧ 1 <= n <= 6 ∧ D <= server_at (tick w') + 3600 * 1000) ∧
  (∀ e, held (buildBanKey x) w' = Some e →
    ∃ d, e = mkEntry (RText "1") (Some d) ∧ d <= server_at (tick w') + 32 * 60 * 1000).
Proof.
  intros Hempty Hrun. assert (clients_ok x w) as Hw by (split; left; apply Hempty).
  pose proof (clients_serve x reqs w Hw) as [Hv Hb]. rewrite Hrun in Hv, Hb. cbn [snd] in Hv, Hb. split.
  - intros e He. destruct Hv as [Hv|(n & D & Hv & Hn & HD & _)]; [congruence|]. exists n, D. split; [congruence|done].
  - intros e He. destruct Hb as [Hb|(d & Hb & Hd)]; [congruence|]. exists d. split; [congruence|done].
Qed.


(** * Counters without an end *)

Section Stuck.
Context {DB : Type} `{!Redis DB, !RedisLaws DB, !RedisServer, !MonotoneServer}.
Local Abbreviation W := (HttpWorld DB).
Implicit Types (w : W).
Context (req0 : ThrottledRequest).
Local Abbreviation key := (rate_key req0).
Local Abbreviation L := (rc_limit (config_of req0)).

Definition endless (c : Z) w : Prop := held key w = Some (mkEntry (RText (pretty c)) None).
Definition stays_endless w w' : Prop := ∀ c, 1 <= c → endless c w → ∃ c', c <= c' ∧ endless c' w'.

#[local] Instance stays_endless_preorder : PreOrder stays_endless.
Proof.
  split; [intros w c ? ?; by exists c|]. intros w1 w2 w3 H12 H23 c Hc Hw.
  destruct (H12 c Hc Hw) as (c2 & ? & Hw2). destruct (H23 c2 ltac:(lia) Hw2) as (c3 & ? & ?). exists c3. split; [lia|done].
Qed.

Lemma endless_spared {A} (cmd : Z → DB → outcome A * DB) : spares key cmd → moves stays_endless (command cmd).
Proof.
  intros Hs w c Hc Hw. exists c. split; [done|]. unfold endless in *. by rewrite (held_spared _ _ _ Hs), Hw.
Qed.
#[local] Hint Resolve stays_endless_preorder : moves.
#[local] Hint Extern 1 (moves stays_endless (command _)) => apply endless_spared; solve [auto with spares] : moves.

Lemma endless_setHeader name value : moves stays_endless (setHeader name value).
Proof. intros w c Hc Hw. by exists c. Qed.
Lemma endless_checkBan x : moves stays_endless (checkBan x).
Proof. unfold checkBan. moves_tac. Qed.
Lemma endless_registerViolation x : moves stays_endless (registerViolation x).
Proof. unfold registerViolation. cbv zeta. moves_tac. Qed.
#[local] Hint Resolve endless_setHeader endless_checkBan endless_registerViolation : moves.

(** Only the first request of a counter sets its time to live. *)
Lemma endless_counted req n : (rate_key req = key → n ≠ 1) → moves stays_endless (counted req n).
Proof.
  intros Hn. unfold counted. destruct (decide (rate_key req = key)) as [Hk|Hk].
  - rewrite bool_decide_eq_false_2 by auto. moves_tac.
  - assert (key ≠ rate_key req) by done. moves_tac.
Qed.

Lemma endless_incr w c : 1 <= c → endless c w →
  (∃ e w', command (cmd_incr key) w = (Throw e, w') ∧ endless c w') ∨
  (∃ w', command (cmd_incr key) w = (Return (c + 1), w') ∧ endless (c + 1) w').
Proof.
  intros Hc Hw. destruct (server_fault (tick w)) as [e|] eqn:Hf.
  - left. exists e, (command (cmd_incr key) w).2. split; [by rewrite (command_fault _ _ _ Hf)|].
    unfold endless in *. by rewrite (held_fault _ _ _ _ Hf), Hw.
  - right. assert (cmd_incr key (server_at (tick w)) (redis w) = (Return (c + 1), put key (RText (pretty (c + 1))) None (redis w))) as Hrun.
    { unfold cmd_incr. fold (held key w). by rewrite Hw, int_of_text_pretty. }
    exists (command (cmd_incr key) w).2. split; [by rewrite (command_run _ _ _ _ Hf Hrun)|].
    unfold endless. rewrite (held_run _ _ _ _ _ Hf Hrun), live_put. by rewrite decide_True.
Qed.

(** A request under this key counts, and passes only within the limit; others leave it alone. *)
Lemma endless_guard req w c o w' : 1 <= c → endless c w → throttle_canActivate req w = (o, w') →
  ∃ c', c <= c' ∧ endless c' w' ∧ (passed key L (req, o) → c < c' ∧ c < L).
Proof.
  intros Hc Hw Hrun. destruct (decide (rate_key req = key)) as [Hk|Hk].
  - rewrite throttle_counted in Hrun. pose proof (endless_checkBan (identifier_of req) w c Hc Hw) as (c1 & Hc1 & Hw1).
    unfold mbind, eff_bind in Hrun. destruct (checkBan (identifier_of req) w) as [[[]|e] w1]; [|pair_inj Hrun; by exists c1].
    rewrite Hk in Hrun. cbn [snd] in Hw1.
    destruct (endless_incr w1 c1 ltac:(lia) Hw1) as [(e & w2 & Hi & Hw2)|(w2 & Hi & Hw2)]; rewrite Hi in Hrun; [pair_inj Hrun; by exists c1|].
    pose proof (endless_counted req (c1 + 1) ltac:(intros; lia) w2 (c1 + 1) ltac:(lia) Hw2) as (c3 & Hc3 & Hw3).
    rewrite Hrun in Hw3. exists c3. split_and!; [lia|done|]. intros Hp. destruct o as [[]|]; [|done..].
    destruct Hp as [_ HL]. pose proof (counted_passes _ _ _ _ Hrun). cbn in HL. lia.
  - assert (moves stays_endless (throttle_canActivate req)) as Hm.
    { intros v. rewrite throttle_counted. revert v.
      change (moves stays_endless (checkBan (identifier_of req) ;; n ← command (cmd_incr (rate_key req)); counted req n)).
      apply moves_bind; [apply _|apply endless_checkBan|]. intros _. apply moves_bind; [apply _|apply endless_spared; auto with spares|].
      intros n. by apply endless_counted. }
    destruct (Hm w c Hc Hw) as (c' & Hc' & Hw'). rewrite Hrun in Hw'. exists c'. split_and!; [done..|].
    destruct o as [[]|]; [|done..]. by intros [? _].
Qed.

Lemma endless_admitted reqs w c : 1 <= c → endless c w → admitted key L reqs (serve_requests reqs w).1 <= Z.max 0 (L - c).
Proof.
  revert w c. induction reqs as [|req reqs IH]; intros w c Hc Hw; [apply Z.le_max_l|]. cbn [serve_requests].
  destruct (throttle_canActivate req w) as [o w1] eqn:Hrun. destruct (endless_guard req w c o w1 Hc Hw Hrun) as (c1 & Hc1 & Hw1 & Hp).
  specialize (IH w1 c1 ltac:(lia) Hw1). destruct (serve_requests reqs w1) as [os w2]. cbn [fst] in *. unfold admitted in *.
  change (zip (req :: reqs) (o :: os)) with ((req, o) :: zip reqs os). rewrite filter_cons. case_decide as Hd; [|lia].
  specialize (Hp Hd). cbn [length]. lia.
Qed.
End Stuck.

(** when the EXPIRE that follows the first request of a counter fails, the counter stays for
    good: however long one waits and whatever else fails, fewer requests than the limit pass under this
    key ever after. *)
Theorem expire_failure_locks `{!Redis DB, !RedisLaws DB, !RedisServer, !MonotoneServer} req (w : HttpWorld DB) e :
  held (rate_key req) w = None → held (buildBanKey (identifier_of req)) w = None →
  server_fault (tick w) = None → server_fault (S (tick w)) = None → server_fault (S (S (tick w))) = Some e →
  ∃ w1, throttle_canActivate req w = (Throw e, w1) ∧
    ∀ reqs os w2, serve_requests reqs w1 = (os, w2) →
      admitted (rate_key req) (rc_limit (config_of req)) reqs os < rc_limit (config_of req).
Proof.
  intros Hk Hb Hf0 Hf1 Hf2. set (key := rate_key req) in *.
  assert (cmd_get (buildBanKey (identifier_of req)) (server_at (tick w)) (redis w) = (Return None, redis w)) as Hget.
  { unfold cmd_get. fold (held (buildBanKey (identifier_of req)) w). by rewrite Hb. }
  set (w1 := (command (cmd_get (buildBanKey (identifier_of req))) w).2).
  assert (checkBan (identifier_of req) w = (Return tt, w1)) as Hban.
  { unfold checkBan. rewrite (bind_run _ _ w None w1); [done|]. unfold w1. by rewrite (command_run _ _ _ _ Hf0 Hget). }
  assert (held key w1 = None) as Hk1 by (unfold w1; rewrite held_spared, Hk by auto with spares; done).
  assert (tick w1 = S (tick w)) as Ht1 by apply tick_command.
  assert (cmd_incr key (server_at (tick w1)) (redis w1) = (Return 1, put key (RText (pretty 1)) None (redis w1))) as Hincr.
  { unfold cmd_incr. fold (held key w1). by rewrite Hk1. }
  rewrite <-Ht1 in Hf1, Hf2. set (w2 := (command (cmd_incr key) w1).2).
  assert (endless req 1 w2) as Hw2.
  { unfold endless, w2. rewrite (held_run _ _ _ _ _ Hf1 Hincr), live_put. by rewrite decide_True. }
  assert (tick w2 = S (tick w1)) as Ht2 by apply tick_command. rewrite <-Ht2 in Hf2.
  exists (advance w2). split.
  - rewrite throttle_counted, (bind_run _ _ _ _ _ Hban).
    assert (command (cmd_incr key) w1 = (Return 1, w2)) as Hrun1 by (unfold w2; by rewrite (command_run _ _ _ _ Hf1 Hincr)).
    rewrite (bind_run _ _ _ _ _ Hrun1).
    unfold counted. rewrite (bool_decide_eq_true_2 (1 = 1)) by done. apply bind_throw, bind_throw, bind_throw. by apply command_fault.
  - intros reqs os w3 Hrun. pose proof (endless_admitted req reqs (advance w2) 1 ltac:(lia)) as Ha.
    rewrite Hrun in Ha. cbn [fst] in Ha. pose proof (rc_limit_pos req).
    assert (endless req 1 (advance w2)) as Hadv; [|specialize (Ha Hadv); unfold key; lia].
    pose proof (held_fault key (cmd_get key) w2 e Hf2) as Hh. rewrite (command_fault _ _ _ Hf2) in Hh. cbn [snd] in Hh.
    unfold endless in *. fold key in Hw2 |- *. by rewrite Hh, Hw2.
Qed.
