(* ===== verification/RateLimit.v ===== *)
(** The rate limit of the authentication routes ([auth/services/rate-limit.service.ts],
    [auth/guards/rate-limit.guard.ts]): a sliding window in a sorted set, one member per request,
    named after the millisecond it came in. *)
From S2P Require Import Prelude Json JsonParse Redis Throttle.
Open Scope Z_scope.

(** * [RateLimitService] *)

(** [resetAt] is a [Date]; [None] is an invalid one. *)
Record RateVerdict := mkRateVerdict { allowed : bool; remaining : Z; resetAt : option Z }.

Definition generateKeyForIp (ip endpoint : string) : string := "ip:" +:+ ip +:+ ":" +:+ endpoint.
Definition generateKeyForUser (userId endpoint : string) : string := "user:" +:+ userId +:+ ":" +:+ endpoint.

Section RateLimitService.
Context {DB W : Type} `{!Redis DB, !HasRedis DB W, !Ticking W, !RedisServer, !Clock}.

Definition limit_key (key : string) : string := "rate_limit:" +:+ key.

(** The body of the [try] block. *)
Definition countRequest (redisKey : string) (limit windowSeconds now : Z) : eff W RateVerdict :=
  let windowStart := now - windowSeconds * 1000 in
  command (cmd_zRemRangeByScore redisKey 0 windowStart) ;;
  requestCount ← command (cmd_zCard redisKey);
  if bool_decide (requestCount >= limit) then
    oldestEntry ← command (cmd_zRange_first redisKey);
    let resetTime := match oldestEntry with
                     | e :: _ => (λ z, z + windowSeconds * 1000) <$> parseInt e
                     | [] => Some (now + windowSeconds * 1000)
                     end in
    mret (mkRateVerdict false 0 resetTime)
  else
    command (cmd_zAdd redisKey now (pretty now)) ;;
    command (cmd_expire redisKey windowSeconds) ;;
    mret (mkRateVerdict true (limit - requestCount - 1) (Some (now + windowSeconds * 1000))).

Definition limit_checkRateLimit (key : string) (limit windowSeconds : Z) : eff W RateVerdict :=
  let redisKey := limit_key key in
  now ← date_now;
  try_catch (countRequest redisKey limit windowSeconds now)
    (λ _, mret (mkRateVerdict true limit (Some (now + windowSeconds * 1000)))).

Definition resetRateLimit (key : string) : eff W unit :=
  try_catch (command (cmd_del [limit_key key]) ;; mret tt) (λ _, mret tt).
End RateLimitService.

(** * [RateLimitGuard] *)

Record RateLimitOptions := mkRateLimitOptions {
  ro_limit : Z;
  ro_windowSeconds : Z;
  ro_keyPrefix : option string;
}.

(** A request for a handler, with the options its [@RateLimit] decorator has left. *)
Record LimitedRequest := mkLimitedRequest {
  lr_ip : option string;
  lr_remoteAddress : string;
  lr_handler : string;
  lr_options : option RateLimitOptions;
}.

Section RateLimitGuard.
Context {DB : Type} `{!Redis DB, !RedisServer, !Clock}.
Local Abbreviation W := (HttpWorld DB).

(** [date.toISOString()] *)
Definition toISOString (d : option Z) : eff W string :=
  match d with Some t => mret (iso_time t) | None => throw (Exn "RangeError" "Invalid time value") end.

Definition limit_canActivate (req : LimitedRequest) : eff W bool :=
  match lr_options req with
  | None => mret true
  | Some options =>
      let ip := or_string (lr_ip req) (lr_remoteAddress req) in
      let keyPrefix := or_string (ro_keyPrefix options) (lr_handler req) in
      let key := generateKeyForIp ip keyPrefix in
      result ← limit_checkRateLimit key (ro_limit options) (ro_windowSeconds options);
      setHeader "X-RateLimit-Limit" (pretty (ro_limit options)) ;;
      setHeader "X-RateLimit-Remaining" (pretty (remaining result)) ;;
      reset ← toISOString (resetAt result);
      setHeader "X-RateLimit-Reset" reset ;;
      if negb (allowed result) then throw (HttpException "Too many requests" 429) else mret true
  end.
End RateLimitGuard.

(** * It fails open *)

Section Theory.
Context {DB : Type} `{!Redis DB, !RedisLaws DB, !RedisServer, !Clock}.
Local Abbreviation W := (RedisWorld DB).
Implicit Types (w : W).

Lemma check_run key limit windowSeconds w : ∃ v w',
  limit_checkRateLimit key limit windowSeconds w = (Return v, w') ∧
  match countRequest (limit_key key) limit windowSeconds (clock_at (tick w)) (advance w) with
  | (Return v', w1) => v = v' ∧ w' = w1
  | (Throw _, w1) => v = mkRateVerdict true limit (Some (clock_at (tick w) + windowSeconds * 1000)) ∧ w' = w1
  end.
Proof.
  unfold limit_checkRateLimit. cbv zeta. rewrite (bind_run _ _ w (clock_at (tick w)) (advance w)) by done. unfold try_catch.
  destruct (countRequest _ _ _ _ (advance w)) as [[v|e] w1]; eexists _, _; split; [done..| |]; done.
Qed.

(** Checks one after the other. *)
Record RateCheck := mkRateCheck { ck_key : string; ck_limit : Z; ck_window : Z }.
Fixpoint check_all (calls : list RateCheck) w : list bool * W :=
  match calls with
  | [] => ([], w)
  | c :: calls =>
      match limit_checkRateLimit (ck_key c) (ck_limit c) (ck_window c) w with
      | (Return v, w1) => let '(l, w2) := check_all calls w1 in (allowed v :: l, w2)
      | (Throw _, w1) => ([], w1)
      end
  end.
(** How many of the checks of a key were answered with yes. *)
Definition granted (key : string) (calls : list RateCheck) (l : list bool) : Z :=
  Z.of_nat (length (filter (λ cb, ck_key cb.1 = key ∧ cb.2 = true) (zip calls l))).

(** * The window *)

Section Span.
Context `{!RedisUp, !MonotoneServer}.
(** A key with its options, and a span of commands from the [n0]-th to the [N]-th that takes
    less than the window, on the clock of the server and on that of the program. *)
Context (key : string) (L T : Z) (HT : 0 < T) (n0 N : nat).
Context (Hserver : server_at N < server_at n0 + T * 1000).
Local Abbreviation k := (limit_key key).

Definition outlives (d : option Z) : Prop := match d with Some D => server_at N < D | None => True end.

(** The entries of the window, which stay there until the end of the span. *)
Definition window_holds (m : gmap string Z) w : Prop :=
  m = ∅ ∧ held k w = None ∨ ∃ d, held k w = Some (mkEntry (RSorted m) d) ∧ outlives d.

Lemma outlives_seen n v d : (n <= N)%nat → outlives d → seen_at (server_at n) (Some (mkEntry v d)) = Some (mkEntry v d).
Proof.
  intros Hn Hd. unfold seen_at. cbn. rewrite decide_True; [done|]. destruct d as [D|]; [|done]. cbn in *.
  pose proof (server_mono n N Hn). unfold unexpired. cbn. lia.
Qed.

Lemma window_spared {A} (c : Z → DB → outcome A * DB) m w :
  (S (tick w) <= N)%nat → spares k c → window_holds m w → window_holds m (command c w).2.
Proof.
  intros HN Hc [[-> Hw]|(d & Hw & Hd)]; [left|right]; rewrite (held_spared _ _ _ Hc), Hw; [done|].
  exists d. split; [by apply outlives_seen|done].
Qed.

(** A command on the key returns [a] and leaves the entries [m]. *)
Definition enters {A} (cmd : Z → DB → outcome A * DB) w (P : A → Prop) (m : gmap string Z) : Prop := ∃ a w',
  command cmd w = (Return a, w') ∧ tick w' = S (tick w) ∧ P a ∧ window_holds m w'.

Lemma enters_intro {A} (cmd : Z → DB → outcome A * DB) w P m a s :
  cmd (server_at (tick w)) (redis w) = (Return a, s) → P a →
  (m = ∅ ∧ live (server_at (S (tick w))) k s = None ∨
   ∃ d, live (server_at (S (tick w))) k s = Some (mkEntry (RSorted m) d) ∧ outlives d) →
  enters cmd w P m.
Proof.
  intros Hc HP Hm. exists a, (command cmd w).2. rewrite tick_command. split_and!; [by rewrite command_up, Hc|done..|].
  unfold window_holds. by rewrite (held_run _ _ _ _ _ (redis_up _) Hc).
Qed.

Lemma enters_read {A} (cmd : Z → DB → outcome A * DB) m w a (P : A → Prop) :
  (S (tick w) <= N)%nat → window_holds m w → cmd (server_at (tick w)) (redis w) = (Return a, redis w) → P a → enters cmd w P m.
Proof.
  intros HN Hw Hc HP. eapply enters_intro; [exact Hc|done|].
  rewrite (live_later (server_at (tick w))) by (apply server_mono; lia). fold (held k w).
  destruct Hw as [[-> ->]|(d & -> & Hd)]; [by left|right]. exists d. by rewrite outlives_seen.
Qed.

Lemma enters_zCard m w : (S (tick w) <= N)%nat → window_holds m w →
  enters (cmd_zCard k) w (λ n, n = Z.of_nat (size m)) m.
Proof.
  intros HN Hw. eapply (enters_read _ _ _ (Z.of_nat (size m))); [done..| |done]. unfold cmd_zCard. fold (held k w).
  by destruct Hw as [[-> ->]|(d & -> & Hd)].
Qed.
Lemma enters_zRange m w : (S (tick w) <= N)%nat → window_holds m w → enters (cmd_zRange_first k) w (λ _, True) m.
Proof.
  intros HN Hw. unfold enters. destruct Hw as [[-> Hh]|(d & Hh & Hd)].
  - apply (enters_read _ _ _ []); [done|by left| |done]. unfold cmd_zRange_first. fold (held k w). by rewrite Hh.
  - apply (enters_read _ _ _ (lowest m)); [done|right; by exists d| |done]. unfold cmd_zRange_first. fold (held k w). by rewrite Hh.
Qed.
Lemma enters_zRem a b m w : (S (tick w) <= N)%nat → window_holds m w →
  enters (cmd_zRemRangeByScore k a b) w (λ _, True) (filter (outside a b) m).
Proof.
  intros HN [[-> Hw]|(d & Hw & Hd)].
  - rewrite map_filter_empty. apply (enters_read _ _ _ 0); [done|by left| |done].
    unfold cmd_zRemRangeByScore. fold (held k w). by rewrite Hw.
  - eapply enters_intro; [unfold cmd_zRemRangeByScore; fold (held k w); by rewrite Hw|done|].
    case_decide as Hm; [left|right].
    + split; [done|]. by rewrite live_write_eq.
    + exists d. rewrite live_put, decide_True by done. split; [by apply outlives_seen|done].
Qed.
Lemma enters_zAdd score v m w : (S (tick w) <= N)%nat → window_holds m w →
  enters (cmd_zAdd k score v) w (λ _, True) (<[v := score]> m).
Proof.
  intros HN [[-> Hw]|(d & Hw & Hd)];
    (eapply enters_intro; [unfold cmd_zAdd; fold (held k w); by rewrite Hw|done|]); right;
    eexists; rewrite live_put, decide_True by done; (split; [by apply outlives_seen|done]).
Qed.
Lemma enters_expire m w : (n0 <= tick w)%nat → (S (tick w) <= N)%nat → m ≠ ∅ → window_holds m w →
  enters (cmd_expire k T) w (λ _, True) m.
Proof.
  intros Hn HN Hm [[? Hw]|(d & Hw & Hd)]; [done|]. pose proof (server_mono n0 (tick w) Hn).
  eapply enters_intro; [unfold cmd_expire; fold (held k w); by rewrite Hw|done|]. right.
  eexists. rewrite bool_decide_eq_true_2, live_put, decide_True by done. split; [apply outlives_seen; [done|]|]; unfold outlives; lia.
Qed.

Lemma window_advance m w : (S (tick w) <= N)%nat → window_holds m w → window_holds m (advance w).
Proof.
  intros HN Hw. unfold window_holds, held in *. rewrite redis_advance, tick_advance.
  rewrite (live_later (server_at (tick w))) by (apply server_mono; lia).
  destruct Hw as [[-> ->]|(d & -> & Hd)]; [by left|right]. exists d. by rewrite outlives_seen.
Qed.

(** One check of the key. *)
Lemma check_own m w : (n0 <= tick w)%nat → (tick w + 5 <= N)%nat → window_holds m w →
  let now := clock_at (tick w) in
  let m' := filter (outside 0 (now - T * 1000)) m in
  ∃ v w', limit_checkRateLimit key L T w = (Return v, w') ∧ (tick w < tick w' <= tick w + 5)%nat ∧
    if bool_decide (Z.of_nat (size m') >= L) then allowed v = false ∧ window_holds m' w'
    else allowed v = true ∧ window_holds (<[pretty now := now]> m') w'.
Proof.
  intros Hn HN Hm now m'. destruct (check_run key L T w) as (v & w' & Hrun & Hres). exists v, w'. split; [done|].
  assert (tick (advance w) = S (tick w)) as Hta by done. pose proof (window_advance m w ltac:(lia) Hm) as Hm0.
  destruct (enters_zRem 0 (now - T * 1000) m (advance w) ltac:(lia) Hm0) as (r1 & w1 & Hr1 & T1 & _ & Hm1). fold m' in Hm1.
  destruct (enters_zCard m' w1 ltac:(lia) Hm1) as (r2 & w2 & Hr2 & T2 & -> & Hm2).
  unfold countRequest in Hres. cbv zeta in Hres. fold now in Hres.
  rewrite (bind_run _ _ _ _ _ Hr1), (bind_run _ _ _ _ _ Hr2) in Hres. case_bool_decide.
  - destruct (enters_zRange m' w2 ltac:(lia) Hm2) as (r3 & w3 & Hr3 & T3 & _ & Hm3).
    rewrite (bind_run _ _ _ _ _ Hr3) in Hres. destruct Hres as [-> ->]. split_and!; [lia|lia|done|done].
  - destruct (enters_zAdd now (pretty now) m' w2 ltac:(lia) Hm2) as (r3 & w3 & Hr3 & T3 & _ & Hm3).
    rewrite (bind_run _ _ _ _ _ Hr3) in Hres.
    destruct (enters_expire _ w3 ltac:(lia) ltac:(lia) (insert_non_empty _ _ _) Hm3) as (r4 & w4 & Hr4 & T4 & _ & Hm4).
    rewrite (bind_run _ _ _ _ _ Hr4) in Hres. destruct Hres as [-> ->]. split_and!; [lia|lia|done|done].
Qed.

(** One check of another key. *)
Lemma check_other key' L' T' m w : key' ≠ key → (tick w + 5 <= N)%nat → window_holds m w → ∃ v w',
  limit_checkRateLimit key' L' T' w = (Return v, w') ∧ (tick w < tick w' <= tick w + 5)%nat ∧ window_holds m w'.
Proof.
  intros Hne HN Hm. destruct (check_run key' L' T' w) as (v & w' & Hrun & Hres). exists v, w'. split; [done|].
  assert (k ≠ limit_key key') as Hk by (intros [= ?]; done).
  assert (tick (advance w) = S (tick w)) as Hta by done. pose proof (window_advance m w ltac:(lia) Hm) as Hm0.
  assert (∀ A (c : Z → DB → outcome A * DB) w0, spares k c → (tick w0 <= tick w + 4)%nat → window_holds m w0 →
    tick (command c w0).2 = S (tick w0) ∧ window_holds m (command c w0).2) as Hc.
  { intros A c w0 Hs Ht Hw0. split; [apply tick_command|apply window_spared; [lia|done|done]]. }
  assert (∀ w1 o, countRequest (limit_key key') L' T' (clock_at (tick w)) (advance w) = (o, w1) →
    (tick w < tick w1 <= tick w + 5)%nat ∧ window_holds m w1) as Hcount.
  { intros w1 o. unfold countRequest. cbv zeta. unfold mbind, eff_bind.
    repeat match goal with
      | |- context [command ?c ?w0] =>
          let H := fresh in pose proof (Hc _ c w0 ltac:(auto with spares) ltac:(lia) ltac:(done)) as H;
          destruct (command c w0) as [[?|?] ?]; cbn [snd] in H; destruct H
      | |- context [bool_decide ?P] => destruct (bool_decide P)
      end; intros Hr; unfold mret, eff_ret in Hr; pair_inj Hr; (split; [lia|done]). }
  destruct (countRequest _ _ _ _ (advance w)) as [[v'|e] w1] eqn:Hr; destruct Hres as [-> ->]; by eapply Hcount.
Qed.

(** ** Distinct readings of the clock *)

(** The entries are named after their scores, which are readings before a time. *)
Definition named_before (t : Z) (m : gmap string Z) : Prop := ∀ v s, m !! v = Some s → v = pretty s ∧ s < t.

Context (Hclock : ∀ i j, (n0 <= i < j)%nat → (j <= N)%nat → clock_at i < clock_at j).
Context (Hwindow : clock_at N < clock_at n0 + T * 1000).

Definition in_span (kv : string * Z) : Prop := clock_at n0 <= kv.2.
Definition counts (c : Z) w : Prop := ∃ m,
  window_holds m w ∧ named_before (clock_at (tick w)) m ∧ c <= Z.of_nat (size (filter in_span m)).

Lemma clock_span n : (n0 <= n <= N)%nat → clock_at n0 <= clock_at n <= clock_at N.
Proof.
  intros Hn. split.
  - destruct (decide (n0 = n)) as [->|]; [done|]. apply Z.lt_le_incl, Hclock; lia.
  - destruct (decide (n = N)) as [->|]; [done|]. apply Z.lt_le_incl, Hclock; lia.
Qed.

Lemma counts_own c w : 0 <= L → (n0 <= tick w)%nat → (tick w + 5 <= N)%nat → counts c w → ∃ v w',
  limit_checkRateLimit key L T w = (Return v, w') ∧ (tick w < tick w' <= tick w + 5)%nat ∧
  if allowed v then c + 1 <= L ∧ counts (c + 1) w' else counts c w'.
Proof.
  intros HL Hn HN (m & Hm & Hnamed & Hc).
  destruct (check_own m w Hn HN Hm) as (v & w' & Hrun & Ht & Hres). exists v, w'. split; [done|].
  set (now := clock_at (tick w)) in *. set (m' := filter (outside 0 (now - T * 1000)) m) in *.
  pose proof (clock_span (tick w) ltac:(lia)) as Hnow. fold now in Hnow.
  assert (now < clock_at (tick w')) as Hlater by (apply Hclock; lia).
  assert (filter in_span m' = filter in_span m) as Hspan.
  { apply map_filter_filter_l. intros v0 s _ Hs. unfold in_span, outside in *. cbn in *. lia. }
  assert (named_before now m') as Hnamed'.
  { intros v0 s [Hl _]%map_lookup_filter_Some. by apply Hnamed. }
  split; [lia|]. case_bool_decide as Hsize; destruct Hres as [-> Hm'].
  - exists m'. split_and!; [done| |by rewrite Hspan]. intros v0 s Hl. destruct (Hnamed' v0 s Hl). split; [done|lia].
  - pose proof (map_size_filter in_span m') as Hle. rewrite Hspan in Hle. split; [lia|].
    assert (m' !! pretty now = None) as Hfresh.
    { destruct (m' !! pretty now) as [s|] eqn:Hl; [|done]. destruct (Hnamed' _ _ Hl) as [Heq ?]. apply (inj pretty) in Heq. lia. }
    exists (<[pretty now := now]> m'). split_and!; [done| |].
    + intros v0 s [[<- <-]|[_ Hl]]%lookup_insert_Some; [done|]. destruct (Hnamed' v0 s Hl). split; [done|lia].
    + rewrite map_filter_insert_True by (unfold in_span; cbn; lia). rewrite Hspan.
      rewrite map_size_insert_None; [lia|]. rewrite <-Hspan. apply map_lookup_filter_None. by left.
Qed.

Lemma counts_other key' L' T' c w : key' ≠ key → (n0 <= tick w)%nat → (tick w + 5 <= N)%nat → counts c w → ∃ v w',
  limit_checkRateLimit key' L' T' w = (Return v, w') ∧ (tick w < tick w' <= tick w + 5)%nat ∧ counts c w'.
Proof.
  intros Hne Hn HN (m & Hm & Hnamed & Hc). destruct (check_other key' L' T' m w Hne HN Hm) as (v & w' & Hrun & Ht & Hm').
  exists v, w'. split_and!; [done|lia|lia|]. exists m. split_and!; [done| |done]. intros v0 s Hl.
  destruct (Hnamed v0 s Hl) as [-> ?]. split; [done|]. etrans; [done|]. apply Hclock; lia.
Qed.

Lemma granted_cons c b calls l :
  granted key (c :: calls) (b :: l) = (if decide (ck_key c = key ∧ b = true) then 1 else 0) + granted key calls l.
Proof.
  unfold granted. change (zip (c :: calls) (b :: l)) with ((c, b) :: zip calls l). rewrite filter_cons.
  repeat case_decide; try done; cbn [length fst snd] in *; lia.
Qed.

Lemma granted_counts calls c w : 0 <= c <= L → (n0 <= tick w)%nat → (tick w + 5 * length calls <= N)%nat →
  Forall (λ ck, ck_key ck = key → ck_limit ck = L ∧ ck_window ck = T) calls → counts c w →
  c + granted key calls (check_all calls w).1 <= L.
Proof.
  revert c w. induction calls as [|ck calls IH]; intros c w Hc Hn HN Hall Hw; [unfold granted; cbn [zip_with]; rewrite filter_nil; cbn [length]; lia|].
  apply Forall_cons in Hall as [Hck Hall]. cbn [length check_all] in *.
  destruct (decide (ck_key ck = key)) as [Hk|Hk].
  - destruct (Hck Hk) as [-> ->]. rewrite Hk. destruct (counts_own c w ltac:(lia) Hn ltac:(lia) Hw) as (v & w1 & -> & Ht & Hres).
    assert (c + (if allowed v then 1 else 0) <= L ∧ counts (c + (if allowed v then 1 else 0)) w1) as [Hc1 Hw1].
    { destruct (allowed v); [done|]. rewrite Z.add_0_r. split; [lia|done]. }
    specialize (IH (c + if allowed v then 1 else 0) w1 ltac:(destruct (allowed v); lia) ltac:(lia) ltac:(lia) Hall Hw1).
    destruct (check_all calls w1) as [l w2]. cbn [fst] in *. rewrite granted_cons. destruct (allowed v); case_decide as Hd; lia || by destruct Hd.
  - destruct (counts_other (ck_key ck) (ck_limit ck) (ck_window ck) c w Hk Hn ltac:(lia) Hw) as (v & w1 & -> & Ht & Hw1).
    specialize (IH c w1 Hc ltac:(lia) ltac:(lia) Hall Hw1). destruct (check_all calls w1) as [l w2]. cbn [fst] in *.
    rewrite granted_cons, decide_False by (by intros []). lia.
Qed.

(** ** Requests of one millisecond *)

Lemma same_ms_checks calls (t : Z) m w :
  (∀ n, (n0 <= n <= N)%nat → clock_at n = t) → (n0 <= tick w)%nat → (tick w + 5 * length calls <= N)%nat → 2 <= L →
  Forall (λ ck, ck = mkRateCheck key L T) calls → m = ∅ ∨ m = {[pretty t := t]} → window_holds m w →
  (check_all calls w).1 = replicate (length calls) true.
Proof.
  intros Ht Hn HN HL Hall Hm Hw. revert m w Hn HN Hm Hw. induction Hall as [|ck calls -> Hall IH]; intros m w Hn HN Hm Hw; [done|].
  cbn [length check_all ck_key ck_limit ck_window] in *. destruct (check_own m w Hn ltac:(lia) Hw) as (v & w1 & -> & Htick & Hres).
  rewrite (Ht (tick w)) in Hres by lia.
  assert (filter (outside 0 (t - T * 1000)) m = m) as Hf.
  { destruct Hm as [->| ->]; [done|]. apply map_filter_id. intros v0 s [<- <-]%lookup_singleton_Some. unfold outside. cbn. lia. }
  rewrite Hf in Hres.
  assert (Z.of_nat (size m) <= 1) as Hsize by (destruct Hm as [->| ->]; [by rewrite map_size_empty|by rewrite map_size_singleton]).
  rewrite bool_decide_eq_false_2 in Hres by lia. destruct Hres as [Hv Hw1].
  assert (<[pretty t := t]> m = {[pretty t := t]}) as Heq by (destruct Hm as [->| ->]; [done|apply insert_singleton_eq]).
  rewrite Heq in Hw1. specialize (IH {[pretty t := t]} w1 ltac:(lia) ltac:(lia) ltac:(by right) Hw1).
  destruct (check_all calls w1) as [l w2]. cbn in *. by rewrite Hv, IH.
Qed.
End Span.
End Theory.

(** * What the limit promises *)

(** The entries of a key at the beginning of a span that ends with the [N]-th command: none, or
    those of earlier requests, kept until the span is over. *)
Definition window_ready `{!Redis DB, !RedisServer, !Clock} (key : string) (N : nat) (w : RedisWorld DB) : Prop :=
  ∃ m, window_holds key N m w ∧ named_before (clock_at (tick w)) m.

(** when no two checks see the same millisecond and Redis does its work, at most [limit] of the
    checks of a key that follow each other within its window are allowed, whatever other keys are
    checked in between. *)
Theorem rate_limit_window `{!Redis DB, !RedisLaws DB, !RedisServer, !Clock, !RedisUp, !MonotoneServer}
    key limit windowSeconds (calls : list RateCheck) (w : RedisWorld DB) :
  let N := (tick w + 5 * length calls)%nat in
  0 <= limit → 0 < windowSeconds →
  server_at N < server_at (tick w) + windowSeconds * 1000 → clock_at N < clock_at (tick w) + windowSeconds * 1000 →
  (∀ i j, (tick w <= i < j)%nat → (j <= N)%nat → clock_at i < clock_at j) →
  Forall (λ ck, ck_key ck = key → ck_limit ck = limit ∧ ck_window ck = windowSeconds) calls →
  window_ready key N w → granted key calls (check_all calls w).1 <= limit.
Proof.
  intros N HL HT Hserver Hwindow Hclock Hcalls (m & Hm & Hnamed).
  apply (granted_counts key limit windowSeconds HT (tick w) N Hserver Hclock Hwindow calls 0 w); [lia|done|done|done|].
  exists m. split_and!; [done|done|lia].
Qed.

(** checks that come in within one millisecond are all allowed, as long as the limit is not
    one: they share a member of the sorted set. *)
Theorem rate_limit_same_millisecond `{!Redis DB, !RedisLaws DB, !RedisServer, !Clock, !RedisUp, !MonotoneServer}
    key limit windowSeconds n t (w : RedisWorld DB) :
  let N := (tick w + 5 * n)%nat in
  2 <= limit → 0 < windowSeconds → server_at N < server_at (tick w) + windowSeconds * 1000 →
  (∀ i, (tick w <= i <= N)%nat → clock_at i = t) → held (limit_key key) w = None →
  (check_all (replicate n (mkRateCheck key limit windowSeconds)) w).1 = replicate n true.
Proof.
  intros N HL HT Hserver Hclock Hh. set (calls := replicate n _).
  assert (length calls = n) as Hlen by apply length_replicate. rewrite <-Hlen.
  apply (same_ms_checks key limit windowSeconds HT (tick w) N Hserver calls t ∅ w Hclock); [done|subst N; lia|done| |by left|by left].
  by apply Forall_replicate.
Qed.

(** the check returns a verdict whatever Redis does, and allows the request when a command
    fails. *)
Theorem rate_limit_fails_open `{!Redis DB, !RedisServer, !Clock} key limit windowSeconds (w : RedisWorld DB) :
  ∃ v w', limit_checkRateLimit key limit windowSeconds w = (Return v, w') ∧
    (is_Some (server_fault (S (tick w))) → allowed v = true ∧ remaining v = limit ∧
       resetAt v = Some (clock_at (tick w) + windowSeconds * 1000)).
Proof.
  destruct (check_run key limit windowSeconds w) as (v & w' & Hrun & Hres). exists v, w'. split; [done|]. intros [e He].
  unfold countRequest in Hres. cbv zeta in Hres. rewrite (bind_throw _ _ (advance w) e (advance (advance w))) in Hres by by apply command_fault.
  by destruct Hres as [-> _].
Qed.
