(* ===== verification/AiService.v ===== *)
(** The AI service ([ai/]): [OpenAiProvider] calls the model behind a circuit breaker,
    [FallbackProvider] answers when it fails, [AiCacheService] keeps answers, [QuotaService] counts
    requests per user and month, and [AiService.handlePrompt] puts them together. *)
From S2P Require Import Prelude Async Json JsonParse Redis.
Open Scope Z_scope.

(** * State *)

Module CircuitState.
Inductive t := closed | opened | half_open.
#[global] Instance t_eq_dec : EqDecision t.
Proof. solve_decision. Defined.
End CircuitState.

Record CircuitBreakerState := mkCircuitBreakerState {
  failures : Z;
  openedAt : option Z;
  cb_state : CircuitState.t;
}.
Definition new_breaker : CircuitBreakerState := mkCircuitBreakerState 0 None CircuitState.closed.

Record QuotaRecord := mkQuotaRecord { requestCount : Z; tokenCount : Z }.

(** The provider's breaker, the maps of cache and quotas, Redis, and the requests that were posted. *)
Record AiWorld (DB : Type) := mkAiWorld {
  cb : CircuitBreakerState;
  ai_cache : gmap string string;
  quotas : gmap string QuotaRecord;
  ai_redis : DB;
  posted : list string;
  ai_ticks : nat;
}.
Arguments mkAiWorld {_} _ _ _ _ _ _.
Arguments cb {_} _.
Arguments ai_cache {_} _.
Arguments quotas {_} _.
Arguments ai_redis {_} _.
Arguments posted {_} _.
Arguments ai_ticks {_} _.

#[export] Instance AiWorld_ticking DB : Ticking (AiWorld DB) := {|
  tick := ai_ticks;
  advance w := mkAiWorld (cb w) (ai_cache w) (quotas w) (ai_redis w) (posted w) (S (ai_ticks w)) |}.
#[export] Instance AiWorld_redis DB : HasRedis DB (AiWorld DB) := {|
  redis := ai_redis;
  set_redis s w := mkAiWorld (cb w) (ai_cache w) (quotas w) s (posted w) (ai_ticks w) |}.
#[export] Instance AiWorld_lens DB : RedisLens DB (AiWorld DB).
Proof. by split. Qed.

(** The body of an answer: the content of the message of its first choice, where there is one (the
    content itself may be [null] or missing), and the number of tokens. *)
Record OpenAiBody := mkOpenAiBody { first_message : option (option string); total_tokens : option Z }.

(** [axios.post] to the model, with its name, the key, the timeout and the prompt: the outcome of the
    [n]-th call. *)
Class OpenAi := openai_post : nat → string → string → Z → string → outcome OpenAiBody.

(** The environment, and whether the module was given a Redis client; [ai.module.ts] gives none. *)
Class AiConfig := {
  OPENAI_API_KEY : option string;
  AI_TIMEOUT_MS : option Z;
  OPENAI_MODEL : option string;
  redis_client : bool;
}.

Definition unavailable : string := "AI service is temporarily unavailable. Please try again later.".

Section AiService.
Context {DB : Type} `{!Redis DB, !RedisServer, !Clock, !Crypto, !OpenAi, !AiConfig}.
Local Abbreviation W := (AiWorld DB).

Definition set_cb (c : CircuitBreakerState) (w : W) : W :=
  mkAiWorld c (ai_cache w) (quotas w) (ai_redis w) (posted w) (ai_ticks w).
Definition set_ai_cache (m : gmap string string) (w : W) : W :=
  mkAiWorld (cb w) m (quotas w) (ai_redis w) (posted w) (ai_ticks w).
Definition set_quotas (q : gmap string QuotaRecord) (w : W) : W :=
  mkAiWorld (cb w) (ai_cache w) q (ai_redis w) (posted w) (ai_ticks w).

(** * [AiCacheService] *)

Definition AI_CACHE_TTL : Z := 3600.

Definition cache_get (key : string) : eff W (option string) :=
  if redis_client then command (cmd_get key)
  else gets (λ w, s ← ai_cache w !! key; if bool_decide (s = EmptyString) then None else Some s).

(** The client of Redis stores the empty text for no value; from the map both are read as nothing. *)
Definition cache_set (key : string) (value : option string) : eff W unit :=
  let value := default EmptyString value in
  if redis_client then command (cmd_setEx key AI_CACHE_TTL value)
  else modify (λ w, set_ai_cache (<[key := value]> (ai_cache w)) w).

Definition buildKey (input model : string) : string := "ai:" +:+ model +:+ ":" +:+ sha256_hex input.

(** * [QuotaService] *)

Definition MAX_REQUESTS : Z := 1000.

(** [new Date().toISOString().slice(0, 7)] *)
Definition quota_getKey (userId : string) : eff W string :=
  now ← date_now;
  let month := String.substring 0 7 (iso_time now) in
  mret (userId +:+ ":" +:+ month).

Definition assertQuota (userId : string) : eff W unit :=
  key ← quota_getKey userId;
  quota ← gets (λ w, quotas w !! key);
  match quota with
  | Some q => if bool_decide (requestCount q >= MAX_REQUESTS)
              then throw (Exn "ForbiddenException" "Monthly AI usage quota exceeded") else mret tt
  | None => mret tt
  end.

Definition recordUsage (userId : string) (tokens : Z) : eff W unit :=
  key ← quota_getKey userId;
  modify (λ w,
    let existing := default (mkQuotaRecord 0 0) (quotas w !! key) in
    set_quotas (<[key := mkQuotaRecord (requestCount existing + 1) (tokenCount existing + tokens)]> (quotas w)) w).

(** * [OpenAiProvider] *)

Record AiAnswer := mkAiAnswer { response : option string; tokensUsed : Z }.

Definition FAILURE_THRESHOLD : Z := 5.
Definition HALF_OPEN_AFTER_MS : Z := 60000.

Definition getCircuitState (w : W) : CircuitState.t := cb_state (cb w).

Definition checkCircuit : eff W unit :=
  c ← gets cb;
  if decide (cb_state c = CircuitState.opened) then
    now ← date_now;
    let elapsed := now - default 0 (openedAt c) in
    if bool_decide (elapsed >= HALF_OPEN_AFTER_MS)
    then modify (λ w, set_cb (mkCircuitBreakerState (failures (cb w)) (openedAt (cb w)) CircuitState.half_open) w)
    else throw (Error "Circuit breaker is open")
  else mret tt.

Definition recordSuccess : eff W unit := modify (set_cb (mkCircuitBreakerState 0 None CircuitState.closed)).

Definition recordFailure : eff W unit :=
  modify (λ w, set_cb (mkCircuitBreakerState (failures (cb w) + 1) (openedAt (cb w)) (cb_state (cb w))) w) ;;
  c ← gets cb;
  if bool_decide (failures c >= FAILURE_THRESHOLD) then
    now ← date_now;
    modify (λ w, set_cb (mkCircuitBreakerState (failures (cb w)) (Some now) CircuitState.opened) w)
  else mret tt.

(** The request is posted under its number; the answer comes back later. *)
Definition post_prompt (prompt : string) : eff W OpenAiBody := λ w,
  (openai_post (ai_ticks w) (default "gpt-4" OPENAI_MODEL) (default EmptyString OPENAI_API_KEY) (default 30000 AI_TIMEOUT_MS) prompt,
   mkAiWorld (cb w) (ai_cache w) (quotas w) (ai_redis w) (posted w ++ [prompt]) (S (ai_ticks w))).

(** [res.data.choices[0].message.content] throws when a part of the path before
    the content is missing. *)
Definition read_body (body : OpenAiBody) : eff W AiAnswer :=
  match first_message body with
  | Some content => mret (mkAiAnswer content (default 0 (total_tokens body)))
  | None => throw (TypeError "Cannot read properties of undefined")
  end.

Definition openai_generate (prompt : string) : eff W AiAnswer :=
  checkCircuit ;;
  try_catch
    (res ← post_prompt prompt;
     recordSuccess ;;
     read_body res)
    (λ err, recordFailure ;; throw err).

(** * [FallbackProvider] *)

Definition fallback_generate (prompt : string) : eff W AiAnswer :=
  primary ← attempt (openai_generate prompt);
  match primary with
  | Return a => mret a
  | Throw _ =>
      let cacheKey := buildKey prompt "fallback" in
      cached ← cache_get cacheKey;
      match cached with
      | Some s => if bool_decide (s = EmptyString) then mret (mkAiAnswer (Some unavailable) 0) else mret (mkAiAnswer (Some s) 0)
      | None => mret (mkAiAnswer (Some unavailable) 0)
      end
  end.

(** * [AiService] *)

Record AiRequestDto := mkAiRequestDto { ai_prompt : string; ai_userId : option string }.

(** [{ response, cached }] or [{ response, degraded }] *)
Record PromptReply := mkPromptReply { reply : option string; cached : option bool; degraded : option bool }.

(** [if (dto.userId) { ... }] *)
Definition if_user (userId : string) (m : eff W unit) : eff W unit :=
  if bool_decide (userId = EmptyString) then mret tt else m.

Definition handlePrompt (dto : AiRequestDto) : eff W PromptReply :=
  let userId := or_string (ai_userId dto) EmptyString in
  if_user userId (assertQuota userId) ;;
  let cacheKey := buildKey (ai_prompt dto) "gpt-4" in
  hit ← cache_get cacheKey;
  match hit ≫= λ s, if bool_decide (s = EmptyString) then None else Some s with
  | Some s => mret (mkPromptReply (Some s) (Some true) None)
  | None =>
      try_catch
        (result ← fallback_generate (ai_prompt dto);
         cache_set cacheKey (response result) ;;
         if_user userId (recordUsage userId (tokensUsed result)) ;;
         mret (mkPromptReply (response result) (Some false) None))
        (λ _, mret (mkPromptReply (Some unavailable) None (Some true)))
  end.

(** Prompts one after the other. *)
Fixpoint handle_all (dtos : list AiRequestDto) (w : W) : W :=
  match dtos with [] => w | dto :: dtos => handle_all dtos (handlePrompt dto w).2 end.
End AiService.

(** * The circuit breaker *)

Section Breaker.
Context {DB : Type} `{!Redis DB, !RedisServer, !Clock, !Crypto, !OpenAi, !AiConfig}.
Local Abbreviation W := (AiWorld DB).
Implicit Types (w : W).

(** ** The breaker on its own *)

(** What a call of the provider does to the breaker, as a state machine: [t] is the time of the
    check, [t'] that of a failure. *)
Inductive breaker_event := Refused | Answered | Failed (t' : Z).

Definition breaker_check (t : Z) (c : CircuitBreakerState) : option CircuitBreakerState :=
  match cb_state c with
  | CircuitState.opened =>
      if decide (t - default 0 (openedAt c) >= 60000)
      then Some (mkCircuitBreakerState (failures c) (openedAt c) CircuitState.half_open) else None
  | _ => Some c
  end.
Definition breaker_failure (t' : Z) (c : CircuitBreakerState) : CircuitBreakerState :=
  if decide (failures c + 1 >= 5) then mkCircuitBreakerState (failures c + 1) (Some t') CircuitState.opened
  else mkCircuitBreakerState (failures c + 1) (openedAt c) (cb_state c).

(** Closed with fewer than five failures in a row, or open or half open since some time after at
    least five. *)
Definition breaker_ok (c : CircuitBreakerState) : Prop :=
  match cb_state c with
  | CircuitState.closed => 0 <= failures c < 5 ∧ openedAt c = None
  | _ => 5 <= failures c ∧ is_Some (openedAt c)
  end.

Lemma breaker_ok_check t c c' : breaker_check t c = Some c' → breaker_ok c → breaker_ok c'.
Proof. unfold breaker_check, breaker_ok. destruct c as [f o []]; cbn; repeat case_decide; naive_solver. Qed.
Lemma breaker_ok_failure t c : breaker_ok c → breaker_ok (breaker_failure t c).
Proof.
  unfold breaker_failure, breaker_ok. destruct c as [f o []]; cbn; case_decide; cbn; intros [? ?]; split; try done; lia.
Qed.

(** ** The provider follows it *)

Lemma checkCircuit_run w : ∃ w', (tick w <= tick w')%nat ∧ posted w' = posted w ∧ ai_cache w' = ai_cache w ∧
  match breaker_check (clock_at (tick w)) (cb w) with
  | Some c => checkCircuit w = (Return tt, w') ∧ cb w' = c
  | None => checkCircuit w = (Throw (Error "Circuit breaker is open"), w') ∧ cb w' = cb w
  end.
Proof.
  unfold checkCircuit, breaker_check. rewrite bind_gets. destruct (cb w) as [f o []] eqn:Hcb; cbn [cb_state openedAt failures].
  - by exists w.
  - destruct (decide (CircuitState.opened = CircuitState.opened)) as [_|?]; [|done]. rewrite (bind_run _ _ w (clock_at (tick w)) (advance w)) by done. cbv zeta.
    unfold HALF_OPEN_AFTER_MS. destruct (decide (clock_at (tick w) - default 0 o >= 60000)).
    + rewrite bool_decide_eq_true_2 by done. exists (set_cb (mkCircuitBreakerState f o CircuitState.half_open) (advance w)).
      cbn. rewrite Hcb. split_and!; [lia|done..].
    + rewrite bool_decide_eq_false_2 by done. exists (advance w). split_and!; [cbn; lia|done..].
  - by exists w.
Qed.

Lemma recordFailure_run w : ∃ w', recordFailure w = (Return tt, w') ∧ cb w' = breaker_failure (clock_at (tick w)) (cb w) ∧
  (tick w <= tick w')%nat ∧ posted w' = posted w ∧ ai_cache w' = ai_cache w ∧ quotas w' = quotas w.
Proof.
  unfold recordFailure. rewrite (bind_run _ _ w tt (set_cb (mkCircuitBreakerState (failures (cb w) + 1) (openedAt (cb w)) (cb_state (cb w))) w)) by done.
  rewrite bind_gets. unfold breaker_failure, FAILURE_THRESHOLD. cbn [failures cb set_cb].
  destruct (decide (failures (cb w) + 1 >= 5)).
  - rewrite bool_decide_eq_true_2 by done. eexists. split; [reflexivity|]. cbn. split_and!; try done. lia.
  - rewrite bool_decide_eq_false_2 by done. eexists. split; [reflexivity|]. done.
Qed.

(** One call of the provider. *)
Lemma generate_cases prompt w : let '(o, w') := openai_generate prompt w in
  (tick w <= tick w')%nat ∧ ai_cache w' = ai_cache w ∧
  match breaker_check (clock_at (tick w)) (cb w) with
  | None => o = Throw (Error "Circuit breaker is open") ∧ posted w' = posted w ∧ cb w' = cb w
  | Some c => posted w' = posted w ++ [prompt] ∧ ∃ n t', (tick w <= n < t')%nat ∧ (t' <= tick w')%nat ∧
      match openai_post n (default "gpt-4" OPENAI_MODEL) (default EmptyString OPENAI_API_KEY) (default 30000 AI_TIMEOUT_MS) prompt with
      | Return (mkOpenAiBody (Some s) tokens) => o = Return (mkAiAnswer s (default 0 tokens)) ∧ cb w' = new_breaker
      | Return _ => returned o = false ∧ cb w' = breaker_failure (clock_at t') new_breaker
      | Throw e => o = Throw e ∧ cb w' = breaker_failure (clock_at t') c
      end
  end.
Proof.
  unfold openai_generate. destruct (checkCircuit_run w) as (w1 & Ht1 & Hp1 & Hm1 & Hres).
  destruct (breaker_check (clock_at (tick w)) (cb w)) as [c|]; destruct Hres as [Hrun Hcb].
  2:{ rewrite (bind_throw _ _ _ _ _ Hrun). done. }
  rewrite (bind_run _ _ _ _ _ Hrun). unfold try_catch.
  set (post := openai_post (tick w1) (default "gpt-4" OPENAI_MODEL) (default EmptyString OPENAI_API_KEY) (default 30000 AI_TIMEOUT_MS) prompt).
  set (w2 := mkAiWorld (cb w1) (ai_cache w1) (quotas w1) (ai_redis w1) (posted w1 ++ [prompt]) (S (ai_ticks w1))).
  assert ((res ← post_prompt prompt; recordSuccess ;; read_body res) w1 =
    match post with Return body => (recordSuccess ;; read_body body) w2 | Throw e => (Throw e, w2) end) as -> by done.
  assert (tick w2 = S (tick w1)) as Ht2 by done.
  assert (posted w2 = posted w ++ [prompt]) as Hp2 by (cbn; by rewrite Hp1).
  assert (ai_cache w2 = ai_cache w) as Hm2 by (cbn; by rewrite Hm1).
  assert (cb w2 = c) as Hc2 by done. clearbody w2.
  destruct post as [[[s|] tokens]|e] eqn:Hpost; subst post.
  - change ((recordSuccess ;; read_body (mkOpenAiBody (Some s) tokens)) w2) with
      (Return (mkAiAnswer s (default 0 tokens)), set_cb new_breaker w2). cbv beta iota.
    change (posted (set_cb _ w2)) with (posted w2). change (ai_cache (set_cb _ w2)) with (ai_cache w2).
    change (tick (set_cb _ w2)) with (tick w2). split_and!; [lia|done|done|].
    exists (tick w1), (tick w2). rewrite Hpost. split_and!; [lia|lia|lia|done|done].
  - change ((recordSuccess ;; read_body (mkOpenAiBody None tokens)) w2) with
      (@Throw AiAnswer (TypeError "Cannot read properties of undefined"), set_cb new_breaker w2). cbv iota beta.
    destruct (recordFailure_run (set_cb (mkCircuitBreakerState 0 None CircuitState.closed) w2)) as (w3 & Hf & Hcb3 & Ht3 & Hp3 & Hm3 & _).
    rewrite (bind_run _ _ _ _ _ Hf). change (tick (set_cb _ w2)) with (tick w2) in *. change (cb (set_cb ?c _)) with c in Hcb3.
    change (posted (set_cb _ w2)) with (posted w2) in Hp3. change (ai_cache (set_cb _ w2)) with (ai_cache w2) in Hm3.
    split_and!; [lia|congruence|congruence|]. exists (tick w1), (tick w2). rewrite Hpost. split_and!; [lia|lia|lia|done|done].
  - destruct (recordFailure_run w2) as (w3 & Hf & Hcb3 & Ht3 & Hp3 & Hm3 & _). rewrite (bind_run _ _ _ _ _ Hf).
    split_and!; [lia|congruence|congruence|]. exists (tick w1), (tick w2). rewrite Hpost. split_and!; [lia|lia|lia|done|congruence].
Qed.

(** ** An outage *)

Fixpoint generate_all (prompts : list string) w : W :=
  match prompts with [] => w | p :: prompts => generate_all prompts (openai_generate p w).2 end.

Section Outage.
Context (Hclock : ∀ i j, (i <= j)%nat → clock_at i <= clock_at j).
Context (Hdown : ∀ n model key timeout prompt, returned (openai_post n model key timeout prompt) = false).
Context (E : Z).

(** The posts that can still happen up to the time [E]. *)
Definition posts_left (t : Z) (c : CircuitBreakerState) : Z :=
  match cb_state c with
  | CircuitState.closed => 5 - failures c + (E - t) / 60000
  | CircuitState.opened => (E - Z.max (default 0 (openedAt c)) (t - 60000)) / 60000
  | CircuitState.half_open => 1 + (E - t) / 60000
  end.
Definition opened_before (t : Z) (c : CircuitBreakerState) : Prop := ∀ o, openedAt c = Some o → o <= t.

Lemma posts_left_later t t' c : t <= t' → posts_left t' c <= posts_left t c.
Proof.
  intros Ht. unfold posts_left. destruct (cb_state c).
  - apply Z.add_le_mono_l, Z.div_le_mono; lia.
  - apply Z.div_le_mono; lia.
  - apply Z.add_le_mono_l, Z.div_le_mono; lia.
Qed.
Lemma posts_left_range t c : breaker_ok c → opened_before t c → t <= E → 0 <= posts_left t c <= 5 + (E - t) / 60000.
Proof.
  intros Hok Hop Ht. assert (0 <= (E - t) / 60000) by (apply Z.div_pos; lia).
  unfold posts_left, breaker_ok in *. destruct c as [f o []]; cbn in *; [lia| |lia]. destruct Hok as [_ [o' ->]]. cbn.
  specialize (Hop o' eq_refl). split; [apply Z.div_pos; lia|]. etrans; [apply (Z.div_le_mono _ (E - t + 1 * 60000)); lia|].
  rewrite Z.div_add by lia. lia.
Qed.

Lemma posts_left_failure t t1 c c1 : breaker_ok c → opened_before t c → t <= t1 <= E →
  breaker_check t c = Some c1 → posts_left t1 (breaker_failure t1 c1) + 1 <= posts_left t c.
Proof.
  intros Hok Hop Ht Hc. assert ((E - t1) / 60000 <= (E - t) / 60000) by (apply Z.div_le_mono; lia).
  assert ((E - Z.max t1 (t1 - 60000)) / 60000 = (E - t1) / 60000) as Heq by (f_equal; lia).
  unfold breaker_check, breaker_failure, posts_left, breaker_ok in *.
  destruct c as [f o []]; cbn in *; repeat case_decide; simplify_eq/=; rewrite ?Heq; try lia.
  destruct Hok as [_ [o' ->]]. cbn in *. replace (Z.max o' (t - 60000)) with (t - 60000) by lia.
  replace (E - (t - 60000)) with (E - t + 1 * 60000) by lia. rewrite Z.div_add by lia. lia.
Qed.

Lemma posts_bounded prompts w : breaker_ok (cb w) → opened_before (clock_at (tick w)) (cb w) →
  clock_at (tick (generate_all prompts w)) <= E →
  (tick w <= tick (generate_all prompts w))%nat ∧
  Z.of_nat (length (posted (generate_all prompts w))) <= Z.of_nat (length (posted w)) + posts_left (clock_at (tick w)) (cb w).
Proof.
  revert w. induction prompts as [|p prompts IH]; intros w Hok Hop HE; cbn [generate_all] in *.
  { pose proof (posts_left_range _ _ Hok Hop HE). split; [done|lia]. }
  pose proof (generate_cases p w) as Hg. destruct (openai_generate p w) as [o w1]. cbn [snd] in *.
  destruct Hg as (Ht & _ & Hres). pose proof (Hclock _ _ Ht) as Hct.
  destruct (breaker_check (clock_at (tick w)) (cb w)) as [c|] eqn:Hc.
  - destruct Hres as (Hp & n & t' & Hn & Ht' & Hpost).
    specialize (Hdown n (default "gpt-4" OPENAI_MODEL) (default EmptyString OPENAI_API_KEY) (default 30000 AI_TIMEOUT_MS) p).
    destruct (openai_post n _ _ _ p) as [b|e]; [done|]. destruct Hpost as [_ Hcb].
    assert (breaker_ok (cb w1)) as Hok1 by (rewrite Hcb; by eapply breaker_ok_failure, breaker_ok_check).
    pose proof (Hclock _ _ Ht') as Hct'. pose proof (Hclock (tick w) t' ltac:(lia)) as Hct2.
    assert (opened_before (clock_at (tick w1)) (cb w1)) as Hop1.
    { rewrite Hcb. unfold opened_before, breaker_failure. case_decide; cbn [openedAt]; [intros ? [= <-]; done|].
      intros x Hx. assert (openedAt (cb w) = Some x) as Hx'; [|specialize (Hop x Hx'); lia].
      revert Hc. unfold breaker_check. destruct (cb w) as [f ? []]; repeat case_decide; intros; simplify_eq/=; done. }
    destruct (IH w1 Hok1 Hop1 HE) as [Ht1 Hlen]. split; [lia|]. rewrite Hp, length_app in Hlen. cbn [length] in Hlen.
    assert (clock_at t' <= E) as HtE by (etrans; [exact Hct'|]; etrans; [apply Hclock, Ht1|exact HE]).
    pose proof (posts_left_later (clock_at t') (clock_at (tick w1)) (cb w1) Hct') as Hl.
    pose proof (posts_left_failure (clock_at (tick w)) (clock_at t') (cb w) c Hok Hop (conj Hct2 HtE) Hc) as Hf.
    rewrite <-Hcb in Hf. lia.
  - destruct Hres as (_ & Hp & Hcb). rewrite <-Hcb in Hok, Hop |- *.
    destruct (IH w1 Hok) as [Ht1 Hlen]; [intros x Hx; specialize (Hop x Hx); lia|done|].
    split; [lia|]. rewrite Hp in Hlen. pose proof (posts_left_later _ _ (cb w1) Hct). lia.
Qed.
End Outage.
End Breaker.

(** C10: while every request to the model fails, calls of the provider one after the other post at
    most five requests and one more per minute. *)
Theorem outage_posts_bounded `{!Redis DB, !RedisServer, !Clock, !Crypto, !OpenAi, !AiConfig} prompts (w : AiWorld DB) :
  (∀ i j, (i <= j)%nat → clock_at i <= clock_at j) →
  (∀ n model key timeout prompt, returned (openai_post n model key timeout prompt) = false) →
  breaker_ok (cb w) → opened_before (clock_at (tick w)) (cb w) →
  let w' := generate_all prompts w in
  Z.of_nat (length (posted w')) - Z.of_nat (length (posted w)) <= 5 + (clock_at (tick w') - clock_at (tick w)) / 60000.
Proof.
  intros Hclock Hdown Hok Hop w'.
  destruct (posts_bounded Hclock Hdown (clock_at (tick w')) prompts w Hok Hop) as [Ht Hlen]; [done|].
  pose proof (posts_left_range (clock_at (tick w')) (clock_at (tick w)) (cb w) Hok Hop (Hclock _ _ Ht)). fold w' in Hlen. lia.
Qed.
