(* ===== verification/AiRaces.v ===== *)
(** Calls of the provider side by side: the circuit breaker in every interleaving. *)
From S2P Require Import Prelude Async Json JsonParse Redis AiService.
Open Scope Z_scope.

Section AiRaces.
Context {DB : Type} `{!Redis DB, !RedisServer, !Clock, !Crypto, !OpenAi, !AiConfig}.
Local Abbreviation W := (AiWorld DB).
Implicit Types (w : W).

(** The method up to the request, and from its answer on. *)
Definition generate_start (prompt : string) : eff W (outcome OpenAiBody) := checkCircuit ;; attempt (post_prompt prompt).
Definition generate_end (res : outcome OpenAiBody) : eff W AiAnswer :=
  try_catch
    (match res with Return body => recordSuccess ;; read_body body | Throw e => throw e end)
    (λ err, recordFailure ;; throw err).
Definition openai_generate_task (prompt : string) : task W AiAnswer :=
  res ← atomic (generate_start prompt); atomic (generate_end res).

Lemma openai_generate_task_run prompt w : run_task (openai_generate_task prompt) w = openai_generate prompt w.
Proof.
  unfold openai_generate_task. rewrite run_bind. transitivity ((generate_start prompt ≫= generate_end) w).
  { apply bind_ext; intros; apply run_atomic. }
  unfold generate_start. rewrite <-bind_assoc. unfold openai_generate. apply bind_ext; [done|]. intros [] w1.
  rewrite bind_attempt. unfold generate_end, post_prompt, try_catch, mbind, eff_bind. by destruct (openai_post _ _ _ _ prompt).
Qed.

(** ** The breaker stays in order *)

Definition breaker_inv w : Prop := breaker_ok (cb w).

Lemma checkCircuit_keeps : keeps breaker_inv checkCircuit anything.
Proof.
  intros w Hw. split; [|done]. destruct (checkCircuit_run w) as (w' & _ & _ & _ & Hres). unfold breaker_inv in *.
  destruct (breaker_check (clock_at (tick w)) (cb w)) as [c|] eqn:Hc; destruct Hres as [-> Hcb]; cbn [snd]; rewrite Hcb.
  - by eapply breaker_ok_check.
  - done.
Qed.
Lemma recordFailure_keeps : keeps breaker_inv recordFailure anything.
Proof.
  intros w Hw. split; [|done]. destruct (recordFailure_run w) as (w' & -> & Hcb & _). unfold breaker_inv in *. cbn [snd].
  rewrite Hcb. by apply breaker_ok_failure.
Qed.

Lemma generate_start_keeps prompt : keeps breaker_inv (generate_start prompt) anything.
Proof.
  eapply keeps_bind; [apply checkCircuit_keeps|]. intros [] _ w Hw. split; [|done]. exact Hw.
Qed.
Lemma generate_end_keeps res : keeps breaker_inv (generate_end res) anything.
Proof.
  apply keeps_try.
  - destruct res as [body|e]; [|apply keeps_throw]. eapply (keeps_bind _ _ _ anything).
    + apply keeps_modify; [|done]. intros w _. split; done.
    + intros [] _ w Hw. unfold read_body. by destruct (first_message body).
  - intros e. eapply keeps_bind; [apply recordFailure_keeps|]. intros [] _. apply keeps_throw.
Qed.

Definition generate_task (prompt : string) : task W unit :=
  task_try (openai_generate_task prompt ≫= λ _, mret tt) (λ _, mret tt).

Lemma generate_task_within prompt : within breaker_inv (λ _, True) (generate_task prompt).
Proof.
  intros w Hw. split; [by apply generate_start_keeps|]. destruct (generate_start prompt w).1 as [res|e]; [|done].
  intros w1 Hw1. split; [by apply generate_end_keeps|]. by destruct (generate_end res w1).1.
Qed.
End AiRaces.

(** C29: in every interleaving of any number of calls of the provider the breaker stays in order:
    closed with less than five failures in a row, or open or half open after five or more, with
    the time at which it was opened. *)
Theorem breaker_survives_races `{!Redis DB, !RedisServer, !Clock, !Crypto, !OpenAi, !AiConfig} prompts (w : AiWorld DB) ts' w' :
  breaker_ok (cb w) → rtc pool_step (generate_task <$> prompts, w) (ts', w') → breaker_ok (cb w').
Proof.
  intros Hw Hsteps. apply (pool_keeps breaker_inv (λ _, True) _ _ Hsteps); [done|].
  apply Forall_fmap, Forall_forall. intros p _. apply generate_task_within.
Qed.

(** ** Probes *)

Section Flood.
Context {DB : Type} `{!Redis DB, !RedisServer, !Clock, !Crypto, !OpenAi, !AiConfig}.
Local Abbreviation W := (AiWorld DB).
Implicit Types (w : W).

(** The breaker lets a call through and is half open afterwards. *)
Definition lets_through w : Prop :=
  cb_state (cb w) = CircuitState.half_open ∨
  cb_state (cb w) = CircuitState.opened ∧ clock_at (tick w) - default 0 (openedAt (cb w)) >= 60000.

Lemma generate_start_posts prompt w : lets_through w → ∃ res w', generate_start prompt w = (Return res, w') ∧
  posted w' = posted w ++ [prompt] ∧ cb_state (cb w') = CircuitState.half_open.
Proof.
  intros Hw. destruct (checkCircuit_run w) as (w1 & _ & Hp & _ & Hres).
  assert (∃ c, breaker_check (clock_at (tick w)) (cb w) = Some c ∧ cb_state c = CircuitState.half_open) as (c & Hc & Hh).
  { unfold breaker_check. destruct Hw as [Hs|[Hs Ht]]; rewrite Hs; [by eexists|]. rewrite decide_True by done. by eexists. }
  rewrite Hc in Hres. destruct Hres as [Hrun Hcb]. unfold generate_start. rewrite (bind_run _ _ _ _ _ Hrun).
  eexists _, _. split; [reflexivity|]. cbn. by rewrite Hp, Hcb.
Qed.

Lemma starts_post prompts done_ w : lets_through w → ∃ ts' w',
  rtc pool_step (done_ ++ (generate_task <$> prompts), w) (done_ ++ ts', w') ∧ posted w' = posted w ++ prompts ∧
  (if prompts is [] then w' = w else cb_state (cb w') = CircuitState.half_open).
Proof.
  revert done_ w. induction prompts as [|p prompts IH]; intros done_ w Hw.
  { exists [], w. split_and!; [done|by rewrite app_nil_r|done]. }
  destruct (generate_start_posts p w Hw) as (res & w1 & Hrun & Hp & Hh).
  set (t1 := task_try (atomic (generate_end res) ≫= λ _, mret tt) (λ _, mret tt) : task W unit).
  destruct (IH (done_ ++ [t1]) w1) as (ts' & w' & Hsteps & Hp' & Hh'); [by left|].
  exists (t1 :: ts'), w'. split_and!.
  - eapply rtc_l; [|rewrite <-!app_assoc in Hsteps; exact Hsteps].
    replace (done_ ++ [t1] ++ (generate_task <$> prompts)) with
      (<[length done_ := t1]> (done_ ++ (generate_task <$> p :: prompts))).
    2:{ rewrite insert_app_r_alt, Nat.sub_diag by done. done. }
    apply (pool_resume _ (generate_task p)); [by rewrite lookup_app_r, Nat.sub_diag|].
    unfold generate_task, openai_generate_task. cbn [resume atomic task_bind mbind task_mbind task_try]. by rewrite Hrun.
  - by rewrite Hp', Hp, <-app_assoc.
  - destruct prompts; [by subst w'|done].
Qed.
End Flood.

(** once the minute of an open breaker is over, every call that starts before the first answer
    is back posts its request, not just one probe. *)
Theorem half_open_floods `{!Redis DB, !RedisServer, !Clock, !Crypto, !OpenAi, !AiConfig} prompts (w : AiWorld DB) :
  cb_state (cb w) = CircuitState.opened → clock_at (tick w) - default 0 (openedAt (cb w)) >= 60000 →
  ∃ ts' w', rtc pool_step (generate_task <$> prompts, w) (ts', w') ∧ posted w' = posted w ++ prompts ∧
    (prompts ≠ [] → cb_state (cb w') = CircuitState.half_open).
Proof.
  intros Hs Ht. destruct (starts_post prompts [] w) as (ts' & w' & Hsteps & Hp & Hh); [by right|].
  exists ts', w'. split_and!; [done..|]. by destruct prompts.
Qed.

(** * What [AiService.handlePrompt] answers: with the cache, without it, and after an outage. *)

Section Answers.
Context {DB : Type} `{!Redis DB, !RedisServer, !Clock, !Crypto, !OpenAi, !AiConfig}.
Local Abbreviation W := (AiWorld DB).
Implicit Types (w : W).
(** The wiring of [ai.module.ts]: no Redis, so that answers are kept in a map of the process. *)
Context (Hwiring : redis_client = false).

(** ** Most of the service leaves the cache alone *)

Definition same_cache w w' : Prop := ai_cache w' = ai_cache w.
#[local] Instance same_cache_preorder : PreOrder same_cache.
Proof. split; [done|]. intros w1 w2 w3 H12 H23. unfold same_cache in *. congruence. Qed.

Lemma same_cache_date_now : moves same_cache (date_now : eff W Z).
Proof. by intros w. Qed.
Lemma same_cache_get key : moves same_cache (cache_get key : eff W _).
Proof. unfold cache_get. rewrite Hwiring. by intros w. Qed.
#[local] Hint Resolve same_cache_preorder same_cache_date_now same_cache_get : moves.
Lemma same_cache_assertQuota u : moves same_cache (assertQuota u : eff W unit).
Proof. unfold assertQuota, quota_getKey. cbv zeta. moves_tac. Qed.
Lemma same_cache_recordUsage u n : moves same_cache (recordUsage u n : eff W unit).
Proof. unfold recordUsage, quota_getKey. cbv zeta. moves_tac. Qed.
Lemma same_cache_generate p : moves same_cache (openai_generate p : eff W _).
Proof. intros w. pose proof (generate_cases p w) as Hg. destruct (openai_generate p w). apply Hg. Qed.
#[local] Hint Resolve same_cache_assertQuota same_cache_recordUsage same_cache_generate : moves.

Lemma same_cache_if_user u (m : eff W unit) : moves same_cache m → moves same_cache (if_user u m).
Proof. intros Hm. unfold if_user. case_bool_decide; auto with moves. Qed.

Lemma same_cache_fallback p : moves same_cache (fallback_generate p : eff W _).
Proof.
  unfold fallback_generate. apply moves_bind; [apply _|by apply moves_attempt, same_cache_generate|]. intros ?. cbv zeta. moves_tac.
Qed.

(** ** The keys of the cache *)

Definition truthy_entry w (key : string) : option string := s ← ai_cache w !! key; if bool_decide (s = EmptyString) then None else Some s.

Lemma truthy_entry_nonempty w key s : truthy_entry w key = Some s → s ≠ EmptyString.
Proof. unfold truthy_entry. destruct (ai_cache w !! key); [|done]. cbn. case_bool_decide; naive_solver. Qed.

Lemma cache_get_run key w : cache_get key w = (Return (truthy_entry w key), w).
Proof. unfold cache_get. by rewrite Hwiring. Qed.

(** Only answers of the model are kept. *)
Definition model_keys w : Prop := ∀ key, is_Some (ai_cache w !! key) → ∃ input, key = buildKey input "gpt-4".

Lemma no_fallback_entry w p : model_keys w → ai_cache w !! buildKey p "fallback" = None.
Proof.
  intros Hw. destruct (ai_cache w !! buildKey p "fallback") as [s|] eqn:Hs; [|done].
  destruct (Hw (buildKey p "fallback")) as [input Heq]; [by eexists|]. done.
Qed.

(** What a request does to the cache: nothing, or a new entry under the key of its prompt, where
    there was none. *)
Lemma handlePrompt_cache dto w : let w' := (handlePrompt dto w).2 in
  same_cache w w' ∨ ∃ s, truthy_entry w (buildKey (ai_prompt dto) "gpt-4") = None ∧
    ai_cache w' = <[buildKey (ai_prompt dto) "gpt-4" := s]> (ai_cache w).
Proof.
  cbv zeta. destruct (handlePrompt dto w) as [o w'] eqn:Hrun. cbn [snd]. revert Hrun.
  unfold handlePrompt. cbv zeta. set (u := or_string (ai_userId dto) EmptyString).
  set (key := buildKey (ai_prompt dto) "gpt-4").
  pose proof (same_cache_if_user u (assertQuota u) (same_cache_assertQuota u) w) as Hq.
  unfold mbind at 1, eff_bind at 1. destruct (if_user u (assertQuota u) w) as [[[]|e] w1]; [|intros Hrun; pair_inj Hrun; by left].
  cbn [snd] in Hq. rewrite (bind_run _ _ _ _ _ (cache_get_run key w1)).
  assert (truthy_entry w1 key = truthy_entry w key) as -> by (unfold truthy_entry; by rewrite Hq).
  destruct (truthy_entry w key) as [s|] eqn:Hkey; cbn [mbind option_bind].
  { apply truthy_entry_nonempty in Hkey. rewrite bool_decide_eq_false_2 by done. intros Hrun. unfold mret, eff_ret in Hrun.
    pair_inj Hrun. by left. }
  unfold try_catch. unfold mbind at 1, eff_bind at 1. pose proof (same_cache_fallback (ai_prompt dto) w1) as Hf.
  destruct (fallback_generate (ai_prompt dto) w1) as [[a|e] w2]; cbn [snd] in Hf;
    [|intros Hrun; unfold mret, eff_ret in Hrun; pair_inj Hrun; left; by etrans].
  assert (cache_set key (response a) w2 = (Return tt, set_ai_cache (<[key := default EmptyString (response a)]> (ai_cache w2)) w2)) as Hset.
  { unfold cache_set. by rewrite Hwiring. }
  rewrite (bind_run _ _ _ _ _ Hset). set (w3 := set_ai_cache _ w2).
  assert (ai_cache w3 = <[key := default EmptyString (response a)]> (ai_cache w)) as Hw3 by (cbn; unfold same_cache in *; congruence).
  clearbody w3. pose proof (same_cache_if_user u _ (same_cache_recordUsage u (tokensUsed a)) w3) as Hr.
  unfold mbind, eff_bind. destruct (if_user u (recordUsage u (tokensUsed a)) w3) as [[[]|e] w4]; cbn [snd] in Hr;
    intros Hrun; unfold mret, eff_ret in Hrun; pair_inj Hrun; right; exists (default EmptyString (response a)); (split; [done|by rewrite <-Hw3]).
Qed.

Lemma handlePrompt_keeps dto w key s : truthy_entry w key = Some s → truthy_entry (handlePrompt dto w).2 key = Some s.
Proof.
  intros Hs. destruct (handlePrompt_cache dto w) as [Heq|(s' & Hnone & Heq)]; unfold truthy_entry in *; rewrite Heq; [done|].
  destruct (decide (key = buildKey (ai_prompt dto) "gpt-4")) as [->|Hne]; [congruence|by rewrite lookup_insert_ne].
Qed.
Lemma handlePrompt_model_keys dto w : model_keys w → model_keys (handlePrompt dto w).2.
Proof.
  intros Hw key Hkey. destruct (handlePrompt_cache dto w) as [Heq|(s' & _ & Heq)]; rewrite Heq in Hkey; [by apply Hw|].
  destruct (decide (key = buildKey (ai_prompt dto) "gpt-4")) as [->|Hne]; [by eexists|].
  rewrite lookup_insert_ne in Hkey by done. by apply Hw.
Qed.
Lemma handle_all_keeps dtos w key s : truthy_entry w key = Some s → truthy_entry (handle_all dtos w) key = Some s.
Proof. revert w. induction dtos as [|dto dtos IH]; intros w Hs; [done|]. by apply IH, handlePrompt_keeps. Qed.
Lemma handle_all_model_keys dtos w : model_keys w → model_keys (handle_all dtos w).
Proof. revert w. induction dtos as [|dto dtos IH]; intros w Hw; [done|]. by apply IH, handlePrompt_model_keys. Qed.

(** A prompt of nobody in particular that the cache knows. *)
Lemma handlePrompt_hit p w s : truthy_entry w (buildKey p "gpt-4") = Some s →
  handlePrompt (mkAiRequestDto p None) w = (Return (mkPromptReply (Some s) (Some true) None), w).
Proof.
  intros Hs. unfold handlePrompt. cbv zeta. unfold if_user. cbn [ai_userId or_string]. rewrite bool_decide_eq_true_2 by done. rewrite bind_mret.
  rewrite (bind_run _ _ _ _ _ (cache_get_run _ w)). cbn [ai_prompt]. rewrite Hs. cbn [mbind option_bind].
  by rewrite bool_decide_eq_false_2 by by eapply truthy_entry_nonempty.
Qed.
End Answers.

(** C9: the first prompt that meets an outage is answered with the apology of the fallback, not as
    degraded but as an answer of the model: it is kept, and for ever after, whatever other requests
    succeed, the prompt is answered with the apology from the cache and the model is not asked. *)
Theorem outage_poisons_cache `{!Redis DB, !RedisServer, !Clock, !Crypto, !OpenAi, !AiConfig} p (w w1 : AiWorld DB) e :
  redis_client = false → model_keys w → truthy_entry w (buildKey p "gpt-4") = None → openai_generate p w = (Throw e, w1) →
  ∃ w2, handlePrompt (mkAiRequestDto p None) w = (Return (mkPromptReply (Some unavailable) (Some false) None), w2) ∧
    ∀ dtos, handlePrompt (mkAiRequestDto p None) (handle_all dtos w2) =
      (Return (mkPromptReply (Some unavailable) (Some true) None), handle_all dtos w2).
Proof.
  intros Hwiring Hkeys Hmiss Hdown. set (w2 := set_ai_cache (<[buildKey p "gpt-4" := unavailable]> (ai_cache w1)) w1).
  assert (ai_cache w1 = ai_cache w) as Hc by (pose proof (generate_cases p w) as Hg; rewrite Hdown in Hg; apply Hg).
  assert (fallback_generate p w = (Return (mkAiAnswer (Some unavailable) 0), w1)) as Hfb.
  { unfold fallback_generate. rewrite bind_attempt, Hdown. cbv zeta. rewrite (bind_run _ _ _ _ _ (cache_get_run Hwiring _ w1)).
    unfold truthy_entry. rewrite Hc, no_fallback_entry by done. done. }
  exists w2. split.
  - unfold handlePrompt. cbv zeta. unfold if_user. cbn [ai_userId or_string]. rewrite bool_decide_eq_true_2 by done. rewrite bind_mret.
    rewrite (bind_run _ _ _ _ _ (cache_get_run Hwiring _ w)). cbn [ai_prompt]. rewrite Hmiss. cbn [mbind option_bind].
    unfold try_catch. rewrite (bind_run _ _ _ _ _ Hfb). unfold cache_set. by rewrite Hwiring.
  - intros dtos. apply handlePrompt_hit; [done|]. apply handle_all_keeps; [done|].
    unfold truthy_entry, w2. cbn. by rewrite lookup_insert_eq.
Qed.
