(* ===== verification/VoiceTypes.v ===== *)
(** Voice sessions: their entity ([voice/entities/voice-session.entity.ts]), the states of a
    conversation ([voice/types], [voice/services/conversation-state-machine.service.ts]), and the text
    a session has in Redis. *)
From S2P Require Import Prelude Json JsonParse.
Open Scope Z_scope.

(** * The states of a conversation *)

Module ConversationState.
Inductive t := LISTENING | THINKING | RESPONDING | INTERRUPTED | IDLE | STALE | TERMINATED.
#[global] Instance t_eq_dec : EqDecision t.
Proof. solve_decision. Defined.
Definition to_string (s : t) : string :=
  match s with
  | LISTENING => "listening" | THINKING => "thinking" | RESPONDING => "responding" | INTERRUPTED => "interrupted"
  | IDLE => "idle" | STALE => "stale" | TERMINATED => "terminated"
  end.
Definition all : list t := [LISTENING; THINKING; RESPONDING; INTERRUPTED; IDLE; STALE; TERMINATED].
End ConversationState.

Module FeatureContext.
Inductive t := ACADEMY | TRADING | GENERAL | COMMUNITY.
#[global] Instance t_eq_dec : EqDecision t.
Proof. solve_decision. Defined.
Definition to_string (c : t) : string :=
  match c with ACADEMY => "academy" | TRADING => "trading" | GENERAL => "general" | COMMUNITY => "community" end.
Definition all : list t := [ACADEMY; TRADING; GENERAL; COMMUNITY].
End FeatureContext.

(** The member of an enum with a text. *)
Definition of_text {A} (to_text : A → string) (all : list A) (s : string) : option A := array_find (λ x, to_text x = s) all.

Lemma state_of_text s : of_text ConversationState.to_string ConversationState.all (ConversationState.to_string s) = Some s.
Proof. by destruct s. Qed.
Lemma context_of_text c : of_text FeatureContext.to_string FeatureContext.all (FeatureContext.to_string c) = Some c.
Proof. by destruct c. Qed.

(** ** [ConversationStateMachineService] *)

Definition validTransitions (s : ConversationState.t) : list ConversationState.t :=
  match s with
  | ConversationState.IDLE => [ConversationState.LISTENING]
  | ConversationState.LISTENING => [ConversationState.THINKING; ConversationState.INTERRUPTED]
  | ConversationState.THINKING => [ConversationState.RESPONDING; ConversationState.INTERRUPTED]
  | ConversationState.RESPONDING => [ConversationState.LISTENING; ConversationState.INTERRUPTED; ConversationState.IDLE]
  | ConversationState.INTERRUPTED => [ConversationState.LISTENING; ConversationState.IDLE]
  | ConversationState.STALE | ConversationState.TERMINATED => []
  end.

Definition canTransition (from to : ConversationState.t) : bool := bool_decide (to ∈ validTransitions from).

Record TransitionResult := mkTransitionResult { tr_success : bool; tr_error : option string }.
Definition voice_transition (currentState newState : ConversationState.t) : TransitionResult :=
  if negb (canTransition currentState newState) then
    let error := "Invalid state transition from " +:+ ConversationState.to_string currentState +:+ " to " +:+
                 ConversationState.to_string newState in
    mkTransitionResult false (Some error)
  else mkTransitionResult true None.

Definition getValidNextStates (currentState : ConversationState.t) : list ConversationState.t := validTransitions currentState.
Definition isInterruptible (s : ConversationState.t) : bool :=
  bool_decide (s ∈ [ConversationState.THINKING; ConversationState.RESPONDING]).
Definition isTerminalState (s : ConversationState.t) : bool := bool_decide (s = ConversationState.IDLE).

(** * Sessions *)

Record VoiceMessage := mkVoiceMessage {
  vm_id : string;
  vm_content : string;
  vm_timestamp : Z;
  vm_isUser : bool;
  vm_metadata : option jsobj;
}.

Record VoiceSession := mkVoiceSession {
  vs_id : string;
  vs_userId : string;
  vs_walletAddress : option string;
  vs_context : FeatureContext.t;
  vs_state : ConversationState.t;
  vs_messages : list VoiceMessage;
  vs_createdAt : Z;
  vs_lastActivityAt : Z;
  vs_lastPingAt : option Z;
  vs_ttl : Z;
  vs_socketId : option string;
  vs_metadata : option jsobj;
}.

Definition set_vs_state (v : ConversationState.t) (s : VoiceSession) : VoiceSession := {|
  vs_id := vs_id s; vs_userId := vs_userId s; vs_walletAddress := vs_walletAddress s; vs_context := vs_context s;
  vs_state := v; vs_messages := vs_messages s; vs_createdAt := vs_createdAt s; vs_lastActivityAt := vs_lastActivityAt s;
  vs_lastPingAt := vs_lastPingAt s; vs_ttl := vs_ttl s; vs_socketId := vs_socketId s; vs_metadata := vs_metadata s |}.
Definition set_vs_messages (v : list VoiceMessage) (s : VoiceSession) : VoiceSession := {|
  vs_id := vs_id s; vs_userId := vs_userId s; vs_walletAddress := vs_walletAddress s; vs_context := vs_context s;
  vs_state := vs_state s; vs_messages := v; vs_createdAt := vs_createdAt s; vs_lastActivityAt := vs_lastActivityAt s;
  vs_lastPingAt := vs_lastPingAt s; vs_ttl := vs_ttl s; vs_socketId := vs_socketId s; vs_metadata := vs_metadata s |}.
Definition set_vs_lastActivityAt (v : Z) (s : VoiceSession) : VoiceSession := {|
  vs_id := vs_id s; vs_userId := vs_userId s; vs_walletAddress := vs_walletAddress s; vs_context := vs_context s;
  vs_state := vs_state s; vs_messages := vs_messages s; vs_createdAt := vs_createdAt s; vs_lastActivityAt := v;
  vs_lastPingAt := vs_lastPingAt s; vs_ttl := vs_ttl s; vs_socketId := vs_socketId s; vs_metadata := vs_metadata s |}.
Definition set_vs_lastPingAt (v : option Z) (s : VoiceSession) : VoiceSession := {|
  vs_id := vs_id s; vs_userId := vs_userId s; vs_walletAddress := vs_walletAddress s; vs_context := vs_context s;
  vs_state := vs_state s; vs_messages := vs_messages s; vs_createdAt := vs_createdAt s; vs_lastActivityAt := vs_lastActivityAt s;
  vs_lastPingAt := v; vs_ttl := vs_ttl s; vs_socketId := vs_socketId s; vs_metadata := vs_metadata s |}.
Definition set_vs_socketId (v : option string) (s : VoiceSession) : VoiceSession := {|
  vs_id := vs_id s; vs_userId := vs_userId s; vs_walletAddress := vs_walletAddress s; vs_context := vs_context s;
  vs_state := vs_state s; vs_messages := vs_messages s; vs_createdAt := vs_createdAt s; vs_lastActivityAt := vs_lastActivityAt s;
  vs_lastPingAt := vs_lastPingAt s; vs_ttl := vs_ttl s; vs_socketId := v; vs_metadata := vs_metadata s |}.

(** [VoiceSession.create] *)
Definition voice_create {W} `{!Ticking W, !Clock, !Crypto} (userId : string) (context : FeatureContext.t)
    (walletAddress : option string) (metadata : option jsobj) : eff W VoiceSession :=
  now ← date_now;
  id ← randomUUID;
  mret {| vs_id := id; vs_userId := userId; vs_walletAddress := walletAddress; vs_context := context;
          vs_state := ConversationState.IDLE; vs_messages := []; vs_createdAt := now; vs_lastActivityAt := now;
          vs_lastPingAt := None; vs_ttl := 3600; vs_socketId := None; vs_metadata := metadata |}.

(** ** The text of a session

    [JSON.stringify] calls [toJSON] of dates and leaves out properties that are undefined. *)
Definition js_date (t : Z) : jsval := JString (iso_time t).
Definition js_text (o : option string) : jsval := from_option JString JUndefined o.
Definition js_record (o : option jsobj) : jsval := from_option JObject JUndefined o.

Definition message_json (m : VoiceMessage) : jsval := JObject
  [("id", JString (vm_id m)); ("content", JString (vm_content m)); ("timestamp", js_date (vm_timestamp m));
   ("isUser", JBool (vm_isUser m)); ("metadata", js_record (vm_metadata m))].

Definition session_json (s : VoiceSession) : jsval := JObject
  [("id", JString (vs_id s)); ("userId", JString (vs_userId s)); ("walletAddress", js_text (vs_walletAddress s));
   ("context", JString (FeatureContext.to_string (vs_context s))); ("state", JString (ConversationState.to_string (vs_state s)));
   ("messages", JArray (map message_json (vs_messages s))); ("createdAt", js_date (vs_createdAt s));
   ("lastActivityAt", js_date (vs_lastActivityAt s)); ("lastPingAt", from_option js_date JUndefined (vs_lastPingAt s));
   ("ttl", JNumber (vs_ttl s)); ("socketId", js_text (vs_socketId s)); ("metadata", js_record (vs_metadata s))].

Definition session_text (s : VoiceSession) : string := default EmptyString (json_text (session_json s)).

(** ** Reading it back

    [JSON.parse], and [new Date] for the properties that are dates.  A text that does not have the
    shape of a session, which the service never writes, has no reading. *)
Definition as_text (v : option jsval) : option string := match v with Some (JString s) => Some s | _ => None end.
Definition as_number (v : option jsval) : option Z := match v with Some (JNumber n) => Some n | _ => None end.
Definition as_bool (v : option jsval) : option bool := match v with Some (JBool b) => Some b | _ => None end.
Definition as_record (v : option jsval) : option jsobj := match v with Some (JObject o) => Some o | _ => None end.
Definition as_date (v : option jsval) : option Z := as_text v ≫= date_parse.

Definition message_of_fields (o : jsobj) : option VoiceMessage :=
  id ← as_text (assoc "id" o); content ← as_text (assoc "content" o);
  timestamp ← as_date (assoc "timestamp" o); isUser ← as_bool (assoc "isUser" o);
  Some (mkVoiceMessage id content timestamp isUser (as_record (assoc "metadata" o))).
Definition message_of (v : jsval) : option VoiceMessage := match v with JObject o => message_of_fields o | _ => None end.

Definition session_of_fields (o : jsobj) : option VoiceSession :=
  id ← as_text (assoc "id" o); userId ← as_text (assoc "userId" o);
  context ← as_text (assoc "context" o) ≫= of_text FeatureContext.to_string FeatureContext.all;
  state ← as_text (assoc "state" o) ≫= of_text ConversationState.to_string ConversationState.all;
  messages ← match assoc "messages" o with Some (JArray l) => mapM message_of l | _ => None end;
  createdAt ← as_date (assoc "createdAt" o); lastActivityAt ← as_date (assoc "lastActivityAt" o);
  ttl ← as_number (assoc "ttl" o);
  Some {| vs_id := id; vs_userId := userId; vs_walletAddress := as_text (assoc "walletAddress" o); vs_context := context;
          vs_state := state; vs_messages := messages; vs_createdAt := createdAt; vs_lastActivityAt := lastActivityAt;
          vs_lastPingAt := as_date (assoc "lastPingAt" o); vs_ttl := ttl; vs_socketId := as_text (assoc "socketId" o);
          vs_metadata := as_record (assoc "metadata" o) |}.
Definition session_of (v : jsval) : option VoiceSession := match v with JObject o => session_of_fields o | _ => None end.

Definition parse_session (text : string) : outcome VoiceSession :=
  match JSON_parse text with
  | Return v => match session_of v with Some s => Return s | None => Throw (TypeError "Cannot read properties of undefined") end
  | Throw e => Throw e
  end.

(** ** The round trip *)

(** What the text keeps of a session: all of it, but for undefined values in the metadata. *)
Definition stored_record (o : jsobj) : jsobj := omap field_value o.
Definition stored_message (m : VoiceMessage) : VoiceMessage :=
  mkVoiceMessage (vm_id m) (vm_content m) (vm_timestamp m) (vm_isUser m) (stored_record <$> vm_metadata m).
Definition stored (s : VoiceSession) : VoiceSession := {|
  vs_id := vs_id s; vs_userId := vs_userId s; vs_walletAddress := vs_walletAddress s; vs_context := vs_context s;
  vs_state := vs_state s; vs_messages := stored_message <$> vs_messages s; vs_createdAt := vs_createdAt s;
  vs_lastActivityAt := vs_lastActivityAt s; vs_lastPingAt := vs_lastPingAt s; vs_ttl := vs_ttl s;
  vs_socketId := vs_socketId s; vs_metadata := stored_record <$> vs_metadata s |}.

(** Its dates are not before 1970. *)
Definition dated (s : VoiceSession) : Prop :=
  0 <= vs_createdAt s ∧ 0 <= vs_lastActivityAt s ∧ (∀ t, vs_lastPingAt s = Some t → 0 <= t) ∧
  Forall (λ m, 0 <= vm_timestamp m) (vs_messages s).

Lemma assoc_omap_fields k (o : jsobj) : NoDup o.*1 → assoc k (omap field_value o) = assoc k o ≫= json_value.
Proof.
  induction o as [|[k' v] o IH]; intros Hnd; [done|]. csimpl in Hnd. apply NoDup_cons in Hnd as [Hk Hnd].
  cbn [omap list_omap assoc]. unfold field_value at 1. cbn [fst snd].
  destruct (json_value v) as [u|] eqn:Hv; cbn [fmap option_fmap option_map assoc]; case_bool_decide as Heq; cbn; try by apply IH.
  - by rewrite Hv.
  - rewrite Hv, IH by done. subst k'. destruct (assoc k o) as [v'|] eqn:Ha; [|done].
    exfalso. apply Hk. apply assoc_elem in Ha; [|done]. by apply (list_elem_of_fmap_2 fst) in Ha.
Qed.

Lemma as_record_stored o : as_record (json_value (js_record o)) = stored_record <$> o.
Proof. destruct o as [o|]; [|done]. cbn [from_option js_record]. by rewrite json_value_object. Qed.
Lemma as_date_js t : 0 <= t → as_date (json_value (js_date t)) = Some t.
Proof. intros Ht. by apply date_parse_iso. Qed.
Lemma as_text_js o : as_text (json_value (js_text o)) = o.
Proof. by destruct o. Qed.

Lemma message_of_json m : 0 <= vm_timestamp m → json_value (message_json m) ≫= message_of = Some (stored_message m).
Proof.
  intros Ht. unfold message_json. rewrite json_value_object. cbn [mbind option_bind message_of]. unfold message_of_fields.
  rewrite !assoc_omap_fields by (apply (bool_decide_unpack _); vm_compute; exact I).
  change ((as_date (json_value (js_date (vm_timestamp m))) ≫= λ timestamp, Some (mkVoiceMessage (vm_id m) (vm_content m) timestamp
    (vm_isUser m) (as_record (json_value (js_record (vm_metadata m)))))) = Some (stored_message m)).
  by rewrite as_date_js, as_record_stored.
Qed.

Lemma messages_of_json l : Forall (λ m, 0 <= vm_timestamp m) l →
  mapM message_of (map (λ v, default JNull (json_value v)) (map message_json l)) = Some (stored_message <$> l).
Proof.
  intros Hl. induction Hl as [|m l Hm Hl IH]; [done|]. cbn [map mapM]. pose proof (message_of_json m Hm) as Hmsg.
  destruct (json_value (message_json m)) as [v|]; [|done]. cbn [default] in *. cbn [mbind option_bind] in *.
  cbn. rewrite Hmsg. cbn. change (mapM message_of) with (mapM message_of) in *. rewrite IH. done.
Qed.

Lemma session_of_json s : dated s → json_value (session_json s) ≫= session_of = Some (stored s).
Proof.
  intros (Hc & Ha & Hp & Hm). unfold session_json. rewrite json_value_object. cbn [mbind option_bind session_of]. unfold session_of_fields.
  rewrite !assoc_omap_fields by (apply (bool_decide_unpack _); vm_compute; exact I).
  change ((context ← of_text FeatureContext.to_string FeatureContext.all (FeatureContext.to_string (vs_context s));
    state ← of_text ConversationState.to_string ConversationState.all (ConversationState.to_string (vs_state s));
    messages ← mapM message_of (map (λ v, default JNull (json_value v)) (map message_json (vs_messages s)));
    createdAt ← as_date (json_value (js_date (vs_createdAt s)));
    lastActivityAt ← as_date (json_value (js_date (vs_lastActivityAt s)));
    Some {| vs_id := vs_id s; vs_userId := vs_userId s; vs_walletAddress := as_text (json_value (js_text (vs_walletAddress s)));
      vs_context := context; vs_state := state; vs_messages := messages; vs_createdAt := createdAt; vs_lastActivityAt := lastActivityAt;
      vs_lastPingAt := as_date (json_value (from_option js_date JUndefined (vs_lastPingAt s))); vs_ttl := vs_ttl s;
      vs_socketId := as_text (json_value (js_text (vs_socketId s)));
      vs_metadata := as_record (json_value (js_record (vs_metadata s))) |}) = Some (stored s)).
  rewrite context_of_text, state_of_text, messages_of_json, !as_date_js, !as_text_js, as_record_stored by done.
  cbn [mbind option_bind]. unfold stored. do 2 f_equal. destruct (vs_lastPingAt s) as [t|] eqn:Ht; [|done]. apply as_date_js. by apply Hp.
Qed.

(** A session comes back from its text as it was, but for undefined values in the metadata. *)
Lemma parse_session_text s : dated s → parse_session (session_text s) = Return (stored s).
Proof.
  intros Hs. unfold session_text, parse_session. destruct (json_text (session_json s)) as [t|] eqn:Ht; [|by destruct s].
  destruct (JSON_parse_text _ _ Ht) as (u & Hu & Hp). change (default EmptyString (Some t)) with t. rewrite Hp. pose proof (session_of_json s Hs) as Hj.
  rewrite Hu in Hj. cbn [mbind option_bind] in Hj. by rewrite Hj.
Qed.

Lemma session_text_nonempty s : session_text s ≠ EmptyString.
Proof. done. Qed.
Lemma dated_stored s : dated s → dated (stored s).
Proof.
  intros (? & ? & ? & Hm). split_and!; try done. cbn. apply Forall_fmap. by eapply Forall_impl; [exact Hm|].
Qed.
