(* ===== verification/VoiceSessions.v ===== *)
(** [VoiceSessionService] ([voice/services/voice-session.service.ts]): the sessions of a user in
    Redis, their states, heartbeat and clean-up. *)
From S2P Require Import Prelude Json JsonParse Redis VoiceTypes.
Open Scope Z_scope.

Definition MAX_SESSIONS_PER_USER : Z := 3.
Definition HEARTBEAT_TIMEOUT_MS : Z := 60000.

Definition SESSION_PREFIX : string := "voice:session:".
Definition USER_SESSIONS_PREFIX : string := "voice:user:sessions:".
Definition USER_ACTIVE_SESSION_PREFIX : string := "voice:usersession:".
Definition SESSION_TTL : Z := 3600.
Definition USER_SESSION_POINTER_TTL : Z := 600.

(** [s.replace(p, '')]: the first occurrence of a text is removed. *)
Definition replace_first (p s : string) : string :=
  match String.index 0 p s with
  | Some i => String.substring 0 i s +:+ String.substring (i + String.length p) (String.length s) s
  | None => s
  end.

Section VoiceSessionService.
Context {DB W : Type} `{!Redis DB, !HasRedis DB W, !Ticking W, !RedisServer, !Clock, !Crypto}.

(** ** Helpers *)

Definition saveSession (session : VoiceSession) : eff W unit :=
  let sessionData := session_text session in
  command (cmd_setEx (SESSION_PREFIX +:+ vs_id session) (vs_ttl session) sessionData).

Definition addUserSession (userId sessionId : string) : eff W unit :=
  command (cmd_sAdd (USER_SESSIONS_PREFIX +:+ userId) sessionId) ;;
  command (cmd_expire (USER_SESSIONS_PREFIX +:+ userId) SESSION_TTL) ;;
  mret tt.

Definition removeUserSession (userId sessionId : string) : eff W unit :=
  command (cmd_sRem (USER_SESSIONS_PREFIX +:+ userId) sessionId) ;; mret tt.

(** ** The pointer to the active session of a user *)

Definition setUserActiveSession (userId sessionId : string) : eff W unit :=
  command (cmd_setEx (USER_ACTIVE_SESSION_PREFIX +:+ userId) USER_SESSION_POINTER_TTL sessionId).
Definition getUserActiveSession (userId : string) : eff W (option string) :=
  command (cmd_get (USER_ACTIVE_SESSION_PREFIX +:+ userId)).
Definition deleteUserActiveSession (userId : string) : eff W unit :=
  command (cmd_del [USER_ACTIVE_SESSION_PREFIX +:+ userId]) ;; mret tt.
Definition refreshUserSessionTTL (userId : string) : eff W unit :=
  refreshTTL (USER_ACTIVE_SESSION_PREFIX +:+ userId) USER_SESSION_POINTER_TTL ;; mret tt.

Definition clearUserActiveSessionIfMatches (userId sessionId : string) : eff W unit :=
  current ← getUserActiveSession userId;
  if bool_decide (current = Some sessionId) then deleteUserActiveSession userId else mret tt.

(** ** Sessions *)

Definition getSession (sessionId : string) : eff W (option VoiceSession) :=
  try_catch
    (sessionData ← command (cmd_get (SESSION_PREFIX +:+ sessionId));
     match sessionData with
     | None => mret None
     | Some text =>
         if bool_decide (text = EmptyString) then mret None
         else session ← of_outcome (parse_session text); mret (Some session)
     end)
    (λ _, mret None).

(** [Promise.all(ids.map((id) => this.getSession(id)))]: every call only reads. *)
Fixpoint getSessions (sessionIds : list string) : eff W (list (option VoiceSession)) :=
  match sessionIds with
  | [] => mret []
  | id :: ids => session ← getSession id; rest ← getSessions ids; mret (session :: rest)
  end.

Definition getUserActiveSessions (userId : string) : eff W (list VoiceSession) :=
  try_catch
    (sessionIds ← command (cmd_sMembers (USER_SESSIONS_PREFIX +:+ userId));
     sessions ← getSessions sessionIds;
     mret (omap id sessions))
    (λ _, mret []).

Definition createSession (userId : string) (context : FeatureContext.t) (walletAddress : option string)
    (metadata : option jsobj) : eff W VoiceSession :=
  activeSessions ← getUserActiveSessions userId;
  if bool_decide (Z.of_nat (length activeSessions) >= MAX_SESSIONS_PER_USER) then
    throw (Error ("Session limit reached: users may have at most " +:+ pretty MAX_SESSIONS_PER_USER +:+ " concurrent sessions"))
  else
    session ← voice_create userId context walletAddress metadata;
    saveSession session ;;
    addUserSession userId (vs_id session) ;;
    mret session.

Definition updateSessionState (sessionId : string) (newState : ConversationState.t) : eff W bool :=
  session ← getSession sessionId;
  match session with
  | None => mret false
  | Some session =>
      let transition := voice_transition (vs_state session) newState in
      if negb (tr_success transition) then mret false else
      now ← date_now;
      saveSession (session |> set_vs_state newState |> set_vs_lastActivityAt now) ;;
      mret true
  end.

Definition addMessage (sessionId content : string) (isUser : bool) (metadata : option jsobj) : eff W bool :=
  session ← getSession sessionId;
  match session with
  | None => mret false
  | Some session =>
      id ← randomUUID;
      timestamp ← date_now;
      let message := mkVoiceMessage id content timestamp isUser metadata in
      now ← date_now;
      saveSession (session |> set_vs_messages (vs_messages session ++ [message]) |> set_vs_lastActivityAt now) ;;
      mret true
  end.

Definition interruptSession (sessionId : string) : eff W bool :=
  session ← getSession sessionId;
  match session with
  | None => mret false
  | Some session =>
      if negb (isInterruptible (vs_state session)) then mret false
      else updateSessionState sessionId ConversationState.INTERRUPTED
  end.

Definition resumeSession (sessionId : string) : eff W bool :=
  session ← getSession sessionId;
  match session with
  | None => mret false
  | Some session =>
      let targetState := if bool_decide (vs_state session = ConversationState.INTERRUPTED)
                         then ConversationState.LISTENING else ConversationState.IDLE in
      updateSessionState sessionId targetState
  end.

Definition terminateSession (sessionId : string) : eff W bool :=
  try_catch
    (session ← getSession sessionId;
     match session with
     | None => mret false
     | Some session =>
         command (cmd_del [SESSION_PREFIX +:+ sessionId]) ;;
         removeUserSession (vs_userId session) sessionId ;;
         clearUserActiveSessionIfMatches (vs_userId session) sessionId ;;
         mret true
     end)
    (λ _, mret false).

Definition updateSessionSocket (sessionId socketId : string) : eff W bool :=
  session ← getSession sessionId;
  match session with
  | None => mret false
  | Some session =>
      now ← date_now;
      saveSession (session |> set_vs_socketId (Some socketId) |> set_vs_lastActivityAt now) ;;
      mret true
  end.

Definition updateLastPingAt (sessionId : string) : eff W bool :=
  session ← getSession sessionId;
  match session with
  | None => mret false
  | Some session =>
      pinged ← date_now;
      now ← date_now;
      saveSession (session |> set_vs_lastPingAt (Some pinged) |> set_vs_lastActivityAt now) ;;
      mret true
  end.

(** ** Clean-up

    [due now session]: the condition under which a clean-up terminates a session.  A loop returns
    the number of sessions it has counted, also when a command fails on the way. *)
Definition stale (now : Z) (session : VoiceSession) : bool :=
  if decide (vs_state session = ConversationState.TERMINATED ∨ vs_state session = ConversationState.STALE) then false
  else
    let lastPingMs := default (vs_createdAt session) (vs_lastPingAt session) in
    bool_decide (now - lastPingMs > HEARTBEAT_TIMEOUT_MS).
Definition out_of_time (now : Z) (session : VoiceSession) : bool :=
  bool_decide (now - vs_lastActivityAt session > vs_ttl session * 1000).

Definition cleanup_key (due : VoiceSession → bool) (key : string) : eff W bool :=
  sessionData ← command (cmd_get key);
  match sessionData with
  | None => mret false
  | Some text =>
      if bool_decide (text = EmptyString) then mret false else
      session ← of_outcome (parse_session text);
      if due session then
        let sessionId := replace_first SESSION_PREFIX key in
        terminateSession sessionId ;; mret true
      else mret false
  end.

Fixpoint cleanup_keys (due : VoiceSession → bool) (keys : list string) (cleanedCount : Z) : eff W Z :=
  match keys with
  | [] => mret cleanedCount
  | key :: keys =>
      r ← attempt (cleanup_key due key);
      match r with
      | Return true => cleanup_keys due keys (cleanedCount + 1)
      | Return false => cleanup_keys due keys cleanedCount
      | Throw _ => mret cleanedCount
      end
  end.

Definition cleanup_sessions (fuel : nat) (due : Z → VoiceSession → bool) : eff W Z :=
  now ← date_now;
  try_catch
    (keys ← scanKeys fuel (SESSION_PREFIX +:+ star);
     cleanup_keys (due now) keys 0)
    (λ _, mret 0).

Definition cleanupStaleSessions (fuel : nat) : eff W Z := cleanup_sessions fuel stale.
Definition cleanupExpiredSessions (fuel : nat) : eff W Z := cleanup_sessions fuel out_of_time.
End VoiceSessionService.
