(* ===== verification/VoiceFacts.v ===== *)
(** What holds of the voice sessions in Redis, whatever fails: every session can be read, has the
    id of its key and is never in one of the two final states. *)
From S2P Require Import Prelude Json JsonParse Redis VoiceTypes VoiceSessions.
Open Scope Z_scope.

(** The clock does not show a time before 1970. *)
Class PositiveClock `{!Clock} := clock_positive n : 0 <= clock_at n.

(** * Sessions as they are kept *)

Definition session_key (id : string) : string := SESSION_PREFIX +:+ id.
#[global] Instance session_key_inj : Inj (=) (=) session_key.
Proof. intros x y. apply (inj (String.app SESSION_PREFIX)). Qed.
Lemma session_key_user id u : session_key id ≠ USER_SESSIONS_PREFIX +:+ u.
Proof. done. Qed.
Lemma session_key_active id u : session_key id ≠ USER_ACTIVE_SESSION_PREFIX +:+ u.
Proof. done. Qed.
#[export] Hint Resolve session_key_user session_key_active : spares.

(** A session as the service writes it under its id. *)
Definition good_session (id : string) (s : VoiceSession) : Prop :=
  vs_id s = id ∧ dated s ∧ vs_ttl s = 3600 ∧ vs_state s ≠ ConversationState.STALE ∧ vs_state s ≠ ConversationState.TERMINATED.

Lemma good_stored id s : good_session id s → good_session id (stored s).
Proof. intros (? & Hd & ? & ? & ?). split_and!; try done. by apply dated_stored. Qed.

Definition good_entry (id : string) (e : entry) : Prop := ∃ s, e_value e = RText (session_text s) ∧ good_session id s.

Section Facts.
Context {DB W : Type} `{!Redis DB, !RedisLaws DB, !HasRedis DB W, !Ticking W, !RedisServer, !RedisLens DB W}.
Context `{!MonotoneServer, !Clock, !PositiveClock, !Crypto}.
Implicit Types (w : W).

Definition sessions_ok w : Prop := ∀ id e, held (session_key id) w = Some e → good_entry id e.

(** ** Commands that keep the sessions in order *)

Lemma seen_at_Some t o e : seen_at t o = Some e → o = Some e.
Proof. destruct o as [e'|]; [|done]. cbn. unfold seen_at. cbn. case_decide; naive_solver. Qed.

Lemma ok_spared {A} (c : Z → DB → outcome A * DB) :
  (∀ id, spares (session_key id) c) → keeps sessions_ok (command c) anything.
Proof.
  intros Hc w Hw. split; [|done]. intros id e. rewrite held_spared by done. intros He%seen_at_Some. by apply Hw.
Qed.

Lemma ok_advance w : sessions_ok w → sessions_ok (advance w).
Proof.
  intros Hw id e He. apply Hw. unfold held in *. rewrite redis_advance, tick_advance in He.
  rewrite (live_later (server_at (tick w))) in He by (apply server_mono; lia). by apply seen_at_Some in He.
Qed.

Lemma ok_tick {A} (f : nat → A) : keeps sessions_ok (λ w, (Return (f (tick w)), advance w)) (λ a, ∃ n, a = f n).
Proof. intros w Hw. split; [by apply ok_advance|]. intros a [= <-]. by exists (tick w). Qed.
Lemma ok_date_now : keeps sessions_ok date_now (λ t, 0 <= t).
Proof. eapply keeps_weaken; [apply (ok_tick clock_at)|]. intros t [n ->]. apply clock_positive. Qed.
Lemma ok_randomUUID : keeps sessions_ok randomUUID anything.
Proof. eapply keeps_weaken; [apply (ok_tick uuid_at)|done]. Qed.

(** A write of one session, or its removal. *)
Lemma ok_saveSession s : good_session (vs_id s) s → keeps sessions_ok (saveSession s) anything.
Proof.
  intros Hs w Hw. split; [|done]. intros id e He. unfold saveSession in He.
  fold (session_key (vs_id s)) in He. destruct (decide (id = vs_id s)) as [->|Hne].
  - destruct (server_fault (tick w)) as [f|] eqn:Hf.
    { rewrite (held_fault _ _ _ _ Hf) in He. apply seen_at_Some in He. by apply Hw. }
    destruct (cmd_setEx (session_key (vs_id s)) (vs_ttl s) (session_text s) (server_at (tick w)) (redis w)) as [o s'] eqn:Hc.
    rewrite (held_run _ _ _ _ _ Hf Hc) in He. unfold cmd_setEx in Hc. destruct Hs as (_ & Hd & Httl & Hst).
    rewrite Httl, bool_decide_eq_true_2 in Hc by done. pair_inj Hc. rewrite live_put, decide_True in He by done.
    apply seen_at_Some in He as [= <-]. by exists s.
  - rewrite held_spared in He; [apply seen_at_Some in He; by apply Hw|]. apply spares_setEx. by intros ?%(inj session_key).
Qed.
Lemma ok_del id : keeps sessions_ok (command (cmd_del [session_key id])) anything.
Proof.
  intros w Hw. split; [|done]. intros id' e He. destruct (decide (id' = id)) as [->|Hne].
  - destruct (server_fault (tick w)) as [f|] eqn:Hf.
    { rewrite (held_fault _ _ _ _ Hf) in He. apply seen_at_Some in He. by apply Hw. }
    erewrite (held_run _ _ _ _ _ Hf eq_refl) in He. cbn [foldr] in He. rewrite live_write_eq in He. done.
  - rewrite held_spared in He; [apply seen_at_Some in He; by apply Hw|]. apply spares_del.
    intros Hin%list_elem_of_singleton%(inj session_key). done.
Qed.

(** ** Reading a session *)

Definition read_result (id : string) (o : option VoiceSession) : Prop := ∀ s, o = Some s → good_session id s.

Lemma ok_getSession id : keeps sessions_ok (getSession id) (read_result id).
Proof.
  apply keeps_try; [|intros e; by apply keeps_ret]. fold (session_key id). intros w Hw.
  pose proof (ok_spared (cmd_get (session_key id)) ltac:(auto with spares) w Hw) as [Hok _].
  destruct (command (cmd_get (session_key id)) w) as [[o|e] w1] eqn:Hrun;
    [|rewrite (bind_throw _ _ _ _ _ Hrun); by split].
  cbn [snd] in Hok. rewrite (bind_run _ _ _ _ _ Hrun). destruct o as [text|]; [|split; [done|]; by intros ? [= <-]].
  assert (∃ e, held (session_key id) w = Some e ∧ e_value e = RText text) as (e & He & Hv).
  { unfold command in Hrun. destruct (server_fault (tick w)); [done|]. unfold cmd_get in Hrun. fold (held (session_key id) w) in Hrun.
    destruct (held (session_key id) w) as [[[v| | |] d]|]; try done. injection Hrun as -> _. by eexists. }
  destruct (Hw id e He) as (s & Hs & Hgood). rewrite Hv in Hs. injection Hs as ->. destruct (Hgood) as (_ & Hd & _).
  rewrite bool_decide_eq_false_2 by apply session_text_nonempty. unfold of_outcome, mbind, eff_bind.
  rewrite parse_session_text by done. split; [done|]. intros o [= <-] s' [= <-]. by apply good_stored.
Qed.

Lemma ok_getSessions ids : keeps sessions_ok (getSessions ids) anything.
Proof.
  induction ids as [|id ids IH]; cbn [getSessions]; [by apply keeps_ret|].
  eapply keeps_bind; [apply ok_getSession|]. intros o _. eapply keeps_bind; [apply IH|]. intros l _. by apply keeps_ret.
Qed.
End Facts.
