(* ===== verification/VoiceTasks.v ===== *)
(** Requests for voice sessions that run side by side: every command to Redis is an await, and
    between two of them other requests run.  Every session that Redis holds stays in order in every
    interleaving, whatever fails. *)
From S2P Require Import Prelude Async Json JsonParse Redis VoiceTypes VoiceSessions VoiceFacts.
Open Scope Z_scope.

(** * The operations, cut at their awaits *)

Section Tasks.
Context {DB W : Type} `{!Redis DB, !HasRedis DB W, !Ticking W, !RedisServer, !Clock, !Crypto}.

Fixpoint getSessions_task (sessionIds : list string) : task W (list (option VoiceSession)) :=
  match sessionIds with
  | [] => mret []
  | id :: ids => session ← atomic (getSession id); rest ← getSessions_task ids; mret (session :: rest)
  end.

Definition getUserActiveSessions_task (userId : string) : task W (list VoiceSession) :=
  task_try
    (sessionIds ← atomic (command (cmd_sMembers (USER_SESSIONS_PREFIX +:+ userId)));
     sessions ← getSessions_task sessionIds;
     mret (omap (M:=list) id sessions))
    (λ _, mret []).

Definition create_and_save (userId : string) (context : FeatureContext.t) (walletAddress : option string)
    (metadata : option jsobj) : eff W VoiceSession :=
  session ← voice_create userId context walletAddress metadata; saveSession session ;; mret session.

Definition createSession_task (userId : string) (context : FeatureContext.t) (walletAddress : option string)
    (metadata : option jsobj) : task W VoiceSession :=
  activeSessions ← getUserActiveSessions_task userId;
  if bool_decide (Z.of_nat (length activeSessions) >= MAX_SESSIONS_PER_USER) then
    Done (Throw (Error ("Session limit reached: users may have at most " +:+ pretty MAX_SESSIONS_PER_USER +:+ " concurrent sessions")))
  else
    session ← atomic (create_and_save userId context walletAddress metadata);
    atomic (command (cmd_sAdd (USER_SESSIONS_PREFIX +:+ userId) (vs_id session))) ≫= λ _,
    atomic (command (cmd_expire (USER_SESSIONS_PREFIX +:+ userId) SESSION_TTL)) ≫= λ _,
    mret session.

(** The operations that read a session, change it and write it back. *)
Definition update_state (newState : ConversationState.t) (session : VoiceSession) : eff W bool :=
  let transition := voice_transition (vs_state session) newState in
  if negb (tr_success transition) then mret false else
  now ← date_now;
  saveSession (session |> set_vs_state newState |> set_vs_lastActivityAt now) ;; mret true.
Definition append_message (content : string) (isUser : bool) (metadata : option jsobj) (session : VoiceSession) : eff W bool :=
  id ← randomUUID;
  timestamp ← date_now;
  let message := mkVoiceMessage id content timestamp isUser metadata in
  now ← date_now;
  saveSession (session |> set_vs_messages (vs_messages session ++ [message]) |> set_vs_lastActivityAt now) ;; mret true.
Definition set_socket (socketId : string) (session : VoiceSession) : eff W bool :=
  now ← date_now;
  saveSession (session |> set_vs_socketId (Some socketId) |> set_vs_lastActivityAt now) ;; mret true.
Definition ping (session : VoiceSession) : eff W bool :=
  pinged ← date_now;
  now ← date_now;
  saveSession (session |> set_vs_lastPingAt (Some pinged) |> set_vs_lastActivityAt now) ;; mret true.

Definition change_session (sessionId : string) (change : VoiceSession → eff W bool) : task W bool :=
  session ← atomic (getSession sessionId);
  match session with None => mret false | Some session => atomic (change session) end.

Definition updateSessionState_task (sessionId : string) (newState : ConversationState.t) : task W bool :=
  change_session sessionId (update_state newState).
Definition addMessage_task (sessionId content : string) (isUser : bool) (metadata : option jsobj) : task W bool :=
  change_session sessionId (append_message content isUser metadata).
Definition updateSessionSocket_task (sessionId socketId : string) : task W bool := change_session sessionId (set_socket socketId).
Definition updateLastPingAt_task (sessionId : string) : task W bool := change_session sessionId ping.

Definition interruptSession_task (sessionId : string) : task W bool :=
  session ← atomic (getSession sessionId);
  match session with
  | None => mret false
  | Some session =>
      if negb (isInterruptible (vs_state session)) then mret false
      else updateSessionState_task sessionId ConversationState.INTERRUPTED
  end.
Definition resumeSession_task (sessionId : string) : task W bool :=
  session ← atomic (getSession sessionId);
  match session with
  | None => mret false
  | Some session =>
      let targetState := if bool_decide (vs_state session = ConversationState.INTERRUPTED)
                         then ConversationState.LISTENING else ConversationState.IDLE in
      updateSessionState_task sessionId targetState
  end.

Definition terminateSession_task (sessionId : string) : task W bool :=
  task_try
    (session ← atomic (getSession sessionId);
     match session with
     | None => mret false
     | Some session =>
         atomic (command (cmd_del [SESSION_PREFIX +:+ sessionId])) ≫= λ _,
         atomic (removeUserSession (vs_userId session) sessionId) ≫= λ _,
         current ← atomic (getUserActiveSession (vs_userId session));
         (if bool_decide (current = Some sessionId) then atomic (deleteUserActiveSession (vs_userId session)) else mret tt) ≫= λ _,
         mret true
     end)
    (λ _, mret false).

Definition cleanup_read (key : string) : eff W (option VoiceSession) :=
  sessionData ← command (cmd_get key);
  match sessionData with
  | None => mret None
  | Some text => if bool_decide (text = EmptyString) then mret None else session ← of_outcome (parse_session text); mret (Some session)
  end.
Definition cleanup_key_task (due : VoiceSession → bool) (key : string) : task W bool :=
  session ← atomic (cleanup_read key);
  match session with
  | None => mret false
  | Some session =>
      if due session then terminateSession_task (replace_first SESSION_PREFIX key) ≫= λ _, mret true else mret false
  end.
Fixpoint cleanup_keys_task (due : VoiceSession → bool) (keys : list string) (cleanedCount : Z) : task W Z :=
  match keys with
  | [] => mret cleanedCount
  | key :: keys =>
      r ← task_attempt (cleanup_key_task due key);
      match r with
      | Return true => cleanup_keys_task due keys (cleanedCount + 1)
      | Return false => cleanup_keys_task due keys cleanedCount
      | Throw _ => mret cleanedCount
      end
  end.
Fixpoint scan_keys_task (fuel : nat) (cursor pattern : string) : task W (list string) :=
  match fuel with
  | 0%nat => Done (Throw (Error "out of fuel"))
  | S fuel =>
      page ← atomic (command (cmd_scan cursor pattern));
      let '(c, ks) := page in
      if bool_decide (c = "0") then mret ks else rest ← scan_keys_task fuel c pattern; mret (ks ++ rest)
  end.
Definition cleanup_task (fuel : nat) (due : Z → VoiceSession → bool) : task W Z :=
  now ← atomic date_now;
  task_try
    (keys ← scan_keys_task fuel "0" (SESSION_PREFIX +:+ star);
     cleanup_keys_task (due now) keys 0)
    (λ _, mret 0).

(** ** Each is the method it was cut from *)

Lemma getSessions_task_run ids w : run_task (getSessions_task ids) w = getSessions ids w.
Proof.
  revert w. induction ids as [|id ids IH]; intros w; [done|]. cbn [getSessions_task getSessions]. rewrite run_bind.
  apply bind_ext; [apply run_atomic|]. intros o w'. rewrite run_bind. apply bind_ext; [apply IH|done].
Qed.
Lemma getUserActiveSessions_task_run u w : run_task (getUserActiveSessions_task u) w = getUserActiveSessions u w.
Proof.
  unfold getUserActiveSessions_task, getUserActiveSessions. rewrite run_try. apply try_ext; [|done].
  rewrite run_bind. apply bind_ext; [apply run_atomic|]. intros l w'. rewrite run_bind. apply bind_ext; [apply getSessions_task_run|done].
Qed.
Lemma createSession_task_run u c a m w : run_task (createSession_task u c a m) w = createSession u c a m w.
Proof.
  unfold createSession_task, createSession. rewrite run_bind. apply bind_ext; [apply getUserActiveSessions_task_run|].
  intros l w'. case_bool_decide; [done|]. rewrite run_bind. unfold addUserSession.
  transitivity ((create_and_save u c a m ≫= λ s, (command (cmd_sAdd (USER_SESSIONS_PREFIX +:+ u) (vs_id s)) ≫= λ _,
    command (cmd_expire (USER_SESSIONS_PREFIX +:+ u) SESSION_TTL) ≫= λ _, mret s)) w').
  { apply bind_ext; [apply run_atomic|]. intros s w1. rewrite run_bind. apply bind_ext; [apply run_atomic|]. intros ? w2.
    rewrite run_bind. apply bind_ext; [apply run_atomic|done]. }
  unfold create_and_save. rewrite <-bind_assoc. apply bind_ext; [done|]. intros s w1. rewrite <-bind_assoc. apply bind_ext; [done|].
  intros ? w2. rewrite bind_mret, <-bind_assoc. apply bind_ext; [done|]. intros ? w3. rewrite <-bind_assoc. by apply bind_ext.
Qed.
Lemma change_session_run id change w : run_task (change_session id change) w =
  (session ← getSession id; match session with None => mret false | Some session => change session end) w.
Proof.
  unfold change_session. rewrite run_bind. apply bind_ext; [apply run_atomic|]. intros [s|] w'; [apply run_atomic|done].
Qed.
Lemma updateSessionState_task_run id new w : run_task (updateSessionState_task id new) w = updateSessionState id new w.
Proof. apply change_session_run. Qed.
Lemma addMessage_task_run id c u m w : run_task (addMessage_task id c u m) w = addMessage id c u m w.
Proof. apply change_session_run. Qed.
Lemma updateSessionSocket_task_run id s w : run_task (updateSessionSocket_task id s) w = updateSessionSocket id s w.
Proof. apply change_session_run. Qed.
Lemma updateLastPingAt_task_run id w : run_task (updateLastPingAt_task id) w = updateLastPingAt id w.
Proof. apply change_session_run. Qed.
Lemma interruptSession_task_run id w : run_task (interruptSession_task id) w = interruptSession id w.
Proof.
  unfold interruptSession_task, interruptSession. rewrite run_bind. apply bind_ext; [apply run_atomic|]. intros [s|] w'; [|done].
  destruct (negb (isInterruptible (vs_state s))); [done|apply updateSessionState_task_run].
Qed.
Lemma resumeSession_task_run id w : run_task (resumeSession_task id) w = resumeSession id w.
Proof.
  unfold resumeSession_task, resumeSession. rewrite run_bind. apply bind_ext; [apply run_atomic|]. intros [s|] w'; [|done].
  apply updateSessionState_task_run.
Qed.
Lemma terminateSession_task_run id w : run_task (terminateSession_task id) w = terminateSession id w.
Proof.
  unfold terminateSession_task, terminateSession. rewrite run_try. apply try_ext; [|done]. rewrite run_bind.
  apply bind_ext; [apply run_atomic|]. intros [s|] w'; [|done]. rewrite run_bind. apply bind_ext; [apply run_atomic|]. intros ? w1.
  rewrite run_bind. apply bind_ext; [apply run_atomic|]. intros ? w2. unfold clearUserActiveSessionIfMatches.
  rewrite run_bind, <-bind_assoc. apply bind_ext; [apply run_atomic|]. intros o w3. rewrite run_bind.
  apply bind_ext; [|done]. case_bool_decide; [apply run_atomic|done].
Qed.
Lemma cleanup_key_task_run due key w : run_task (cleanup_key_task due key) w = cleanup_key due key w.
Proof.
  unfold cleanup_key_task, cleanup_key. rewrite run_bind.
  transitivity ((cleanup_read key ≫= λ session, match session with None => mret false | Some session =>
    if due session then terminateSession (replace_first SESSION_PREFIX key) ;; mret true else mret false end) w).
  { apply bind_ext; [apply run_atomic|]. intros [s|] w'; [|done]. destruct (due s); [|done]. rewrite run_bind.
    apply bind_ext; [apply terminateSession_task_run|done]. }
  unfold cleanup_read. rewrite <-bind_assoc. apply bind_ext; [done|]. intros [t|] w'; [|done]. case_bool_decide; [done|].
  rewrite <-bind_assoc. by apply bind_ext.
Qed.
Lemma cleanup_keys_task_run due keys n w : run_task (cleanup_keys_task due keys n) w = cleanup_keys due keys n w.
Proof.
  revert n w. induction keys as [|key keys IH]; intros n w; [done|]. cbn [cleanup_keys_task cleanup_keys]. rewrite run_bind.
  apply bind_ext; [|intros [[]|] w'; [apply IH|apply IH|done]]. rewrite run_attempt. unfold attempt. by rewrite cleanup_key_task_run.
Qed.
Lemma scan_keys_task_run fuel c p w : run_task (scan_keys_task fuel c p) w = scan_keys_from fuel c p w.
Proof.
  revert c w. induction fuel as [|fuel IH]; intros c w; [done|]. cbn [scan_keys_task scan_keys_from]. rewrite run_bind.
  apply bind_ext; [apply run_atomic|]. intros [c' ks] w'. case_bool_decide; [done|]. rewrite run_bind. apply bind_ext; [apply IH|done].
Qed.
Lemma cleanup_task_run fuel due w : run_task (cleanup_task fuel due) w = cleanup_sessions fuel due w.
Proof.
  unfold cleanup_task, cleanup_sessions. rewrite run_bind. apply bind_ext; [apply run_atomic|]. intros now w'. rewrite run_try.
  apply try_ext; [|done]. rewrite run_bind. apply bind_ext; [apply scan_keys_task_run|]. intros keys w1. apply cleanup_keys_task_run.
Qed.
End Tasks.

(** * Requests *)

Inductive voice_request :=
| Create (userId : string) (context : FeatureContext.t) (walletAddress : option string) (metadata : option jsobj)
| Get (sessionId : string)
| ListOf (userId : string)
| UpdateState (sessionId : string) (newState : ConversationState.t)
| AddMessage (sessionId content : string) (isUser : bool) (metadata : option jsobj)
| Interrupt (sessionId : string)
| Resume (sessionId : string)
| Terminate (sessionId : string)
| UpdateSocket (sessionId socketId : string)
| Ping (sessionId : string)
| SetActive (userId sessionId : string)
| DeleteActive (userId : string)
| RefreshActive (userId : string)
| CleanupStale (fuel : nat)
| CleanupExpired (fuel : nat).

Section Requests.
Context {DB W : Type} `{!Redis DB, !HasRedis DB W, !Ticking W, !RedisServer, !Clock, !Crypto}.

(** A task whose outcome nobody waits for. *)
Definition finished {A} (t : task W A) : task W unit := task_try (t ≫= λ _, mret tt) (λ _, mret tt).

Definition voice_task (r : voice_request) : task W unit :=
  match r with
  | Create u c a m => finished (createSession_task u c a m)
  | Get id => finished (atomic (getSession id))
  | ListOf u => finished (getUserActiveSessions_task u)
  | UpdateState id new => finished (updateSessionState_task id new)
  | AddMessage id c u m => finished (addMessage_task id c u m)
  | Interrupt id => finished (interruptSession_task id)
  | Resume id => finished (resumeSession_task id)
  | Terminate id => finished (terminateSession_task id)
  | UpdateSocket id s => finished (updateSessionSocket_task id s)
  | Ping id => finished (updateLastPingAt_task id)
  | SetActive u id => finished (atomic (setUserActiveSession u id))
  | DeleteActive u => finished (atomic (deleteUserActiveSession u))
  | RefreshActive u => finished (atomic (refreshUserSessionTTL u))
  | CleanupStale fuel => finished (cleanup_task fuel stale)
  | CleanupExpired fuel => finished (cleanup_task fuel out_of_time)
  end.

(** [SessionCleanupService]: [Promise.all] of both clean-ups, by hand and every five minutes. *)
Definition triggerCleanup (fuel : nat) : list (task W unit) := voice_task <$> [CleanupStale fuel; CleanupExpired fuel].
Definition performCleanup (fuel : nat) : list (task W unit) := voice_task <$> [CleanupStale fuel; CleanupExpired fuel].
End Requests.

(** * Sessions stay in order *)

Section Invariant.
Context {DB W : Type} `{!Redis DB, !RedisLaws DB, !HasRedis DB W, !Ticking W, !RedisServer, !RedisLens DB W}.
Context `{!MonotoneServer, !Clock, !PositiveClock, !Crypto}.
Local Abbreviation ok := (sessions_ok (DB:=DB) (W:=W)).

Lemma piece_ok {A} (m : eff W A) P : keeps ok m P → within ok (if_returned P) (atomic m).
Proof. apply within_keeps. Qed.
Lemma spared_ok {A} (c : Z → DB → outcome A * DB) :
  (∀ id, spares (session_key id) c) → within ok (if_returned anything) (atomic (command c)).
Proof. intros Hc. by apply piece_ok, ok_spared. Qed.
Lemma spared_unit {A} (c : Z → DB → outcome A * DB) :
  (∀ id, spares (session_key id) c) → keeps ok (command c ;; mret tt) anything.
Proof. intros Hc. eapply keeps_bind; [by apply ok_spared|]. intros a _. by apply keeps_ret. Qed.

(** ** Changes of one session *)

Lemma save_ok (s : VoiceSession) : good_session (vs_id s) s → keeps ok (saveSession s ;; mret true) anything.
Proof. intros Hs. eapply keeps_bind; [by apply ok_saveSession|]. intros [] _. by apply keeps_ret. Qed.

Lemma next_state_lives a b : b ∈ validTransitions a → b ≠ ConversationState.STALE ∧ b ≠ ConversationState.TERMINATED.
Proof.
  intros Hin. apply (bool_decide_eq_true_2 (b ∈ validTransitions a)) in Hin. destruct a, b; (discriminate Hin || by split).
Qed.

Lemma voice_transition_table a b : tr_success (voice_transition a b) = true ↔ b ∈ validTransitions a.
Proof.
  unfold voice_transition, canTransition. split.
  - case_bool_decide; [done|discriminate].
  - intros Hin. by rewrite bool_decide_eq_true_2.
Qed.

Lemma update_state_ok id new s : good_session id s → keeps ok (update_state new s) anything.
Proof.
  intros (Hid & (Hc & Ha & Hp & Hm) & Httl & Hst). unfold update_state.
  cbv zeta. destruct (tr_success (voice_transition (vs_state s) new)) eqn:Ht; [|by apply keeps_ret]. apply voice_transition_table, next_state_lives in Ht as [Ht1 Ht2].
  eapply keeps_bind; [apply ok_date_now|]. intros now Hnow. apply save_ok. by split_and!.
Qed.
Lemma append_message_ok id c u m s : good_session id s → keeps ok (append_message c u m s) anything.
Proof.
  intros (Hid & (Hc & Ha & Hp & Hm) & Httl & Hst1 & Hst2). unfold append_message.
  eapply keeps_bind; [apply ok_randomUUID|]. intros mid _. eapply keeps_bind; [apply ok_date_now|]. intros t Ht.
  eapply keeps_bind; [apply ok_date_now|]. intros now Hnow. apply save_ok. split_and!; try done. split_and!; try done.
  cbn. apply Forall_app. split; [done|]. by repeat constructor.
Qed.
Lemma set_socket_ok id so s : good_session id s → keeps ok (set_socket so s) anything.
Proof.
  intros (Hid & (Hc & Ha & Hp & Hm) & Httl & Hst1 & Hst2). unfold set_socket.
  eapply keeps_bind; [apply ok_date_now|]. intros now Hnow. apply save_ok. by split_and!.
Qed.
Lemma ping_ok id s : good_session id s → keeps ok (ping s) anything.
Proof.
  intros (Hid & (Hc & Ha & Hp & Hm) & Httl & Hst1 & Hst2). unfold ping.
  eapply keeps_bind; [apply ok_date_now|]. intros t Ht. eapply keeps_bind; [apply ok_date_now|]. intros now Hnow. apply save_ok.
  split_and!; try done. split_and!; try done. by intros ? [= <-].
Qed.

Lemma read_ok id {B} (f : option VoiceSession → task W B) :
  (∀ o, read_result id o → within ok (if_returned anything) (f o)) →
  within ok (if_returned anything) (atomic (getSession id) ≫= f).
Proof. intros Hf. eapply within_seq; [apply piece_ok, ok_getSession|done]. Qed.

Lemma change_ok id change : (∀ s, good_session id s → keeps ok (change s) anything) →
  within ok (if_returned anything) (change_session id change).
Proof. intros Hc. apply read_ok. intros [s|] Hs; [|done]. by apply piece_ok, Hc, Hs. Qed.

(** ** Every request *)

Lemma getSessions_ok ids : within ok (if_returned anything) (getSessions_task ids).
Proof.
  induction ids as [|id ids IH]; [done|]. cbn [getSessions_task]. apply read_ok. intros o _. by eapply within_seq.
Qed.
Lemma getUserActiveSessions_ok u : within ok (if_returned anything) (getUserActiveSessions_task u).
Proof.
  apply within_catch; [|done]. eapply within_seq; [apply spared_ok; auto with spares|]. intros ids _.
  by eapply within_seq; [apply getSessions_ok|].
Qed.
Lemma create_and_save_ok u c a m : keeps ok (create_and_save u c a m) anything.
Proof.
  unfold create_and_save, voice_create.
  eapply (keeps_bind _ _ _ (λ s, good_session (vs_id s) s)).
  - eapply keeps_bind; [apply ok_date_now|]. intros now Hnow. eapply keeps_bind; [apply ok_randomUUID|]. intros id _.
    apply keeps_ret. by split_and!.
  - intros s Hs. eapply keeps_bind; [by apply ok_saveSession|]. intros [] _. by apply keeps_ret.
Qed.
Lemma createSession_ok u c a m : within ok (if_returned anything) (createSession_task u c a m).
Proof.
  eapply within_seq; [apply getUserActiveSessions_ok|]. intros l _. case_bool_decide; [done|].
  eapply within_seq; [apply piece_ok, create_and_save_ok|]. intros s _.
  eapply within_seq; [apply spared_ok; auto with spares|]. intros _ _.
  by eapply within_seq; [apply spared_ok; auto with spares|].
Qed.
Lemma interruptSession_ok id : within ok (if_returned anything) (interruptSession_task id).
Proof.
  apply read_ok. intros [s|] Hs; [|done]. destruct (negb _); [done|]. apply change_ok. intros s'. apply update_state_ok.
Qed.
Lemma resumeSession_ok id : within ok (if_returned anything) (resumeSession_task id).
Proof. apply read_ok. intros [s|] Hs; [|done]. apply change_ok. intros s'. apply update_state_ok. Qed.
Lemma deleteUserActiveSession_ok u : keeps ok (deleteUserActiveSession u) anything.
Proof. apply spared_unit. intros id. apply spares_del. by intros ?%list_elem_of_singleton. Qed.
Lemma terminateSession_ok id : within ok (if_returned anything) (terminateSession_task id).
Proof.
  apply within_catch; [|done]. apply read_ok. intros [s|] _; [|done].
  eapply within_seq; [apply piece_ok, ok_del|]. intros _ _.
  eapply within_seq; [apply piece_ok, spared_unit; auto with spares|]. intros _ _.
  eapply within_seq; [apply spared_ok; auto with spares|]. intros o _.
  eapply (within_seq _ _ _ anything); [|done]. case_bool_decide; [|done]. apply piece_ok, deleteUserActiveSession_ok.
Qed.
Lemma cleanup_read_ok key : keeps ok (cleanup_read key) anything.
Proof.
  eapply keeps_bind; [apply ok_spared; auto with spares|]. intros [t|] _; [|by apply keeps_ret].
  case_bool_decide; [by apply keeps_ret|]. intros w Hw. unfold of_outcome, mbind, eff_bind. by destruct (parse_session t).
Qed.
Lemma cleanup_key_ok due key : within ok (if_returned anything) (cleanup_key_task due key).
Proof.
  eapply (within_seq _ _ _ anything); [apply piece_ok, cleanup_read_ok|]. intros [s|] _; [|done]. destruct (due s); [|done].
  by eapply within_seq; [apply terminateSession_ok|].
Qed.
Lemma cleanup_keys_ok due keys n : within ok (if_returned anything) (cleanup_keys_task due keys n).
Proof.
  revert n. induction keys as [|key keys IH]; intros n; [done|]. cbn [cleanup_keys_task].
  apply (within_seq _ _ _ (if_returned anything)); [apply within_attempt, cleanup_key_ok|].
  intros [[]|] _; [apply IH|apply IH|done].
Qed.
Lemma scan_keys_ok fuel c p : within ok (if_returned anything) (scan_keys_task fuel c p).
Proof.
  revert c. induction fuel as [|fuel IH]; intros c; [done|]. cbn [scan_keys_task].
  eapply within_seq; [apply spared_ok; auto with spares|]. intros [c' ks] _. case_bool_decide; [done|].
  by eapply within_seq.
Qed.
Lemma cleanup_ok fuel due : within ok (if_returned anything) (cleanup_task fuel due).
Proof.
  eapply within_seq; [apply piece_ok, ok_date_now|]. intros now _. apply within_catch; [|done].
  eapply within_seq; [apply scan_keys_ok|]. intros keys _. apply cleanup_keys_ok.
Qed.

Lemma finished_ok {A} (t : task W A) : within ok (if_returned anything) t → within ok (if_returned anything) (finished t).
Proof. intros Ht. apply within_catch; [|done]. by eapply within_seq. Qed.

Lemma voice_task_ok r : within ok (if_returned anything) (voice_task r).
Proof.
  destruct r; apply finished_ok.
  - apply createSession_ok.
  - apply piece_ok. by eapply keeps_weaken; [apply ok_getSession|].
  - apply getUserActiveSessions_ok.
  - apply change_ok. intros s. apply update_state_ok.
  - apply change_ok. intros s. apply append_message_ok.
  - apply interruptSession_ok.
  - apply resumeSession_ok.
  - apply terminateSession_ok.
  - apply change_ok. intros s. apply set_socket_ok.
  - apply change_ok. intros s. apply ping_ok.
  - apply spared_ok; auto with spares.
  - apply piece_ok, deleteUserActiveSession_ok.
  - apply piece_ok. unfold refreshUserSessionTTL, refreshTTL. eapply (keeps_bind _ _ _ anything).
    + eapply keeps_bind; [apply ok_spared; auto with spares|]. intros n _. by apply keeps_ret.
    + intros b _. by apply keeps_ret.
  - apply cleanup_ok.
  - apply cleanup_ok.
Qed.
End Invariant.

(** C11: the sessions in Redis stay in order.  However any number of requests, clean-ups and pings
    interleave, and whichever commands fail, every session that Redis holds can be read, has the id
    of its key, the lifetime of an hour, dates from 1970 on, and is in none of the two final
    states [STALE] and [TERMINATED]. *)
Theorem voice_sessions_ok `{!Redis DB, !RedisLaws DB, !HasRedis DB W, !Ticking W, !RedisServer, !RedisLens DB W}
    `{!MonotoneServer, !Clock, !PositiveClock, !Crypto} requests (w : W) ts' w' :
  sessions_ok w → rtc pool_step (voice_task <$> requests, w) (ts', w') → sessions_ok w'.
Proof.
  intros Hw Hsteps. apply (pool_keeps (sessions_ok (DB:=DB)) (if_returned anything) _ _ Hsteps); [done|].
  apply Forall_fmap, Forall_forall. intros r _. apply voice_task_ok.
Qed.
