(* ===== verification/VoiceStates.v ===== *)
(** What the operations on voice sessions do when they run alone: the states a session goes through,
    the answers of [interruptSession] and [resumeSession], and what a clean-up leaves. *)
From S2P Require Import Prelude Async Json JsonParse Redis VoiceTypes VoiceSessions VoiceFacts VoiceTasks.
Open Scope Z_scope.

Section States.
Context {DB W : Type} `{!Redis DB, !RedisLaws DB, !HasRedis DB W, !Ticking W, !RedisServer, !RedisLens DB W}.
Context `{!MonotoneServer, !Clock, !PositiveClock, !Crypto}.
Implicit Types (w : W).
Local Abbreviation ok := (sessions_ok (DB:=DB) (W:=W)).

(** * The session that can be read under an id *)

Definition session_of_entry (o : option entry) : option VoiceSession :=
  match o with
  | Some (mkEntry (RText text) _) => match parse_session text with Return s => Some s | Throw _ => None end
  | _ => None
  end.
Definition session_at (id : string) w : option VoiceSession := session_of_entry (held (session_key id) w).

Lemma session_of_seen t o s : session_of_entry (seen_at t o) = Some s → session_of_entry o = Some s.
Proof.
  destruct o as [e|]; [|done]. unfold seen_at. cbn [mbind option_bind]. by case_decide.
Qed.

Lemma session_of_text s d : dated s → session_of_entry (Some (mkEntry (RText (session_text s)) d)) = Some (stored s).
Proof. intros Hd. cbn [session_of_entry]. by rewrite parse_session_text. Qed.
Lemma session_at_held id w s : ok w → session_at id w = Some s → ∃ s0 d,
  held (session_key id) w = Some (mkEntry (RText (session_text s0)) d) ∧ s = stored s0 ∧ good_session id s0.
Proof.
  unfold session_at. intros Hok. destruct (held (session_key id) w) as [[v d]|] eqn:He; [|done].
  destruct (Hok id _ He) as (s0 & Hv & Hgood). cbn [e_value] in Hv. subst v. destruct (Hgood) as (_ & Hd & _).
  rewrite session_of_text by done. intros [= <-]. by exists s0, d.
Qed.
Lemma session_at_good id w s : ok w → session_at id w = Some s → good_session id s.
Proof. intros Hok Hs. destruct (session_at_held _ _ _ Hok Hs) as (s0 & d & _ & -> & Hg). by apply good_stored. Qed.

(** * Effects that change no session *)

(** Sessions are only lost by time. *)
Definition ages w w' : Prop := (tick w ≤ tick w')%nat ∧
  ∀ id, held (session_key id) w' = seen_at (server_at (tick w')) (held (session_key id) w).
(** What can be read afterwards could be read before. *)
Definition fades w w' : Prop := ∀ id s, session_at id w' = Some s → session_at id w = Some s.

Lemma held_now k w : held k w = seen_at (server_at (tick w)) (held k w).
Proof. unfold held. rewrite <-live_later by lia. done. Qed.

#[global] Instance ages_preorder : PreOrder ages.
Proof.
  split; [intros w; split; [done|intros id; apply held_now]|]. intros w1 w2 w3 [Ht1 H1w] [Ht2 H2w]. split; [lia|].
  intros id. rewrite H2w, H1w. apply seen_seen, server_mono. lia.
Qed.
#[global] Instance fades_preorder : PreOrder fades.
Proof. split; [by intros w id s|]. intros w1 w2 w3 H1w H2w id s Hs. by apply H1w, H2w. Qed.
#[local] Hint Resolve ages_preorder fades_preorder : moves.

Lemma ages_fades w w' : ages w w' → fades w w'.
Proof. intros [_ Hh] id s. unfold session_at. rewrite Hh. apply session_of_seen. Qed.
Lemma moves_fades {A} (m : eff W A) : moves ages m → moves fades m.
Proof. intros Hm w. by apply ages_fades, Hm. Qed.

Lemma ages_command {A} (c : Z → DB → outcome A * DB) : (∀ id, spares (session_key id) c) → moves ages (command c).
Proof. intros Hc w. split; [rewrite tick_command; lia|]. intros id. rewrite held_spared by done. by rewrite tick_command. Qed.
Lemma ages_advance w : ages w (advance w).
Proof.
  split; [rewrite tick_advance; lia|]. intros id. unfold held. rewrite redis_advance. apply live_later, server_mono.
  rewrite tick_advance. lia.
Qed.
Lemma ages_date_now : moves ages date_now.
Proof. intros w. apply ages_advance. Qed.
Lemma ages_randomUUID : moves ages randomUUID.
Proof. intros w. apply ages_advance. Qed.
#[local] Hint Resolve ages_date_now ages_randomUUID : moves.
#[local] Hint Extern 1 (moves ages (command _)) => apply ages_command; auto with spares : moves.

Lemma ages_of_outcome {A} (o : outcome A) : moves ages (of_outcome o : eff W A).
Proof. intros w. done. Qed.
#[local] Hint Resolve ages_of_outcome : moves.
Lemma ages_getSession id : moves ages (getSession id).
Proof. unfold getSession. moves_tac. Qed.
#[local] Hint Resolve ages_getSession : moves.
Lemma ages_getSessions ids : moves ages (getSessions ids).
Proof. induction ids; cbn [getSessions]; moves_tac. Qed.
#[local] Hint Resolve ages_getSessions : moves.
Lemma ages_getUserActiveSessions u : moves ages (getUserActiveSessions u).
Proof. unfold getUserActiveSessions. moves_tac. Qed.
Lemma ages_addUserSession u id : moves ages (addUserSession u id).
Proof. unfold addUserSession. moves_tac. Qed.
Lemma ages_removeUserSession u id : moves ages (removeUserSession u id).
Proof. unfold removeUserSession. moves_tac. Qed.
Lemma ages_deleteUserActiveSession u : moves ages (deleteUserActiveSession u).
Proof.
  unfold deleteUserActiveSession. apply moves_bind; [apply _| |intros; auto with moves]. apply ages_command.
  intros id. apply spares_del. by intros ?%list_elem_of_singleton.
Qed.
#[local] Hint Resolve ages_getUserActiveSessions ages_addUserSession ages_removeUserSession ages_deleteUserActiveSession : moves.
Lemma ages_clear u id : moves ages (clearUserActiveSessionIfMatches u id).
Proof. unfold clearUserActiveSessionIfMatches, getUserActiveSession. moves_tac. Qed.
#[local] Hint Resolve ages_clear : moves.
Lemma ages_refresh u : moves ages (refreshUserSessionTTL u).
Proof. unfold refreshUserSessionTTL, refreshTTL. moves_tac. Qed.

(** What [getSession] returns was there. *)
Lemma getSession_read id w s w' : getSession id w = (Return (Some s), w') → session_at id w = Some s.
Proof.
  unfold getSession, try_catch, session_at, held. fold (session_key id). unfold command, mbind, eff_bind, cmd_get.
  destruct (server_fault (tick w)); [done|]. destruct (live _ (session_key id) (redis w)) as [[[t| | |] d]|]; try done.
  case_bool_decide; [done|]. unfold of_outcome. cbn [session_of_entry]. destruct (parse_session t); [|done]. by intros [= <- _].
Qed.

(** * Effects that write one session *)

(** Sessions are lost, or one is written. *)
Definition alters {A} (P : string → VoiceSession → Prop) (m : eff W A) : Prop := ∀ w id s,
  session_at id (m w).2 = Some s → session_at id w = Some s ∨ P id s.

Lemma alters_fades {A} P (m : eff W A) : moves fades m → alters P m.
Proof. intros Hm w id' s' Hs. left. by apply Hm. Qed.
Lemma alters_after {A B} P (m : eff W A) (f : A → eff W B) :
  moves fades m → (∀ w a w', m w = (Return a, w') → alters P (f a)) → alters P (m ≫= f).
Proof.
  intros Hm Hf w id' s'. specialize (Hm w). unfold mbind, eff_bind. destruct (m w) as [[a|e] w'] eqn:Hrun.
  - intros Hs. destruct (Hf _ _ _ Hrun w' id' s' Hs) as [Hs'|]; [|by right]. left. by apply Hm.
  - intros Hs. left. by apply Hm.
Qed.
Lemma alters_now {B} P (f : Z → eff W B) : (∀ t, 0 <= t → alters P (f t)) → alters P (date_now ≫= f).
Proof.
  intros Hf. apply alters_after; [apply moves_fades, ages_date_now|]. intros w t w' [= <- _]. apply Hf, clock_positive.
Qed.

Lemma alters_save {B} s P (f : unit → eff W B) : good_session (vs_id s) s → P (vs_id s) (stored s) → (∀ u, moves fades (f u)) →
  alters P (saveSession s ≫= f).
Proof.
  intros (_ & Hd & Httl & _) HP Hf w id' s'. unfold mbind, eff_bind.
  assert (session_at id' (saveSession s w).2 = Some s' → session_at id' w = Some s' ∨ P id' s') as Hsave.
  { unfold saveSession. fold (session_key (vs_id s)). unfold session_at. destruct (decide (id' = vs_id s)) as [->|Hne].
    - destruct (server_fault (tick w)) as [e|] eqn:Hf0.
      { intros Hs. rewrite (held_fault _ _ _ _ Hf0) in Hs. apply session_of_seen in Hs. by left. }
      rewrite Httl. intros Hs. erewrite (held_run _ _ _ _ _ Hf0 eq_refl) in Hs.
      change (session_of_entry (live (server_at (S (tick w))) (session_key (vs_id s)) (put (session_key (vs_id s))
        (RText (session_text s)) (Some (server_at (tick w) + 3600 * 1000)) (redis w))) = Some s') in Hs.
      rewrite live_put, decide_True in Hs by done. apply session_of_seen in Hs. rewrite session_of_text in Hs by done.
      injection Hs as <-. by right.
    - intros Hs. rewrite held_spared in Hs; [apply session_of_seen in Hs; by left|]. apply spares_setEx. by intros ?%(inj session_key). }
  destruct (saveSession s w) as [[u|e] w1] eqn:Hrun; cbn [snd] in *; [|done]. intros Hs. apply Hsave. by apply (Hf u).
Qed.

(** What becomes of the state of a session. *)
Definition next_state (s s' : VoiceSession) : Prop :=
  vs_state s' = vs_state s ∨ vs_state s' ∈ validTransitions (vs_state s).
Definition next_at (s : VoiceSession) (id : string) (s' : VoiceSession) : Prop := id = vs_id s ∧ next_state s s'.

Lemma alters_update_state id new s : good_session id s → alters (next_at s) (update_state new s).
Proof.
  intros (<- & (Hc & Ha & Hp & Hm) & Httl & Hst). unfold update_state. cbv zeta.
  destruct (tr_success (voice_transition (vs_state s) new)) eqn:Ht; cbn [negb]; [|apply alters_fades; moves_tac].
  apply voice_transition_table in Ht. pose proof (next_state_lives _ _ Ht) as [Ht1 Ht2].
  apply alters_now. intros now Hnow. apply (alters_save (set_vs_lastActivityAt now (set_vs_state new s)));
    [by split_and!|by split; [|right]|]. intros u. moves_tac.
Qed.
Lemma alters_append_message id c u m s : good_session id s → alters (next_at s) (append_message c u m s).
Proof.
  intros (<- & (Hc & Ha & Hp & Hm) & Httl & Hst1 & Hst2). unfold append_message.
  apply alters_after; [apply moves_fades; moves_tac|]. intros _ mid _ _. apply alters_now. intros t Ht. cbv zeta.
  apply alters_now. intros now Hnow. apply (alters_save (set_vs_lastActivityAt now (set_vs_messages _ s))); [|by split; [|left]|intros; moves_tac].
  split_and!; try done. split_and!; try done. cbn. apply Forall_app. split; [done|]. by repeat constructor.
Qed.
Lemma alters_set_socket id so s : good_session id s → alters (next_at s) (set_socket so s).
Proof.
  intros (<- & (Hc & Ha & Hp & Hm) & Httl & Hst1 & Hst2). unfold set_socket. apply alters_now. intros now Hnow.
  apply (alters_save (set_vs_lastActivityAt now (set_vs_socketId _ s))); [by split_and!|by split; [|left]|intros; moves_tac].
Qed.
Lemma alters_ping id s : good_session id s → alters (next_at s) (ping s).
Proof.
  intros (<- & (Hc & Ha & Hp & Hm) & Httl & Hst1 & Hst2). unfold ping. apply alters_now. intros t Ht. apply alters_now. intros now Hnow.
  apply (alters_save (set_vs_lastActivityAt now (set_vs_lastPingAt _ s))); [|by split; [|left]|intros; moves_tac].
  split_and!; try done. split_and!; try done. by intros ? [= <-].
Qed.

(** * Requests that run alone *)

(** Every session that is there afterwards was there before, and its state is the same or one that
    the table allows next. *)
Definition in_table w w' : Prop := ∀ id s', session_at id w' = Some s' → ∃ s, session_at id w = Some s ∧ next_state s s'.

Lemma fades_in_table w w' : fades w w' → in_table w w'.
Proof. intros Hf id s' Hs. exists s'. split; [by apply Hf|by left]. Qed.
Lemma in_table_after w w1 w' : fades w w1 → in_table w1 w' → in_table w w'.
Proof. intros Hf Ht id s' Hs. destruct (Ht id s' Hs) as (s & Hs1 & Hn). exists s. split; [by apply Hf|done]. Qed.

(** A session is read and changed. *)
Lemma read_in_table {A} id (f : option VoiceSession → eff W A) w :
  (∀ o w', getSession id w = (Return o, w') → in_table w' (f o w').2) →
  in_table w ((getSession id ≫= f) w).2.
Proof.
  intros Hf. pose proof (ages_getSession id w) as Hg%ages_fades. unfold mbind, eff_bind.
  destruct (getSession id w) as [[o|e] w'] eqn:Hrun; [|by apply fades_in_table].
  eapply in_table_after; [exact Hg|]. by apply Hf.
Qed.
Lemma ok_read id w o w' : ok w → getSession id w = (o, w') → ok w'.
Proof. intros Hok Hrun. pose proof (ok_getSession id w Hok) as [Hok' _]. by rewrite Hrun in Hok'. Qed.

Lemma change_in_table id change w : ok w → (∀ s, good_session id s → alters (next_at s) (change s)) →
  in_table w (run_task (change_session id change) w).2.
Proof.
  intros Hok Hc. rewrite change_session_run. unfold mbind, eff_bind.
  pose proof (ok_getSession id w Hok) as [_ Hread]. pose proof (ages_getSession id w) as Hg%ages_fades.
  destruct (getSession id w) as [[[s|]|e] w'] eqn:Hrun; [|by apply fades_in_table..]. intros id' s' Hs.
  pose proof (Hread _ eq_refl s eq_refl) as Hgood. destruct (Hc s Hgood w' id' s' Hs) as [Hs'|[-> Hn]].
  - exists s'. split; [by apply Hg|by left].
  - exists s. destruct Hgood as [-> _]. split; [by eapply getSession_read|done].
Qed.

Lemma fades_del id : moves fades (command (cmd_del [session_key id])).
Proof.
  intros w id' s'. unfold session_at. destruct (decide (id' = id)) as [->|Hne].
  - destruct (server_fault (tick w)) as [e|] eqn:Hf; intros Hs.
    + rewrite (held_fault _ _ _ _ Hf) in Hs. by apply session_of_seen in Hs.
    + erewrite (held_run _ _ _ _ _ Hf eq_refl) in Hs. cbn [foldr] in Hs. by rewrite live_write_eq in Hs.
  - intros Hs. rewrite held_spared in Hs; [by apply session_of_seen in Hs|]. apply spares_del.
    by intros ?%list_elem_of_singleton%(inj session_key).
Qed.
#[local] Hint Resolve fades_del : moves.
#[local] Hint Extern 3 (moves fades _) => apply moves_fades; progress auto with moves : moves.

Lemma fades_terminateSession id : moves fades (terminateSession id).
Proof. unfold terminateSession. fold (session_key id). moves_tac. Qed.
#[local] Hint Resolve fades_terminateSession : moves.
Lemma fades_cleanup_key due key : moves fades (cleanup_key due key).
Proof. unfold cleanup_key. moves_tac. Qed.
Lemma fades_cleanup_keys due keys n : moves fades (cleanup_keys due keys n).
Proof.
  revert n. induction keys as [|key keys IH]; intros n; cbn [cleanup_keys]; [moves_tac|].
  apply moves_bind; [apply _|apply moves_attempt, fades_cleanup_key|]. intros [[]|]; [apply IH..|moves_tac].
Qed.
Lemma ages_scan fuel c p : moves ages (scan_keys_from fuel c p).
Proof. revert c. induction fuel as [|fuel IH]; intros c; cbn [scan_keys_from]; [moves_tac|]. moves_tac. Qed.
Lemma fades_cleanup fuel due : moves fades (cleanup_sessions fuel due).
Proof.
  unfold cleanup_sessions. apply moves_bind; [apply _|moves_tac|]. intros now. apply moves_try; [apply _| |moves_tac].
  apply moves_bind; [apply _|apply moves_fades, ages_scan|]. intros keys. apply fades_cleanup_keys.
Qed.

(** A created session is idle. *)
Lemma alters_create u c a m : alters (λ _ s, vs_state s = ConversationState.IDLE) (createSession u c a m).
Proof.
  apply alters_after; [apply moves_fades; moves_tac|]. intros _ l _ _. case_bool_decide; [apply alters_fades; moves_tac|].
  unfold voice_create. intros w. rewrite <-bind_assoc. revert w.
  apply alters_now. intros now Hnow w. rewrite <-bind_assoc. revert w.
  apply alters_after; [apply moves_fades; moves_tac|]. intros _ id _ _ w. rewrite bind_mret. revert w.
  apply alters_save; [by split_and!|done|intros; moves_tac].
Qed.

Lemma run_finished {A} (t : task W A) w : (run_task (finished t) w).2 = (run_task t w).2.
Proof.
  unfold finished. rewrite run_try. unfold try_catch. rewrite run_bind. unfold mbind, eff_bind. by destruct (run_task t w) as [[a|e] w'].
Qed.

Lemma update_in_table id new w : ok w → in_table w (updateSessionState id new w).2.
Proof. intros Hok. rewrite <-updateSessionState_task_run. apply change_in_table; [done|]. intros s. apply alters_update_state. Qed.
Lemma interrupt_in_table id w : ok w → in_table w (interruptSession id w).2.
Proof.
  intros Hok. apply read_in_table. intros o w' Hrun. destruct o as [s|]; [|by apply fades_in_table].
  destruct (negb _); [by apply fades_in_table|]. by eapply update_in_table, ok_read.
Qed.
Lemma resume_in_table id w : ok w → in_table w (resumeSession id w).2.
Proof.
  intros Hok. apply read_in_table. intros o w' Hrun. destruct o as [s|]; [|by apply fades_in_table].
  by eapply update_in_table, ok_read.
Qed.

(** A service that works off its requests one after the other. *)
Definition voice_request_run (r : voice_request) : eff W unit := run_task (voice_task r).
Definition voice_run (requests : list voice_request) w : W := foldl (λ w r, (voice_request_run r w).2) w requests.

(** What a request does to the session under an id. *)
Definition session_step (r : voice_request) (o o' : option VoiceSession) : Prop :=
  match o' with
  | None => True
  | Some s' => (∃ s, o = Some s ∧ next_state s s') ∨ (∃ u c a m, r = Create u c a m ∧ vs_state s' = ConversationState.IDLE)
  end.

Lemma in_table_step r w w' : in_table w w' → ∀ id, session_step r (session_at id w) (session_at id w').
Proof. intros Ht id. destruct (session_at id w') as [s'|] eqn:Hs; [|done]. left. by apply Ht. Qed.

Lemma fades_step r (m : eff W unit) w : moves fades m → ∀ id, session_step r (session_at id w) (session_at id (m w).2).
Proof. intros Hm. apply in_table_step, fades_in_table, Hm. Qed.
End States.

(** C12: the states of a conversation follow the table.  A request that runs alone, whichever of its
    commands fail, leaves every session in the state it had or in one that [validTransitions] allows
    next, or forgets it; only [createSession] makes a session readable, and that one is idle. *)
Theorem requests_follow_table `{!Redis DB, !RedisLaws DB, !HasRedis DB W, !Ticking W, !RedisServer, !RedisLens DB W}
    `{!MonotoneServer, !Clock, !PositiveClock, !Crypto} r (w : W) id :
  sessions_ok w → session_step r (session_at id w) (session_at id (voice_request_run r w).2).
Proof.
  intros Hok. revert id. unfold voice_request_run. destruct r; cbn [voice_task]; rewrite run_finished.
  - rewrite createSession_task_run. intros id. destruct (session_at id (createSession _ _ _ _ w).2) as [s'|] eqn:Hs; [|done].
    apply alters_create in Hs as [Hs|Hs]; [left; exists s'; split; [done|by left]|right]. by repeat eexists.
  - rewrite run_atomic. apply in_table_step, fades_in_table, ages_fades, ages_getSession.
  - rewrite getUserActiveSessions_task_run. apply in_table_step, fades_in_table, ages_fades, ages_getUserActiveSessions.
  - rewrite updateSessionState_task_run. by apply in_table_step, update_in_table.
  - apply in_table_step, change_in_table; [done|]. intros s. apply alters_append_message.
  - rewrite interruptSession_task_run. by apply in_table_step, interrupt_in_table.
  - rewrite resumeSession_task_run. by apply in_table_step, resume_in_table.
  - rewrite terminateSession_task_run. apply in_table_step, fades_in_table, fades_terminateSession.
  - apply in_table_step, change_in_table; [done|]. intros s. apply alters_set_socket.
  - apply in_table_step, change_in_table; [done|]. intros s. apply alters_ping.
  - rewrite run_atomic. apply in_table_step, fades_in_table, ages_fades, ages_command. auto with spares.
  - rewrite run_atomic. apply in_table_step, fades_in_table, ages_fades, ages_deleteUserActiveSession.
  - rewrite run_atomic. apply in_table_step, fades_in_table, ages_fades, ages_refresh.
  - rewrite cleanup_task_run. apply in_table_step, fades_in_table, fades_cleanup.
  - rewrite cleanup_task_run. apply in_table_step, fades_in_table, fades_cleanup.
Qed.
