(* ===== verification/VoiceRuns.v ===== *)
(** The operations on voice sessions while Redis answers: what is written is read back, the answers
    of [updateSessionState], [interruptSession] and [resumeSession], and what a clean-up leaves. *)
From S2P Require Import Prelude Async Json JsonParse Redis VoiceTypes VoiceSessions VoiceFacts VoiceTasks VoiceStates.
Open Scope Z_scope.

Section Runs.
Context {DB W : Type} `{!Redis DB, !RedisLaws DB, !HasRedis DB W, !Ticking W, !RedisServer, !RedisLens DB W}.
Context `{!RedisUp, !MonotoneServer, !Clock, !PositiveClock, !Crypto}.
Implicit Types (w : W).
Local Abbreviation ok := (sessions_ok (DB:=DB) (W:=W)).
#[local] Hint Resolve ages_preorder fades_preorder : moves.

(** * Reading and writing one session *)

(** [getSession] answers with the session that can be read. *)
Lemma getSession_run id w : ok w → ∃ w', getSession id w = (Return (session_at id w), w') ∧ tick w' = S (tick w) ∧
  ages w w' ∧ ok w'.
Proof.
  intros Hok. exists (command (cmd_get (session_key id)) w).2. split_and!.
  - unfold getSession, try_catch. fold (session_key id). unfold mbind, eff_bind, session_at. rewrite command_up. unfold cmd_get.
    fold (held (session_key id) w). destruct (held (session_key id) w) as [[v d]|] eqn:He; [|done].
    destruct (Hok id _ He) as (s & Hv & _ & Hd & _). cbn [e_value] in Hv. subst v.
    rewrite session_of_text by done. rewrite bool_decide_eq_false_2 by apply session_text_nonempty. unfold of_outcome.
    by rewrite parse_session_text.
  - apply tick_command.
  - apply ages_command. auto with spares.
  - apply (ok_spared (cmd_get (session_key id))); [auto with spares|done].
Qed.

(** What a write puts under the id, and for how long. *)
Definition written (s : VoiceSession) (at_ : nat) : option entry :=
  Some (mkEntry (RText (session_text s)) (Some (server_at at_ + 3600 * 1000))).

Lemma saveSession_run s w : vs_ttl s = 3600 →
  runs_to (saveSession s) w tt (session_key (vs_id s)) (written s (tick w)).
Proof. intros Httl. unfold saveSession, written. rewrite Httl. by apply run_setEx. Qed.

Lemma session_of_written t s n : dated s → t < server_at n + 3600 * 1000 → session_of_entry (seen_at t (written s n)) = Some (stored s).
Proof.
  intros Hd Ht. unfold written, seen_at. cbn [mbind option_bind]. rewrite decide_True by done. by apply session_of_text.
Qed.

(** The table decides, and what is written then is the session with its new state. *)
Definition updated (s : VoiceSession) (new : ConversationState.t) (at_ : nat) : VoiceSession :=
  s |> set_vs_state new |> set_vs_lastActivityAt (clock_at at_).

Lemma updateSessionState_run id new w : ok w → ∃ w' n,
  updateSessionState id new w = (Return (match session_at id w with
                                         | Some s => bool_decide (new ∈ validTransitions (vs_state s))
                                         | None => false end), w') ∧ ok w' ∧
  held (session_key id) w' = seen_at (server_at (tick w'))
    (match session_at id w with
     | Some s => if decide (new ∈ validTransitions (vs_state s)) then written (updated s new (S (tick w))) n else held (session_key id) w
     | None => held (session_key id) w
     end).
Proof.
  intros Hok. destruct (getSession_run id w Hok) as (w1 & Hrun & Ht & [_ Hages] & Hok1). unfold updateSessionState.
  rewrite (bind_run _ _ _ _ _ Hrun). destruct (session_at id w) as [s|] eqn:Hs; [|by exists w1, 0%nat].
  cbv zeta. unfold voice_transition, canTransition. case_bool_decide as Hin; cbn [negb tr_success].
  2:{ exists w1, 0%nat. by rewrite decide_False. }
  rewrite (bind_run _ _ _ (clock_at (tick w1)) (advance w1)) by done.
  pose proof (session_at_good _ _ _ Hok Hs) as (<- & (Hc & Ha & Hp & Hm) & Httl & _). pose proof (next_state_lives _ _ Hin) as [Hn1 Hn2].
  destruct (saveSession_run (updated s new (tick w1)) (advance w1) Httl) as (w2 & Hsave & Ht2 & Hheld & _).
  exists w2, (tick (advance w1)). rewrite decide_True by done. unfold updated in Hsave, Hheld |- *. rewrite (bind_run _ _ _ _ _ Hsave). rewrite <-Ht.
  split; [done|]. split; [|exact Hheld].
  assert (ok (saveSession (updated s new (tick w1)) (advance w1)).2) as Hok2; [|by change (ok (saveSession (set_vs_lastActivityAt (clock_at (tick w1)) (set_vs_state new s)) (advance w1)).2) in Hok2; rewrite Hsave in Hok2].
  apply ok_saveSession; [|by apply ok_advance]. split_and!; try done. by split_and!; try apply clock_positive.
Qed.

(** The state that [updateSessionState] leaves, as far as it can be read. *)
Lemma updateSessionState_state id new w w' o : ok w → updateSessionState id new w = (o, w') →
  ∀ s', session_at id w' = Some s' → ∃ s, session_at id w = Some s ∧
    vs_state s' = if decide (new ∈ validTransitions (vs_state s)) then new else vs_state s.
Proof.
  intros Hok Hrun s' Hs'. destruct (updateSessionState_run id new w Hok) as (w1 & n & Hrun1 & _ & Hheld).
  rewrite Hrun1 in Hrun. injection Hrun as _ <-. unfold session_at in Hs'. rewrite Hheld in Hs'. apply session_of_seen in Hs'.
  destruct (session_at id w) as [s|] eqn:Hs; [|unfold session_at in Hs; by rewrite Hs in Hs'].
  exists s. split; [done|]. case_decide; [|unfold session_at in Hs; rewrite Hs in Hs'; by injection Hs' as ->].
  pose proof (session_at_good _ _ _ Hok Hs) as (<- & (Hc & Ha & Hp & Hm) & _). unfold written in Hs'.
  rewrite session_of_text in Hs'; [by injection Hs' as <-|]. by split_and!; try apply clock_positive.
Qed.

(** * Clean-up *)

Lemma substring_all s n : (String.length s ≤ n)%nat → String.substring 0 n s = s.
Proof.
  revert n. induction s as [|a s IH]; intros [|n] Hn; cbn in *; [done|done|lia|]. f_equal. apply IH. lia.
Qed.
Lemma replace_session_prefix id : replace_first SESSION_PREFIX (session_key id) = id.
Proof.
  assert (replace_first SESSION_PREFIX (session_key id) = String.substring 0 (String.length (session_key id)) id) as -> by by destruct id.
  apply substring_all. unfold session_key. rewrite string_length_app. lia.
Qed.

(** A terminated session is gone; all others only get older. *)
Definition only_loses (id : string) w w' : Prop := (tick w ≤ tick w')%nat ∧ ∀ id', id' ≠ id →
  held (session_key id') w' = seen_at (server_at (tick w')) (held (session_key id') w).

Lemma only_loses_ages id w w1 w' : only_loses id w w1 → ages w1 w' → only_loses id w w'.
Proof.
  intros [Ht1 H1w] [Ht2 H2w]. split; [lia|]. intros id' Hne. rewrite H2w, H1w by done. apply seen_seen, server_mono. lia.
Qed.

Lemma terminateSession_run id w : ok w → ∃ b w', terminateSession id w = (Return b, w') ∧
  session_at id w' = None ∧ only_loses id w w'.
Proof.
  intros Hok. destruct (getSession_run id w Hok) as (w1 & Hrun & Ht & Hages & Hok1). unfold terminateSession, try_catch.
  rewrite (bind_run _ _ _ _ _ Hrun). destruct (session_at id w) as [s|] eqn:Hs.
  2:{ exists false, w1. split; [done|]. split; [|by split; [lia|intros; apply Hages]].
      destruct (session_at id w1) eqn:Hs1; [|done]. apply (ages_fades _ _ Hages) in Hs1. congruence. }
  fold (session_key id). set (w2 := (command (cmd_del [session_key id]) w1).2).
  assert (session_at id w2 = None) as Hgone.
  { unfold session_at, w2. erewrite (held_run _ _ _ _ _ (redis_up _) eq_refl). cbn [foldr]. by rewrite live_write_eq. }
  assert (only_loses id w w2) as Hloses.
  { unfold w2. split; [rewrite tick_command; lia|]. intros id' Hne. rewrite held_spared.
    - rewrite tick_command. destruct Hages as [_ ->]. apply seen_seen, server_mono. lia.
    - apply spares_del. by intros ?%list_elem_of_singleton%(inj session_key). }
  unfold mbind at 1, eff_bind at 1. destruct (command (cmd_del [session_key id]) w1) as [o w2'] eqn:Hdel. cbn [snd] in w2. subst w2.
  rewrite command_up in Hdel. injection Hdel as <- Hw2.
  set (rest := removeUserSession (vs_userId s) id ;; clearUserActiveSessionIfMatches (vs_userId s) id ;; mret true).
  assert (moves ages rest) as Hrest.
  { apply moves_bind; [apply _|apply ages_removeUserSession|]. intros _. apply moves_bind; [apply _|apply ages_clear|]. intros _. moves_tac. }
  specialize (Hrest w2'). fold rest. destruct (rest w2') as [[b|e] w3]; cbn [snd] in Hrest; [exists b, w3|exists false, w3]; split; try done;
    (split; [|by eapply only_loses_ages]); destruct (session_at id w3) eqn:Hs3; try done;
    apply (ages_fades _ _ Hrest) in Hs3; congruence.
Qed.

(** A due session is not left behind, and one that is not due only gets older. *)
Definition cleaned (due : VoiceSession → bool) (ids : list string) w w' : Prop :=
  (tick w ≤ tick w')%nat ∧ fades w w' ∧
  (∀ id s, id ∈ ids → session_at id w' = Some s → due s = false) ∧
  (∀ id, (∀ s, session_at id w = Some s → due s = false) →
     held (session_key id) w' = seen_at (server_at (tick w')) (held (session_key id) w)).

Lemma cleaned_ages due w w' : ages w w' → cleaned due [] w w'.
Proof. intros Ha. split_and!; [apply Ha|by apply ages_fades|by intros id s ?%elem_of_nil|intros id _; apply Ha]. Qed.

Lemma cleaned_trans due ids1 ids2 w1 w2 w3 : cleaned due ids1 w1 w2 → cleaned due ids2 w2 w3 → cleaned due (ids1 ++ ids2) w1 w3.
Proof.
  intros (Ht1 & Hf1 & Hd1 & Hk1) (Ht2 & Hf2 & Hd2 & Hk2). split_and!; [lia|by etrans| |].
  - intros id s [Hin|Hin]%elem_of_app Hs; [|by eapply Hd2]. eapply Hd1; [exact Hin|]. by apply Hf2.
  - intros id Hdue. rewrite Hk2, Hk1 by eauto. apply seen_seen, server_mono. lia.
Qed.

Lemma cleanup_key_run due id w : ok w → ∃ b w', cleanup_key due (session_key id) w = (Return b, w') ∧ ok w' ∧ cleaned due [id] w w'.
Proof.
  intros Hok. set (w' := (cleanup_key due (session_key id) w).2).
  assert (ok w') as Hok'.
  { unfold w'. rewrite <-cleanup_key_task_run. by apply (within_run _ _ anything (cleanup_key_ok due (session_key id))). }
  assert (∃ b, cleanup_key due (session_key id) w = (Return b, w') ∧ cleaned due [id] w w') as (b & ? & ?); [|by exists b, w'].
  unfold w'. clear Hok' w'.
  set (w1 := (command (cmd_get (session_key id)) w).2).
  assert (ages w w1) as Hages by (apply ages_command; auto with spares).
  assert (ok w1) as Hok1 by (apply (ok_spared (cmd_get (session_key id))); [auto with spares|done]).
  assert (cleanup_key due (session_key id) w = match session_at id w with
    | Some s => if due s then (terminateSession id ;; mret true) w1 else (Return false, w1)
    | None => (Return false, w1) end) as ->.
  { unfold cleanup_key, mbind at 1, eff_bind at 1, w1. rewrite replace_session_prefix, command_up. unfold cmd_get, session_at.
    fold (held (session_key id) w). destruct (held (session_key id) w) as [[v d]|] eqn:He; [|done].
    destruct (Hok id _ He) as (s & Hv & _ & Hd & _). cbn [e_value] in Hv. subst v. rewrite session_of_text by done.
    rewrite bool_decide_eq_false_2 by apply session_text_nonempty. unfold of_outcome, mbind at 1, eff_bind at 1.
    rewrite parse_session_text by done. by destruct (due (stored s)). }
  destruct (session_at id w) as [s|] eqn:Hs; [destruct (due s) eqn:Hdue|].
  - destruct (terminateSession_run id w1 Hok1) as (b & w2 & Hrun & Hgone & Hloses). rewrite (bind_run _ _ _ _ _ Hrun).
    exists true. split; [done|]. change (cleaned due [id] w w2). pose proof (fades_terminateSession id w1) as Hf. rewrite Hrun in Hf.
    pose proof (ages_fades _ _ Hages) as Hf1. destruct Hages as [Ht Hh], Hloses as [Ht2 Hh2]. split_and!; [lia|by etrans| |].
    + intros id' s' ->%list_elem_of_singleton Hs'. congruence.
    + intros id' Hid. destruct (decide (id' = id)) as [->|Hne]; [specialize (Hid _ Hs); congruence|].
      rewrite Hh2, Hh by done. apply seen_seen, server_mono. lia.
  - exists false. split; [done|]. cbn [snd]. split_and!; [apply Hages|by apply ages_fades| |intros id' _; apply Hages].
    intros id' s' ->%list_elem_of_singleton Hs'. apply (ages_fades _ _ Hages) in Hs'. congruence.
  - exists false. split; [done|]. cbn [snd]. split_and!; [apply Hages|by apply ages_fades| |intros id' _; apply Hages].
    intros id' s' ->%list_elem_of_singleton Hs'. apply (ages_fades _ _ Hages) in Hs'. congruence.
Qed.

Lemma cleanup_keys_run due ids n w : ok w → ∃ m w', cleanup_keys due (session_key <$> ids) n w = (Return m, w') ∧ cleaned due ids w w'.
Proof.
  revert n w. induction ids as [|id ids IH]; intros n w Hok.
  { exists n, w. split; [done|]. by apply cleaned_ages. }
  destruct (cleanup_key_run due id w Hok) as (b & w1 & Hrun & Hok1 & Hc). csimpl. cbn [cleanup_keys].
  rewrite (bind_run _ _ _ _ _ (attempt_run _ _ _ _ Hrun)).
  destruct b; [destruct (IH (n + 1) w1 Hok1) as (m & w2 & Hrun2 & Hc2)|destruct (IH n w1 Hok1) as (m & w2 & Hrun2 & Hc2)];
    (exists m, w2; split; [exact Hrun2|by apply (cleaned_trans due [id] ids w w1)]).
Qed.

Lemma prefixed_ids (l : list string) : (∀ k, k ∈ l → ∃ r, k = SESSION_PREFIX +:+ r) → ∃ ids, l = session_key <$> ids.
Proof.
  induction l as [|k l IH]; intros Hl; [by exists []|]. destruct IH as [ids ->]; [by intros k' ?; apply Hl; right|].
  destruct (Hl k ltac:(left)) as [r ->]. by exists (r :: ids).
Qed.

Lemma session_held id w s : session_at id w = Some s → is_Some (held (session_key id) w).
Proof. unfold session_at. destruct (held (session_key id) w); [by eexists|done]. Qed.

Lemma cleanup_run fuel due w : ok w → enough_fuel fuel (SESSION_PREFIX +:+ star) w → ∃ n w',
  cleanup_sessions fuel due w = (Return n, w') ∧
  (∀ id s, session_at id w' = Some s → session_at id w = Some s ∧ due (clock_at (tick w)) s = false) ∧
  (∀ id, (∀ s, session_at id w = Some s → due (clock_at (tick w)) s = false) →
     held (session_key id) w' = seen_at (server_at (tick w')) (held (session_key id) w)).
Proof.
  intros Hok Hfuel. set (w1 := advance w). assert (ages w w1) as Ha1 by apply ages_advance.
  destruct (scanKeys_run fuel SESSION_PREFIX w1) as (l & w2 & Hscan & Hr & _ & Hsound & Hcomplete);
    [reflexivity|intros τ; unfold w1; rewrite redis_advance; apply Hfuel|].
  destruct (prefixed_ids l) as [ids ->]; [intros k Hk; by apply Hsound|].
  assert (ages w1 w2) as Ha2 by (pose proof (ages_scan fuel "0" (SESSION_PREFIX +:+ star) w1) as Ha; unfold scanKeys in Hscan;
    by rewrite Hscan in Ha).
  assert (ok w2) as Hok2.
  { pose proof (within_run _ _ _ (scan_keys_ok fuel "0" (SESSION_PREFIX +:+ star)) w1 (ok_advance w Hok)) as [Hk _].
    rewrite scan_keys_task_run in Hk. unfold scanKeys in Hscan. by rewrite Hscan in Hk. }
  destruct (cleanup_keys_run (due (clock_at (tick w))) ids 0 w2 Hok2) as (n & w3 & Hrun & Ht & Hf & Hdue & Hkeep).
  exists n, w3. split; [|split].
  - unfold cleanup_sessions. rewrite (bind_run _ _ w (clock_at (tick w)) w1) by done. unfold try_catch.
    by rewrite (bind_run _ _ _ _ _ Hscan), Hrun.
  - intros id s Hs. pose proof (Hf _ _ Hs) as Hs2. split; [by apply (ages_fades _ _ Ha1), (ages_fades _ _ Ha2)|].
    eapply Hdue; [|exact Hs]. apply session_held in Hs2. apply Hcomplete in Hs2.
    by apply list_elem_of_fmap in Hs2 as (id' & ->%(inj session_key) & ?).
  - intros id Hid. rewrite Hkeep.
    + assert (ages w w2) as [_ ->] by by etrans. apply seen_seen, server_mono. lia.
    + intros s Hs. by apply Hid, (ages_fades _ _ Ha1), (ages_fades _ _ Ha2).
Qed.
End Runs.

(** a clean-up of stale sessions.  While Redis answers, [cleanupStaleSessions] returns; of the
    sessions that can be read afterwards none was silent for more than a minute at its start, and a
    session that was not only gets older. *)
Theorem cleanup_stale_spec `{!Redis DB, !RedisLaws DB, !HasRedis DB W, !Ticking W, !RedisServer, !RedisLens DB W}
    `{!RedisUp, !MonotoneServer, !Clock, !PositiveClock, !Crypto} fuel (w : W) :
  sessions_ok w → enough_fuel fuel (SESSION_PREFIX +:+ star) w → ∃ n w',
    cleanupStaleSessions fuel w = (Return n, w') ∧
    (∀ id s, session_at id w' = Some s → session_at id w = Some s ∧
       clock_at (tick w) - default (vs_createdAt s) (vs_lastPingAt s) <= HEARTBEAT_TIMEOUT_MS) ∧
    (∀ id, (∀ s, session_at id w = Some s → clock_at (tick w) - default (vs_createdAt s) (vs_lastPingAt s) <= HEARTBEAT_TIMEOUT_MS) →
       held (session_key id) w' = seen_at (server_at (tick w')) (held (session_key id) w)).
Proof.
  intros Hok Hfuel. destruct (cleanup_run fuel stale w Hok Hfuel) as (n & w' & Hrun & Hgone & Hkept).
  exists n, w'. split; [done|]. split.
  - intros id s Hs. destruct (Hgone _ _ Hs) as [Hs0 Hst]. split; [done|]. destruct (session_at_good _ _ _ Hok Hs0) as (_ & _ & _ & H1' & H2').
    unfold stale in Hst. rewrite decide_False in Hst by (by intros [|]). apply bool_decide_eq_false in Hst. lia.
  - intros id Hid. apply Hkept. intros s Hs. specialize (Hid s Hs). unfold stale. case_decide; [done|]. apply bool_decide_eq_false. lia.
Qed.

(** what is saved is what is read.  While Redis answers, [getSession] right after [saveSession]
    returns the session with its state, dates, ids and messages, unless an hour has passed on the
    server in between; only values that are [undefined] in the metadata are lost. *)
Theorem saved_session_is_read `{!Redis DB, !RedisLaws DB, !HasRedis DB W, !Ticking W, !RedisServer, !RedisLens DB W}
    `{!RedisUp, !MonotoneServer, !Clock, !PositiveClock, !Crypto} s (w : W) :
  good_session (vs_id s) s → sessions_ok w → server_at (S (tick w)) < server_at (tick w) + 3600 * 1000 →
  ((saveSession s ;; getSession (vs_id s)) w).1 = Return (Some (stored s)).
Proof.
  intros Hs Hok Ht. destruct Hs as (Hid & Hd & Httl & Hst). destruct (saveSession_run s w Httl) as (w1 & Hrun & Ht1 & Hheld & _).
  assert (sessions_ok (DB:=DB) w1) as Hok1.
  { pose proof (ok_saveSession s (conj Hid (conj Hd (conj Httl Hst))) w Hok) as [Hk _]. by rewrite Hrun in Hk. }
  rewrite (bind_run _ _ _ _ _ Hrun). destruct (getSession_run (vs_id s) w1 Hok1) as (w2 & -> & _). cbn [fst]. f_equal.
  unfold session_at. rewrite Hheld. apply session_of_written; [done|]. by rewrite Ht1.
Qed.

(** The state after which [resumeSession] answers true. *)
Definition resumed (s : ConversationState.t) : option ConversationState.t :=
  match s with
  | ConversationState.INTERRUPTED => Some ConversationState.LISTENING
  | ConversationState.RESPONDING => Some ConversationState.IDLE
  | _ => None
  end.

Section Answers.
Context {DB W : Type} `{!Redis DB, !RedisLaws DB, !HasRedis DB W, !Ticking W, !RedisServer, !RedisLens DB W}.
Context `{!RedisUp, !MonotoneServer, !Clock, !PositiveClock, !Crypto}.
Implicit Types (w : W).

(** The session can be read now and after the next command. *)
Definition stays (id : string) (s : VoiceSession) w : Prop :=
  session_at id w = Some s ∧ session_of_entry (seen_at (server_at (S (tick w))) (held (session_key id) w)) = Some s.

Lemma read_twice id s w : sessions_ok w → stays id s w → ∃ w1, getSession id w = (Return (Some s), w1) ∧ sessions_ok w1 ∧
  session_at id w1 = Some s.
Proof.
  intros Hok [Hs Hlater]. destruct (getSession_run id w Hok) as (w1 & Hrun & Ht & [_ Hh] & Hok1). exists w1.
  split; [by rewrite Hrun, Hs|]. split; [done|]. unfold session_at. by rewrite Hh, Ht.
Qed.

(** The answer of a request and the state it leaves. *)
Definition answers (r : outcome bool * W) (id : string) (old : ConversationState.t) (new : option ConversationState.t) : Prop :=
  r.1 = Return (bool_decide (is_Some new)) ∧ ∀ s', session_at id r.2 = Some s' → vs_state s' = default old new.

Lemma update_answers id s new w : sessions_ok w → session_at id w = Some s →
  answers (updateSessionState id new w) id (vs_state s) (if decide (new ∈ validTransitions (vs_state s)) then Some new else None).
Proof.
  intros Hok Hs. destruct (updateSessionState_run id new w Hok) as (w' & n & Hrun & _). pose proof (updateSessionState_state _ _ _ _ _ Hok Hrun) as Hst.
  rewrite Hrun, Hs. split; [cbn; f_equal; apply bool_decide_ext; case_decide; [naive_solver|split; [done|by intros [? ?]]]|].
  cbn [snd]. intros s' Hs'. destruct (Hst _ Hs') as (s0 & Hs0 & ->). rewrite Hs in Hs0. injection Hs0 as ->. by case_decide.
Qed.
End Answers.

(** interrupting and resuming.  While Redis answers and the session is there, [interruptSession]
    answers true exactly for a session that is thinking or responding, which is interrupted then;
    [resumeSession] answers true exactly for one that is interrupted, which listens then, or
    responding, which is idle then.  A listening session is not interrupted, although the table has
    that step. *)
Theorem interrupt_and_resume `{!Redis DB, !RedisLaws DB, !HasRedis DB W, !Ticking W, !RedisServer, !RedisLens DB W}
    `{!RedisUp, !MonotoneServer, !Clock, !PositiveClock, !Crypto} id s (w : W) :
  sessions_ok w → stays id s w →
  answers (interruptSession id w) id (vs_state s)
    (if isInterruptible (vs_state s) then Some ConversationState.INTERRUPTED else None) ∧
  answers (resumeSession id w) id (vs_state s) (resumed (vs_state s)).
Proof.
  intros Hok Hstays. destruct (read_twice id s w Hok Hstays) as (w1 & Hrun & Hok1 & Hs1). split.
  - unfold interruptSession. rewrite (bind_run _ _ _ _ _ Hrun). destruct (isInterruptible (vs_state s)) eqn:Hi; cbn [negb].
    + pose proof (update_answers id s ConversationState.INTERRUPTED w1 Hok1 Hs1) as Ha. destruct (vs_state s); try done.
    + split; [done|]. cbn [snd mret]. intros s' Hs'. change (session_at id w1 = Some s') in Hs'. rewrite Hs1 in Hs'. by injection Hs' as ->.
  - unfold resumeSession. rewrite (bind_run _ _ _ _ _ Hrun). cbv zeta.
    pose proof (update_answers id s (if bool_decide (vs_state s = ConversationState.INTERRUPTED) then ConversationState.LISTENING
      else ConversationState.IDLE) w1 Hok1 Hs1) as Ha. destruct (vs_state s); exact Ha.
Qed.
