(* ===== verification/VoiceLimit.v ===== *)
(** The limit of three sessions per user: what it bounds, and the three ways around it. *)
From S2P Require Import Prelude Async Json JsonParse Redis VoiceTypes VoiceSessions VoiceFacts VoiceTasks VoiceStates VoiceRuns.
Open Scope Z_scope.

Section Limit.
Context {DB W : Type} `{!Redis DB, !RedisLaws DB, !HasRedis DB W, !Ticking W, !RedisServer, !RedisLens DB W}.
Context `{!MonotoneServer, !Clock, !PositiveClock, !Crypto}.
Implicit Types (w : W).
Local Abbreviation ok := (sessions_ok (DB:=DB) (W:=W)).

(** * The sessions that are listed for a user *)

Definition user_key (u : string) : string := USER_SESSIONS_PREFIX +:+ u.
#[local] Instance user_key_inj : Inj (=) (=) user_key.
Proof. intros x y. apply (inj (String.app USER_SESSIONS_PREFIX)). Qed.

Definition set_of_entry (o : option entry) : gset string :=
  match o with Some (mkEntry (RSet l) _) => l | _ => ∅ end.
Definition members (u : string) w : gset string := set_of_entry (held (user_key u) w).
(** The sessions in the set of the user that can be read. *)
Definition listed (u : string) w : gset string := filter (λ id, is_Some (session_at id w)) (members u w).

Lemma set_of_seen t o : set_of_entry (seen_at t o) ⊆ set_of_entry o.
Proof. destruct o as [e|]; [|reflexivity]. unfold seen_at. cbn [mbind option_bind]. case_decide; [reflexivity|apply empty_subseteq]. Qed.

(** * Effects that add nobody *)

Definition drops w w' : Prop := (tick w ≤ tick w')%nat ∧ ∀ u, members u w' ⊆ members u w.
#[local] Instance drops_preorder : PreOrder drops.
Proof. split; [by split; [|intros u; reflexivity]|]. intros w1 w2 w3 [Ht1 H1w] [Ht2 H2w]. split; [lia|]. intros u. etrans; [apply H2w|apply H1w]. Qed.
#[local] Hint Resolve drops_preorder ages_preorder fades_preorder : moves.

Lemma drops_command {A} (c : Z → DB → outcome A * DB) : (∀ u, spares (user_key u) c) → moves drops (command c).
Proof.
  intros Hc w. split; [rewrite tick_command; lia|]. intros u. unfold members. rewrite held_spared by done. apply set_of_seen.
Qed.
Lemma drops_advance w : drops w (advance w).
Proof.
  split; [rewrite tick_advance; lia|]. intros u. unfold members, held. rewrite redis_advance, (live_later (server_at (tick w))).
  - apply set_of_seen.
  - apply server_mono. rewrite tick_advance. lia.
Qed.
Lemma drops_date_now : moves drops date_now.
Proof. intros w. apply drops_advance. Qed.
Lemma drops_randomUUID : moves drops randomUUID.
Proof. intros w. apply drops_advance. Qed.
Lemma drops_of_outcome {A} (o : outcome A) : moves drops (of_outcome o : eff W A).
Proof. intros w. reflexivity. Qed.
#[local] Hint Resolve drops_date_now drops_randomUUID drops_of_outcome : moves.

Lemma user_key_session u id : user_key u ≠ SESSION_PREFIX +:+ id.
Proof. done. Qed.
Lemma user_key_active u v : user_key u ≠ USER_ACTIVE_SESSION_PREFIX +:+ v.
Proof. done. Qed.
Lemma user_key_session_del u id : user_key u ∉ [SESSION_PREFIX +:+ id].
Proof. by intros ?%list_elem_of_singleton. Qed.
Lemma user_key_active_del u v : user_key u ∉ [USER_ACTIVE_SESSION_PREFIX +:+ v].
Proof. by intros ?%list_elem_of_singleton. Qed.
#[local] Hint Resolve user_key_session user_key_active user_key_session_del user_key_active_del : spares.
#[local] Hint Extern 1 (moves drops (command _)) => apply drops_command; auto with spares : moves.

(** [SREM] takes one member out. *)
Lemma drops_sRem u id : moves drops (command (cmd_sRem (user_key u) id)).
Proof.
  intros w. split; [rewrite tick_command; lia|]. intros u'. unfold members. destruct (decide (u' = u)) as [->|Hne].
  2:{ rewrite held_spared; [apply set_of_seen|]. apply spares_sRem. by intros ?%(inj user_key). }
  destruct (server_fault (tick w)) as [e|] eqn:Hf; [rewrite (held_fault (user_key u) (cmd_sRem (user_key u) id) _ _ Hf); apply set_of_seen|].
  destruct (cmd_sRem (user_key u) id (server_at (tick w)) (redis w)) as [o s] eqn:Hc.
  rewrite (held_run (user_key u) _ _ _ _ Hf Hc). unfold cmd_sRem in Hc. fold (held (user_key u) w) in Hc.
  assert (live (server_at (S (tick w))) (user_key u) (redis w) = seen_at (server_at (S (tick w))) (held (user_key u) w)) as Hlive.
  { unfold held. apply live_later, server_mono. lia. }
  destruct (held (user_key u) w) as [[[t|l|z|z] d]|] eqn:He; pair_inj Hc; rewrite ?Hlive; try apply set_of_seen.
  case_decide; [by rewrite live_write_eq|]. rewrite live_put, decide_True by done. etrans; [apply set_of_seen|]. cbn. set_solver.
Qed.
#[local] Hint Resolve drops_sRem : moves.

Lemma drops_getSession id : moves drops (getSession id).
Proof. unfold getSession. moves_tac. Qed.
#[local] Hint Resolve drops_getSession : moves.
Lemma drops_getSessions ids : moves drops (getSessions ids).
Proof. induction ids; cbn [getSessions]; moves_tac. Qed.
#[local] Hint Resolve drops_getSessions : moves.
Lemma drops_getUserActiveSessions u : moves drops (getUserActiveSessions u).
Proof. unfold getUserActiveSessions. moves_tac. Qed.
Lemma drops_saveSession s : moves drops (saveSession s).
Proof. unfold saveSession. moves_tac. Qed.
#[local] Hint Resolve drops_getUserActiveSessions drops_saveSession : moves.
Lemma drops_updateSessionState id new : moves drops (updateSessionState id new).
Proof. unfold updateSessionState. moves_tac. Qed.
#[local] Hint Resolve drops_updateSessionState : moves.
Lemma drops_deleteUserActiveSession u : moves drops (deleteUserActiveSession u).
Proof. unfold deleteUserActiveSession. moves_tac. Qed.
#[local] Hint Resolve drops_deleteUserActiveSession : moves.
Lemma drops_removeUserSession u id : moves drops (removeUserSession u id).
Proof. unfold removeUserSession. fold (user_key u). moves_tac. Qed.
#[local] Hint Resolve drops_removeUserSession : moves.
Lemma drops_terminateSession id : moves drops (terminateSession id).
Proof. unfold terminateSession, clearUserActiveSessionIfMatches, getUserActiveSession. moves_tac. Qed.
#[local] Hint Resolve drops_terminateSession : moves.
Lemma drops_cleanup_key due key : moves drops (cleanup_key due key).
Proof. unfold cleanup_key. moves_tac. Qed.
Lemma drops_cleanup_keys due keys n : moves drops (cleanup_keys due keys n).
Proof.
  revert n. induction keys as [|key keys IH]; intros n; cbn [cleanup_keys]; [moves_tac|].
  apply moves_bind; [apply _|apply moves_attempt, drops_cleanup_key|]. intros [[]|]; [apply IH..|moves_tac].
Qed.
Lemma drops_scan fuel c p : moves drops (scan_keys_from fuel c p).
Proof. revert c. induction fuel as [|fuel IH]; intros c; cbn [scan_keys_from]; [moves_tac|]. moves_tac. Qed.
#[local] Hint Resolve drops_cleanup_keys drops_scan : moves.
Lemma drops_cleanup fuel due : moves drops (cleanup_sessions fuel due).
Proof. unfold cleanup_sessions, scanKeys. moves_tac. Qed.

Definition creates (r : voice_request) : bool := match r with Create _ _ _ _ => true | _ => false end.

Lemma moves_eq {A} (R : relation W) (m m' : eff W A) w : m w = m' w → moves R m' → R w (m w).2.
Proof. intros -> Hm. apply Hm. Qed.

Lemma drops_request r w : creates r = false → drops w (voice_request_run r w).2.
Proof.
  unfold voice_request_run. intros Hr. destruct r; [done|..]; cbn [voice_task]; rewrite run_finished; clear Hr;
    rewrite ?run_atomic, ?getUserActiveSessions_task_run, ?updateSessionState_task_run, ?addMessage_task_run, ?interruptSession_task_run,
      ?resumeSession_task_run, ?terminateSession_task_run, ?updateSessionSocket_task_run, ?updateLastPingAt_task_run, ?cleanup_task_run.
  all: match goal with |- drops ?w (?m ?w).2 => cut (moves drops m); [intros Hm; apply Hm|] end.
  all: unfold addMessage, interruptSession, resumeSession, updateSessionSocket, updateLastPingAt, setUserActiveSession,
    refreshUserSessionTTL, refreshTTL; try solve [moves_tac].
  all: apply drops_cleanup.
Qed.

(** A request that does not create a session does not add to the list of any user. *)
Lemma listed_request r w u : ok w → creates r = false → listed u (voice_request_run r w).2 ⊆ listed u w.
Proof.
  intros Hok Hr id. unfold listed. rewrite !elem_of_filter. intros [[s' Hs'] Hin].
  split; [|by apply (drops_request r w Hr)]. pose proof (requests_follow_table r w id Hok) as Hstep. rewrite Hs' in Hstep.
  destruct Hstep as [(s & Hs & _)|(u' & c & a & m & -> & _)]; [by eexists|done].
Qed.

(** * Creating a session *)

Context `{!RedisUp}.

Lemma getSessions_count ids w : ok w → ∃ l w', getSessions ids w = (Return l, w') ∧ ok w' ∧ ages w w' ∧
  (length (filter (λ id, is_Some (session_at id w')) ids) ≤ length (omap id l))%nat.
Proof.
  revert w. induction ids as [|x ids IH]; intros w Hok; [by exists [], w|]. cbn [getSessions].
  destruct (getSession_run x w Hok) as (w1 & Hrun & _ & Ha & Hok1). destruct (IH w1 Hok1) as (l & w2 & Hrun2 & Hok2 & Ha2 & Hlen).
  exists (session_at x w :: l), w2. rewrite (bind_run _ _ _ _ _ Hrun), (bind_run _ _ _ _ _ Hrun2).
  split; [done|]. split; [done|]. split; [by etrans|]. rewrite filter_cons. case_decide as Hs.
  - destruct Hs as [s Hs]. apply (ages_fades _ _ Ha2), (ages_fades _ _ Ha) in Hs. rewrite Hs. cbn. lia.
  - destruct (session_at x w); cbn; lia.
Qed.

Lemma listed_count u l w ss w' : ok w → members u w ⊆ l → getSessions (elements l) w = (Return ss, w') →
  ok w' ∧ ages w w' ∧ drops w w' ∧ (size (listed u w') ≤ length (omap id ss))%nat.
Proof.
  intros Hok Hl Hrun. pose proof (drops_getSessions (elements l) w) as Hd. rewrite Hrun in Hd. cbn [snd] in Hd.
  destruct (getSessions_count (elements l) w Hok) as (ss' & w1 & Hrun' & Hok' & Ha & Hlen).
  rewrite Hrun in Hrun'. injection Hrun' as <- <-. split; [done|]. split; [done|]. split; [done|]. etrans; [|exact Hlen].
  transitivity (size (list_to_set (filter (λ id, is_Some (session_at id w')) (elements l)) : gset string)).
  - apply subseteq_size. intros x. unfold listed. rewrite elem_of_filter, elem_of_list_to_set, list_elem_of_filter, elem_of_elements.
    intros [Hs Hx]. split; [done|]. by apply Hl, Hd.
  - rewrite size_list_to_set; [done|]. apply NoDup_filter, NoDup_elements.
Qed.

(** What is counted before a session is created. *)
Lemma getUserActiveSessions_count u w : ok w → ∃ l w', getUserActiveSessions u w = (Return l, w') ∧ ok w' ∧ ages w w' ∧
  drops w w' ∧ (size (listed u w') ≤ length l)%nat.
Proof.
  intros Hok. unfold getUserActiveSessions, try_catch. fold (user_key u). set (w1 := (command (cmd_sMembers (user_key u)) w).2).
  assert (ok w1) as Hok1 by (apply (ok_spared (cmd_sMembers (user_key u))); [auto with spares|done]).
  assert (ages w w1) as Ha1 by (apply ages_command; auto with spares).
  assert (drops w w1) as Hd1 by (apply drops_command; auto with spares).
  assert (command (cmd_sMembers (user_key u)) w = (match held (user_key u) w with
    | None => Return [] | Some (mkEntry (RSet l) _) => Return (elements l) | Some _ => Throw WRONGTYPE end, w1)) as Hrun.
  { unfold w1. by rewrite command_up. }
  assert (∃ o, command (cmd_sMembers (user_key u)) w = (o, w1) ∧
    (o = Return (elements (members u w)) ∨ o = Throw WRONGTYPE ∧ members u w = ∅)) as (o & Ho & Hcase).
  { eexists. split; [exact Hrun|]. unfold members. destruct (held (user_key u) w) as [[[t|l|z|z] d]|]; cbn [set_of_entry];
      [by right|by left|by right|by right|]. left. by rewrite elements_empty. }
  destruct Hcase as [->|[-> He]].
  - rewrite (bind_run _ _ _ _ _ Ho). destruct (getSessions_count (elements (members u w)) w1 Hok1) as (ss & w2 & Hrun2 & _).
    rewrite (bind_run _ _ _ _ _ Hrun2). destruct (listed_count u (members u w) w1 ss w2 Hok1 ltac:(apply Hd1) Hrun2) as (? & ? & ? & ?).
    exists (omap id ss), w2. split; [done|]. split; [done|]. split; [by etrans|]. split; [by etrans|done].
  - rewrite (bind_throw _ _ _ _ _ Ho). exists [], w1. split; [done|]. split; [done|]. split; [done|]. split; [done|].
    assert (listed u w1 = ∅) as ->; [|by rewrite size_empty]. destruct Hd1 as [_ Hd1]. specialize (Hd1 u). rewrite He in Hd1.
    unfold listed. set_solver.
Qed.

(** Effects after which at most one more session is there, under a given id, listed for a given user. *)
Definition grows (u id : string) w w' : Prop := (tick w ≤ tick w')%nat ∧
  (∀ u' x, x ∈ members u' w' → x ∈ members u' w ∨ u' = u ∧ x = id) ∧
  (∀ x, is_Some (session_at x w') → is_Some (session_at x w) ∨ x = id).
#[local] Instance grows_preorder u id : PreOrder (grows u id).
Proof.
  split; [intros w; split_and!; auto|]. intros w1 w2 w3 (Ht1 & Hm1 & Hs1) (Ht2 & Hm2 & Hs2). split_and!; [lia| |].
  - intros u' x [Hx|?]%Hm2; [by apply Hm1|by right].
  - intros x [Hx|?]%Hs2; [by apply Hs1|by right].
Qed.
#[local] Hint Resolve grows_preorder : moves.

Lemma grows_drops u id w w' : drops w w' → fades w w' → grows u id w w'.
Proof. intros [Ht Hd] Hf. split_and!; [done| |]. - intros u' x Hx. left. by apply Hd. - intros x [s Hs]. left. exists s. by apply Hf. Qed.

Lemma grows_save u s w : good_session (vs_id s) s → grows u (vs_id s) w (saveSession s w).2.
Proof.
  intros Hs. destruct (drops_saveSession s w) as [Ht Hd]. split_and!; [done|intros u' x Hx; left; by apply Hd|].
  intros x [s' Hs']. assert (alters (λ x _, x = vs_id s) (saveSession s ≫= mret)) as Ha by by apply alters_save; [|done|intros; moves_tac].
  specialize (Ha w x s'). unfold mbind, eff_bind in Ha. destruct (saveSession s w) as [[[]|e] w1]; cbn [snd mret eff_ret] in *;
    (destruct (Ha Hs') as [|]; [left; by eexists|by right]).
Qed.

Lemma grows_sAdd u id w : grows u id w (command (cmd_sAdd (user_key u) id) w).2.
Proof.
  assert (ages w (command (cmd_sAdd (user_key u) id) w).2) as Ha by (apply ages_command; auto with spares).
  split_and!; [apply Ha| |intros x [s Hs]; left; exists s; by apply (ages_fades _ _ Ha)]. intros u' x.
  unfold members. destruct (decide (u' = u)) as [->|Hne].
  2:{ rewrite held_spared; [intros Hx; left; by apply set_of_seen in Hx|]. apply spares_sAdd. by intros ?%(inj user_key). }
  destruct (server_fault (tick w)) as [e|] eqn:Hf.
  { rewrite (held_fault (user_key u) (cmd_sAdd (user_key u) id) _ _ Hf). intros Hx. left. by apply set_of_seen in Hx. }
  destruct (cmd_sAdd (user_key u) id (server_at (tick w)) (redis w)) as [o s] eqn:Hc.
  rewrite (held_run (user_key u) _ _ _ _ Hf Hc). unfold cmd_sAdd in Hc. fold (held (user_key u) w) in Hc.
  assert (live (server_at (S (tick w))) (user_key u) (redis w) = seen_at (server_at (S (tick w))) (held (user_key u) w)) as Hlive.
  { unfold held. apply live_later, server_mono. lia. }
  destruct (held (user_key u) w) as [[[t|l|z|z] d]|] eqn:He; pair_inj Hc; rewrite ?Hlive, ?live_put, ?decide_True by done;
    intros Hx%set_of_seen; cbn in *; set_solver.
Qed.

Lemma grows_command {A} u id (c : Z → DB → outcome A * DB) : (∀ x, spares (session_key x) c) → (∀ v, spares (user_key v) c) →
  moves (grows u id) (command c).
Proof. intros Hs Hu w. apply grows_drops; [by apply drops_command|]. by apply ages_fades, ages_command. Qed.

(** [EXPIRE] moves the deadline of a set. *)
Lemma grows_expire u id n w : grows u id w (command (cmd_expire (user_key u) n) w).2.
Proof.
  assert (ages w (command (cmd_expire (user_key u) n) w).2) as Ha by (apply ages_command; auto with spares).
  apply grows_drops; [|by apply ages_fades]. split; [apply Ha|]. intros u'. unfold members. destruct (decide (u' = u)) as [->|Hne].
  2:{ rewrite held_spared; [apply set_of_seen|]. apply spares_expire. by intros ?%(inj user_key). }
  destruct (cmd_expire (user_key u) n (server_at (tick w)) (redis w)) as [o s] eqn:Hc.
  rewrite (held_run (user_key u) _ _ _ _ (redis_up _) Hc). unfold cmd_expire in Hc. fold (held (user_key u) w) in Hc.
  destruct (held (user_key u) w) as [[v d]|] eqn:He; pair_inj Hc.
  - case_bool_decide; [|by rewrite live_write_eq]. rewrite live_put, decide_True by done. etrans; [apply set_of_seen|]. by destruct v.
  - rewrite (live_later (server_at (tick w))) by (apply server_mono; lia). fold (held (user_key u) w). rewrite He. done.
Qed.

(** Either the limit is reached and nothing is written, or one session is made. *)
Lemma createSession_grows u c a m w : ok w → ∃ w1 n, ages w w1 ∧ drops w w1 ∧ (tick w ≤ n)%nat ∧
  let w' := (createSession u c a m w).2 in
  w' = w1 ∨ (n < tick w')%nat ∧ (size (listed u w1) < 3)%nat ∧ grows u (uuid_at n) w1 w'.
Proof.
  intros Hok. destruct (getUserActiveSessions_count u w Hok) as (l & w1 & Hrun & Hok1 & Ha & Hd & Hlen).
  exists w1, (S (tick w1)). split; [done|]. split; [done|]. destruct Ha as [Ht Ha]. split; [lia|]. cbv zeta. unfold createSession.
  rewrite (bind_run _ _ _ _ _ Hrun). case_bool_decide as Hlim; [by left|right]. unfold MAX_SESSIONS_PER_USER in Hlim.
  unfold voice_create. rewrite <-bind_assoc, (bind_run _ _ _ (clock_at (tick w1)) (advance w1)) by done.
  rewrite <-bind_assoc, (bind_run _ _ _ (uuid_at (S (tick w1))) (advance (advance w1)))
    by (unfold randomUUID; by rewrite tick_advance). rewrite bind_mret. set (id := uuid_at (S (tick w1))).
  set (s := {| vs_id := id |}).
  assert (good_session id s) as Hgood by (split_and!; try done; by split_and!; try apply clock_positive).
  assert (moves (grows u id) (saveSession s ;; addUserSession u id ;; mret s)) as Hm.
  { apply moves_bind; [apply _|intros w2; by apply (grows_save u s)|]. intros _. unfold addUserSession. fold (user_key u).
    apply moves_bind; [apply _| |intros _; auto with moves].
    apply moves_bind; [apply _|intros w2; apply grows_sAdd|]. intros _.
    apply moves_bind; [apply _|intros w2; apply grows_expire|]. intros _. auto with moves. }
  specialize (Hm (advance (advance w1))). destruct (Hm) as [Htm _]. rewrite !tick_advance in Htm. split; [exact Htm|].
  split; [lia|]. etrans; [|exact Hm]. apply grows_drops; [etrans; apply drops_advance|]. apply ages_fades. etrans; apply ages_advance.
Qed.

(** The invariant of a service that works off its requests one after the other. *)
Definition limit_ok w : Prop := ok w ∧ (∀ u, size (listed u w) ≤ 3)%nat ∧
  (∀ u n, (tick w ≤ n)%nat → uuid_at n ∉ members u w).

Lemma listed_less u w w' : drops w w' → fades w w' → listed u w' ⊆ listed u w.
Proof.
  intros [_ Hd] Hf x. unfold listed. rewrite !elem_of_filter. intros [[s Hs] Hx]. split; [exists s; by apply Hf|by apply Hd].
Qed.

Lemma ok_request r w : ok w → ok (voice_request_run r w).2.
Proof. intros Hok. by apply (within_run _ _ anything (voice_task_ok r)). Qed.

Lemma limit_request `{!Inj (=) (=) uuid_at} r w : limit_ok w → limit_ok (voice_request_run r w).2.
Proof.
  intros (Hok & Hlim & Hfresh). split; [by apply ok_request|]. destruct (creates r) eqn:Hr.
  2:{ split.
      - intros u. etrans; [|apply (Hlim u)]. by apply subseteq_size, listed_request.
      - intros u n Hn Hin. destruct (drops_request r w Hr) as [Ht Hd]. apply (Hfresh u n); [lia|by apply Hd]. }
  destruct r; try done. clear Hr. unfold voice_request_run. cbn [voice_task]. rewrite run_finished, createSession_task_run.
  destruct (createSession_grows userId context walletAddress metadata w Hok) as (w1 & k & Ha & Hd & Hk & [ ->|(Hlt & Hsize & Ht & Hm & Hs)]).
  { split; [intros u; etrans; [|apply (Hlim u)]; by apply subseteq_size, listed_less; [|apply ages_fades]|].
    intros u n Hn Hin. destruct Hd as [Hdt Hd]. apply (Hfresh u n); [lia|by apply Hd]. }
  set (w' := (createSession userId context walletAddress metadata w).2) in *. split.
  - intros u. pose proof (listed_less u w w1 Hd (ages_fades _ _ Ha)) as Hless. destruct (decide (u = userId)) as [->|Hne].
    + transitivity (size (listed userId w1 ∪ {[uuid_at k]})).
      * apply subseteq_size. intros x. unfold listed. rewrite elem_of_union, !elem_of_filter, elem_of_singleton. intros [Hx Hin].
        destruct (Hs x Hx) as [?| ->]; [|by right]. destruct (Hm userId x Hin) as [?|[_ ?]]; [by left|by right].
      * rewrite size_union_alt. transitivity (size (listed userId w1) + size ({[uuid_at k]} : gset string))%nat.
        -- apply Nat.add_le_mono_l, subseteq_size. set_solver.
        -- rewrite size_singleton. lia.
    + etrans; [|apply (Hlim u)]. etrans; [|by apply subseteq_size]. apply subseteq_size. intros x. unfold listed. rewrite !elem_of_filter.
      intros [Hx Hin]. destruct (Hm u x Hin) as [Hin1|[? _]]; [|done]. split; [|done]. destruct (Hs x Hx) as [| ->]; [done|].
      exfalso. apply (Hfresh u k Hk). by apply Hd.
  - intros u n Hn Hin. destruct (Hm u _ Hin) as [Hin1|[_ Heq]].
    + destruct Hd as [Hdt Hd]. apply (Hfresh u n); [lia|by apply Hd].
    + apply (inj uuid_at) in Heq. lia.
Qed.
End Limit.

(** C13: the limit of three sessions.  While no command of Redis fails and requests run one after the other,
    with identifiers that are new, from a state within the limit, whatever the requests are, they leave no
    user with more than three sessions that can be read and are listed in the user's set.  When the list
    cannot be read it counts as empty ([getUserActiveSessions] catches the error), and another session
    is made. *)
Theorem session_limit `{!Redis DB, !RedisLaws DB, !HasRedis DB W, !Ticking W, !RedisServer, !RedisLens DB W}
    `{!RedisUp, !MonotoneServer, !Clock, !PositiveClock, !Crypto} `{!Inj (=) (=) uuid_at} requests (w : W) u :
  limit_ok w → (size (listed u (voice_run requests w)) ≤ 3)%nat.
Proof.
  intros Hw. assert (limit_ok (voice_run requests w)) as (_ & Hlim & _); [|apply Hlim].
  revert w Hw. induction requests as [|r requests IH]; intros w Hw; [done|]. by apply (IH (voice_request_run r w).2), limit_request.
Qed.

(** * Runs of the voice session service on a Redis in memory: the ways around the limit of three
    sessions, a termination that another request undoes, and two updates of a state that together
    leave the table. *)

(** A server and a process that never fail, with the given clock, and ids that count. *)
Section Runs.
Context (clock : nat → Z).
#[local] Instance run_server : RedisServer := {| server_at := clock; server_fault _ := None |}.
#[local] Instance run_clock : Clock := clock.
#[local] Instance run_crypto : Crypto := {| sha256_hex s := s; uuid_at n := pretty n |}.
Local Abbreviation W := (RedisWorld entries).

Definition new_world : W := mkRedisWorld ∅ 0.
Definition create (u : string) : voice_request := Create u FeatureContext.GENERAL None None.

(** The ids of the sessions that can be read, with their users. *)
Definition sessions_of (u : string) (w : W) : list string :=
  filter (λ id, vs_userId <$> session_at id w = Some u) (omap (λ k, if decide (String.prefix SESSION_PREFIX k = true)
    then Some (replace_first SESSION_PREFIX k) else None) (map_to_list (rw_redis w)).*1).

Definition run_alone (requests : list voice_request) : W := voice_run requests new_world.
Definition run_pool (before : list voice_request) (requests : list voice_request) (order : list nat) : W :=
  (play order (voice_task <$> requests, voice_run before new_world)).2.
Definition state_of (id : string) (w : W) : option ConversationState.t := vs_state <$> session_at id w.
End Runs.

(** A clock that counts milliseconds, and one that jumps ahead twice, by almost an hour and by a
    little more than three minutes. *)
Definition counting (n : nat) : Z := Z.of_nat n.
Definition jumping (n : nat) : Z :=
  Z.of_nat n + (if bool_decide (n < 21)%nat then 0 else if bool_decide (n < 33)%nat then 3500000 else 3700000).

(** The limit works when nothing else happens: of five sessions three are made. *)
Example limit_alone : length (sessions_of counting "u" (run_alone counting (replicate 5 (create "u")))) = 3%nat.
Proof. vm_compute. reflexivity. Qed.

(** ... but the set of a user is forgotten an hour after the last session was created, also when the
    sessions in it are kept alive by pings: then three more can be made. *)
Theorem limit_outlived : length (sessions_of jumping "u"
  (run_alone jumping (replicate 3 (create "u") ++ [Ping "2"; Ping "9"; Ping "17"] ++ replicate 3 (create "u")))) = 6%nat.
Proof. vm_compute. reflexivity. Qed.

(** ... and requests that run side by side all count before any of them has written: four pass. *)
Theorem limit_raced : length (sessions_of counting "u"
  (run_pool counting [] (replicate 4 (create "u")) (seq 0 4 ++ seq 0 4 ++ seq 0 4 ++ seq 0 4))) = 4%nat.
Proof. vm_compute. reflexivity. Qed.

(** A message that has read its session before the termination writes it back afterwards: the
    termination has answered true, the session can be read, but it is in no list any more. *)
Theorem termination_undone :
  let w := run_pool counting [create "u"] [AddMessage "2" "hi" true None; Terminate "2"] [0; 1; 1; 1; 1; 1; 0]%nat in
  sessions_of counting "u" w = ["2"] ∧ members (H:=run_server counting) "u" w = ∅.
Proof. vm_compute. split; reflexivity. Qed.

(** Two updates of a responding session, to listening and to idle: each is in the table when it is
    read, and the session goes from listening to idle, which is not. *)
Theorem table_raced :
  let before := [create "u"; UpdateState "2" ConversationState.LISTENING; UpdateState "2" ConversationState.THINKING;
                 UpdateState "2" ConversationState.RESPONDING] in
  let updates := [UpdateState "2" ConversationState.LISTENING; UpdateState "2" ConversationState.IDLE] in
  state_of counting "2" (run_pool counting before updates [0; 1; 0]%nat) = Some ConversationState.LISTENING ∧
  state_of counting "2" (run_pool counting before updates [0; 1; 0; 1]%nat) = Some ConversationState.IDLE ∧
  canTransition ConversationState.LISTENING ConversationState.IDLE = false.
Proof. vm_compute. repeat split. Qed.
