(* ===== verification/VoiceQuota.v ===== *)
(** [QuotaService] ([voice/services/quota.service.ts]): requests to the language model per month,
    session and minute, counted in Redis. *)
From S2P Require Import Prelude Json JsonParse Redis.
Open Scope Z_scope.

Record QuotaConfig := mkQuotaConfig { monthlyLimit : Z; perSessionLimit : Z; requestsPerMinute : Z }.
(** [Partial<QuotaConfig>], and how it is spread over the defaults. *)
Record PartialConfig := mkPartialConfig { p_monthlyLimit : option Z; p_perSessionLimit : option Z; p_requestsPerMinute : option Z }.
Definition no_config : PartialConfig := mkPartialConfig None None None.

(** Numbers that may be [NaN]. *)
Definition js_number (n : option Z) : string := default "NaN" (pretty <$> n).
Definition js_ge (a b : option Z) : bool := match a, b with Some a, Some b => bool_decide (a >= b) | _, _ => false end.

Record QuotaStatus := mkQuotaStatus {
  qs_monthlyUsage : option Z; qs_monthlyLimit : Z;
  qs_sessionUsage : option Z; qs_sessionLimit : Z;
  qs_requestsThisMinute : option Z; qs_requestsPerMinuteLimit : Z;
}.

Definition defaultConfig : QuotaConfig := mkQuotaConfig 1000 100 20.
Definition mergedConfig (config : PartialConfig) : QuotaConfig := {|
  monthlyLimit := default (monthlyLimit defaultConfig) (p_monthlyLimit config);
  perSessionLimit := default (perSessionLimit defaultConfig) (p_perSessionLimit config);
  requestsPerMinute := default (requestsPerMinute defaultConfig) (p_requestsPerMinute config) |}.

Definition MONTHLY_QUOTA_PREFIX : string := "quota:monthly:".
Definition SESSION_QUOTA_PREFIX : string := "quota:session:".
Definition RPM_PREFIX : string := "quota:rpm:".

Definition getMonthKey (userId : string) (now : Z) : string :=
  let '(year, month, _) := civil_from_days (now / ms_per_day) in
  MONTHLY_QUOTA_PREFIX +:+ userId +:+ ":" +:+ pretty year +:+ "-" +:+ pretty month.
Definition getSessionKey (sessionId : string) : string := SESSION_QUOTA_PREFIX +:+ sessionId.
Definition getRpmKey (userId : string) (now : Z) : string :=
  let minuteTimestamp := now / 60000 in RPM_PREFIX +:+ userId +:+ ":" +:+ pretty minuteTimestamp.
Definition limitKey (userId : string) : string := MONTHLY_QUOTA_PREFIX +:+ userId +:+ ":limit".

(** The seconds until the first of the next month, rounded up. *)
Definition nextMonth (now : Z) : Z :=
  let '(year, month, _) := civil_from_days (now / ms_per_day) in
  ms_per_day * (if bool_decide (month = 12) then days_from_civil (year + 1) 1 1 else days_from_civil year (month + 1) 1).
Definition getMonthExpiry (now : Z) : Z :=
  let ttlMs := nextMonth now - now in (ttlMs + 999) / 1000.

Definition is_HttpException (e : exn) : bool := String.prefix "HttpException " (exn_name e).

(** [parseInt(v || '0', 10)] *)
Definition usage_of (v : option string) : option Z := parseInt (or_string v "0").

Section QuotaService.
Context {DB W : Type} `{!Redis DB, !HasRedis DB W, !Ticking W, !RedisServer, !Clock}.

(** ** Checks *)

Definition checkMonthlyQuota (userId : string) (now limit : Z) : eff W unit :=
  let monthKey := getMonthKey userId now in
  customLimit ← command (cmd_get (limitKey userId));
  let effectiveLimit := if bool_decide (or_string customLimit EmptyString = EmptyString) then Some limit
                        else parseInt (or_string customLimit EmptyString) in
  currentUsage ← command (cmd_get monthKey);
  let usage := usage_of currentUsage in
  if js_ge usage effectiveLimit then
    throw (HttpException ("Monthly LLM quota exceeded (" +:+ js_number usage +:+ "/" +:+ js_number effectiveLimit +:+
                          "). Please try again next month or contact support.") 429)
  else mret tt.

Definition checkSessionQuota (sessionId : string) (limit : Z) : eff W unit :=
  let sessionKey := getSessionKey sessionId in
  currentUsage ← command (cmd_get sessionKey);
  let usage := usage_of currentUsage in
  if js_ge usage (Some limit) then
    throw (HttpException ("Session LLM quota exceeded (" +:+ js_number usage +:+ "/" +:+ pretty limit +:+
                          "). Please start a new session.") 429)
  else mret tt.

Definition checkRequestsPerMinute (userId : string) (now limit : Z) : eff W unit :=
  let rpmKey := getRpmKey userId now in
  currentUsage ← command (cmd_get rpmKey);
  let usage := usage_of currentUsage in
  if js_ge usage (Some limit) then
    throw (HttpException ("Rate limit exceeded. Maximum " +:+ pretty limit +:+ " requests per minute.") 429)
  else mret tt.

(** [Promise.all] of three reads. *)
Definition getQuotaStatus_at (userId sessionId : string) (now : Z) (config : PartialConfig) : eff W QuotaStatus :=
  let merged := mergedConfig config in
  monthlyUsage ← command (cmd_get (getMonthKey userId now));
  sessionUsage ← command (cmd_get (getSessionKey sessionId));
  rpmUsage ← command (cmd_get (getRpmKey userId now));
  mret {| qs_monthlyUsage := usage_of monthlyUsage; qs_monthlyLimit := monthlyLimit merged;
          qs_sessionUsage := usage_of sessionUsage; qs_sessionLimit := perSessionLimit merged;
          qs_requestsThisMinute := usage_of rpmUsage; qs_requestsPerMinuteLimit := requestsPerMinute merged |}.
(** The time is the present unless it is given. *)
Definition or_now (now : option Z) : eff W Z := match now with Some t => mret t | None => date_now end.
Definition quota_getQuotaStatus (userId sessionId : string) (now : option Z) (config : PartialConfig) : eff W QuotaStatus :=
  now ← or_now now; getQuotaStatus_at userId sessionId now config.

Definition enforceQuota (userId sessionId : string) (config : PartialConfig) : eff W QuotaStatus :=
  let merged := mergedConfig config in
  now ← date_now;
  try_catch
    (checkMonthlyQuota userId now (monthlyLimit merged) ;;
     checkSessionQuota sessionId (perSessionLimit merged) ;;
     checkRequestsPerMinute userId now (requestsPerMinute merged) ;;
     quota_getQuotaStatus userId sessionId (Some now) config)
    (λ error, if is_HttpException error then throw error else throw (HttpException "Quota check failed" 500)).

(** ** Counting *)

Definition incrementWithExpiry (key : string) (ttlSeconds : Z) : eff W unit :=
  newValue ← command (cmd_incr key);
  if bool_decide (newValue = 1) then command (cmd_expire key ttlSeconds) ;; mret tt else mret tt.

(** [Promise.all]: all three are counted, also when one of them fails; the failure is only logged. *)
Definition recordRequest (userId sessionId : string) (now : option Z) : eff W unit :=
  now ← or_now now;
  attempt (incrementWithExpiry (getMonthKey userId now) (getMonthExpiry now)) ;;
  attempt (incrementWithExpiry (getSessionKey sessionId) 604800) ;;
  attempt (incrementWithExpiry (getRpmKey userId now) 60) ;;
  mret tt.

(** ** Administration *)

Definition resetUserQuota (userId : string) : eff W unit :=
  try_catch
    (keys ← command (cmd_keys (MONTHLY_QUOTA_PREFIX +:+ userId +:+ ":" +:+ star));
     if bool_decide (0 < length keys)%nat then command (cmd_del keys) ;; mret tt else mret tt)
    (λ _, mret tt).

Definition resetSessionQuota (sessionId : string) : eff W unit :=
  try_catch (command (cmd_del [getSessionKey sessionId]) ;; mret tt) (λ _, mret tt).

Definition setUserMonthlyQuota (userId : string) (limit : option Z) : eff W unit :=
  try_catch
    (now ← date_now;
     command (cmd_get (getMonthKey userId now)) ;;
     command (cmd_setEx (limitKey userId) (getMonthExpiry now) (js_number limit)))
    (λ _, mret tt).

Definition getUserMonthlyQuota (userId : string) : eff W (option Z) :=
  try_catch
    (now ← date_now;
     customLimit ← command (cmd_get (limitKey userId));
     if bool_decide (or_string customLimit EmptyString = EmptyString) then mret (Some (monthlyLimit defaultConfig))
     else mret (parseInt (or_string customLimit EmptyString)))
    (λ _, mret (Some (monthlyLimit defaultConfig))).
End QuotaService.
