(* ===== verification/VoiceQuotaFacts.v ===== *)
(** The quotas of the voice service: checks only read, counting raises the counters of the user, and resetting
    deletes them.  What the quota per minute bounds is in [LlmFacts], where the requests are. *)
From S2P Require Import Prelude Json JsonParse Redis CacheFacts VoiceQuota.
Open Scope Z_scope.

Section Facts.
Context {DB W : Type} `{!Redis DB, !RedisLaws DB, !HasRedis DB W, !Ticking W, !RedisServer, !RedisLens DB W}.
Context `{!MonotoneServer, !Clock}.
Implicit Types (w : W).

(** * Checks only read *)

Definition reads w w' : Prop := (tick w ≤ tick w')%nat ∧ redis w' = redis w.
#[global] Instance reads_preorder : PreOrder reads.
Proof. split; [by intros w|]. intros w1 w2 w3 [Ht1 H1w] [Ht2 H2w]. split; [lia|congruence]. Qed.
#[local] Hint Resolve reads_preorder : moves.

Lemma reads_get k : moves reads (command (cmd_get k)).
Proof.
  intros w. split; [rewrite tick_command; lia|]. unfold command. destruct (server_fault (tick w)); cbn; [by rewrite redis_advance|].
  by rewrite redis_advance, redis_set.
Qed.
Lemma reads_date_now : moves reads date_now.
Proof. intros w. split; [cbn; rewrite tick_advance; lia|cbn; apply redis_advance]. Qed.
Lemma reads_or_now now : moves reads (or_now now).
Proof. destruct now; [by intros w|apply reads_date_now]. Qed.
#[local] Hint Resolve reads_get reads_date_now reads_or_now : moves.
Lemma reads_monthly u now limit : moves reads (checkMonthlyQuota u now limit).
Proof. unfold checkMonthlyQuota. moves_tac. Qed.
Lemma reads_session s limit : moves reads (checkSessionQuota s limit).
Proof. unfold checkSessionQuota. moves_tac. Qed.
Lemma reads_minute u now limit : moves reads (checkRequestsPerMinute u now limit).
Proof. unfold checkRequestsPerMinute. moves_tac. Qed.
Lemma reads_status u s now c : moves reads (quota_getQuotaStatus u s now c).
Proof. unfold quota_getQuotaStatus, getQuotaStatus_at. moves_tac. Qed.
#[local] Hint Resolve reads_monthly reads_session reads_minute reads_status : moves.
Lemma reads_enforce u s c : moves reads (enforceQuota u s c).
Proof. unfold enforceQuota. cbv zeta. moves_tac. Qed.

(** What a check throws: [HttpException] with status 429, or 500 when the quota could not be read. *)
Lemma is_http m s : is_HttpException (HttpException m s) = true.
Proof. unfold is_HttpException, HttpException. cbn [exn_name]. by destruct (pretty s). Qed.

Lemma enforce_throws u s c w e w' : enforceQuota u s c w = (Throw e, w') → is_HttpException e = true.
Proof.
  unfold enforceQuota. cbv zeta. rewrite (bind_run _ _ w (clock_at (tick w)) (advance w)) by done. unfold try_catch.
  match goal with |- context [let (_, _) := ?m in _] => destruct m as [[st|x] w1] end; [done|]. destruct (is_HttpException x) eqn:Hx; intros [= <- _]; [done|apply is_http].
Qed.

(** A request that passes was below the limit of its minute. *)
Lemma enforce_below u s w st w' : enforceQuota u s no_config w = (Return st, w') →
  ∃ n, (tick w ≤ n ≤ tick w')%nat ∧ js_ge (usage_of (match live (server_at n) (getRpmKey u (clock_at (tick w))) (redis w) with
    | Some (mkEntry (RText v) _) => Some v | _ => None end)) (Some 20) = false.
Proof.
  unfold enforceQuota. cbv zeta. rewrite (bind_run _ _ w (clock_at (tick w)) (advance w)) by done. set (now := clock_at (tick w)).
  unfold try_catch. match goal with |- context [let (_, _) := ?m in _] => destruct m as [[st'|x] w1] eqn:Hrun end.
  2:{ destruct (is_HttpException x); discriminate. }
  intros [= _ <-]. apply bind_returned in Hrun as ([] & w2 & H1r & Hrun). apply bind_returned in Hrun as ([] & w3 & H2r & Hrun).
  apply bind_returned in Hrun as ([] & w4 & H3r & Hrun).
  pose proof (reads_monthly u now (monthlyLimit (mergedConfig no_config)) (advance w)) as [Ht1 Hr1].
  pose proof (reads_session s (perSessionLimit (mergedConfig no_config)) w2) as [Ht2 Hr2].
  pose proof (reads_minute u now (requestsPerMinute (mergedConfig no_config)) w3) as [Ht3 _].
  pose proof (reads_status u s (Some now) no_config w4) as [Ht4 _]. rewrite H1r in Ht1, Hr1. rewrite H2r in Ht2, Hr2.
  rewrite H3r in Ht3. rewrite Hrun in Ht4. cbn [snd] in *. rewrite redis_advance in Hr1. rewrite tick_advance in Ht1.
  exists (tick w3). split; [lia|]. rewrite <-Hr1, <-Hr2. unfold checkRequestsPerMinute in H3r. apply bind_returned in H3r as (v & w5 & Hget & H3r).
  destruct (js_ge (usage_of v) (Some (requestsPerMinute (mergedConfig no_config)))) eqn:Hge; [done|].
  unfold command in Hget. destruct (server_fault (tick w3)); [done|]. unfold cmd_get in Hget.
  destruct (live (server_at (tick w3)) (getRpmKey u now) (redis w3)) as [[[t| | |] d]|]; try done; by injection Hget as -> _.
Qed.

End Facts.

(** * A counter that is checked and then raised *)

Section Counter.
Context {DB W : Type} `{!Redis DB, !RedisLaws DB, !HasRedis DB W, !Ticking W, !RedisServer, !RedisLens DB W}.
Context `{!RedisUp, !MonotoneServer, !Clock}.
Implicit Types (w : W).
(** The key of the counter, and the end of a span of commands in which it does not expire. *)
Context (K : string) (N : nat).

(** The key holds [c], until after the span. *)
Definition counts (c : Z) (o : option entry) : Prop :=
  c = 0 ∧ o = None ∨ 0 < c ∧ ∃ d, o = Some (mkEntry (RText (pretty c)) (Some d)) ∧ server_at N < d.
Definition counted_so_far c w : Prop := (tick w ≤ N)%nat → counts c (held K w).

Lemma counts_seen c t o : t <= server_at N → counts c o → seen_at t o = o.
Proof.
  intros Ht [[_ ->]|(Hc & d & -> & Hd)]; [done|]. unfold seen_at, unexpired. cbn. by rewrite decide_True by lia.
Qed.
Lemma counted_later c w w' : counted_so_far c w → (tick w ≤ tick w')%nat → held K w' = seen_at (server_at (tick w')) (held K w) → counted_so_far c w'.
Proof.
  intros Hc Ht Hh Hn. specialize (Hc ltac:(lia)). rewrite Hh, (counts_seen c); [done| |done]. by apply server_mono.
Qed.

Lemma counted_reads c w w' : counted_so_far c w → reads w w' → counted_so_far c w'.
Proof.
  intros Hc [Ht Hr]. eapply counted_later; [exact Hc|done|]. unfold held. rewrite Hr. apply live_later. by apply server_mono.
Qed.
Lemma counted_command {A} c (m : Z → DB → outcome A * DB) : spares K m → keeps (counted_so_far c) (command m) anything.
Proof.
  intros Hm w Hc. split; [|done]. eapply counted_later; [exact Hc|rewrite tick_command; lia|].
  rewrite held_spared by done. by rewrite tick_command.
Qed.

(** Another key is raised. *)
Lemma counted_other c k ttl : K ≠ k → keeps (counted_so_far c) (incrementWithExpiry k ttl) anything.
Proof.
  intros Hk. eapply keeps_bind; [apply counted_command; auto with spares|]. intros n _. case_bool_decide; [|by apply keeps_ret].
  eapply keeps_bind; [apply counted_command; auto with spares|]. intros ? _. by apply keeps_ret.
Qed.

(** This one is raised. *)
Lemma counted_incr c ttl w : counted_so_far c w → 0 <= c → 0 < ttl → server_at N < server_at (tick w) + ttl * 1000 →
  counted_so_far (c + 1) (incrementWithExpiry K ttl w).2 ∧ (tick w ≤ tick (incrementWithExpiry K ttl w).2)%nat.
Proof.
  intros Hc H0c Httl Hspan. destruct (decide (tick w ≤ N)%nat) as [Hn|Hn].
  2:{ assert (tick w ≤ tick (incrementWithExpiry K ttl w).2)%nat as Ht.
      { assert (moves (λ w w', tick w ≤ tick w')%nat (incrementWithExpiry K ttl)) as Hm; [|apply Hm].
        assert (PreOrder (λ w w', tick w ≤ tick w')%nat) by (split; [by intros ?|intros ??? ??; lia]).
        assert (∀ A (m : Z → DB → outcome A * DB), moves (λ w w', tick w ≤ tick w')%nat (command m)) as Hcmd
          by (intros A m w0; rewrite tick_command; lia).
        unfold incrementWithExpiry. apply moves_bind; [done|apply Hcmd|]. intros n. case_bool_decide; [|by intros ?].
        apply moves_bind; [done|apply Hcmd|]. by intros ? ?. }
      split; [|exact Ht]. intros Hn'. lia. }
  unfold incrementWithExpiry. destruct (Hc Hn) as [[-> Hh]|(Hpos & d & Hh & Hd)].
  - destruct (run_incr_none K w Hh) as (w1 & Hrun & Ht1 & Hh1 & _). rewrite (bind_run _ _ _ _ _ Hrun). cbn [bool_decide].
    rewrite bool_decide_eq_true_2 by done.
    assert (held K w1 = Some (mkEntry (RText (pretty 1)) None)) as Hheld1 by (rewrite Hh1; done).
    destruct (run_expire K w1 _ _ ttl Hheld1 Httl) as (w2 & Hrun2 & Ht2 & Hh2 & _). rewrite (bind_run _ _ _ _ _ Hrun2).
    change ((mret () : eff W ()) w2).2 with w2. split; [|lia]. intros Hn2. right. split; [lia|].
    exists (server_at (tick w1) + ttl * 1000). assert (server_at (tick w) <= server_at (tick w1)) by (apply server_mono; lia).
    rewrite Hh2. split; [|lia]. unfold seen_at, unexpired. cbn [mbind option_bind e_deadline]. rewrite decide_True; [done|].
    pose proof (server_mono (tick w2) N Hn2). lia.
  - destruct (run_incr_some K w c (Some d) Hh) as (w1 & Hrun & Ht1 & Hh1 & _). rewrite (bind_run _ _ _ _ _ Hrun).
    rewrite bool_decide_eq_false_2 by lia. change ((mret () : eff W ()) w1).2 with w1. split; [|lia]. intros Hn1. right. split; [lia|].
    exists d. rewrite Hh1. split; [|done]. unfold seen_at, unexpired. cbn [mbind option_bind e_deadline]. rewrite decide_True; [done|].
    pose proof (server_mono (tick w1) N Hn1). lia.
Qed.
End Counter.

(** * The requests of a user in one minute *)

Section Minute.
Context {DB W : Type} `{!Redis DB, !RedisLaws DB, !HasRedis DB W, !Ticking W, !RedisServer, !RedisLens DB W}.
Context `{!RedisUp, !MonotoneServer, !Clock}.
Implicit Types (w : W).
Context (u : string) (m : Z) (N : nat).
Local Abbreviation K := (RPM_PREFIX +:+ u +:+ ":" +:+ pretty m).

Lemma minute_key t : t / 60000 = m → getRpmKey u t = K.
Proof. intros <-. done. Qed.
Lemma month_key_other u' t : K ≠ getMonthKey u' t.
Proof. unfold getMonthKey. destruct (civil_from_days _) as [[y mo] d]. done. Qed.
Lemma session_key_other s : K ≠ getSessionKey s.
Proof. done. Qed.

Lemma increment_ticks k ttl w : (tick w ≤ tick (incrementWithExpiry k ttl w).2)%nat.
Proof.
  unfold incrementWithExpiry, mbind, eff_bind. pose proof (tick_command (cmd_incr k) w) as Ht.
  destruct (command (cmd_incr k) w) as [[n|e] w2]; cbn [snd] in *; [|lia]. case_bool_decide; [|cbn; lia].
  pose proof (tick_command (cmd_expire k ttl) w2) as Ht2. destruct (command (cmd_expire k ttl) w2) as [[n2|e] w3]; cbn [snd mret eff_ret] in *; lia.
Qed.

Lemma record_counts s c w : ∃ w', recordRequest u s None w = (Return tt, w') ∧ (tick w ≤ tick w')%nat ∧
  (clock_at (tick w) / 60000 = m → server_at N < server_at (tick w) + 60 * 1000 → 0 <= c → counted_so_far K N c w → counted_so_far K N (c + 1) w').
Proof.
  unfold recordRequest, or_now. rewrite (bind_run _ _ w (clock_at (tick w)) (advance w)) by done. set (now := clock_at (tick w)).
  set (w1 := (incrementWithExpiry (getMonthKey u now) (getMonthExpiry now) (advance w)).2).
  set (w2 := (incrementWithExpiry (getSessionKey s) 604800 w1).2). set (w3 := (incrementWithExpiry (getRpmKey u now) 60 w2).2).
  assert (tick w ≤ tick w1)%nat as Ht1 by (unfold w1; etrans; [|apply increment_ticks]; rewrite tick_advance; lia).
  assert (tick w1 ≤ tick w2)%nat as Ht2 by apply increment_ticks. assert (tick w2 ≤ tick w3)%nat as Ht3 by apply increment_ticks.
  exists w3. split; [|split; [lia|]].
  - rewrite (bind_run (attempt (incrementWithExpiry (getMonthKey u now) (getMonthExpiry now))) _ _
      (incrementWithExpiry (getMonthKey u now) (getMonthExpiry now) (advance w)).1 w1)
      by (unfold attempt, w1; by destruct (incrementWithExpiry _ _ (advance w))).
    rewrite (bind_run (attempt (incrementWithExpiry (getSessionKey s) 604800)) _ _ (incrementWithExpiry (getSessionKey s) 604800 w1).1 w2)
      by (unfold attempt, w2; by destruct (incrementWithExpiry _ _ w1)).
    unfold attempt at 1, mbind, eff_bind, w3. by destruct (incrementWithExpiry (getRpmKey u now) 60 w2).
  - intros Hm Hspan H0c Hc. unfold w3. rewrite (minute_key now Hm).
    assert (server_at (tick w) <= server_at (tick w2)) by (apply server_mono; lia). apply counted_incr; [|lia..].
    apply (counted_other K N c); [apply session_key_other|]. apply (counted_other K N c); [apply month_key_other|].
    eapply counted_reads; [exact Hc|exact (reads_date_now w)].
Qed.

(** The minute of another user is counted under another key. *)
Lemma minute_key_user u' t : K = getRpmKey u' t → u' = u.
Proof.
  unfold getRpmKey. cbv zeta. intros Heq%app_inj_l.
  assert (∀ z : Z, free_of (Ascii.ascii_of_nat 58) (pretty z) = true) as Hfree by (intros z; by apply free_pretty).
  by destruct (last_separator _ u u' _ _ (Hfree m) (Hfree (t / 60000)) Heq).
Qed.

(** A request that passes was one of the first twenty. *)
Lemma enforce_counts s c w st w' : enforceQuota u s no_config w = (Return st, w') → clock_at (tick w) / 60000 = m →
  counted_so_far K N c w → (tick w' ≤ N)%nat → c < 20.
Proof.
  intros Hrun Hm Hc Hn. destruct (enforce_below _ _ _ _ _ Hrun) as (n & Hbetween & Hge). rewrite (minute_key _ Hm) in Hge.
  specialize (Hc ltac:(lia)). unfold held in Hc. rewrite (live_later (server_at (tick w))) in Hge by (apply server_mono; lia).
  rewrite (counts_seen N c) in Hge; [|apply server_mono; lia|done]. destruct Hc as [[-> Hh]|(Hpos & d & Hh & _)]; [lia|].
  rewrite Hh in Hge. unfold usage_of, or_string in Hge. rewrite bool_decide_eq_false_2 in Hge by apply pretty_Z_nonempty.
  rewrite parseInt_pretty in Hge. cbn in Hge. apply bool_decide_eq_false in Hge. lia.
Qed.
End Minute.

(** * Resetting the quota of a user *)

Section Reset.
Context {DB W : Type} `{!Redis DB, !RedisLaws DB, !HasRedis DB W, !Ticking W, !RedisServer, !RedisLens DB W}.
Context `{!RedisUp, !MonotoneServer, !Clock}.
Implicit Types (w : W).

Definition user_prefix (u : string) : string := MONTHLY_QUOTA_PREFIX +:+ u +:+ ":".
Lemma user_prefix_month u t : ∃ r, getMonthKey u t = user_prefix u +:+ r.
Proof.
  unfold getMonthKey, user_prefix. destruct (civil_from_days _) as [[y mo] d]. eexists. by rewrite <-!string_app_assoc.
Qed.
Lemma user_prefix_limit u : limitKey u = user_prefix u +:+ "limit".
Proof. unfold limitKey, user_prefix. by rewrite <-!string_app_assoc. Qed.

End Reset.

(** resetting a quota.  While Redis answers, [resetUserQuota] deletes every key that starts with the
    prefix of the user, the counters of all months and the limit that [setUserMonthlyQuota] has set
    as well, and no other key. *)
Theorem resetUserQuota_spec `{!Redis DB, !RedisLaws DB, !HasRedis DB W, !Ticking W, !RedisServer, !RedisLens DB W}
    `{!RedisUp, !MonotoneServer, !Clock} u (w : W) : glob_free (user_prefix u) = true → ∃ w',
  resetUserQuota u w = (Return tt, w') ∧
  (∀ t, held (getMonthKey u t) w' = None) ∧ held (limitKey u) w' = None ∧
  (∀ k, (∀ r, k ≠ user_prefix u +:+ r) → held k w' = seen_at (server_at (tick w')) (held k w)).
Proof.
  intros Hglob. cut (∃ w', resetUserQuota u w = (Return tt, w') ∧ (∀ r, held (user_prefix u +:+ r) w' = None) ∧
    (∀ k, (∀ r, k ≠ user_prefix u +:+ r) → held k w' = seen_at (server_at (tick w')) (held k w))).
  { intros (w' & Hrun & Hgone & Hkept). exists w'. split; [done|]. split; [|split; [|done]].
    - intros t. destruct (user_prefix_month u t) as [r ->]. apply Hgone.
    - rewrite user_prefix_limit. apply Hgone. }
  assert (MONTHLY_QUOTA_PREFIX +:+ u +:+ ":" +:+ star = user_prefix u +:+ star) as Hp by (unfold user_prefix; by rewrite <-!string_app_assoc).
  destruct (delete_prefix_run (user_prefix u) w (λ _, tt) tt Hglob) as (ks & w' & Hrun & _ & [Hgone Hkept]). exists w'.
  split; [|split; [exact Hgone|intros k Hk; by apply Hkept]].
  assert ((if bool_decide (length ks = 0%nat) then tt else tt) = tt) as Hu by by case_match. rewrite Hu in Hrun.
  unfold resetUserQuota, try_catch. rewrite Hp. unfold mbind, eff_bind in *. destruct (command (cmd_keys _) w) as [[[|k keys]|e] w1]; [exact Hrun| |done].
  change (bool_decide (length (k :: keys) = 0%nat)) with false in Hrun. change (bool_decide (0 < length (k :: keys))%nat) with true.
  cbv beta iota in Hrun |- *. by destruct (command (cmd_del (k :: keys)) w1) as [[n|e] w2].
Qed.
