(* ===== verification/LlmCache.v ===== *)
(** [LlmCacheService] ([voice/services/llm-cache.service.ts]): answers of the language model in Redis,
    under the hash of the prompt. *)
From S2P Require Import Prelude Json JsonParse Redis VoiceSessions VoiceQuota.
From Stdlib Require Import QArith.
Open Scope Z_scope.

Definition CACHE_PREFIX : string := "llm:cache:".
Definition CACHE_VERSION : string := "v1".
Definition DEFAULT_TTL : Z := 86400.

Record OldestEntry := mkOldestEntry { oe_key : string; oe_age : Z }.
Record CacheStats := mkCacheStats {
  totalEntries : option Z;
  totalHits : option Z;
  hitRate : option Q;
  oldestEntry : option OldestEntry;
}.
Record WarmEntry := mkWarmEntry { we_prompt : string; we_response : string; we_model : string; we_ttl : option Z }.

Section LlmCacheService.
Context {DB W : Type} `{!Redis DB, !HasRedis DB W, !Ticking W, !RedisServer, !Clock, !Crypto}.

Definition prompt_hash (prompt : string) : string :=
  let normalizedPrompt := toLowerCase (trim prompt) in sha256_hex normalizedPrompt.
Definition generateCacheKey (prompt model : string) : string :=
  CACHE_PREFIX +:+ CACHE_VERSION +:+ ":" +:+ model +:+ ":" +:+ prompt_hash prompt.
Definition generateStatsKey (cacheKey : string) : string := cacheKey +:+ ":stats".

Definition llm_get (prompt model : string) : eff W (option string) :=
  try_catch
    (let cacheKey := generateCacheKey prompt model in
     cached ← command (cmd_get cacheKey);
     match cached with
     | None => mret None
     | Some text =>
         if bool_decide (text = EmptyString) then mret None else
         let statsKey := generateStatsKey cacheKey in
         promise_all [command (cmd_incr (statsKey +:+ ":hits")) ;; mret tt;
                      command (cmd_incr "llm:cache:total-hits") ;; mret tt] ;;
         mret (Some text)
     end)
    (λ _, mret None).

Definition llm_set (prompt response model : string) (ttl : option Z) : eff W unit :=
  try_catch
    (let cacheKey := generateCacheKey prompt model in
     let effectiveTtl := or_number ttl DEFAULT_TTL in
     command (cmd_setEx cacheKey effectiveTtl response) ;;
     let statsKey := generateStatsKey cacheKey in
     created ← date_now;
     promise_all [command (cmd_setEx (statsKey +:+ ":created") effectiveTtl (pretty created));
                  command (cmd_setEx (statsKey +:+ ":model") effectiveTtl model);
                  command (cmd_setEx (statsKey +:+ ":ttl") effectiveTtl (pretty effectiveTtl));
                  command (cmd_incr "llm:cache:total-entries") ;; mret tt])
    (λ _, mret tt).

Definition invalidate (prompt : string) (model : option string) : eff W Z :=
  try_catch
    (keys ← (if bool_decide (or_string model EmptyString = EmptyString) then
               command (cmd_keys (CACHE_PREFIX +:+ CACHE_VERSION +:+ ":" +:+ star +:+ ":" +:+ prompt_hash prompt))
             else mret [generateCacheKey prompt (or_string model EmptyString)]);
     if bool_decide (length (keys : list string) = 0%nat) then mret 0 else
     let statsKeys := generateStatsKey <$> keys in
     let allKeys := keys ++ statsKeys in
     command (cmd_del allKeys) ;;
     mret (Z.of_nat (length keys)))
    (λ _, mret 0).

Definition invalidateAll : eff W Z :=
  try_catch
    (keys ← command (cmd_keys (CACHE_PREFIX +:+ star));
     if bool_decide (length keys = 0%nat) then mret 0 else
     command (cmd_del keys) ;;
     mret (Z.of_nat (length keys)))
    (λ _, mret 0).

(** The creation time of an entry, where it is known. *)
Definition created_of (key : string) : eff W (option (option Z)) :=
  createdStr ← command (cmd_get (generateStatsKey key +:+ ":created"));
  mret (if bool_decide (or_string createdStr EmptyString = EmptyString) then None
        else Some (parseInt (or_string createdStr EmptyString))).

Fixpoint oldest_of (now : Z) (keys : list string) (oldestTime : option Z) (oldest : option OldestEntry) : eff W (option OldestEntry) :=
  match keys with
  | [] => mret oldest
  | key :: keys =>
      created ← created_of key;
      match created with
      | Some (Some created) =>
          if match oldestTime with None => true | Some t => bool_decide (created < t) end then
            oldest_of now keys (Some created) (Some (mkOldestEntry (replace_first CACHE_PREFIX key) ((now - created) / 1000)))
          else oldest_of now keys oldestTime oldest
      | _ => oldest_of now keys oldestTime oldest
      end
  end.

Definition getStats : eff W CacheStats :=
  try_catch
    (entries ← command (cmd_get "llm:cache:total-entries");
     hits ← command (cmd_get "llm:cache:total-hits");
     let totalEntries := usage_of entries in
     let totalHits := usage_of hits in
     let hitRate := match totalEntries with
                    | Some n => if bool_decide (0 < n) then (λ h, h # Z.to_pos n) <$> totalHits else Some 0%Q
                    | None => Some 0%Q end in
     cacheKeys ← command (cmd_keys (CACHE_PREFIX +:+ star));
     oldest ← (if bool_decide (0 < length cacheKeys)%nat then now ← date_now; oldest_of now cacheKeys None None else mret None);
     mret (mkCacheStats totalEntries totalHits hitRate oldest))
    (λ _, mret (mkCacheStats (Some 0) (Some 0) (Some 0%Q) None)).

Fixpoint too_old (now maxAgeSeconds : Z) (keys keysToDelete : list string) : eff W (list string) :=
  match keys with
  | [] => mret keysToDelete
  | key :: keys =>
      created ← created_of key;
      match created with
      | Some (Some created) =>
          if bool_decide (now - created > maxAgeSeconds * 1000)
          then too_old now maxAgeSeconds keys (keysToDelete ++ [key; generateStatsKey key])
          else too_old now maxAgeSeconds keys keysToDelete
      | _ => too_old now maxAgeSeconds keys keysToDelete
      end
  end.
Definition pruneOldEntries (maxAgeSeconds : Z) : eff W Z :=
  try_catch
    (cacheKeys ← command (cmd_keys (CACHE_PREFIX +:+ star));
     now ← date_now;
     keysToDelete ← too_old now maxAgeSeconds cacheKeys [];
     if bool_decide (0 < length keysToDelete)%nat then
       command (cmd_del keysToDelete) ;; mret (Z.of_nat (length keysToDelete) / 2)
     else mret 0)
    (λ _, mret 0).

Fixpoint warm_entries (entries : list WarmEntry) (count : Z) : eff W Z :=
  match entries with
  | [] => mret count
  | entry :: entries =>
      llm_set (we_prompt entry) (we_response entry) (we_model entry) (we_ttl entry) ;; warm_entries entries (count + 1)
  end.
Definition cache_warmCache (entries : list WarmEntry) : eff W Z := try_catch (warm_entries entries 0) (λ _, mret 0).
End LlmCacheService.

(** * [LlmService] ([voice/services/llm.service.ts]): an answer of the (simulated) language model, after
    the quotas and the cache. *)

Record LlmResponseOptions := mkLlmResponseOptions {
  lo_model : option string; lo_useCache : option bool; lo_recordQuota : option bool; lo_cacheTtl : option Z }.
Definition no_options : LlmResponseOptions := mkLlmResponseOptions None None None None.
Record LlmResponse := mkLlmResponse { lr_content : string; lr_cached : bool; lr_quotaStatus : option QuotaStatus; lr_model : string }.

Definition FALLBACK_MESSAGE : string :=
  "I'm sorry, I'm having trouble processing your request right now. Please try again in a moment.".
Definition DEFAULT_MODEL : string := "gpt-3.5-turbo".

Section LlmService.
Context {DB W : Type} `{!Redis DB, !HasRedis DB W, !Ticking W, !RedisServer, !Clock, !Crypto, !Random}.

Definition responses (prompt : string) : list string :=
  ["I understand your question about " +:+ prompt +:+ ". Let me help you with that.";
   "That's an interesting point. Based on what you've said, I think the best approach would be to consider multiple factors.";
   "I can definitely help you with that. Here's what I recommend based on your situation.";
   "Thanks for sharing that with me. Let me provide you with some guidance on this topic."].

Definition callLlmWithFallback (prompt : string) : eff W string :=
  try_catch
    ((if string_includes "force-fail" (toLowerCase prompt) then throw (Error "Simulated provider failure") else mret tt) ;;
     delay 500 ;;
     r ← random;
     mret (default EmptyString (responses prompt !! Z.to_nat (r * 4 / random_scale))))
    (λ _, mret FALLBACK_MESSAGE).

Definition generateResponse (userId sessionId prompt : string) (options : LlmResponseOptions) : eff W LlmResponse :=
  let model := or_string (lo_model options) DEFAULT_MODEL in
  let useCache := default true (lo_useCache options) in
  let recordQuota := default true (lo_recordQuota options) in
  let cacheTtl := lo_cacheTtl options in
  try_catch
    (quotaStatus ← enforceQuota userId sessionId no_config;
     cachedResponse ← (if useCache then llm_get prompt model else mret None);
     if negb (bool_decide (or_string cachedResponse EmptyString = EmptyString)) then
       mret (mkLlmResponse (or_string cachedResponse EmptyString) true (Some quotaStatus) model)
     else
     response ← callLlmWithFallback prompt;
     (if useCache then llm_set prompt response model cacheTtl else mret tt) ;;
     (if recordQuota then recordRequest userId sessionId None else mret tt) ;;
     mret (mkLlmResponse response false (Some quotaStatus) model))
    (λ error, if is_HttpException error then throw error else throw (HttpException "LLM service error" 500)).

Definition generateResponseWithFallback (userId sessionId prompt : string) (options : LlmResponseOptions) : eff W LlmResponse :=
  let model := or_string (lo_model options) DEFAULT_MODEL in
  try_catch (generateResponse userId sessionId prompt options)
    (λ _, try_catch
       (quotaStatus ← quota_getQuotaStatus userId sessionId None no_config;
        mret (mkLlmResponse FALLBACK_MESSAGE false (Some quotaStatus) model))
       (λ _, mret (mkLlmResponse FALLBACK_MESSAGE false None model))).

(** What is handed on to the quotas and the cache. *)
Definition llm_getQuotaStatus (userId sessionId : string) (quotaConfig : PartialConfig) : eff W QuotaStatus :=
  now ← date_now; quota_getQuotaStatus userId sessionId (Some now) quotaConfig.
Definition getCacheStats : eff W CacheStats := getStats.
Definition invalidateCache (prompt : string) (model : option string) : eff W Z := invalidate prompt model.
Definition invalidateAllCache : eff W Z := invalidateAll.
Definition llm_resetUserQuota (userId : string) : eff W unit := resetUserQuota userId.
Definition llm_warmCache (entries : list WarmEntry) : eff W Z := cache_warmCache entries.
End LlmService.
