(* ===== verification/LlmFacts.v ===== *)
(** Answers of the language model: what repeats, what is counted and bounded by the quota per minute, and what an
    invalidation leaves. *)
From S2P Require Import Prelude Json JsonParse Redis CacheFacts VoiceSessions VoiceQuota VoiceQuotaFacts LlmCache.
From Stdlib Require Import Ascii.
Open Scope Z_scope.

(** [generateResponseWithFallback] never throws: it answers what [generateResponse] answers, and
    with the apology when that throws, which it does only with [HttpException]s. *)
Theorem fallback_total `{!Redis DB, !HasRedis DB W, !Ticking W, !RedisServer, !Clock, !Crypto, !Random}
    userId sessionId prompt options (w : W) : ∃ r w',
  generateResponseWithFallback userId sessionId prompt options w = (Return r, w') ∧
  match (generateResponse userId sessionId prompt options w).1 with
  | Return r' => r = r'
  | Throw e => is_HttpException e = true ∧ lr_content r = FALLBACK_MESSAGE ∧ lr_cached r = false
  end.
Proof.
  unfold generateResponseWithFallback. cbv zeta. unfold try_catch at 1.
  destruct (generateResponse userId sessionId prompt options w) as [[r|e] w1] eqn:Hrun; [by exists r, w1|].
  assert (is_HttpException e = true) as He.
  { unfold generateResponse, try_catch in Hrun. cbv zeta in Hrun.
    match type of Hrun with (let (_, _) := ?m in _) = _ => destruct m as [[r|x] w2] end; [done|].
    destruct (is_HttpException x) eqn:Hx; injection Hrun as <- _; [done|apply is_http]. }
  unfold try_catch. match goal with |- context [let (_, _) := ?m in _] => destruct m as [[r|x] w2] eqn:Hst end.
  - exists r, w2. split; [done|]. split; [done|]. apply bind_returned in Hst as (qs & w3 & _ & [= <- _]). done.
  - by eexists _, w2.
Qed.

Section Facts.
Context {DB W : Type} `{!Redis DB, !RedisLaws DB, !HasRedis DB W, !Ticking W, !RedisServer, !RedisLens DB W}.
Context `{!RedisUp, !MonotoneServer, !Clock, !Crypto, !Random, !RandomRange}.
Implicit Types (w : W).

(** * The keys *)

Lemma app_longer (s t : string) : t ≠ EmptyString → s ≠ s +:+ t.
Proof.
  intros Ht Heq. apply (f_equal String.length) in Heq. rewrite string_length_app in Heq. destruct t; [done|]. cbn in Heq. lia.
Qed.
Lemma stats_other k s : k ≠ generateStatsKey k +:+ s.
Proof. unfold generateStatsKey. rewrite <-string_app_assoc. by apply app_longer. Qed.
Lemma cache_total p m : generateCacheKey p m ≠ "llm:cache:total-entries".
Proof. done. Qed.
Lemma cache_hits p m : generateCacheKey p m ≠ "llm:cache:total-hits".
Proof. done. Qed.
Lemma cache_month p m u t : generateCacheKey p m ≠ getMonthKey u t.
Proof. unfold getMonthKey. by destruct (civil_from_days _) as [[y mo] d]. Qed.
Lemma cache_session p m s : generateCacheKey p m ≠ getSessionKey s.
Proof. done. Qed.
Lemma cache_rpm p m u t : generateCacheKey p m ≠ getRpmKey u t.
Proof. done. Qed.
Lemma cache_ending `{!Sha256Hex} p m t x : (String.length x ≤ 64)%nat → all_chars hex_char x = false → generateCacheKey p m ≠ t +:+ x.
Proof.
  intros Hl Hx Heq. unfold generateCacheKey, prompt_hash in Heq. cbv zeta in Heq. destruct (sha256_hex_digits (toLowerCase (trim p))) as [Hlen Hhex].
  rewrite !string_app_assoc in Heq. destruct (ending_in _ _ _ _ Heq ltac:(lia)) as [z Hz]. by rewrite Hz, all_chars_app, Hx, andb_false_r in Hhex.
Qed.
Definition statistics : list string := [":created"; ":model"; ":ttl"].
Lemma cache_statistics `{!Sha256Hex} p m k s : s ∈ statistics → generateCacheKey p m ≠ generateStatsKey k +:+ s.
Proof. unfold statistics. rewrite !elem_of_cons. intros [->|[->|[->|[]%elem_of_nil]]]; apply cache_ending; (reflexivity || (cbn; lia)). Qed.
Lemma hits_statistics k k' s : s ∈ statistics → generateStatsKey k +:+ ":hits" ≠ generateStatsKey k' +:+ s.
Proof.
  unfold statistics. rewrite !elem_of_cons. set (x := generateStatsKey k). set (y := generateStatsKey k').
  assert (∀ s a, x +:+ ":hits" = y +:+ (s +:+ String a EmptyString) → a = "s"%char) as Hend.
  { intros t a. change ":hits" with (":hit" +:+ "s"). rewrite !string_app_assoc. intros Heq. by injection (same_length_ending _ _ _ _ Heq eq_refl). }
  intros [->|[->|[->|[]%elem_of_nil]]] Heq; [by specialize (Hend ":create" "d"%char Heq)|by specialize (Hend ":mode" "l"%char Heq)|by specialize (Hend ":tt" "l"%char Heq)].
Qed.
#[local] Hint Resolve stats_other cache_total cache_hits cache_month cache_session cache_rpm : spares.

Definition hits_key (K : string) : string := generateStatsKey K +:+ ":hits".

(** * A key that nothing touches *)

Section Leaves.
Context (K : string).
#[local] Hint Resolve leaves_preorder moves_attempt : moves.
Lemma leaves_reads w w' : reads w w' → leaves K w w'.
Proof. intros [Ht Hr]. split; [done|]. unfold held. rewrite Hr. apply live_later, server_mono. done. Qed.
Lemma leaves_or_now now : moves (leaves K) (or_now now).
Proof. intros w. apply leaves_reads, reads_or_now. Qed.
#[local] Hint Resolve leaves_date_now leaves_or_now : moves.
Lemma leaves_increment k ttl : K ≠ k → moves (leaves K) (incrementWithExpiry k ttl).
Proof. intros Hk. unfold incrementWithExpiry. moves_tac. Qed.
Lemma leaves_record u s now : (∀ t, K ≠ getMonthKey u t) → K ≠ getSessionKey s → (∀ t, K ≠ getRpmKey u t) →
  moves (leaves K) (recordRequest u s now).
Proof.
  intros. unfold recordRequest. apply moves_bind; [apply _|apply leaves_or_now|]. intros t.
  repeat (apply moves_bind; [apply _|by apply moves_attempt, leaves_increment|intros _]). auto with moves.
Qed.
(** Reading the cache raises two statistics, writing it sets an entry with its statistics. *)
Lemma leaves_llm_get p m : K ≠ hits_key (generateCacheKey p m) → K ≠ "llm:cache:total-hits" → moves (leaves K) (llm_get p m).
Proof.
  intros Hh Ht. unfold llm_get. cbv zeta. fold (hits_key (generateCacheKey p m)).
  apply moves_try; [apply _| |intros _; by apply moves_ret, _].
  apply moves_bind; [apply _|auto with moves|]. intros [t|]; [|apply moves_ret, _]. case_bool_decide; [apply moves_ret, _|].
  apply moves_bind; [apply _| |intros _; apply moves_ret, _]. apply leaves_all.
  repeat (apply Forall_cons_2; [apply moves_bind; [apply _|auto with moves|intros _; apply moves_ret, _]|]). by apply Forall_nil_2.
Qed.
Lemma leaves_llm_set p t m ttl : let C := generateCacheKey p m in
  K ≠ C → (∀ s, s ∈ statistics → K ≠ generateStatsKey C +:+ s) → K ≠ "llm:cache:total-entries" →
  moves (leaves K) (llm_set p t m ttl).
Proof.
  intros C HC Hs Ht. unfold llm_set. cbv zeta. fold C.
  apply moves_try; [apply _| |intros _; apply moves_ret, _]. apply moves_bind; [apply _|auto with moves|]. intros _.
  apply moves_bind; [apply _|auto with moves|]. intros now. apply leaves_all.
  do 3 (apply Forall_cons_2; [apply leaves_command, spares_setEx, Hs; by repeat constructor|]). apply Forall_cons_2; [|by apply Forall_nil_2].
  apply moves_bind; [apply _|auto with moves|]. intros _. apply moves_ret, _.
Qed.
End Leaves.

(** * Writing and reading the cache *)

Lemma llm_set_run p text m ttl w : 0 < or_number ttl DEFAULT_TTL → ∃ w', llm_set p text m ttl w = (Return tt, w') ∧
  (tick w ≤ tick w')%nat ∧ cached_until (generateCacheKey p m) text (server_at (tick w) + or_number ttl DEFAULT_TTL * 1000) w'.
Proof.
  intros Httl. set (K := generateCacheKey p m). destruct (run_setEx K w (or_number ttl DEFAULT_TTL) text Httl) as (w1 & Hrun & Ht1 & Hh1 & _).
  unfold llm_set, try_catch. cbv zeta. fold K. rewrite (bind_run _ _ _ _ _ Hrun).
  match goal with |- context [let (_, _) := ?m w1 in _] => set (rest := m) end.
  assert (moves (leaves K) rest) as Hrest.
  { unfold rest. apply moves_bind; [apply leaves_preorder|apply leaves_date_now|]. intros t. apply leaves_all.
    do 3 (apply Forall_cons_2; [apply leaves_command, spares_setEx, stats_other|]). apply Forall_cons_2; [|by apply Forall_nil_2].
    apply moves_bind; [apply leaves_preorder|apply leaves_command, spares_incr, cache_total|]. intros _ w2. apply leaves_preorder. }
  specialize (Hrest w1).
  assert (cached_until K text (server_at (tick w) + or_number ttl DEFAULT_TTL * 1000) w1) as Hc1.
  { intros Hd. exists (server_at (tick w) + or_number ttl DEFAULT_TTL * 1000). split; [done|]. rewrite Hh1. unfold seen_at, unexpired. cbn.
    by rewrite decide_True. }
  pose proof (cached_later _ _ _ _ _ Hrest Hc1) as Hc2. destruct Hrest as [Ht2 _].
  destruct (rest w1) as [[[]|e] w2]; cbn [snd] in *; exists w2; (split; [done|]); (split; [lia|done]).
Qed.

Lemma hits_total K : hits_key (CACHE_PREFIX +:+ CACHE_VERSION +:+ ":" +:+ K) ≠ "llm:cache:total-hits".
Proof. done. Qed.

Lemma llm_get_run p m w text d : let K := generateCacheKey p m in
  held K w = Some (mkEntry (RText text) d) → text ≠ EmptyString →
  countable (held (hits_key K) w) → countable (held "llm:cache:total-hits" w) → ∃ w',
  llm_get p m w = (Return (Some text), w') ∧
  ∀ k, k ≠ hits_key K → k ≠ "llm:cache:total-hits" → held k w' = seen_at (server_at (tick w')) (held k w).
Proof.
  intros K Hh Htext Hhits Htotal. unfold llm_get, try_catch. cbv zeta. fold K.
  set (w1 := (command (cmd_get K) w).2).
  assert (command (cmd_get K) w = (Return (Some text), w1)) as Hget.
  { unfold w1. rewrite command_up. unfold cmd_get. fold (held K w). by rewrite Hh. }
  rewrite (bind_run _ _ _ _ _ Hget). rewrite bool_decide_eq_false_2 by done.
  assert (∀ k, held k w1 = seen_at (server_at (tick w1)) (held k w)) as Hh1.
  { intros k. unfold w1. rewrite held_spared by auto with spares. by rewrite tick_command. }
  destruct (incr_two (hits_key K) "llm:cache:total-hits" w1) as (w3 & Hrun & _ & Hl & _); [rewrite Hh1; by apply countable_seen..|].
  exists w3. split; [by rewrite (bind_run _ _ _ _ _ Hrun)|].
  intros k Hk1 Hk2. destruct (Hl k Hk1 Hk2) as [Ht ->]. rewrite Hh1. apply seen_seen, server_mono. done.
Qed.

(** * What a request does *)

Lemma answer_nonempty p w text w' : callLlmWithFallback p w = (Return text, w') → text ≠ EmptyString.
Proof.
  unfold callLlmWithFallback, try_catch. destruct (string_includes _ _); [by intros [= <- _]|].
  unfold mbind, eff_bind, delay, random. cbn. intros [= <- _]. pose proof (random_range (tick (advance w))) as Hr.
  assert (0 <= random_at (tick (advance w)) * 4 / random_scale < 4) as Hq.
  { split; [apply Z.div_pos; lia|]. apply Z.div_lt_upper_bound; unfold random_scale in *; lia. }
  assert (Z.to_nat (random_at (tick (advance w)) * 4 / random_scale) < 4)%nat as Hlt by lia.
  destruct (Z.to_nat _) as [|[|[|[|]]]]; [done..|lia].
Qed.

Lemma leaves_get p m : moves (leaves (generateCacheKey p m)) (llm_get p m).
Proof. apply leaves_llm_get; [|apply cache_hits]. unfold hits_key. apply stats_other. Qed.
#[local] Hint Resolve reads_preorder : moves.
Lemma reads_call p : moves reads (callLlmWithFallback p).
Proof.
  assert (∀ w, reads w (advance w)) as Ha by exact reads_date_now.
  assert (moves reads (delay 500)) as Hd by exact Ha. assert (moves reads random) as Hr by exact Ha.
  unfold callLlmWithFallback. moves_tac.
Qed.

(** The number of commands only grows. *)
Definition goes_on w w' : Prop := (tick w ≤ tick w')%nat.
#[local] Instance goes_on_preorder : PreOrder goes_on.
Proof. unfold goes_on. split; [by intros w|]. intros w1 w2 w3. lia. Qed.
#[local] Hint Resolve goes_on_preorder moves_attempt : moves.
Lemma goes_on_command {A} (c : Z → DB → outcome A * DB) : moves goes_on (command c).
Proof. intros w. unfold goes_on. rewrite tick_command. lia. Qed.
Lemma goes_on_reads {A} (m : eff W A) : moves reads m → moves goes_on m.
Proof. intros Hm w. apply Hm. Qed.
#[local] Hint Resolve goes_on_command : moves.
Lemma goes_on_date_now : moves goes_on date_now.
Proof. apply goes_on_reads, reads_date_now. Qed.
#[local] Hint Resolve goes_on_date_now : moves.
Lemma goes_on_set p t m ttl : moves goes_on (llm_set p t m ttl).
Proof. unfold llm_set. cbn [promise_all]. cbv zeta. moves_tac. Qed.
Lemma goes_on_get p m : moves goes_on (llm_get p m).
Proof. intros w. apply leaves_get. Qed.
Lemma goes_on_record u s now : moves goes_on (recordRequest u s now).
Proof. unfold recordRequest, or_now, incrementWithExpiry. moves_tac. Qed.


Lemma total_llm_get p m : total (llm_get p m).
Proof. apply total_try. intros e. apply total_ret. Qed.
Lemma total_llm_set p t m ttl : total (llm_set p t m ttl).
Proof. apply total_try. intros e. apply total_ret. Qed.
Lemma total_call p : total (callLlmWithFallback p).
Proof. apply total_try. intros e. apply total_ret. Qed.
Lemma total_record u s : total (recordRequest u s None).
Proof. intros w. destruct (record_counts u 0 0 s 0 w) as (w' & Hrun & _). by exists tt, w'. Qed.

(** A request is refused by a quota, or answered from the cache, or answered by the model; only the
    last writes the cache and is counted. *)
Lemma response_cases u s p opts w o w' : generateResponse u s p opts w = (o, w') →
  let m := or_string (lo_model opts) DEFAULT_MODEL in
  (∃ e, o = Throw e ∧ reads w w') ∨
  ∃ qs wa co wb, enforceQuota u s no_config w = (Return qs, wa) ∧
    (if default true (lo_useCache opts) then llm_get p m else mret None) wa = (Return co, wb) ∧
    (or_string co EmptyString ≠ EmptyString ∧ o = Return (mkLlmResponse (or_string co EmptyString) true (Some qs) m) ∧ w' = wb ∨
     or_string co EmptyString = EmptyString ∧ ∃ text wc wd, callLlmWithFallback p wb = (Return text, wc) ∧
       (if default true (lo_useCache opts) then llm_set p text m (lo_cacheTtl opts) else mret tt) wc = (Return tt, wd) ∧
       (if default true (lo_recordQuota opts) then recordRequest u s None else mret tt) wd = (Return tt, w') ∧
       o = Return (mkLlmResponse text false (Some qs) m)).
Proof.
  intros Hrun m. unfold generateResponse, try_catch in Hrun. cbv zeta in Hrun. fold m in Hrun.
  pose proof (reads_enforce u s no_config w) as Hreads.
  destruct (enforceQuota u s no_config w) as [[qs|e] wa] eqn:Hq; cbn [snd] in Hreads.
  2:{ left. unfold mbind at 1, eff_bind at 1 in Hrun. rewrite Hq in Hrun. destruct (is_HttpException e); injection Hrun as <- <-; by eexists. }
  right. rewrite (bind_run _ _ _ _ _ Hq) in Hrun.
  assert (∃ co wb, (if default true (lo_useCache opts) then llm_get p m else mret None) wa = (Return co, wb)) as (co & wb & Hg)
    by (destruct (default true (lo_useCache opts)); [apply total_llm_get|apply total_ret]).
  exists qs, wa, co, wb. split; [done|]. split; [done|]. rewrite (bind_run _ _ _ _ _ Hg) in Hrun.
  case_bool_decide as Hco; cbn [negb] in Hrun; [right|left; by injection Hrun as <- <-]. split; [done|].
  destruct (total_call p wb) as (text & wc & Hcall). rewrite (bind_run _ _ _ _ _ Hcall) in Hrun.
  assert (∃ v wd, (if default true (lo_useCache opts) then llm_set p text m (lo_cacheTtl opts) else mret tt) wc = (Return v, wd)) as ([] & wd & Hset)
    by (destruct (default true (lo_useCache opts)); [apply total_llm_set|apply total_ret]).
  assert (∃ v we, (if default true (lo_recordQuota opts) then recordRequest u s None else mret tt) wd = (Return v, we)) as ([] & we & Hrec)
    by (destruct (default true (lo_recordQuota opts)); [apply total_record|apply total_ret]).
  rewrite (bind_run _ _ _ _ _ Hset), (bind_run _ _ _ _ _ Hrec) in Hrun. injection Hrun as <- <-. by exists text, wc, wd.
Qed.

(** What is kept by the four parts of a request is kept by the request. *)
Lemma response_keeps (I : W → Prop) u s p opts : let m := or_string (lo_model opts) DEFAULT_MODEL in
  (∀ w w', reads w w' → I w → I w') →
  (default true (lo_useCache opts) = true →
    keeps I (llm_get p m) anything ∧ ∀ t, keeps I (llm_set p t m (lo_cacheTtl opts)) anything) →
  keeps I (recordRequest u s None) anything → keeps I (generateResponse u s p opts) anything.
Proof.
  intros m Hreads Hcache Hrecord w Hw. split; [|done]. destruct (generateResponse u s p opts w) as [o w'] eqn:Hrun. cbn [snd].
  destruct (response_cases _ _ _ _ _ _ _ Hrun) as [(e & _ & Hr)|(qs & wa & co & wb & Hq & Hg & Hrest)]; [by eapply Hreads|].
  assert (I wb) as Hb.
  { assert (I wa) as Ha by (eapply Hreads; [|exact Hw]; pose proof (reads_enforce u s no_config w) as Hr; by rewrite Hq in Hr).
    destruct (default true (lo_useCache opts)); [|by injection Hg as _ <-]. destruct Hcache as [Hget _]; [done|]. destruct (Hget wa Ha) as [Hb _]. fold m in Hg. by rewrite Hg in Hb. }
  destruct Hrest as [(_ & _ & ->)|(_ & text & wc & wd & Hcall & Hs & Hrec & _)]; [done|].
  assert (I wc) as Hc by (eapply Hreads; [|exact Hb]; pose proof (reads_call p wb) as Hr; by rewrite Hcall in Hr).
  assert (I wd) as Hd.
  { destruct (default true (lo_useCache opts)); [|by injection Hs as <-]. destruct Hcache as [_ Hset]; [done|]. destruct (Hset text wc Hc) as [Hd _]. fold m in Hs. by rewrite Hs in Hd. }
  destruct (default true (lo_recordQuota opts)); [|by injection Hrec as <-]. destruct (Hrecord wd Hd) as [He _]. by rewrite Hrec in He.
Qed.
Lemma keeps_goes_on {A} n (m : eff W A) : moves goes_on m → keeps (λ w, n ≤ tick w)%nat m anything.
Proof. intros Hm w Hw. split; [|done]. specialize (Hm w). unfold goes_on in Hm. lia. Qed.
Lemma goes_on_response u s p opts : moves goes_on (generateResponse u s p opts).
Proof.
  intros w. apply (response_keeps (λ w', tick w ≤ tick w')%nat u s p opts); [| | |done].
  - intros w1 w2 [Ht _]. lia.
  - intros _. split; [apply keeps_goes_on, goes_on_get|]. intros t. apply keeps_goes_on, goes_on_set.
  - apply keeps_goes_on, goes_on_record.
Qed.

(** An answer that did not come from the cache is in it afterwards. *)
Lemma fresh_answer u s p opts w r w' : generateResponse u s p opts w = (Return r, w') → lr_cached r = false →
  default true (lo_useCache opts) = true → 0 < or_number (lo_cacheTtl opts) DEFAULT_TTL →
  lr_content r ≠ EmptyString ∧
  cached_until (generateCacheKey p (or_string (lo_model opts) DEFAULT_MODEL)) (lr_content r)
    (server_at (tick w) + or_number (lo_cacheTtl opts) DEFAULT_TTL * 1000) w'.
Proof.
  intros Hrun Hfresh Hcache Httl. set (m := or_string (lo_model opts) DEFAULT_MODEL). set (K := generateCacheKey p m).
  destruct (response_cases _ _ _ _ _ _ _ Hrun) as [(e & [=] & _)|(qs & wa & co & wb & Hq & Hg & [(_ & [= ->] & _)|Hrest])]; [done|].
  destruct Hrest as (_ & text & wc & wd & Hcall & Hset & Hrec & [= ->]). fold m in Hg, Hset. rewrite Hcache in Hg, Hset. cbn [lr_content].
  pose proof (answer_nonempty _ _ _ _ Hcall) as Htext. split; [done|].
  pose proof (reads_enforce u s no_config w) as [Ht1 _]. rewrite Hq in Ht1. cbn [snd] in Ht1.
  pose proof (leaves_get p m wa) as [Ht2 _]. rewrite Hg in Ht2. cbn [snd] in Ht2.
  pose proof (reads_call p wb) as [Ht3 _]. rewrite Hcall in Ht3. cbn [snd] in Ht3.
  destruct (llm_set_run p text m (lo_cacheTtl opts) wc Httl) as (wd' & Hset' & _ & Hc). rewrite Hset in Hset'. injection Hset' as <-.
  assert (cached_until K text (server_at (tick w) + or_number (lo_cacheTtl opts) DEFAULT_TTL * 1000) wd) as Hcd.
  { intros Hd. assert (server_at (tick w) <= server_at (tick wc)) by (apply server_mono; lia).
    destruct (Hc ltac:(lia)) as (d' & Hd' & Hh). exists d'. split; [lia|exact Hh]. }
  assert (leaves K wd w') as Hle; [|by eapply cached_later].
  assert (moves (leaves K) (if default true (lo_recordQuota opts) then recordRequest u s None else mret tt)) as Hm.
  { case_match; [|apply moves_ret, leaves_preorder]. apply leaves_record; [intros t; apply cache_month|apply cache_session|intros t; apply cache_rpm]. }
  specialize (Hm wd). by rewrite Hrec in Hm.
Qed.
End Facts.

(** * Requests that follow each other *)

Record llm_request := mkLlmRequest { lq_userId : string; lq_sessionId : string; lq_prompt : string; lq_options : LlmResponseOptions }.

Section Requests.
Context {DB W : Type} `{!Redis DB, !HasRedis DB W, !Ticking W, !RedisServer, !Clock, !Crypto, !Random}.

(** How the requests end, and the world after them. *)
Definition respond (q : llm_request) : eff W LlmResponse :=
  generateResponse (lq_userId q) (lq_sessionId q) (lq_prompt q) (lq_options q).
Fixpoint respond_all (qs : list llm_request) (w : W) : list (outcome LlmResponse) * W :=
  match qs with
  | [] => ([], w)
  | q :: qs => let '(o, w1) := respond q w in let '(os, w2) := respond_all qs w1 in (o :: os, w2)
  end.

Lemma respond_all_keeps (I : W → Prop) qs w : (∀ q, keeps I (respond q) anything) → I w → I (respond_all qs w).2.
Proof.
  intros Hq. revert w. induction qs as [|q qs IH]; intros w Hw; [done|]. cbn [respond_all]. destruct (Hq q w Hw) as [Hw1 _].
  destruct (respond q w) as [o w1]. specialize (IH w1 Hw1). by destruct (respond_all qs w1).
Qed.
End Requests.

(** The answers to the user that count for the quotas: those of the model, unless the caller has
    asked that they be not recorded. *)
Definition charged (u : string) (q : llm_request) (o : outcome LlmResponse) : bool :=
  bool_decide (lq_userId q = u) && default true (lo_recordQuota (lq_options q)) &&
  match o with Return r => negb (lr_cached r) | Throw _ => false end.
Definition charges (u : string) (qs : list llm_request) (os : list (outcome LlmResponse)) : Z :=
  Z.of_nat (length (filter (λ p, charged u p.1 p.2 = true) (zip qs os))).

Section Minute.
Context {DB W : Type} `{!Redis DB, !RedisLaws DB, !HasRedis DB W, !Ticking W, !RedisServer, !RedisLens DB W}.
Context `{!RedisUp, !MonotoneServer, !Clock, !Crypto, !Random}.
Implicit Types (w : W).
Context (u : string) (m : Z) (N : nat).
Local Abbreviation K := (RPM_PREFIX +:+ u +:+ ":" +:+ pretty m).

Lemma counted_leaves {A} c (e : eff W A) w o w' : moves (leaves K) e → e w = (o, w') → counted_so_far K N c w → counted_so_far K N c w'.
Proof. intros He Hrun Hc. specialize (He w). rewrite Hrun in He. destruct He as [Ht Hh]. by eapply counted_later. Qed.

Lemma respond_counts q c w o w' : respond q w = (o, w') → counted_so_far K N c w → 0 <= c → (tick w' ≤ N)%nat →
  (∀ n, (tick w ≤ n ≤ N)%nat → clock_at n / 60000 = m) → server_at N < server_at (tick w) + 60 * 1000 →
  if charged u q o then c < 20 ∧ counted_so_far K N (c + 1) w' else counted_so_far K N c w'.
Proof.
  destruct q as [u' s p opts]. unfold respond. cbn [lq_userId lq_sessionId lq_prompt lq_options]. intros Hrun Hc H0c Hn Hm Hspan.
  set (mo := or_string (lo_model opts) DEFAULT_MODEL). unfold charged. cbn [lq_userId lq_options].
  destruct (response_cases _ _ _ _ _ _ _ Hrun) as [(e & -> & Hr)|(qs & wa & co & wb & Hq & Hg & Hrest)];
    [rewrite andb_false_r; by eapply counted_reads|]. fold mo in Hg.
  pose proof (reads_enforce u' s no_config w) as Hreads. rewrite Hq in Hreads. cbn [snd] in Hreads.
  assert (counted_so_far K N c wa) as Ha by by eapply counted_reads.
  assert (moves (leaves K) (if default true (lo_useCache opts) then llm_get p mo else mret None)) as Hlg.
  { destruct (default true (lo_useCache opts)); [by apply leaves_llm_get|apply moves_ret, leaves_preorder]. }
  pose proof (counted_leaves c _ _ _ _ Hlg Hg Ha) as Hb. specialize (Hlg wa). rewrite Hg in Hlg. destruct Hlg as [Hgb _]. cbn [snd] in Hgb.
  destruct Hrest as [(_ & -> & ->)|(_ & text & wc & wd & Hcall & Hset & Hrec & ->)]; [by rewrite andb_false_r|]. fold mo in Hset.
  pose proof (reads_call p wb) as Hrc. rewrite Hcall in Hrc. cbn [snd] in Hrc.
  assert (moves (leaves K) (if default true (lo_useCache opts) then llm_set p text mo (lo_cacheTtl opts) else mret tt)) as Hls.
  { destruct (default true (lo_useCache opts)); [by apply leaves_llm_set|apply moves_ret, leaves_preorder]. }
  pose proof (counted_leaves c _ _ _ _ Hls Hset (counted_reads _ _ _ _ _ Hb Hrc)) as Hd. specialize (Hls wc). rewrite Hset in Hls.
  destruct Hls as [Hcd _], Hrc as [Hbc _], Hreads as [Hwa _]. cbn [snd lr_cached negb] in *. rewrite andb_true_r.
  destruct (default true (lo_recordQuota opts)); [|injection Hrec as <-; by rewrite andb_false_r]. rewrite andb_true_r.
  destruct (record_counts u' m N s c wd) as (w2 & Hrec' & Ht & Hcount). rewrite Hrec in Hrec'. injection Hrec' as <-.
  assert (server_at (tick w) <= server_at (tick wd)) by (apply server_mono; lia). case_bool_decide as Hu.
  - subst u'. split; [eapply (enforce_counts u m N); [exact Hq|apply Hm; lia|exact Hc|lia]|]. apply Hcount; [apply Hm; lia|lia|done|done].
  - eapply (counted_leaves c); [|exact Hrec|exact Hd].
    apply leaves_record; [intros t; apply month_key_other|apply session_key_other|intros t Heq; by apply Hu, (minute_key_user u m u' t)].
Qed.

Lemma respond_all_counts qs c w : counted_so_far K N c w → 0 <= c <= 20 → (tick (respond_all qs w).2 ≤ N)%nat →
  (∀ n, (tick w ≤ n ≤ N)%nat → clock_at n / 60000 = m) → server_at N < server_at (tick w) + 60 * 1000 →
  charges u qs (respond_all qs w).1 + c <= 20.
Proof.
  revert c w. induction qs as [|q qs IH]; intros c w Hc H0c Hn Hm Hspan; [change (charges u [] _) with 0; lia|]. cbn [respond_all] in *.
  destruct (respond q w) as [o w1] eqn:Hq. specialize (IH (if charged u q o then c + 1 else c) w1).
  assert (tick w ≤ tick w1)%nat as Ht1 by (pose proof (goes_on_response (lq_userId q) (lq_sessionId q) (lq_prompt q) (lq_options q) w) as Hg; unfold respond in Hq; rewrite Hq in Hg; exact Hg).
  assert (tick w1 ≤ tick (respond_all qs w1).2)%nat as Ht2.
  { apply (respond_all_keeps (λ w', tick w1 ≤ tick w')%nat); [|done]. intros q'. apply keeps_goes_on, goes_on_response. }
  destruct (respond_all qs w1) as [os w2]. cbn [fst snd] in *.
  pose proof (respond_counts _ _ _ _ _ Hq Hc ltac:(lia) ltac:(lia) Hm Hspan) as Hcount.
  assert (server_at (tick w) <= server_at (tick w1)) by by apply server_mono. unfold charges in *. cbn [zip zip_with].
  destruct (charged u q o) eqn:Hch.
  - rewrite filter_cons_True by done. destruct Hcount as [Hlt Hc1]. cbn [length].
    specialize (IH Hc1 ltac:(lia) Hn ltac:(intros n ?; apply Hm; lia) ltac:(lia)). lia.
  - rewrite filter_cons_False by (cbn [fst snd]; by rewrite Hch).
    apply IH; [done..|intros n ?; apply Hm; lia|lia].
Qed.
End Minute.

(** C15: the quota per minute.  Requests of any users, in whichever sessions, that run one after the other
    while Redis answers and the clocks of service and server stay within one minute: of those of a
    user who has no counter for the minute at the beginning, at most twenty are answered by the
    model and recorded.  Answers from the cache, and those that the caller has asked not to record,
    are not counted and not bounded. *)
Theorem quota_per_minute `{!Redis DB, !RedisLaws DB, !HasRedis DB W, !Ticking W, !RedisServer, !RedisLens DB W}
    `{!RedisUp, !MonotoneServer, !Clock, !Crypto, !Random} u m qs (w : W) :
  let '(os, w') := respond_all qs w in
  (∀ n, (tick w ≤ n ≤ tick w')%nat → clock_at n / 60000 = m) → server_at (tick w') < server_at (tick w) + 60 * 1000 →
  held (RPM_PREFIX +:+ u +:+ ":" +:+ pretty m) w = None → charges u qs os <= 20.
Proof.
  destruct (respond_all qs w) as [os w'] eqn:Hrun. intros Hm Hspan Hnone.
  pose proof (respond_all_counts u m (tick w') qs 0 w) as Hcount. rewrite Hrun in Hcount. cbn [fst snd] in Hcount.
  assert (charges u qs os + 0 <= 20); [|lia]. apply Hcount; [|lia|done|exact Hm|exact Hspan]. intros _. by left.
Qed.

(** * A prompt that is asked again *)

Section Again.
Context {DB W : Type} `{!Redis DB, !RedisLaws DB, !HasRedis DB W, !Ticking W, !RedisServer, !RedisLens DB W}.
Context `{!RedisUp, !MonotoneServer, !Clock, !Crypto, !Sha256Hex, !Random, !RandomRange}.
Implicit Types (w : W).

(** A counter of the cache: nothing but INCR writes it. *)
Definition counter_key (k : string) : Prop :=
  (∀ p m, k ≠ generateCacheKey p m) ∧ (∀ p m s, s ∈ statistics → k ≠ generateStatsKey (generateCacheKey p m) +:+ s) ∧
  (∀ u t, k ≠ getMonthKey u t) ∧ (∀ s, k ≠ getSessionKey s) ∧ ∀ u t, k ≠ getRpmKey u t.
Lemma total_hits_counter : counter_key "llm:cache:total-hits".
Proof. by split_and!. Qed.
Lemma hits_counter p m : counter_key (hits_key (generateCacheKey p m)).
Proof.
  split_and!; try done.
  - intros p' m' Heq. symmetry in Heq. revert Heq. apply cache_ending; (reflexivity || (cbn; lia)).
  - intros p' m' s Hs. by apply hits_statistics.
Qed.

Lemma countable_response k q : counter_key k → keeps (λ w, countable (held k w)) (respond q) anything.
Proof.
  intros (Hcache & Hstats & Hmonth & Hsession & Hrpm). destruct q as [u s p opts]. unfold respond. cbn [lq_userId lq_sessionId lq_prompt lq_options].
  set (m := or_string (lo_model opts) DEFAULT_MODEL).
  assert (∀ k', keeps (λ w, countable (held k w)) (command (cmd_incr k') ;; mret tt) anything) as Hincr.
  { intros k'. eapply keeps_bind; [apply keeps_countable_incr|]. intros ? _. by apply keeps_ret. }
  apply response_keeps; fold m; [|intros _; split|by apply keeps_countable_leaves, leaves_record].
  - intros w w' Hr. assert (leaves k w w') as [_ ->] by by apply leaves_reads. apply countable_seen.
  - unfold llm_get. cbv zeta. apply keeps_try; [|intros e; by apply keeps_ret]. eapply keeps_bind; [apply keeps_countable_leaves; auto with moves|].
    intros [t|] _; [|by apply keeps_ret]. case_bool_decide; [by apply keeps_ret|]. eapply keeps_bind; [|intros ? _; by apply keeps_ret].
    apply keeps_all. repeat (apply Forall_cons_2; [apply Hincr|]). by apply Forall_nil_2.
  - intros t. unfold llm_set. cbv zeta. apply keeps_try; [|intros e; by apply keeps_ret].
    eapply keeps_bind; [apply keeps_countable_leaves, leaves_command, spares_setEx, Hcache|]. intros _ _.
    eapply keeps_bind; [apply keeps_countable_leaves, leaves_date_now|]. intros now _. apply keeps_all.
    do 3 (apply Forall_cons_2; [apply keeps_countable_leaves, leaves_command, spares_setEx, Hstats; by repeat constructor|]).
    apply Forall_cons_2; [apply Hincr|by apply Forall_nil_2].
Qed.

(** A request for a prompt that is in the cache is refused or answered with what is there. *)
Lemma cached_response u s p opts D text w r w' : let K := generateCacheKey p (or_string (lo_model opts) DEFAULT_MODEL) in
  generateResponse u s p opts w = (Return r, w') → text ≠ EmptyString → default true (lo_useCache opts) = true →
  cached_until K text D w → server_at (tick w') < D →
  countable (held (hits_key K) w) → countable (held "llm:cache:total-hits" w) →
  lr_content r = text ∧ lr_cached r = true ∧ ∀ k, k ≠ hits_key K → k ≠ "llm:cache:total-hits" → leaves k w w'.
Proof.
  intros K Hrun Htext Huse Hc Hspan Hhits Htotal. set (m := or_string (lo_model opts) DEFAULT_MODEL) in K.
  pose proof (reads_enforce u s no_config w) as Hreads.
  destruct (response_cases _ _ _ _ _ _ _ Hrun) as [(e & [=] & _)|(qs & wa & co & wb & Hq & Hg & Hrest)]. fold m in Hg, Hrest.
  rewrite Hq in Hreads. cbn [snd] in Hreads. rewrite Huse in Hg, Hrest.
  assert (∀ k, leaves k w wa) as Hla by (intros k; by apply leaves_reads).
  assert (tick wb ≤ tick w')%nat as Hbw.
  { destruct Hrest as [(_ & _ & ->)|(_ & t & wc & wd & Hcall & Hset & Hrec & _)]; [done|].
    pose proof (reads_call p wb) as [Ht1 _]. pose proof (goes_on_set p t m (lo_cacheTtl opts) wc) as Ht2. rewrite Hcall in Ht1. rewrite Hset in Ht2.
    assert (moves goes_on (if default true (lo_recordQuota opts) then recordRequest u s None else mret tt)) as Ht3
      by (destruct (default true (lo_recordQuota opts)); [apply goes_on_record|intros ?; by unfold goes_on]).
    specialize (Ht3 wd). rewrite Hrec in Ht3. unfold goes_on in *. cbn [snd] in *. lia. }
  pose proof (goes_on_get p m wa) as Hab. rewrite Hg in Hab. unfold goes_on in Hab. cbn [snd] in Hab.
  assert (server_at (tick wa) <= server_at (tick w')) by (apply server_mono; lia).
  destruct (cached_later _ _ _ _ _ (Hla K) Hc ltac:(lia)) as (d & _ & Hheld).
  destruct (llm_get_run p m wa text (Some d) Hheld Htext) as (wb' & Hg' & Hkeep).
  { change (countable (held (hits_key K) wa)). destruct (Hla (hits_key K)) as [_ ->]. by apply countable_seen. }
  { destruct (Hla "llm:cache:total-hits") as [_ ->]. by apply countable_seen. }
  rewrite Hg in Hg'. injection Hg' as -> <-.
  assert (or_string (Some text) EmptyString = text) as Hor by (unfold or_string; by rewrite bool_decide_eq_false_2).
  rewrite Hor in Hrest. destruct Hrest as [(_ & [= ->] & ->)|(Hno & _)]; [|done]. split; [done|]. split; [done|].
  intros k Hk1 Hk2. etrans; [apply Hla|]. split; [lia|by apply Hkeep].
Qed.

Lemma cached_kept p m text D q w : let K := generateCacheKey p m in
  text ≠ EmptyString → cached_until K text D w → countable (held (hits_key K) w) → countable (held "llm:cache:total-hits" w) →
  cached_until K text D (respond q w).2.
Proof.
  intros K Htext Hc Hhits Htotal. destruct q as [u s p' opts]. unfold respond. cbn [lq_userId lq_sessionId lq_prompt lq_options].
  set (K' := generateCacheKey p' (or_string (lo_model opts) DEFAULT_MODEL)).
  destruct (decide (K' = K ∧ default true (lo_useCache opts) = true)) as [[HK Huse]|Hother].
  - destruct (generateResponse u s p' opts w) as [[r|e] w'] eqn:Hrun; cbn [snd].
    + intros Hd. apply (cached_later K text D w); [|done|done]. eapply cached_response; [exact Hrun|exact Htext|exact Huse|..|apply cache_hits];
        fold K'; rewrite ?HK; [exact Hc|exact Hd|exact Hhits|exact Htotal|]. apply stats_other.
    + destruct (response_cases _ _ _ _ _ _ _ Hrun) as [(_ & _ & Hr)|(? & ? & ? & ? & _ & _ & [(_ & [=] & _)|(_ & ? & ? & ? & _ & _ & _ & [=])])].
      eapply cached_later; [by apply leaves_reads|done].
  - assert (∀ A (e : eff W A), moves (leaves K) e → keeps (cached_until K text D) e anything) as Hkl.
    { intros A e He. apply (keeps_moves _ (leaves K)); [done|]. intros w1 w2. apply cached_later. }
    apply response_keeps; [| | |exact Hc].
    + intros w1 w2 Hr. by apply cached_later, leaves_reads.
    + intros Huse. assert (K ≠ K') as Hne by (intros <-; by apply Hother). split; [|intros t]; apply Hkl.
      * apply leaves_llm_get; [by apply cache_ending; (reflexivity || (cbn; lia))|apply cache_hits].
      * apply leaves_llm_set; [exact Hne|intros ? Hs; by apply cache_statistics|apply cache_total].
    + apply Hkl, leaves_record; [intros t; apply cache_month|apply cache_session|intros t; apply cache_rpm].
Qed.
(** What requests that follow each other keep of an answer that is in the cache. *)
Lemma cached_through p m text D qs w : let K := generateCacheKey p m in let w' := (respond_all qs w).2 in
  text ≠ EmptyString → cached_until K text D w → countable (held (hits_key K) w) → countable (held "llm:cache:total-hits" w) →
  cached_until K text D w' ∧ countable (held (hits_key K) w') ∧ countable (held "llm:cache:total-hits" w').
Proof.
  intros K w' Htext Hc Hhits Htotal.
  apply (respond_all_keeps (λ w, cached_until K text D w ∧ countable (held (hits_key K) w) ∧ countable (held "llm:cache:total-hits" w)));
    [|done]. intros q w1 (Hc1 & Hh1 & Ht1). split; [|done]. split; [by apply cached_kept|].
  split; [by apply (countable_response _ q (hits_counter p m))|by apply (countable_response _ q total_hits_counter)].
Qed.
End Again.

(** C16: a prompt that is asked again.  While Redis answers, an answer that was not taken from the cache
    is the answer to the same prompt, but for case and blanks at its ends, of every user and session
    that the quotas let through, for the time to live of the entry, a day unless it is given, when
    nothing but requests to the model, as many as there may be, has run in between, one after the
    other.  The answer comes from the cache, and such a request is not recorded in any quota: no key
    but two statistics of the cache is written.  Those two are absent or numbers at the beginning. *)
Theorem repeated_prompt `{!Redis DB, !RedisLaws DB, !HasRedis DB W, !Ticking W, !RedisServer, !RedisLens DB W}
    `{!RedisUp, !MonotoneServer, !Clock, !Crypto, !Sha256Hex, !Random, !RandomRange} q qs q' r r' os (w w1 w2 w3 : W) :
  let model q := or_string (lo_model (lq_options q)) DEFAULT_MODEL in
  let K := generateCacheKey (lq_prompt q) (model q) in
  respond q w = (Return r, w1) → lr_cached r = false →
  respond_all qs w1 = (os, w2) →
  respond q' w2 = (Return r', w3) →
  default true (lo_useCache (lq_options q)) = true → default true (lo_useCache (lq_options q')) = true →
  toLowerCase (trim (lq_prompt q')) = toLowerCase (trim (lq_prompt q)) → model q' = model q →
  0 < or_number (lo_cacheTtl (lq_options q)) DEFAULT_TTL →
  server_at (tick w3) < server_at (tick w) + or_number (lo_cacheTtl (lq_options q)) DEFAULT_TTL * 1000 →
  countable (held (hits_key K) w) → countable (held "llm:cache:total-hits" w) →
  lr_content r' = lr_content r ∧ lr_cached r' = true ∧
  ∀ k, k ≠ hits_key K → k ≠ "llm:cache:total-hits" → held k w3 = seen_at (server_at (tick w3)) (held k w2).
Proof.
  intros model K Hrun Hfresh Hbetween Hrun' Huse Huse' Hp Hm Httl Hspan Hhits Htotal.
  destruct (fresh_answer _ _ _ _ _ _ _ Hrun Hfresh Huse Httl) as [Htext Hc].
  pose proof (countable_response _ q (hits_counter (lq_prompt q) (model q)) w Hhits) as [Hhits1 _].
  pose proof (countable_response _ q total_hits_counter w Htotal) as [Htotal1 _]. rewrite Hrun in Hhits1, Htotal1.
  pose proof (cached_through _ _ _ _ qs w1 Htext Hc Hhits1 Htotal1) as (Hc2 & Hhits2 & Htotal2). rewrite Hbetween in Hc2, Hhits2, Htotal2.
  assert (generateCacheKey (lq_prompt q') (or_string (lo_model (lq_options q')) DEFAULT_MODEL) = K) as HK
    by (unfold model in Hm; unfold K, generateCacheKey, prompt_hash; cbv zeta; by rewrite Hp, Hm).
  destruct (cached_response _ _ _ _ _ (lr_content r) _ _ _ Hrun' Htext Huse' ltac:(rewrite HK; exact Hc2) Hspan
    ltac:(rewrite HK; exact Hhits2) Htotal2) as (Hr & Hcached & Hkept).
  split; [done|]. split; [done|]. intros k Hk1 Hk2. rewrite HK in Hkept. by apply Hkept.
Qed.

(** An invalidation deletes the answer, but not the statistics: the keys that it adds are not those
    under which the statistics are. *)
Theorem invalidate_leaves_statistics `{!Redis DB, !RedisLaws DB, !HasRedis DB W, !Ticking W, !RedisServer, !RedisLens DB W}
    `{!RedisUp, !MonotoneServer, !Crypto} prompt model (w : W) : model ≠ EmptyString → ∃ w',
  let K := generateCacheKey prompt model in
  invalidate prompt (Some model) w = (Return 1, w') ∧ held K w' = None ∧
  ∀ s, s ≠ EmptyString → held (generateStatsKey K +:+ s) w' = seen_at (server_at (tick w')) (held (generateStatsKey K +:+ s) w).
Proof.
  intros Hm. set (K := generateCacheKey prompt model). set (w1 := (command (cmd_del [K; generateStatsKey K]) w).2).
  assert (∃ n, command (cmd_del [K; generateStatsKey K]) w = (Return n, w1)) as [n Hdel] by (eexists; unfold w1; by rewrite command_up).
  exists w1. cbv zeta. split; [|split].
  - unfold invalidate, try_catch. assert (or_string (Some model) EmptyString = model) as -> by (unfold or_string; by rewrite bool_decide_eq_false_2).
    rewrite bool_decide_eq_false_2, bind_mret by done. fold K. cbn [length]. rewrite bool_decide_eq_false_2 by done.
    cbv zeta. change ([K] ++ (generateStatsKey <$> [K])) with [K; generateStatsKey K]. by rewrite (bind_run _ _ _ _ _ Hdel).
  - unfold w1. erewrite (held_run _ _ _ _ _ (redis_up _) eq_refl). apply live_del. left.
  - intros s Hs. unfold w1. rewrite held_spared.
    + by rewrite tick_command.
    + apply spares_del. intros [Heq|Heq%list_elem_of_singleton]%elem_of_cons.
      * by apply (stats_other K s).
      * by apply (app_longer (generateStatsKey K) s).
Qed.
