(* ===== verification/VoiceProcessing.v ===== *)
(** The integration of sessions, quotas and the language model that
    [voice/services/voice-processing.service.example.ts] proposes: [VoiceProcessingService] and the
    gateway on top of it. *)
From S2P Require Import Prelude Json JsonParse Redis CacheFacts VoiceTypes VoiceSessions VoiceQuota VoiceQuotaFacts LlmCache LlmFacts.
From Stdlib Require Import QArith.
Open Scope Z_scope.

Record PromptAnswer := mkPromptAnswer {
  pa_response : string; pa_cached : bool; pa_quotaStatus : option QuotaStatus; shouldNotifyQuotaWarning : bool }.

Record QuotaInfo := mkQuotaInfo {
  qi_monthlyUsage : option Z; qi_monthlyLimit : Z; qi_monthlyRemaining : option Z; qi_monthlyPercentage : option Q;
  qi_sessionUsage : option Z; qi_sessionLimit : Z; qi_sessionRemaining : option Z;
  qi_requestsThisMinute : option Z; qi_requestsPerMinuteLimit : Z }.

(** What a message of the gateway is answered with. *)
Inductive GatewayAnswer :=
| QuotaExceeded (error message : string)
| Answered (message : string) (cached : bool) (remaining : option Z) (total : Z) (warning : option string).

Definition QUOTA_APOLOGY : string :=
  "I apologize, but you've reached your usage limit for this month. Please try again next month or contact support for a quota increase.".
Definition TROUBLE_APOLOGY : string := "I'm having trouble processing your request right now. Please try again.".

(** [error.status === 429] *)
Definition too_many_requests (error : exn) : bool := bool_decide (exn_name error = "HttpException 429").

(** [usage / limit > 0.9], which the rounding of the quotient does not change for a positive limit below [10 ^ 14]. *)
Definition above_90_percent (status : QuotaStatus) : bool :=
  match qs_monthlyUsage status with
  | Some usage => bool_decide (9 * qs_monthlyLimit status < 10 * usage)
  | None => false
  end.

Definition commonPrompts : list WarmEntry :=
  [mkWarmEntry "What is blockchain?"
     "Blockchain is a distributed ledger technology that records transactions in a chain of blocks secured by cryptography."
     "gpt-3.5-turbo" (Some 86400);
   mkWarmEntry "How do I reset my wallet?"
     "To reset your wallet, go to Settings > Wallet > Reset. Make sure to back up your seed phrase first."
     "gpt-3.5-turbo" (Some 86400);
   mkWarmEntry "What is a smart contract?"
     "A smart contract is a self-executing contract with terms written in code on a blockchain, automatically executing when conditions are met."
     "gpt-3.5-turbo" (Some 86400);
   mkWarmEntry "Help"
     "Hello! I'm here to help. You can ask me questions about blockchain, wallets, transactions, and more. What would you like to know?"
     "gpt-3.5-turbo" (Some 86400)].

Section VoiceProcessing.
Context {DB W : Type} `{!Redis DB, !HasRedis DB W, !Ticking W, !RedisServer, !Clock, !Crypto, !Random}.

Definition prompt_options : LlmResponseOptions := mkLlmResponseOptions (Some "gpt-3.5-turbo") (Some true) (Some true) None.

(** The [catch] block of [processUserPrompt]. *)
Definition prompt_failed (userId sessionId : string) (error : exn) : eff W PromptAnswer :=
  quotaStatus ← quota_getQuotaStatus userId sessionId None no_config;
  mret (mkPromptAnswer (if too_many_requests error then QUOTA_APOLOGY else TROUBLE_APOLOGY) false (Some quotaStatus) false).

Definition processUserPrompt (userId sessionId userMessage : string) : eff W PromptAnswer :=
  try_catch
    (session ← getSession sessionId;
     match session with
     | Some session =>
         if bool_decide (vs_userId session = userId) then
           llmResponse ← generateResponse userId sessionId userMessage prompt_options;
           let quotaStatus := lr_quotaStatus llmResponse in
           let shouldWarnQuota := from_option above_90_percent false quotaStatus in
           mret (mkPromptAnswer (lr_content llmResponse) (lr_cached llmResponse) quotaStatus shouldWarnQuota)
         else throw (Error "Invalid session")
     | None => throw (Error "Invalid session")
     end)
    (prompt_failed userId sessionId).

Definition processUserPromptWithFallback (userId sessionId userMessage : string) : eff W string :=
  response ← generateResponseWithFallback userId sessionId userMessage no_options;
  mret (lr_content response).

Definition getUserQuotaInfo (userId sessionId : string) : eff W QuotaInfo :=
  status ← quota_getQuotaStatus userId sessionId None no_config;
  mret {| qi_monthlyUsage := qs_monthlyUsage status; qi_monthlyLimit := qs_monthlyLimit status;
          qi_monthlyRemaining := (λ u, qs_monthlyLimit status - u) <$> qs_monthlyUsage status;
          qi_monthlyPercentage := (λ u, (100 * u # Z.to_pos (qs_monthlyLimit status))%Q) <$> qs_monthlyUsage status;
          qi_sessionUsage := qs_sessionUsage status; qi_sessionLimit := qs_sessionLimit status;
          qi_sessionRemaining := (λ u, qs_sessionLimit status - u) <$> qs_sessionUsage status;
          qi_requestsThisMinute := qs_requestsThisMinute status;
          qi_requestsPerMinuteLimit := qs_requestsPerMinuteLimit status |}.

Definition canUserMakeRequest (userId sessionId : string) : eff W bool :=
  try_catch (enforceQuota userId sessionId no_config ;; mret true)
    (λ error, if too_many_requests error then mret false else throw error).

Definition terminateUserSession (sessionId : string) : eff W unit :=
  session ← getSession sessionId;
  match session with
  | Some _ => resetSessionQuota sessionId ;; terminateSession sessionId ;; mret tt
  | None => mret tt
  end.

Definition initializeCacheWithCommonPrompts : eff W unit :=
  try_catch (llm_warmCache commonPrompts ;; mret tt) (λ _, mret tt).

Definition getCacheMetrics : eff W CacheStats := getCacheStats.
Definition onLlmModelUpdate (newModel : string) : eff W unit := invalidateAllCache ;; mret tt.

Definition grantQuotaException (userId : string) (additionalRequests : Z) : eff W unit :=
  current ← getUserMonthlyQuota userId;
  setUserMonthlyQuota userId ((λ c, c + additionalRequests) <$> current).

Definition performCacheMaintenance : eff W unit :=
  try_catch (pruneOldEntries (48 * 3600) ;; getCacheStats ;; mret tt) (λ _, mret tt).

(** [VoiceGatewayIntegration]; a status that is missing cannot be read. *)
Definition handleVoiceMessage (userId sessionId userMessage : string) : eff W GatewayAnswer :=
  canRequest ← canUserMakeRequest userId sessionId;
  if negb canRequest then mret (QuotaExceeded "Quota exceeded" "You have reached your monthly usage limit.") else
  result ← processUserPrompt userId sessionId userMessage;
  match pa_quotaStatus result with
  | None => throw (TypeError "Cannot read properties of undefined (reading 'monthlyLimit')")
  | Some status =>
      mret (Answered (pa_response result) (pa_cached result)
              ((λ u, qs_monthlyLimit status - u) <$> qs_monthlyUsage status) (qs_monthlyLimit status)
              (if shouldNotifyQuotaWarning result then Some "You are approaching your monthly quota limit" else None))
  end.
Definition handleSessionEnd (sessionId : string) : eff W unit := terminateUserSession sessionId.
Definition getQuotaInfo (userId sessionId : string) : eff W QuotaInfo := getUserQuotaInfo userId sessionId.
End VoiceProcessing.

(** * The month ends after now *)

Lemma year_end doe : (0 ≤ doe < 146097 → doe < 365 * (yoe_of doe + 1) + (yoe_of doe + 1) / 4 - (yoe_of doe + 1) / 100 + (yoe_of doe + 1) / 400)%Z.
Proof. unfold yoe_of. intros. Z.to_euclidean_division_equations. lia. Qed.

Definition first_of_next (y m : Z) : Z :=
  if bool_decide (m = 12) then days_from_civil (y + 1) 1 1 else days_from_civil y (m + 1) 1.

Lemma next_month_after days y m d : civil_from_days days = (y, m, d) → days < first_of_next y m.
Proof.
  destruct (civil_from_days_spec days) as (era & doe & mp & Hz & Hdoe & Hmp & Hmpd & ->). cbv zeta.
  pose proof (yoe_range _ Hdoe) as Hyoe. pose proof (doy_range _ Hdoe) as Hdoy. pose proof (year_end _ Hdoe) as Hend.
  assert (doe = 365 * yoe_of doe + yoe_of doe / 4 - yoe_of doe / 100 + doy_of doe) as Hd by (unfold doy_of; lia).
  set (yoe := yoe_of doe) in *. set (doy := doy_of doe) in *.
  intros [= <- <- <-]. unfold first_of_next, days_from_civil.
  assert (∀ k, 0 ≤ k < 400 → (k + era * 400) / 400 = era) as Hera
    by (intros k Hk; rewrite Z.div_add, Z.div_small by lia; lia).
  assert (5 * doy + 2 < 153 * (mp + 1)) as Hm by (clear -Hmpd; subst mp; Z.to_euclidean_division_equations; lia).
  assert (∀ k, 153 * k <= 5 * ((153 * k + 2) / 5) + 2) as Hdays by (intros k; Z.to_euclidean_division_equations; lia).
  repeat case_bool_decide; try lia.
  - replace (yoe + era * 400 + 0 + 1 - 1) with (yoe + era * 400) by lia. rewrite Hera by lia.
    pose proof (Hdays (1 + 9)). replace (yoe + era * 400 - era * 400) with yoe by lia. lia.
  - replace (yoe + era * 400 + 0) with (yoe + era * 400) by lia. rewrite Hera by lia.
    pose proof (Hdays (mp + 3 + 1 - 3)). replace (yoe + era * 400 - era * 400) with yoe by lia. lia.
  - replace (yoe + era * 400 + 1 - 1) with (yoe + era * 400) by lia. rewrite Hera by lia.
    pose proof (Hdays (mp - 9 + 1 + 9)). replace (yoe + era * 400 - era * 400) with yoe by lia. lia.
  - assert (mp = 11) as -> by lia. destruct (decide (yoe = 399)) as [->|Hne].
    + replace (399 + era * 400 + 1) with (0 + (era + 1) * 400) by lia. rewrite Z.div_add, (Z.div_small 0) by lia.
      replace (0 + (era + 1) * 400 - (0 + (era + 1)) * 400) with 0 by lia.
      change ((153 * (11 - 9 + 1 - 3) + 2) / 5) with 0. change (0 / 4) with 0. change (0 / 100) with 0.
      change ((399 + 1) / 4) with 100 in Hend. change ((399 + 1) / 100) with 4 in Hend. change ((399 + 1) / 400) with 1 in Hend. lia.
    + replace (yoe + era * 400 + 1) with ((yoe + 1) + era * 400) by lia. rewrite Hera by lia.
      replace (yoe + 1 + era * 400 - era * 400) with (yoe + 1) by lia.
      rewrite (Z.div_small (yoe + 1) 400) in Hend by lia.
      change ((153 * (11 - 9 + 1 - 3) + 2) / 5) with 0. lia.
Qed.

Lemma month_expiry_positive now : 0 < getMonthExpiry now.
Proof.
  unfold getMonthExpiry, nextMonth. destruct (civil_from_days (now / ms_per_day)) as [[y m] d] eqn:Hc.
  pose proof (next_month_after _ _ _ _ Hc) as Hn. unfold first_of_next in Hn.
  set (n := if bool_decide (m = 12) then _ else _) in *. apply Z.div_str_pos. unfold ms_per_day in *.
  clear -Hn. Z.to_euclidean_division_equations. lia.
Qed.

Section Facts.
Context {DB W : Type} `{!Redis DB, !RedisLaws DB, !HasRedis DB W, !Ticking W, !RedisServer, !RedisLens DB W}.
Context `{!MonotoneServer, !Clock, !Crypto, !Random}.
Implicit Types (w : W).

#[local] Hint Resolve reads_preorder reads_get reads_date_now : moves.

Lemma reads_getSession s : moves reads (getSession s).
Proof.
  unfold getSession. intros w. unfold try_catch. pose proof (reads_get (SESSION_PREFIX +:+ s) w) as Hr.
  unfold mbind, eff_bind. destruct (command (cmd_get (SESSION_PREFIX +:+ s)) w) as [[[text|]|e] w1]; cbn [fst snd] in *; [|done..].
  case_bool_decide; [done|]. unfold of_outcome. by destruct (parse_session text) as [?|?].
Qed.

(** A message for a session that is not the user's, or not there, writes nothing; when the status can
    be read the answer is an apology. *)
Theorem foreign_session_refused userId sessionId userMessage w :
  (∀ session, (getSession sessionId w).1 = Return (Some session) → vs_userId session ≠ userId) →
  let '(o, w') := processUserPrompt userId sessionId userMessage w in
  redis w' = redis w ∧
  ∀ answer, o = Return answer → pa_response answer = TROUBLE_APOLOGY ∧ pa_cached answer = false ∧ shouldNotifyQuotaWarning answer = false.
Proof.
  intros Hforeign.
  assert (processUserPrompt userId sessionId userMessage w =
    prompt_failed userId sessionId (Error "Invalid session") (getSession sessionId w).2) as ->.
  { unfold processUserPrompt, try_catch, mbind, eff_bind. pose proof Hforeign as Hf.
    destruct (getSession sessionId w) as [[[session|]|e] w1] eqn:Hs; [|done|].
    - rewrite bool_decide_eq_false_2 by (by apply Hf). done.
    - exfalso. unfold getSession, try_catch in Hs. match type of Hs with (let (_, _) := ?m in _) = _ => by destruct m as [[?|?] ?] end. }
  pose proof (reads_getSession sessionId w) as [_ Hr]. set (w1 := (getSession sessionId w).2) in *.
  unfold prompt_failed. pose proof (reads_status userId sessionId None no_config w1) as [_ Hr2].
  unfold mbind, eff_bind. destruct (quota_getQuotaStatus userId sessionId None no_config w1) as [[st|e] w2]; cbn [snd] in *.
  - split; [congruence|]. by intros answer [= <-].
  - split; [congruence|done].
Qed.

Context `{!RedisUp}.

(** An exception that is granted raises the limit of the user by what was granted, until the end of
    the month at the time of the grant. *)
Theorem grant_adds userId n w c w0 :
  getUserMonthlyQuota userId w = (Return (Some c), w0) →
  returned (command (cmd_get (getMonthKey userId (clock_at (tick w0)))) (advance w0)).1 = true →
  ∃ w', grantQuotaException userId n w = (Return tt, w') ∧
    ∀ w2, leaves (limitKey userId) w' w2 →
      server_at (S (tick w2)) < server_at (tick w) + getMonthExpiry (clock_at (tick w0)) * 1000 →
      (getUserMonthlyQuota userId w2).1 = Return (Some (c + n)).
Proof.
  intros Hget Hread. assert (tick w ≤ tick w0)%nat as Htw.
  { assert (moves reads (getUserMonthlyQuota userId)) as Hm.
    { unfold getUserMonthlyQuota. moves_tac. }
    specialize (Hm w). rewrite Hget in Hm. apply Hm. }
  unfold grantQuotaException. rewrite (bind_run _ _ w (Some c) w0) by done. cbn [fmap option_fmap option_map js_number default].
  set (now := clock_at (tick w0)). set (w1 := (command (cmd_get (getMonthKey userId now)) (advance w0)).2).
  destruct (run_setEx (limitKey userId) w1 (getMonthExpiry now) (pretty (c + n)) (month_expiry_positive now))
    as (w' & Hset & Ht & Hh & _).
  exists w'. split.
  - unfold setUserMonthlyQuota, try_catch. rewrite (bind_run _ _ w0 now (advance w0)) by done.
    destruct (command (cmd_get (getMonthKey userId now)) (advance w0)) as [[o|e] w1'] eqn:Ho;
      [|fold now in Hread; by rewrite Ho in Hread].
    rewrite (bind_run _ _ _ o w1) by (unfold w1; by rewrite Ho).
    change (js_number (Some (c + n))) with (pretty (c + n)). by rewrite Hset.
  - intros w2 Hleaves Hlater. apply cached_setEx in Hh; [|apply month_expiry_positive].
    assert (tick w1 = S (S (tick w0))) as Ht1 by (unfold w1; rewrite tick_command, tick_advance; done).
    apply (cached_later _ _ _ _ _ Hleaves) in Hh. apply (cached_later _ _ _ _ (advance w2)) in Hh; [|apply leaves_advance].
    assert (server_at (tick w) <= server_at (tick w1)) by (apply server_mono; lia).
    rewrite <-tick_advance in Hlater. destruct (Hh ltac:(lia)) as (d' & _ & Hheld).
    unfold getUserMonthlyQuota, try_catch. rewrite (bind_run _ _ w2 (clock_at (tick w2)) (advance w2)) by done.
    unfold mbind at 1, eff_bind at 1. rewrite command_up. unfold cmd_get. unfold held in Hheld. rewrite Hheld.
    assert (or_string (Some (pretty (c + n))) EmptyString = pretty (c + n)) as Hor
      by (unfold or_string; by rewrite bool_decide_eq_false_2 by apply pretty_Z_nonempty).
    rewrite Hor, bool_decide_eq_false_2 by apply pretty_Z_nonempty. cbn. by rewrite parseInt_pretty.
Qed.
End Facts.
