(* ===== verification/Streaming.v ===== *)
(** [StreamingResponseService] ([voice/services/streaming-response.service.ts]): the answer of the model
    sent to a client word by word, as tasks that other tasks may interrupt at every await. *)
From S2P Require Import Prelude Async Json JsonParse Redis VoiceTypes VoiceSessions VoiceTasks VoiceQuota LlmCache.
Open Scope Z_scope.

Record StreamingChunk := mkStreamingChunk { sc_id : string; sc_content : string; sc_isComplete : bool; sc_isPartial : bool }.
Record StreamingResponse := mkStreamingResponse {
  sr_id : string; sr_sessionId : string; sr_chunks : list StreamingChunk; sr_startTime : Z; sr_endTime : option Z; sr_isInterrupted : bool }.
Definition set_sr_chunks (v : list StreamingChunk) (r : StreamingResponse) : StreamingResponse :=
  mkStreamingResponse (sr_id r) (sr_sessionId r) v (sr_startTime r) (sr_endTime r) (sr_isInterrupted r).
Definition set_sr_endTime (v : option Z) (r : StreamingResponse) : StreamingResponse :=
  mkStreamingResponse (sr_id r) (sr_sessionId r) (sr_chunks r) (sr_startTime r) v (sr_isInterrupted r).
Definition set_sr_isInterrupted (v : bool) (r : StreamingResponse) : StreamingResponse :=
  mkStreamingResponse (sr_id r) (sr_sessionId r) (sr_chunks r) (sr_startTime r) (sr_endTime r) v.

(** What is sent to a room, and what happens between the server and one client. *)
Inductive VoiceEvent :=
| Thinking (sessionId streamId : string)
| Responding (sessionId streamId : string)
| Chunk (sessionId streamId : string) (chunk : StreamingChunk)
| Interrupted (sessionId streamId : string)
| Complete (sessionId streamId response : string).
Inductive ClientEvent :=
| Failed (code : option string) (message : string)
| Resumed (sessionId : string) (state : ConversationState.t)
| SessionCreated (session : VoiceSession)
| InterruptAcknowledged (sessionId : string) (streamId : option string)
| StateUpdated (sessionId : string) (state : ConversationState.t)
| Terminated (sessionId : string)
| Pong (timestamp : Z)
| Joined (room : string)
| Left (room : string)
| Disconnected.
Inductive Sent := ToRoom (room : string) (e : VoiceEvent) | ToClient (client : string) (e : ClientEvent).

(** A response that [setTimeout] is to generate. *)
Record Timer := mkTimer { ti_sessionId : string; ti_streamId : string; ti_userMessage : string }.

Record VoiceWorld (DB : Type) := mkVoiceWorld {
  vw_redis : DB;
  vw_ticks : nat;
  activeStreams : list (string * StreamingResponse);
  vw_timers : list Timer;
  sent : list Sent;
}.
Arguments mkVoiceWorld {_} _ _ _ _ _.
Arguments vw_redis {_} _.
Arguments vw_ticks {_} _.
Arguments activeStreams {_} _.
Arguments vw_timers {_} _.
Arguments sent {_} _.

#[export] Instance VoiceWorld_redis DB : HasRedis DB (VoiceWorld DB) := {|
  redis := vw_redis; set_redis s w := mkVoiceWorld s (vw_ticks w) (activeStreams w) (vw_timers w) (sent w) |}.
#[export] Instance VoiceWorld_ticking DB : Ticking (VoiceWorld DB) := {|
  tick := vw_ticks; advance w := mkVoiceWorld (vw_redis w) (S (vw_ticks w)) (activeStreams w) (vw_timers w) (sent w) |}.
#[export] Instance VoiceWorld_lens DB : RedisLens DB (VoiceWorld DB).
Proof. by split. Qed.

Definition set_activeStreams {DB} (v : list (string * StreamingResponse)) (w : VoiceWorld DB) : VoiceWorld DB :=
  mkVoiceWorld (vw_redis w) (vw_ticks w) v (vw_timers w) (sent w).
Definition set_voice_timers {DB} (v : list Timer) (w : VoiceWorld DB) : VoiceWorld DB :=
  mkVoiceWorld (vw_redis w) (vw_ticks w) (activeStreams w) v (sent w).
Definition add_sent {DB} (e : Sent) (w : VoiceWorld DB) : VoiceWorld DB :=
  mkVoiceWorld (vw_redis w) (vw_ticks w) (activeStreams w) (vw_timers w) (sent w ++ [e]).

Section Streaming.
Context {DB : Type} `{!Redis DB, !RedisServer, !Clock, !Crypto, !Random}.
Local Abbreviation W := (VoiceWorld DB).

(** [server.to(session.socketId || sessionId).emit(...)] *)
Definition emit_to (session : VoiceSession) (sessionId : string) (e : VoiceEvent) : eff W unit :=
  modify (add_sent (ToRoom (or_string (vs_socketId session) sessionId) e)).
Definition stream (streamId : string) : eff W (option StreamingResponse) := gets (λ w, assoc streamId (activeStreams w)).
Definition put_stream (r : StreamingResponse) (streamId : string) : eff W unit :=
  modify (λ w, set_activeStreams (assoc_set streamId r (activeStreams w)) w).
Definition delete_stream (streamId : string) : eff W unit :=
  modify (λ w, set_activeStreams (filter (λ kr, kr.1 ≠ streamId) (activeStreams w)) w).

(** ** Starting *)

Definition begin_stream (session : VoiceSession) (sessionId streamId userMessage : string) : eff W string :=
  startTime ← date_now;
  put_stream (mkStreamingResponse streamId sessionId [] startTime None false) streamId ;;
  emit_to session sessionId (Thinking sessionId streamId) ;;
  modify (λ w, set_voice_timers (vw_timers w ++ [mkTimer sessionId streamId userMessage]) w) ;;
  mret streamId.

Definition startStreamingResponse (sessionId userMessage : string) : task W string :=
  started ← atomic (streamId ← randomUUID; session ← getSession sessionId; mret (streamId, session));
  match snd started with
  | None => Done (Throw (Error ("Session " +:+ sessionId +:+ " not found")))
  | Some session =>
      addMessage_task sessionId userMessage true None ≫= λ _,
      updateSessionState_task sessionId ConversationState.THINKING ≫= λ _,
      atomic (begin_stream session sessionId (fst started) userMessage)
  end.

(** ** Generating *)

Definition words_of (fullResponse : string) : list string := split_on (Ascii.ascii_of_nat 32) fullResponse.

(** One round of the loop: a chunk, unless the stream was interrupted. *)
Definition send_chunk (session : VoiceSession) (sessionId streamId currentText : string) (last : bool) : eff W bool :=
  streamingResponseCheck ← stream streamId;
  match streamingResponseCheck with
  | None => mret false
  | Some r =>
      if sr_isInterrupted r then mret false else
      id ← randomUUID;
      let chunk := mkStreamingChunk id currentText last (negb last) in
      put_stream (set_sr_chunks (sr_chunks r ++ [chunk]) r) streamId ;;
      emit_to session sessionId (Chunk sessionId streamId chunk) ;;
      mret true
  end.

Fixpoint send_words (session : VoiceSession) (sessionId streamId currentText : string) (first : bool) (words : list string) : task W bool :=
  match words with
  | [] => mret true
  | word :: words =>
      let currentText := currentText +:+ (if first then EmptyString else " ") +:+ word in
      let last := bool_decide (words = []) in
      going ← atomic (going ← send_chunk session sessionId streamId currentText last; (if last then mret tt else delay 100) ;; mret going);
      if (going : bool) then send_words session sessionId streamId currentText false words else mret false
  end.

Definition end_stream (streamId : string) (r : StreamingResponse) : eff W unit :=
  endTime ← date_now; put_stream (set_sr_endTime (Some endTime) r) streamId.

Definition completeStreamingResponse (sessionId streamId fullResponse : string) : task W unit :=
  session ← atomic (session ← getSession sessionId; r ← stream streamId;
                    match session, r with
                    | Some session, Some r => end_stream streamId r ;; mret (Some session)
                    | _, _ => mret None
                    end);
  match session with
  | None => mret tt
  | Some session =>
      addMessage_task sessionId fullResponse false None ≫= λ _,
      atomic (emit_to session sessionId (Complete sessionId streamId fullResponse)) ≫= λ _,
      updateSessionState_task sessionId ConversationState.LISTENING ≫= λ _,
      atomic (delete_stream streamId)
  end.

(** The call of the model is one piece: it shares with other requests only counters and the cache. *)
Definition generateStreamingResponse (sessionId streamId userMessage : string) : task W unit :=
  found ← atomic (session ← getSession sessionId; r ← stream streamId; mret (session, r));
  match found : option VoiceSession * option StreamingResponse with
  | (Some session, Some r) =>
      if sr_isInterrupted r then mret tt else
      updateSessionState_task sessionId ConversationState.RESPONDING ≫= λ _,
      response ← atomic (response ← generateResponse (or_string (Some (vs_userId session)) "anonymous") sessionId userMessage no_options;
                         emit_to session sessionId (Responding sessionId streamId) ;; mret response);
      let fullResponse := lr_content response in
      let words := words_of fullResponse in
      finished ← send_words session sessionId streamId EmptyString true words;
      if (finished : bool) then completeStreamingResponse sessionId streamId fullResponse else mret tt
  | _ => mret tt
  end.

(** ** Interrupting *)

(** [entries()] of a stream with an id, or of all streams of a session. *)
Definition interrupted_ids (sessionId : string) (streamId : option string) : eff W (list (string * StreamingResponse)) :=
  if bool_decide (or_string streamId EmptyString = EmptyString) then
    gets (λ w, filter (λ kr, sr_sessionId kr.2 = sessionId) (activeStreams w))
  else gets (λ w, filter (λ kr, kr.1 = or_string streamId EmptyString) (activeStreams w)).

Fixpoint interrupt_all (session : VoiceSession) (sessionId : string) (l : list (string * StreamingResponse)) : eff W unit :=
  match l with
  | [] => mret tt
  | (id, r) :: l =>
      endTime ← date_now;
      put_stream (set_sr_endTime (Some endTime) (set_sr_isInterrupted true r)) id ;;
      emit_to session sessionId (Interrupted sessionId id) ;;
      interrupt_all session sessionId l
  end.

Definition cut_streams (session : VoiceSession) (sessionId : string) (streamId : option string) : eff W unit :=
  l ← interrupted_ids sessionId streamId;
  interrupt_all session sessionId l ;;
  modify (λ w, set_activeStreams (filter (λ kr, kr.1 ∉ (l.*1 : list string)) (activeStreams w)) w).

Definition interruptStream (sessionId : string) (streamId : option string) : task W bool :=
  session ← atomic (session ← getSession sessionId;
                    match session with
                    | Some session => cut_streams session sessionId streamId ;; mret true
                    | None => mret false
                    end);
  if (session : bool) then interruptSession_task sessionId ≫= λ _, mret true else mret false.

Definition getActiveStreamCount (w : W) : nat := length (activeStreams w).
Definition getActiveStreamsForSession (sessionId : string) (w : W) : list StreamingResponse :=
  filter (λ r, sr_sessionId r = sessionId) (snd <$> activeStreams w).
End Streaming.
