(* ===== verification/StreamingFacts.v ===== *)
(** Streams in every interleaving of requests, timers and interruptions: a client gets words of a
    stream only while the stream is open. *)
From S2P Require Import Prelude Async Json JsonParse Redis VoiceTypes VoiceSessions VoiceTasks VoiceStates VoiceQuota LlmCache Streaming.
Open Scope Z_scope.

(** * What a client has been sent *)

(** A stream is open from the message that it thinks until it is interrupted. *)
Definition opens (x : string) (b : bool) (s : Sent) : bool :=
  match s with
  | ToRoom _ (Thinking _ y) => if bool_decide (y = x) then true else b
  | ToRoom _ (Interrupted _ y) => if bool_decide (y = x) then false else b
  | _ => b
  end.
Definition is_open (x : string) (log : list Sent) : bool := foldl (opens x) false log.
Lemma is_open_app x log log' : is_open x (log ++ log') = foldl (opens x) (is_open x log) log'.
Proof. apply foldl_app. Qed.

(** Every chunk belongs to a stream that was open when it was sent. *)
Definition chunks_open (log : list Sent) : Prop :=
  ∀ before room sessionId x chunk after, log = before ++ ToRoom room (Chunk sessionId x chunk) :: after → is_open x before = true.

Lemma chunks_open_snoc log s : chunks_open log →
  (∀ room sessionId x chunk, s = ToRoom room (Chunk sessionId x chunk) → is_open x log = true) → chunks_open (log ++ [s]).
Proof.
  intros Hlog Hs before room sid x chunk after Heq. destruct (decide (after = [])) as [->|Hne].
  - apply app_inj_tail in Heq as [<- ->]. by eapply Hs.
  - destruct (exists_last Hne) as (after' & s' & ->). rewrite app_comm_cons, app_assoc in Heq. apply app_inj_tail in Heq as [-> <-].
    by eapply Hlog.
Qed.

(** * The system *)

Inductive voice_call :=
| StartStream (sessionId userMessage : string)
| InterruptStream (sessionId : string) (streamId : option string)
| OfSession (r : voice_request).

Section System.
Context {DB : Type} `{!Redis DB, !RedisServer, !Clock, !Crypto, !Random}.
Local Abbreviation W := (VoiceWorld DB).
Implicit Types (w : W).

Definition call_task (c : voice_call) : task W unit :=
  match c with
  | StartStream sessionId userMessage => finished (startStreamingResponse sessionId userMessage)
  | InterruptStream sessionId streamId => finished (interruptStream sessionId streamId)
  | OfSession r => voice_task r
  end.

(** A piece of a task runs, a timer starts to generate its response, or a call comes in. *)
Inductive voice_step : relation (list (task W unit) * W) :=
| step_piece p p' : pool_step p p' → voice_step p p'
| step_timer ts w before t after : vw_timers w = before ++ t :: after →
    voice_step (ts, w) (ts ++ [generateStreamingResponse (ti_sessionId t) (ti_streamId t) (ti_userMessage t)], set_voice_timers (before ++ after) w)
| step_call ts w c : voice_step (ts, w) (ts ++ [call_task c], w).

(** ** What the streams have to do with the log *)

Definition streams_ok w : Prop :=
  chunks_open (sent w) ∧ ∀ x, is_Some (assoc x (activeStreams w)) → is_open x (sent w) = true.

(** Effects on anything else. *)
Definition elsewhere w w' : Prop := activeStreams w' = activeStreams w ∧ sent w' = sent w ∧ vw_timers w' = vw_timers w.
#[global] Instance elsewhere_preorder : PreOrder elsewhere.
Proof. split; [by intros w|]. intros w1 w2 w3 (? & ? & ?) (? & ? & ?). split_and!; congruence. Qed.
#[local] Hint Resolve elsewhere_preorder : moves.
Lemma elsewhere_command {A} (c : Z → DB → outcome A * DB) : moves elsewhere (command c).
Proof. intros w. unfold command. destruct (server_fault (tick w)); [done|]. by destruct (c _ _). Qed.
Lemma elsewhere_date_now : moves elsewhere date_now.
Proof. by intros w. Qed.
Lemma elsewhere_randomUUID : moves elsewhere randomUUID.
Proof. by intros w. Qed.
Lemma elsewhere_delay ms : moves elsewhere (delay ms).
Proof. by intros w. Qed.
Lemma elsewhere_random : moves elsewhere random.
Proof. by intros w. Qed.
Lemma elsewhere_or_now now : moves elsewhere (or_now now).
Proof. by destruct now; intros w. Qed.
#[local] Hint Resolve elsewhere_command elsewhere_date_now elsewhere_randomUUID elsewhere_delay elsewhere_random
  elsewhere_or_now : moves.
Lemma elsewhere_getSession id : moves elsewhere (getSession id).
Proof. unfold getSession. moves_tac. Qed.
Lemma elsewhere_saveSession s : moves elsewhere (saveSession s).
Proof. unfold saveSession. moves_tac. Qed.
#[local] Hint Resolve elsewhere_getSession elsewhere_saveSession : moves.
Lemma elsewhere_update_state new s : moves elsewhere (update_state new s).
Proof. unfold update_state. cbv zeta. moves_tac. Qed.
Lemma elsewhere_append_message c u m s : moves elsewhere (append_message c u m s).
Proof. unfold append_message. cbv zeta. moves_tac. Qed.
Lemma elsewhere_set_socket so s : moves elsewhere (set_socket so s).
Proof. unfold set_socket. moves_tac. Qed.
Lemma elsewhere_ping s : moves elsewhere (ping s).
Proof. unfold ping. moves_tac. Qed.
#[local] Hint Resolve elsewhere_update_state elsewhere_append_message elsewhere_set_socket elsewhere_ping : moves.

Lemma elsewhere_all (ms : list (eff W unit)) : Forall (moves elsewhere) ms → moves elsewhere (promise_all ms).
Proof. induction 1 as [|m ms Hm Hms IH]; cbn [promise_all]; moves_tac. Qed.
Lemma elsewhere_enforce u s c : moves elsewhere (enforceQuota u s c).
Proof.
  unfold enforceQuota, checkMonthlyQuota, checkSessionQuota, checkRequestsPerMinute, quota_getQuotaStatus, getQuotaStatus_at.
  cbv zeta. moves_tac.
Qed.
Lemma elsewhere_record u s now : moves elsewhere (recordRequest u s now).
Proof. unfold recordRequest, incrementWithExpiry. moves_tac. Qed.
Lemma elsewhere_llm_get p m : moves elsewhere (llm_get p m).
Proof. unfold llm_get. cbn [promise_all]. cbv zeta. moves_tac. Qed.
Lemma elsewhere_llm_set p t m ttl : moves elsewhere (llm_set p t m ttl).
Proof. unfold llm_set. cbn [promise_all]. cbv zeta. moves_tac. Qed.
Lemma elsewhere_call p : moves elsewhere (callLlmWithFallback p).
Proof. unfold callLlmWithFallback. moves_tac. Qed.
#[local] Hint Resolve elsewhere_enforce elsewhere_record elsewhere_llm_get elsewhere_llm_set elsewhere_call : moves.
Lemma elsewhere_generate u s p o : moves elsewhere (generateResponse u s p o).
Proof. unfold generateResponse. cbv zeta. moves_tac. Qed.
#[local] Hint Resolve elsewhere_generate : moves.

(** * Calm pieces *)

Definition calm {A} (t : task W A) : Prop := within streams_ok (if_returned anything) t.
Lemma calm_atomic {A} (m : eff W A) : moves elsewhere m → calm (atomic m).
Proof.
  intros Hm. apply within_keeps. eapply keeps_weaken; [eapply (keeps_moves _ elsewhere); [exact Hm|]|done].
  intros w w' (Hs & Hl & _) [Hc Ho]. unfold streams_ok. by rewrite Hs, Hl.
Qed.
Lemma calm_keeps {A} (m : eff W A) : keeps streams_ok m anything → calm (atomic m).
Proof. apply within_keeps. Qed.
Lemma calm_bind {A B} (t : task W A) (f : A → task W B) : calm t → (∀ a, calm (f a)) → calm (t ≫= f).
Proof. intros Ht Hf. eapply within_seq; [exact Ht|]. intros a _. apply Hf. Qed.
Lemma calm_try {A} (t : task W A) h : calm t → (∀ e, calm (h e)) → calm (task_try t h).
Proof. apply within_catch. Qed.
Lemma calm_attempt {A} (t : task W A) : calm t → calm (task_attempt t).
Proof. intros Ht. apply calm_try; [|done]. by apply calm_bind. Qed.
Lemma calm_ret {A} (a : A) : calm (mret a).
Proof. done. Qed.
Lemma calm_done {A} (o : outcome A) : calm (Done o).
Proof. by destruct o. Qed.
Lemma calm_finished {A} (t : task W A) : calm t → calm (finished t).
Proof. intros Ht. apply calm_try; [|intros; apply calm_ret]. apply calm_bind; [done|intros; apply calm_ret]. Qed.
Create HintDb calm.
#[local] Hint Resolve calm_ret calm_done calm_finished calm_attempt : calm.
Ltac calm_tac := repeat first
  [ progress auto with calm
  | apply calm_bind; [|intros ?; cbv beta zeta]
  | apply calm_try; [|intros ?; cbv beta zeta]
  | apply calm_atomic; solve [moves_tac]
  | case_match ].

Lemma calm_getSessions ids : calm (getSessions_task ids).
Proof. induction ids; cbn [getSessions_task]; calm_tac. Qed.
Lemma calm_scan fuel c p : calm (scan_keys_task fuel c p).
Proof. revert c. induction fuel as [|fuel IH]; intros c; cbn [scan_keys_task]; calm_tac. Qed.
Lemma calm_change id f : (∀ s, moves elsewhere (f s)) → calm (change_session id f).
Proof. intros Hf. unfold change_session. calm_tac. Qed.
#[local] Hint Resolve calm_getSessions calm_scan : calm.
Lemma calm_updateSessionState id new : calm (updateSessionState_task id new).
Proof. apply calm_change. intros s. auto with moves. Qed.
Lemma calm_addMessage id c u m : calm (addMessage_task id c u m).
Proof. apply calm_change. intros s. auto with moves. Qed.
#[local] Hint Resolve calm_updateSessionState calm_addMessage : calm.
Lemma calm_interruptSession id : calm (interruptSession_task id).
Proof. unfold interruptSession_task. calm_tac. Qed.
Lemma calm_terminateSession id : calm (terminateSession_task id).
Proof. unfold terminateSession_task, removeUserSession, getUserActiveSession, deleteUserActiveSession. calm_tac. Qed.
#[local] Hint Resolve calm_interruptSession calm_terminateSession : calm.
Lemma calm_cleanup_keys due keys n : calm (cleanup_keys_task due keys n).
Proof.
  revert n. induction keys as [|key keys IH]; intros n; cbn [cleanup_keys_task]; [calm_tac|].
  apply calm_bind; [|intros [[]|]; auto with calm]. apply calm_attempt. unfold cleanup_key_task, cleanup_read. calm_tac.
Qed.
#[local] Hint Resolve calm_cleanup_keys : calm.

Lemma calm_voice_task r : calm (voice_task r).
Proof.
  destruct r; cbn [voice_task]; apply calm_finished.
  - unfold createSession_task, getUserActiveSessions_task, create_and_save, voice_create. calm_tac.
  - calm_tac.
  - unfold getUserActiveSessions_task. calm_tac.
  - calm_tac.
  - calm_tac.
  - calm_tac.
  - unfold resumeSession_task. calm_tac.
  - calm_tac.
  - apply calm_change. intros s. auto with moves.
  - apply calm_change. intros s. auto with moves.
  - unfold setUserActiveSession. calm_tac.
  - unfold deleteUserActiveSession. calm_tac.
  - unfold refreshUserSessionTTL, refreshTTL. calm_tac.
  - unfold cleanup_task. calm_tac.
  - unfold cleanup_task. calm_tac.
Qed.

(** * The pieces of a stream *)

Lemma assoc_filter {A} (P : string * A → Prop) `{∀ kr, Decision (P kr)} x l :
  is_Some (assoc x (filter P l)) → (∃ v, P (x, v)) ∧ is_Some (assoc x l).
Proof.
  induction l as [|[k v] l IH]; [by intros [? ?]|]. rewrite filter_cons. case_decide as Hk; cbn [assoc].
  - case_bool_decide as Hx; [subst; intros _; split; by eexists|apply IH].
  - intros Hs. destruct (IH Hs) as [Hp Hl]. split; [done|]. case_bool_decide; [by eexists|done].
Qed.
Lemma assoc_set_some {A} x k (v : A) l : is_Some (assoc x (assoc_set k v l)) → x = k ∨ is_Some (assoc x l).
Proof.
  destruct (decide (x = k)) as [->|Hne]; [by left|]. rewrite assoc_set_ne by done. by right.
Qed.

(** A stream that is there is written again. *)
Lemma ok_put r x w : streams_ok w → is_Some (assoc x (activeStreams w)) → streams_ok (put_stream r x w).2.
Proof. intros [Hc Ho] Hx. split; [exact Hc|]. intros y [->|Hy]%assoc_set_some; by apply Ho. Qed.

(** Something other than a chunk is sent that opens or closes nothing. *)
Lemma ok_sent s w : streams_ok w → (∀ x b, opens x b s = b) →
  (∀ room sid x chunk, s = ToRoom room (Chunk sid x chunk) → is_open x (sent w) = true) → streams_ok (add_sent s w).
Proof.
  intros [Hc Ho] Hs Hchunk. split; [by apply chunks_open_snoc|]. intros x Hx. cbn [sent add_sent].
  rewrite is_open_app. cbn [foldl]. rewrite Hs. by apply Ho.
Qed.

Lemma ok_begin session sid x msg : keeps streams_ok (begin_stream session sid x msg) anything.
Proof.
  intros w [Hc Ho]. split; [|done]. unfold begin_stream, emit_to, put_stream, mbind, eff_bind, date_now. cbn.
  split; cbn [sent set_voice_timers add_sent set_activeStreams activeStreams advance].
  - apply chunks_open_snoc; [exact Hc|]. by intros room sid' y chunk [=].
  - intros y Hy. rewrite is_open_app. cbn [foldl opens]. case_bool_decide as Hxy; [done|].
    apply Ho. apply assoc_set_some in Hy as [->|Hy]; [done|exact Hy].
Qed.

Lemma ok_send_chunk session sid x text last : keeps streams_ok (send_chunk session sid x text last) anything.
Proof.
  intros w Hw. split; [|done]. unfold send_chunk, stream. rewrite bind_gets. destruct (assoc x (activeStreams w)) as [r|] eqn:Hx; [|exact Hw].
  destruct (sr_isInterrupted r); [exact Hw|]. unfold mbind, eff_bind, randomUUID. cbn [snd].
  set (chunk := mkStreamingChunk _ _ _ _). set (r' := set_sr_chunks _ r).
  pose proof (ok_put r' x (advance w) Hw ltac:(change (is_Some (assoc x (activeStreams w))); by rewrite Hx)) as Hput. cbn [put_stream modify snd] in Hput.
  cbn [put_stream modify emit_to mret eff_ret snd]. apply ok_sent; [exact Hput|done|].
  intros room sid' y chunk' [= _ _ <- _]. apply Hw. by rewrite Hx.
Qed.

Lemma calm_send_words session sid x text first words : calm (send_words session sid x text first words).
Proof.
  revert text first. induction words as [|word words IH]; intros text first; cbn [send_words]; [calm_tac|].
  apply calm_bind; [|intros [|]; [apply IH|apply calm_ret]]. apply calm_keeps.
  eapply keeps_bind; [apply ok_send_chunk|]. intros b _. apply (keeps_bind _ _ _ anything).
  - case_match; [by apply keeps_ret|]. by apply keeps_modify.
  - intros _ _. by apply keeps_ret.
Qed.

Lemma ok_delete x : keeps streams_ok (delete_stream x) anything.
Proof.
  intros w [Hc Ho]. split; [|done]. split; [exact Hc|]. intros y Hy. cbn in Hy.
  apply assoc_filter in Hy as [_ Hy]. by apply Ho.
Qed.

Lemma ok_end_stream x r w : streams_ok w → is_Some (assoc x (activeStreams w)) → streams_ok (end_stream x r w).2.
Proof. intros Hw Hx. exact (ok_put (set_sr_endTime (Some (clock_at (tick w))) r) x (advance w : W) Hw Hx). Qed.

(** A piece that reads a session first. *)
Lemma keeps_session id {A} (f : option VoiceSession → eff W A) : (∀ o, keeps streams_ok (f o) anything) →
  keeps streams_ok (getSession id ≫= f) anything.
Proof.
  intros Hf. apply (keeps_bind _ _ _ anything); [|intros o _; apply Hf]. eapply (keeps_moves _ elsewhere); [apply elsewhere_getSession|].
  intros w w' (Hs & Hl & _) [Hc Ho]. unfold streams_ok. by rewrite Hs, Hl.
Qed.

Lemma calm_complete sid x full : calm (completeStreamingResponse sid x full).
Proof.
  unfold completeStreamingResponse. apply calm_bind.
  - apply calm_keeps, keeps_session. intros o w Hw. split; [|done]. unfold stream. rewrite bind_gets.
    destruct o as [session|]; [|exact Hw]. destruct (assoc x (activeStreams w)) as [r|] eqn:Hx; [|exact Hw].
    pose proof (ok_end_stream x r w Hw ltac:(by rewrite Hx)) as He. exact He.
  - intros [session|]; [|apply calm_ret]. apply calm_bind; [auto with calm|intros _].
    apply calm_bind; [|intros _; apply calm_bind; [auto with calm|intros _; apply calm_keeps, ok_delete]].
    apply calm_keeps. intros w Hw. split; [|done]. by apply ok_sent.
Qed.

Lemma calm_generate sid x msg : calm (generateStreamingResponse sid x msg).
Proof.
  unfold generateStreamingResponse. apply calm_bind; [apply calm_atomic; unfold stream; moves_tac|].
  intros [[session|] [r|]]; try apply calm_ret. destruct (sr_isInterrupted r); [apply calm_ret|].
  apply calm_bind; [auto with calm|intros _]. apply calm_bind.
  - apply calm_keeps. apply (keeps_bind _ _ _ anything).
    + eapply (keeps_moves _ elsewhere); [apply elsewhere_generate|]. intros w w' (Hs & Hl & _) [Hc Ho]. unfold streams_ok. by rewrite Hs, Hl.
    + intros response _ w Hw. split; [|done]. by apply ok_sent.
  - intros response. apply calm_bind; [apply calm_send_words|]. intros [|]; [apply calm_complete|apply calm_ret].
Qed.

(** ** Interruptions *)

Definition interruptions (session : VoiceSession) (sid : string) (ids : list string) : list Sent :=
  (λ x, ToRoom (or_string (vs_socketId session) sid) (Interrupted sid x)) <$> ids.

Lemma interrupt_all_run session sid l w : ∃ w', interrupt_all session sid l w = (Return tt, w') ∧
  sent w' = sent w ++ interruptions session sid l.*1 ∧
  ∀ x, x ∉ l.*1 → assoc x (activeStreams w') = assoc x (activeStreams w).
Proof.
  revert w. induction l as [|[id r] l IH]; intros w; [exists w; by rewrite app_nil_r|]. cbn [interrupt_all].
  unfold date_now, put_stream, emit_to, mbind, eff_bind, modify. cbn -[interrupt_all].
  match goal with |- context [interrupt_all session sid l ?w1] => destruct (IH w1) as (w' & Hrun & Hs & Ha) end.
  exists w'. split; [exact Hrun|]. split.
  - rewrite Hs. cbn. by rewrite <-app_assoc.
  - intros x Hx. csimpl in Hx. apply not_elem_of_cons in Hx as [Hne Hx]. rewrite Ha by done. cbn. by apply assoc_set_ne.
Qed.

Lemma opens_interruptions session sid ids x b : x ∉ ids → foldl (opens x) b (interruptions session sid ids) = b.
Proof.
  induction ids as [|y ids IH]; intros Hx; [done|]. apply not_elem_of_cons in Hx as [Hne Hx]. cbn.
  rewrite bool_decide_eq_false_2 by done. by apply IH.
Qed.
Lemma chunks_interruptions log session sid ids : chunks_open log → chunks_open (log ++ interruptions session sid ids).
Proof.
  revert log. induction ids as [|y ids IH]; intros log Hlog; [by rewrite app_nil_r|].
  replace (log ++ interruptions session sid (y :: ids)) with ((log ++ interruptions session sid [y]) ++ interruptions session sid ids)
    by (by rewrite <-app_assoc). apply IH, chunks_open_snoc; [done|]. by intros room sid' x chunk [=].
Qed.

Lemma ok_cut session sid x : keeps streams_ok (cut_streams session sid x) anything.
Proof.
  intros w [Hc Ho]. split; [|done]. unfold cut_streams.
  assert (∃ l, interrupted_ids sid x w = (Return l, w)) as [l Hl] by (unfold interrupted_ids; case_bool_decide; by eexists).
  rewrite (bind_run _ _ _ _ _ Hl). destruct (interrupt_all_run session sid l w) as (w' & Hrun & Hs & Ha).
  rewrite (bind_run _ _ _ _ _ Hrun). unfold modify. cbn [snd]. split; cbn [sent activeStreams set_activeStreams].
  - rewrite Hs. by apply chunks_interruptions.
  - intros y Hy. apply assoc_filter in Hy as [[v Hn] Hy]. cbn [fst] in Hn. rewrite Ha in Hy by done.
    rewrite Hs, is_open_app, opens_interruptions by done. by apply Ho.
Qed.

Lemma calm_interruptStream sid x : calm (interruptStream sid x).
Proof.
  unfold interruptStream. apply calm_bind; [|intros [|]; [apply calm_bind; [auto with calm|intros; apply calm_ret]|apply calm_ret]].
  apply calm_keeps, keeps_session. intros [session|]; [|by apply keeps_ret]. eapply keeps_bind; [apply ok_cut|]. intros [] _. by apply keeps_ret.
Qed.
Lemma calm_start sid msg : calm (startStreamingResponse sid msg).
Proof.
  unfold startStreamingResponse. apply calm_bind; [calm_tac|]. intros [x [session|]]; [|apply calm_done]. cbn [snd fst].
  apply calm_bind; [auto with calm|intros _]. apply calm_bind; [auto with calm|intros _]. apply calm_keeps, ok_begin.
Qed.
Lemma calm_call c : calm (call_task c).
Proof.
  destruct c; cbn [call_task]; [apply calm_finished, calm_start|apply calm_finished, calm_interruptStream|apply calm_voice_task].
Qed.
End System.

(** C14: a client gets words of a stream only while the stream is open.  However calls, timers and
    the pieces of all tasks interleave, and whichever commands fail, every chunk that was sent
    belongs to a stream that had been announced and not been interrupted since. *)
Theorem chunks_only_while_open `{!Redis DB, !RedisServer, !Clock, !Crypto, !Random} (w : VoiceWorld DB) ts' w' :
  activeStreams w = [] → sent w = [] → rtc voice_step ([], w) (ts', w') → chunks_open (sent w').
Proof.
  intros Ha Hs Hsteps. cut (streams_ok w' ∧ Forall calm ts'); [intros [[Hc _] _]; exact Hc|].
  assert (∀ p p', rtc voice_step p p' → streams_ok p.2 ∧ Forall calm p.1 → streams_ok p'.2 ∧ Forall calm p'.1) as Hinv.
  { induction 1 as [p|p1 p2 p3 Hstep _ IH]; [done|]. intros [Hw Hts]. apply IH. destruct Hstep as [p p' Hp|ts w0 before t after Ht|ts w0 c].
    - by apply (pool_keeps streams_ok (if_returned anything) p p' (rtc_once _ _ Hp)).
    - split; [exact Hw|]. apply Forall_app. split; [done|]. constructor; [apply calm_generate|done].
    - split; [exact Hw|]. apply Forall_app. split; [done|]. constructor; [apply calm_call|done]. }
  apply (Hinv _ _ Hsteps). split; [|done]. unfold streams_ok. cbn [snd]. rewrite Ha, Hs. split; [|by intros x [? ?]].
  intros before room sid x chunk after Heq. by destruct before.
Qed.

(** * A stream that nobody interrupts, and what happens when requests overlap. *)

(** * Words *)

Lemma join_cons sep s l : l ≠ [] → join sep (s :: l) = s +:+ sep +:+ join sep l.
Proof. by destruct l. Qed.
Lemma join_snoc sep l s : l ≠ [] → join sep (l ++ [s]) = join sep l +:+ sep +:+ s.
Proof.
  intros Hl. induction l as [|x l IH]; [done|]. destruct (decide (l = [])) as [->|Hne]; [done|].
  rewrite <-app_comm_cons, !join_cons, IH by (by destruct l). by rewrite !string_app_assoc.
Qed.
Lemma split_go_nonempty c cur s : split_go c cur s ≠ [].
Proof. revert cur. induction s as [|a s IH]; intros cur; cbn [split_go]; [done|]. case_bool_decide; [done|apply IH]. Qed.
Lemma join_split_go c cur s : join (String c EmptyString) (split_go c cur s) = cur +:+ s.
Proof.
  revert cur. induction s as [|a s IH]; intros cur; cbn [split_go]; [by rewrite string_app_nil_r|]. case_bool_decide as Ha.
  - subst a. rewrite join_cons by apply split_go_nonempty. by rewrite IH.
  - rewrite IH. by rewrite <-string_app_assoc.
Qed.
(** Splitting at the blanks and joining again gives the text back. *)
Lemma join_words s : join " " (words_of s) = s.
Proof. apply (join_split_go (Ascii.ascii_of_nat 32)). Qed.

Section Runs.
Context {DB : Type} `{!Redis DB, !RedisServer, !Clock, !Crypto, !Random}.
Local Abbreviation W := (VoiceWorld DB).
Implicit Types (w : W).

(** A stream that is there and not interrupted. *)
Definition streaming (x : string) w : Prop := ∃ r, assoc x (activeStreams w) = Some r ∧ sr_isInterrupted r = false.

Lemma send_chunk_run session sid x text last w : streaming x w → ∃ id w',
  send_chunk session sid x text last w = (Return true, w') ∧ streaming x w' ∧
  sent w' = sent w ++ [ToRoom (or_string (vs_socketId session) sid) (Chunk sid x (mkStreamingChunk id text last (negb last)))].
Proof.
  intros (r & Hr & Hi). unfold send_chunk, stream. rewrite bind_gets, Hr, Hi. exists (uuid_at (tick w)).
  unfold mbind, eff_bind, randomUUID, put_stream, emit_to, modify. eexists. split; [reflexivity|]. split; [|done].
  eexists. split; [cbn; apply assoc_set_eq|done].
Qed.

(** The texts of the chunks: one word more each time. *)
Definition growing (words : list string) (from count : nat) : list string := (λ i, join " " (take (S i) words)) <$> seq from count.

Lemma send_words_run session sid x done_ words w : streaming x w → ∃ chunks w',
  run_task (send_words session sid x (join " " done_) (bool_decide (done_ = [])) words) w = (Return true, w') ∧ streaming x w' ∧
  sent w' = sent w ++ ((λ c, ToRoom (or_string (vs_socketId session) sid) (Chunk sid x c)) <$> chunks) ∧
  sc_content <$> chunks = growing (done_ ++ words) (length done_) (length words) ∧
  sc_isComplete <$> chunks = (λ i, bool_decide (S i = length words)) <$> seq 0 (length words).
Proof.
  revert done_ w. induction words as [|word words IH]; intros done_ w Hx.
  { exists [], w. split; [done|]. split; [done|]. by rewrite app_nil_r. }
  cbn [send_words]. cbv zeta. set (text := join " " done_ +:+ _). set (last := bool_decide (words = [])).
  assert (text = join " " (done_ ++ [word])) as Htext.
  { unfold text. case_bool_decide as Hd; [by subst done_|]. by rewrite join_snoc. }
  destruct (send_chunk_run session sid x text last w Hx) as (id & w1 & Hrun & Hx1 & Hs1).
  rewrite run_bind. set (w2 := if last then w1 else advance w1).
  assert (run_task (atomic (going ← send_chunk session sid x text last; (if last then mret tt else delay 100) ;; mret going)) w =
    (Return true, w2)) as Hpiece.
  { rewrite run_atomic, (bind_run _ _ _ _ _ Hrun). unfold w2. by destruct last. }
  rewrite (bind_run _ _ _ _ _ Hpiece).
  assert (streaming x w2 ∧ sent w2 = sent w1) as [Hx2 Hs2] by (unfold w2; by destruct last).
  destruct (IH (done_ ++ [word]) w2 Hx2) as (chunks & w3 & Hrun3 & Hx3 & Hs3 & Hc3 & Hl3).
  rewrite bool_decide_eq_false_2 in Hrun3 by (by destruct done_). rewrite <-Htext in Hrun3.
  exists (mkStreamingChunk id text last (negb last) :: chunks), w3. split; [exact Hrun3|]. split; [done|]. split; [|split].
  - rewrite Hs3, Hs2, Hs1. by rewrite <-app_assoc.
  - csimpl. rewrite Hc3. unfold growing. rewrite length_app. cbn [length seq]. csimpl. f_equal.
    + rewrite Htext. f_equal. replace (done_ ++ word :: words) with ((done_ ++ [word]) ++ words) by (by rewrite <-app_assoc).
      rewrite take_app_le by (rewrite length_app; cbn; lia). symmetry. apply take_ge. rewrite length_app. cbn. lia.
    + rewrite <-app_assoc. replace (length done_ + 1)%nat with (S (length done_)) by lia. done.
  - csimpl. rewrite Hl3. cbn [length seq]. csimpl. f_equal.
    + unfold last. apply bool_decide_ext. destruct words; cbn; split; intros; (done || lia).
    + rewrite <-fmap_S_seq, <-list_fmap_compose. apply list_fmap_ext. intros i n Hn. cbn. apply bool_decide_ext. lia.
Qed.
End Runs.

(** a stream that nobody interrupts sends the whole answer: one chunk per word, each with the text so
    far, and only the last one, which has the whole answer, is marked as complete. *)
Theorem stream_in_full `{!Redis DB, !RedisServer, !Clock, !Crypto, !Random} session sid x fullResponse (w : VoiceWorld DB) :
  streaming x w → ∃ chunks w',
  run_task (send_words session sid x EmptyString true (words_of fullResponse)) w = (Return true, w') ∧
  sent w' = sent w ++ ((λ c, ToRoom (or_string (vs_socketId session) sid) (Chunk sid x c)) <$> chunks) ∧
  sc_content <$> chunks = growing (words_of fullResponse) 0 (length (words_of fullResponse)) ∧
  sc_isComplete <$> chunks = (λ i, bool_decide (S i = length (words_of fullResponse))) <$> seq 0 (length (words_of fullResponse)) ∧
  sc_content <$> last chunks = Some fullResponse.
Proof.
  intros Hx. destruct (send_words_run session sid x [] (words_of fullResponse) w Hx) as (chunks & w' & Hrun & _ & Hs & Hc & Hl).
  exists chunks, w'. split; [exact Hrun|]. split; [done|]. split; [exact Hc|]. split; [done|].
  rewrite <-fmap_last, Hc. unfold growing. cbn [app length].
  destruct (exists_last (split_go_nonempty (Ascii.ascii_of_nat 32) EmptyString fullResponse)) as (l & s & Hls).
  fold (split_on (Ascii.ascii_of_nat 32) fullResponse) in Hls. fold (words_of fullResponse) in Hls.
  rewrite Hls, length_app. cbn [length]. rewrite Nat.add_comm, seq_S, fmap_app. csimpl. rewrite last_snoc. f_equal.
  rewrite take_ge by (rewrite length_app; cbn; lia). rewrite <-Hls. apply join_words.
Qed.
