(* ===== verification/VoiceGateway.v ===== *)
(** [VoiceGateway] ([voice/voice.gateway.ts]): what the messages of a socket do.  A [Client] is a socket
    with the payload that the guard of messages has attached to it, if it ran already. *)
From S2P Require Import Prelude Async Json JsonParse Redis VoiceTypes VoiceSessions VoiceTasks VoiceStates VoiceQuota LlmCache Streaming StreamingFacts.
Open Scope Z_scope.

Record Client := mkClient { cl_id : string; cl_sub : option string; cl_userId : option string; cl_sessionId : option string }.
Record CreateSessionDto := mkCreateSessionDto {
  cd_userId : string; cd_context : FeatureContext.t; cd_walletAddress : option string; cd_metadata : option jsobj }.
Record SessionActionDto := mkSessionActionDto { ad_state : option ConversationState.t; ad_interrupt : option bool }.

(** [client.data.user?.sub || client.data.user?.userId]; the empty text stands for nothing. *)
Definition user_of (client : Client) : string := or_string (cl_sub client) (or_string (cl_userId client) EmptyString).

Section VoiceGateway.
Context {DB : Type} `{!Redis DB, !RedisServer, !Clock, !Crypto, !Random}.
Local Abbreviation W := (VoiceWorld DB).

Definition client_emit (client : Client) (e : ClientEvent) : task W unit := atomic (modify (add_sent (ToClient (cl_id client) e))).
Definition error_to (client : Client) (message : string) : task W unit := client_emit client (Failed None message).

Definition handleConnection (client : Client) : task W unit :=
  let userId := user_of client in
  let sessionId := or_string (cl_sessionId client) EmptyString in
  if bool_decide (userId = EmptyString) then
    error_to client "Authentication failed" ≫= λ _,
    client_emit client Disconnected
  else if bool_decide (sessionId = EmptyString) then mret tt else
  session ← atomic (getSession sessionId);
  match session with
  | Some session =>
      if bool_decide (vs_userId session = userId) then
        updateSessionSocket_task sessionId (cl_id client) ≫= λ _,
        resumeSession_task sessionId ≫= λ _,
        client_emit client (Joined sessionId) ≫= λ _,
        atomic (setUserActiveSession userId sessionId) ≫= λ _,
        client_emit client (Resumed sessionId (vs_state session))
      else error_to client "Invalid session" ≫= λ _, client_emit client Disconnected
  | None => error_to client "Invalid session" ≫= λ _, client_emit client Disconnected
  end.

Definition handleDisconnect (client : Client) : task W unit :=
  let userId := user_of client in
  let sessionId := or_string (cl_sessionId client) EmptyString in
  if bool_decide (userId = EmptyString ∨ sessionId = EmptyString) then mret tt else
  updateSessionState_task sessionId ConversationState.IDLE ≫= λ _,
  atomic (deleteUserActiveSession userId).

Definition gateway_createSession (client : Client) (dto : CreateSessionDto) : task W unit :=
  task_try
    (let userId := user_of client in
     if bool_decide (userId = EmptyString) then error_to client "Authentication required" else
     existingSessions ← getUserActiveSessions_task userId;
     match existingSessions with
     | existingSession :: _ =>
         updateSessionSocket_task (vs_id existingSession) (cl_id client) ≫= λ _,
         client_emit client (Joined (vs_id existingSession)) ≫= λ _,
         atomic (setUserActiveSession userId (vs_id existingSession)) ≫= λ _,
         client_emit client (SessionCreated existingSession)
     | [] =>
         created ← task_attempt (createSession_task (cd_userId dto) (cd_context dto) (cd_walletAddress dto) (cd_metadata dto));
         match created with
         | Throw err =>
             if string_includes "Session limit reached" (exn_message err)
             then client_emit client (Failed (Some "SESSION_LIMIT_REACHED") (exn_message err))
             else Done (Throw err)
         | Return session =>
             updateSessionSocket_task (vs_id session) (cl_id client) ≫= λ _,
             client_emit client (Joined (vs_id session)) ≫= λ _,
             atomic (setUserActiveSession userId (vs_id session)) ≫= λ _,
             client_emit client (SessionCreated session)
         end
     end)
    (λ _, error_to client "Failed to create session").

(** The session that the pointer of the user names. *)
Definition with_active (client : Client) (f : string → string → task W unit) : task W unit :=
  let userId := user_of client in
  sessionId ← atomic (getUserActiveSession userId);
  let sessionId := or_string sessionId EmptyString in
  if bool_decide (sessionId = EmptyString) then error_to client "No active session" else f userId sessionId.

Definition handleMessage (client : Client) (content : string) : task W unit :=
  task_try
    (with_active client (λ userId sessionId,
       session ← atomic (getSession sessionId);
       match session with
       | Some session =>
           if bool_decide (vs_userId session = userId) then
             startStreamingResponse sessionId content ≫= λ _, mret tt
           else error_to client "Invalid session"
       | None => error_to client "Invalid session"
       end))
    (λ _, error_to client "Failed to process message").

Definition handleInterrupt (client : Client) (streamId : option string) : task W unit :=
  task_try
    (with_active client (λ userId sessionId,
       success ← interruptStream sessionId streamId;
       if (success : bool) then client_emit client (InterruptAcknowledged sessionId streamId)
       else error_to client "Failed to interrupt"))
    (λ _, error_to client "Failed to interrupt").

Definition handleSessionAction (client : Client) (dto : SessionActionDto) : task W unit :=
  task_try
    (with_active client (λ userId sessionId,
       (if or_false (ad_interrupt dto) then interruptStream sessionId None ≫= λ _, mret tt else mret tt) ≫= λ _,
       match ad_state dto with
       | Some state =>
           success ← updateSessionState_task sessionId state;
           if (success : bool) then client_emit client (StateUpdated sessionId state)
           else error_to client "Invalid state transition"
       | None => mret tt
       end))
    (λ _, error_to client "Failed to perform action").

Definition handleTerminate (client : Client) : task W unit :=
  task_try
    (with_active client (λ userId sessionId,
       interruptStream sessionId None ≫= λ _,
       success ← terminateSession_task sessionId;
       if (success : bool) then
         client_emit client (Left sessionId) ≫= λ _,
         atomic (deleteUserActiveSession userId) ≫= λ _,
         client_emit client (Terminated sessionId)
       else error_to client "Failed to terminate session"))
    (λ _, error_to client "Failed to terminate session").

Definition handlePing (client : Client) : task W unit :=
  let userId := user_of client in
  sessionId ← atomic (getUserActiveSession userId);
  let sessionId := or_string sessionId EmptyString in
  (if bool_decide (sessionId = EmptyString) then mret tt else
   updateSessionSocket_task sessionId (cl_id client) ≫= λ _,
   updateLastPingAt_task sessionId ≫= λ _,
   atomic (refreshUserSessionTTL userId)) ≫= λ _,
  atomic (timestamp ← date_now; modify (add_sent (ToClient (cl_id client) (Pong timestamp)))).
End VoiceGateway.

(** A socket on which no message has been guarded yet, which is every socket that connects, is sent
    away: the guard does not run for [handleConnection]. *)
Theorem connection_refused `{!Redis DB, !RedisServer, !Clock, !Crypto, !Random} client (w : VoiceWorld DB) :
  cl_sub client = None → cl_userId client = None →
  run_task (handleConnection client) w =
    (Return tt, add_sent (ToClient (cl_id client) Disconnected) (add_sent (ToClient (cl_id client) (Failed None "Authentication failed")) w)).
Proof. intros Hs Hu. unfold handleConnection, user_of. by rewrite Hs, Hu. Qed.

(** * Messages *)

Section Messages.
Context {DB : Type} `{!Redis DB, !RedisServer, !Clock, !Crypto, !Random}.
Local Abbreviation W := (VoiceWorld DB).
Implicit Types (w : W).
#[local] Hint Resolve elsewhere_preorder elsewhere_command elsewhere_getSession elsewhere_update_state elsewhere_append_message : moves.

Definition same_timers w w' : Prop := vw_timers w' = vw_timers w.
#[local] Instance same_timers_preorder : PreOrder same_timers.
Proof. split; [by intros w|]. intros w1 w2 w3. unfold same_timers. congruence. Qed.
#[local] Hint Resolve same_timers_preorder : moves.
Lemma same_timers_elsewhere {A} (m : eff W A) : moves elsewhere m → moves same_timers m.
Proof. intros Hm w. apply Hm. Qed.

Lemma change_elsewhere id f : (∀ s, moves elsewhere (f s)) → moves elsewhere (run_task (change_session id f) : eff W bool).
Proof.
  intros Hf w. rewrite change_session_run. revert w. apply moves_bind; [apply _|apply elsewhere_getSession|].
  intros [s|]; [apply Hf|by intros w].
Qed.
Lemma emit_same_timers client e : moves same_timers (run_task (client_emit client e) : eff W unit).
Proof. by intros w. Qed.

(** At most one timer is set, and for this session and message. *)
Definition one_timer sid msg w w' : Prop :=
  vw_timers w' = vw_timers w ∨ ∃ x, vw_timers w' = vw_timers w ++ [mkTimer sid x msg].
Lemma one_timer_bind {A B} sid msg (m : eff W A) (f : A → eff W B) :
  moves same_timers m → (∀ a, moves (one_timer sid msg) (f a)) → moves (one_timer sid msg) (m ≫= f).
Proof.
  intros Hm Hf w. unfold mbind, eff_bind. specialize (Hm w). destruct (m w) as [[a|e] w1]; cbn [snd] in *; [|by left].
  specialize (Hf a w1). unfold one_timer in *. rewrite Hm in Hf. exact Hf.
Qed.
Lemma start_timers sid msg : moves (one_timer sid msg) (run_task (startStreamingResponse sid msg) : eff W string).
Proof.
  unfold startStreamingResponse. intros w. rewrite run_bind. revert w. apply one_timer_bind.
  { apply same_timers_elsewhere. intros w. rewrite run_atomic. revert w. apply moves_bind; [apply _|by intros ?|intros x].
    apply moves_bind; [apply _|apply elsewhere_getSession|]. by intros ? ?. }
  intros [x [session|]]; [|by left]. cbn [snd fst]. intros w. rewrite run_bind. revert w. apply one_timer_bind.
  { apply same_timers_elsewhere, change_elsewhere. intros s. apply elsewhere_append_message. }
  intros _ w. rewrite run_bind. revert w. apply one_timer_bind.
  { apply same_timers_elsewhere, change_elsewhere. intros s. apply elsewhere_update_state. }
  intros _ w. rewrite run_atomic. right. by exists x.
Qed.

(** Answers to the client set no timer. *)
Lemma error_same_timers client m w : vw_timers (run_task (error_to client m) w).2 = vw_timers w.
Proof. apply emit_same_timers. Qed.
Lemma try_timers {A} (m : eff W A) (h : exn → eff W A) w : (∀ e, moves same_timers (h e)) →
  vw_timers (try_catch m h w).2 = vw_timers (m w).2.
Proof. intros Hh. unfold try_catch. destruct (m w) as [[a|e] w1]; [done|]. apply Hh. Qed.
Lemma run_bind_ret {A} (t : task W A) w : ((run_task t ≫= λ _, run_task (mret tt : task W unit)) w).2 = (run_task t w).2.
Proof. unfold mbind, eff_bind. by destruct (run_task t w) as [[a|e] w1]. Qed.
End Messages.

(** a message starts at most one response, and only for the sender's own session: the one that the
    user's pointer names, if it is there and its [userId] is the sender's. *)
Theorem message_for_own_session `{!Redis DB, !RedisServer, !Clock, !Crypto, !Random} client content (w w' : VoiceWorld DB) o :
  run_task (handleMessage client content) w = (o, w') →
  vw_timers w' = vw_timers w ∨
  ∃ sid x session w1 w2,
    getUserActiveSession (user_of client) w = (Return (Some sid), w1) ∧ sid ≠ EmptyString ∧
    getSession sid w1 = (Return (Some session), w2) ∧ vs_userId session = user_of client ∧
    vw_timers w' = vw_timers w ++ [mkTimer sid x content].
Proof.
  intros Hrun. replace w' with (run_task (handleMessage client content) w).2 by (by rewrite Hrun). clear Hrun.
  unfold handleMessage. rewrite run_try, try_timers by (intros e; apply emit_same_timers).
  unfold with_active. rewrite run_piece.
  assert (moves elsewhere (getUserActiveSession (user_of client) : eff (VoiceWorld DB) _)) as Hp by apply elsewhere_command.
  specialize (Hp w). destruct (getUserActiveSession (user_of client) w) as [[p|e] w1] eqn:Hget; cbn [snd] in Hp;
    destruct Hp as (_ & _ & Ht1); [|by left].
  case_bool_decide as Hne; [left; by rewrite error_same_timers|].
  destruct p as [sid|]; [|done]. unfold or_string in *. case_bool_decide as Hsid; [done|].
  rewrite run_piece. destruct (elsewhere_getSession sid w1) as (_ & _ & Ht2).
  destruct (getSession sid w1) as [[[session|]|e] w2] eqn:Hs; cbn [snd] in Ht2;
    [|left; rewrite error_same_timers; congruence|left; cbn; congruence].
  case_bool_decide as Hown; [|left; rewrite error_same_timers; congruence].
  destruct (start_timers sid content w2) as [Ht|[x Ht]].
  - left. rewrite run_bind, run_bind_ret. congruence.
  - right. exists sid, x, session, w1, w2. split_and!; [done..|]. rewrite run_bind, run_bind_ret. congruence.
Qed.
