(* ===== verification/MarketCache.v ===== *)
(** [MarketCacheService] and [CacheMetricsService] ([market-data/services/]): values in Redis by namespace
    and hashed key, with counters of hits and misses. *)
From S2P Require Import Prelude Json JsonParse Redis VoiceSessions VoiceQuota.
From Stdlib Require Import QArith.
Open Scope Z_scope.

(** ** Configuration

    A namespace is a text at run time; the controller hands on any text as one. *)
Module CacheNamespace.
Definition MARKET_SNAPSHOT : string := "market:snapshot".
Definition NEWS : string := "news".
Definition ASSET_DATA : string := "asset:data".
Definition PRICE_DATA : string := "price:data".
Definition values : list string := [MARKET_SNAPSHOT; NEWS; ASSET_DATA; PRICE_DATA].
End CacheNamespace.

Definition TTL_MARKET_SNAPSHOT : Z := 300.
Definition TTL_NEWS : Z := 900.
Definition TTL_ASSET_DATA : Z := 600.
Definition TTL_PRICE_DATA : Z := 60.
Definition getTtlForNamespace (namespace : string) : Z :=
  if bool_decide (namespace = CacheNamespace.MARKET_SNAPSHOT) then TTL_MARKET_SNAPSHOT
  else if bool_decide (namespace = CacheNamespace.NEWS) then TTL_NEWS
  else if bool_decide (namespace = CacheNamespace.ASSET_DATA) then TTL_ASSET_DATA
  else if bool_decide (namespace = CacheNamespace.PRICE_DATA) then TTL_PRICE_DATA
  else 300.

(** Counters may be [NaN]; a rate is none then. *)
Record CacheMetrics := mkCacheMetrics {
  cm_hits : option Z; cm_misses : option Z; cm_hitRate : Q; cm_totalKeys : Z; cm_namespace : string }.
Record OverallStats := mkOverallStats {
  os_totalHits : option Z; os_totalMisses : option Z; os_hitRate : Q; os_namespaces : list CacheMetrics }.

(** [total > 0 ? hits / total : 0] with [total = hits + misses] *)
Definition hit_rate (hits misses : option Z) : Q :=
  match hits, misses with
  | Some h, Some m => let total := h + m in if bool_decide (0 < total) then h # Z.to_pos total else 0%Q
  | _, _ => 0%Q
  end.

Section MarketCache.
Context {DB W : Type} `{!Redis DB, !HasRedis DB W, !Ticking W, !RedisServer, !Clock, !Crypto}.

Definition market_generateCacheKey (key namespace : string) : string :=
  let hash := sha256_hex key in
  namespace +:+ ":" +:+ String.substring 0 16 hash.

(** ** Reading and writing *)

Definition market_get (key namespace : string) : eff W jsval :=
  try_catch
    (let cacheKey := market_generateCacheKey key namespace in
     cached ← command (cmd_get cacheKey);
     let text := or_string cached EmptyString in
     if negb (bool_decide (text = EmptyString)) then
       promise_all [command (cmd_incr (namespace +:+ ":stats:hits")) ;; mret tt;
                    command (cmd_incr "market:cache:total-hits") ;; mret tt] ;;
       of_outcome (JSON_parse text)
     else
       promise_all [command (cmd_incr (namespace +:+ ":stats:misses")) ;; mret tt;
                    command (cmd_incr "market:cache:total-misses") ;; mret tt] ;;
       mret JNull)
    (λ _, mret JNull).

Definition metadata_json (createdAt ttl : Z) (namespace : string) : jsval :=
  JObject [("createdAt", JNumber createdAt); ("ttl", JNumber ttl); ("namespace", JString namespace)].

(** A value that has no text cannot be sent. *)
Definition market_set (key : string) (value : jsval) (namespace : string) (customTtl : option Z) : eff W unit :=
  try_catch
    (let cacheKey := market_generateCacheKey key namespace in
     let ttl := or_number customTtl (getTtlForNamespace namespace) in
     match json_text value with
     | None => throw (Exn "TypeError" "Invalid argument type")
     | Some text => command (cmd_setEx cacheKey ttl text)
     end ;;
     createdAt ← date_now;
     promise_all
       [command (cmd_setEx (cacheKey +:+ ":metadata") ttl (default EmptyString (json_text (metadata_json createdAt ttl namespace))));
        command (cmd_incr (namespace +:+ ":stats:total-entries")) ;; mret tt])
    (λ _, mret tt).

Definition has (key namespace : string) : eff W bool :=
  try_catch
    (let cacheKey := market_generateCacheKey key namespace in
     exists_ ← command (cmd_exists cacheKey);
     mret (bool_decide (exists_ = 1)))
    (λ _, mret false).
Definition getTtl (key namespace : string) : eff W Z :=
  try_catch
    (let cacheKey := market_generateCacheKey key namespace in command (cmd_ttl cacheKey))
    (λ _, mret (-1)).

(** ** Invalidation *)

Definition market_invalidate (keys : list string) (namespace : string) : eff W Z :=
  try_catch
    (if bool_decide (length keys = 0%nat) then mret 0 else
     let cacheKeys := (λ key, market_generateCacheKey key namespace) <$> keys in
     let metadataKeys := (λ key, key +:+ ":metadata") <$> cacheKeys in
     let allKeys := cacheKeys ++ metadataKeys in
     command (cmd_del allKeys) ;;
     mret (Z.of_nat (length keys)))
    (λ _, mret 0).

Definition invalidateByPattern (pattern namespace : string) : eff W Z :=
  try_catch
    (let searchPattern := namespace +:+ ":" +:+ pattern +:+ star in
     keys ← command (cmd_keys searchPattern);
     if bool_decide (length keys = 0%nat) then mret 0 else
     command (cmd_del keys) ;;
     mret (Z.of_nat (length keys)))
    (λ _, mret 0).

Definition invalidateNamespace (namespace : string) : eff W Z :=
  try_catch
    (keys ← command (cmd_keys (namespace +:+ ":" +:+ star));
     if bool_decide (length keys = 0%nat) then mret 0 else
     command (cmd_del keys) ;;
     promise_all [command (cmd_del [namespace +:+ ":stats:hits"]) ;; mret tt;
                  command (cmd_del [namespace +:+ ":stats:misses"]) ;; mret tt;
                  command (cmd_del [namespace +:+ ":stats:total-entries"]) ;; mret tt] ;;
     mret (Z.of_nat (length keys)))
    (λ _, mret 0).

(** ** Statistics *)

(** A key of a value, and not of its metadata or of the statistics. *)
Definition is_entry (k : string) : bool := negb (string_includes ":stats:" k) && negb (string_includes ":metadata" k).

Definition market_getStats (namespace : string) : eff W CacheMetrics :=
  try_catch
    (hits ← command (cmd_get (namespace +:+ ":stats:hits"));
     misses ← command (cmd_get (namespace +:+ ":stats:misses"));
     keys ← command (cmd_keys (namespace +:+ ":" +:+ star));
     let hits := usage_of hits in
     let misses := usage_of misses in
     mret {| cm_hits := hits; cm_misses := misses; cm_hitRate := hit_rate hits misses;
             cm_totalKeys := Z.of_nat (length (filter (λ k, is_entry k = true) keys)); cm_namespace := namespace |})
    (λ _, mret (mkCacheMetrics (Some 0) (Some 0) 0%Q 0 namespace)).

(** [Promise.all(namespaces.map((ns) => this.getStats(ns)))]: every call only reads, and none throws. *)
Fixpoint all_stats (namespaces : list string) : eff W (list CacheMetrics) :=
  match namespaces with
  | [] => mret []
  | ns :: namespaces => m ← market_getStats ns; ms ← all_stats namespaces; mret (m :: ms)
  end.
Definition getOverallStats : eff W OverallStats :=
  try_catch
    (totalHits ← command (cmd_get "market:cache:total-hits");
     totalMisses ← command (cmd_get "market:cache:total-misses");
     let totalHits := usage_of totalHits in
     let totalMisses := usage_of totalMisses in
     namespaces ← all_stats CacheNamespace.values;
     mret (mkOverallStats totalHits totalMisses (hit_rate totalHits totalMisses) namespaces))
    (λ _, mret (mkOverallStats (Some 0) (Some 0) 0%Q [])).

(** ** [CacheMetricsService] *)

Record CacheStatsDto := mkCacheStatsDto { cs_metrics : CacheMetrics; cs_timestamp : Z }.
Definition getNamespaceStats (namespace : string) : eff W CacheStatsDto :=
  stats ← market_getStats namespace;
  timestamp ← date_now;
  mret (mkCacheStatsDto stats timestamp).

Fixpoint stamped (namespaces : list CacheMetrics) : eff W (list CacheStatsDto) :=
  match namespaces with
  | [] => mret []
  | ns :: namespaces => timestamp ← date_now; l ← stamped namespaces; mret (mkCacheStatsDto ns timestamp :: l)
  end.
Record OverallStatsDto := mkOverallStatsDto {
  od_totalHits : option Z; od_totalMisses : option Z; od_hitRate : Q; od_namespaces : list CacheStatsDto; od_timestamp : Z }.
Definition metrics_getOverallStats : eff W OverallStatsDto :=
  overallStats ← getOverallStats;
  namespaceStats ← stamped (os_namespaces overallStats);
  timestamp ← date_now;
  mret (mkOverallStatsDto (os_totalHits overallStats) (os_totalMisses overallStats) (os_hitRate overallStats) namespaceStats timestamp).

Definition getMarketDataStats : eff W CacheStatsDto := getNamespaceStats CacheNamespace.MARKET_SNAPSHOT.
Definition getNewsStats : eff W CacheStatsDto := getNamespaceStats CacheNamespace.NEWS.
Definition getPriceDataStats : eff W CacheStatsDto := getNamespaceStats CacheNamespace.PRICE_DATA.
End MarketCache.
