(* ===== verification/MarketData.v ===== *)
(** [MarketDataService], [NewsService], [CacheInvalidationService] and the controller ([market-data/]):
    simulated sources behind the cache, and what is deleted from it.  Answers are JSON values; a [Date]
    in them is the text it is sent as. *)
From S2P Require Import Prelude Json JsonParse Redis VoiceSessions MarketCache.
From Stdlib Require Import QArith.
Open Scope Z_scope.

(** [{ ...v, k: x }] *)
Definition own_properties (v : jsval) : jsobj :=
  match v with JObject o => o | JArray l => imap (λ i v, (pretty i, v)) l | _ => [] end.
Definition spread_with (v : jsval) (k : string) (x : jsval) : jsval := JObject (assoc_set k x (own_properties v)).

(** ** Prices *)

Record AssetPriceDto := mkAssetPriceDto {
  ap_code : string; ap_issuer : string; ap_priceUSD : jsval; ap_change24h : jsval; ap_volume24h : Z; ap_marketCap : Z }.
Definition asset_json (a : AssetPriceDto) : jsval :=
  JObject [("code", JString (ap_code a)); ("issuer", JString (ap_issuer a)); ("priceUSD", ap_priceUSD a);
           ("change24h", ap_change24h a); ("volume24h", JNumber (ap_volume24h a)); ("marketCap", JNumber (ap_marketCap a))].

Definition dec (whole : N) (first : digit) (rest : list digit) : jsval := JDecimal (mkDecimal false whole first rest).
Definition XLM : AssetPriceDto := mkAssetPriceDto "XLM" "native" (dec 0 D1 [D2; D5]) (dec 2 D5 []) 125000000 3500000000.
Definition USDC : AssetPriceDto :=
  mkAssetPriceDto "USDC" "GA5ZSEJYB37JRC5AVCIA5MOP4RHTM335X2KGX3IHOJAPP5RE34K4KZVN" (JNumber 1) (dec 0 D0 [D1]) 50000000 45000000000.
Definition AQUA : AssetPriceDto :=
  mkAssetPriceDto "AQUA" "GBNZILSTVQZ4R7IKQDGHYGY2QXL5QOFJYQMXPKWRRM5PAV7Y4M67AQUA" (dec 0 D0 [D4; D5]) (JDecimal (mkDecimal true 1 D2 []))
    8000000 180000000.
Definition yXLM : AssetPriceDto :=
  mkAssetPriceDto "yXLM" "GARDNV3Q7YGT4AKSDF25LT32YSCCW4EV22Y2TV3I2PU2MMXJTEDL5T55" (dec 0 D1 [D3]) (dec 2 D8 []) 12000000 26000000.
Definition mockAssets : list AssetPriceDto := [XLM; USDC; AQUA; yXLM].
Definition mockPrices (key : string) : option AssetPriceDto :=
  if bool_decide (key = "XLM:native") then Some XLM
  else if bool_decide (key = "USDC:GA5ZSEJYB37JRC5AVCIA5MOP4RHTM335X2KGX3IHOJAPP5RE34K4KZVN") then Some USDC
  else None.

(** An absent filter is an empty one: both ask for all assets.  The key sorts the filter in place. *)
Definition generateMarketSnapshotKey (assetFilter : list string) : string :=
  if bool_decide (length assetFilter = 0%nat) then "all-assets" else "assets:" +:+ join "," (sort_strings assetFilter).

Definition filteredAssets (assetFilter : list string) : list AssetPriceDto :=
  if bool_decide (0 < length assetFilter)%nat then filter (λ a, toUpperCase (ap_code a) ∈ assetFilter) mockAssets else mockAssets.
Definition snapshot_json (assets : list AssetPriceDto) (timestamp : Z) : jsval :=
  JObject [("assets", JArray (asset_json <$> assets)); ("timestamp", JString (iso_time timestamp));
           ("source", JString "Stellar DEX / CoinGecko"); ("cached", JBool false)].

Section MarketData.
Context {DB W : Type} `{!Redis DB, !HasRedis DB W, !Ticking W, !RedisServer, !Clock, !Crypto}.

Definition fetchMarketSnapshot (assetFilter : list string) : eff W jsval :=
  delay 500 ;;
  timestamp ← date_now;
  mret (snapshot_json (filteredAssets assetFilter) timestamp).
Definition fetchAssetPrice (assetCode issuer : string) : eff W jsval :=
  delay 300 ;;
  mret (default JNull (asset_json <$> mockPrices (assetCode +:+ ":" +:+ issuer))).

Definition getMarketSnapshot (assetFilter : list string) (bypassCache : bool) : eff W jsval :=
  let cacheKey := generateMarketSnapshotKey assetFilter in
  cached ← (if negb bypassCache then market_get cacheKey CacheNamespace.MARKET_SNAPSHOT else mret JNull);
  if truthy cached then mret (spread_with cached "cached" (JBool true)) else
  snapshot ← fetchMarketSnapshot assetFilter;
  market_set cacheKey snapshot CacheNamespace.MARKET_SNAPSHOT None ;;
  mret (spread_with snapshot "cached" (JBool false)).

Definition getAssetPrice (assetCode issuer : string) : eff W jsval :=
  let cacheKey := assetCode +:+ ":" +:+ issuer in
  cached ← market_get cacheKey CacheNamespace.PRICE_DATA;
  if truthy cached then mret cached else
  priceData ← fetchAssetPrice assetCode issuer;
  (if truthy priceData then market_set cacheKey priceData CacheNamespace.PRICE_DATA None else mret tt) ;;
  mret priceData.

Definition market_invalidateMarketCache (assetCode : option string) : eff W Z :=
  let assetCode := or_string assetCode EmptyString in
  if negb (bool_decide (assetCode = EmptyString)) then invalidateByPattern assetCode CacheNamespace.PRICE_DATA
  else invalidateNamespace CacheNamespace.MARKET_SNAPSHOT.
End MarketData.

(** ** News *)

Module NewsCategory.
Inductive t := MARKET | TECHNOLOGY | REGULATION | STELLAR | DEFI | NFT.
Definition to_string (c : t) : string :=
  match c with MARKET => "market" | TECHNOLOGY => "technology" | REGULATION => "regulation" | STELLAR => "stellar" | DEFI => "defi" | NFT => "nft" end.
#[global] Instance eq_dec : EqDecision t.
Proof. solve_decision. Defined.
End NewsCategory.

Record NewsArticleDto := mkNewsArticleDto {
  na_id : string; na_title : string; na_summary : string; na_url : string; na_publishedAt : Z; na_source : string;
  na_imageUrl : string; na_category : NewsCategory.t; na_tags : list string }.
Definition article_json (a : NewsArticleDto) : jsval :=
  JObject [("id", JString (na_id a)); ("title", JString (na_title a)); ("summary", JString (na_summary a)); ("url", JString (na_url a));
           ("publishedAt", JString (iso_time (na_publishedAt a))); ("source", JString (na_source a)); ("imageUrl", JString (na_imageUrl a));
           ("category", JString (NewsCategory.to_string (na_category a))); ("tags", JArray (JString <$> na_tags a))].

Definition news_1 (now : Z) : NewsArticleDto :=
  mkNewsArticleDto "news-1" "Stellar Network Processes Record Transaction Volume"
    "The Stellar blockchain has achieved a new milestone, processing over 10 million transactions in a single day..."
    "https://stellar.org/blog/record-transaction-volume" (now - 3600000) "Stellar Blog" "https://example.com/stellar-news-1.jpg"
    NewsCategory.STELLAR ["stellar"; "blockchain"; "transactions"].
(** Each article reads the clock for itself. *)
Definition mockArticles (now : nat → Z) : list NewsArticleDto :=
  [news_1 (now 0%nat);
   mkNewsArticleDto "news-2" "Bitcoin Surges Past $50,000 Mark"
     "Bitcoin has broken through the $50,000 resistance level amid growing institutional adoption..."
     "https://example.com/bitcoin-50k" (now 1%nat - 7200000) "CryptoNews" "https://example.com/bitcoin-news.jpg"
     NewsCategory.MARKET ["bitcoin"; "market"; "price"];
   mkNewsArticleDto "news-3" "New DeFi Protocol Launches on Stellar"
     "A new decentralized finance protocol has launched on Stellar, offering yield farming opportunities..."
     "https://example.com/stellar-defi" (now 2%nat - 10800000) "DeFi Pulse" "https://example.com/defi-news.jpg"
     NewsCategory.DEFI ["stellar"; "defi"; "yield-farming"];
   mkNewsArticleDto "news-4" "SEC Announces New Cryptocurrency Regulations"
     "The Securities and Exchange Commission has unveiled new regulatory framework for digital assets..."
     "https://example.com/sec-regulations" (now 3%nat - 14400000) "Regulatory News" "https://example.com/regulation-news.jpg"
     NewsCategory.REGULATION ["regulation"; "sec"; "compliance"];
   mkNewsArticleDto "news-5" "Soroban Smart Contracts Gain Traction"
     "Developers are increasingly adopting Soroban for building decentralized applications on Stellar..."
     "https://example.com/soroban-adoption" (now 4%nat - 18000000) "Stellar Developers" "https://example.com/soroban-news.jpg"
     NewsCategory.TECHNOLOGY ["stellar"; "soroban"; "smart-contracts"];
   mkNewsArticleDto "news-6" "Major Bank Partners with Stellar for Cross-Border Payments"
     "A leading international bank has announced partnership with Stellar to facilitate faster cross-border transactions..."
     "https://example.com/bank-stellar-partnership" (now 5%nat - 21600000) "Financial Times" "https://example.com/partnership-news.jpg"
     NewsCategory.STELLAR ["stellar"; "banking"; "partnerships"]].

Definition filteredArticles (category : option NewsCategory.t) (articles : list NewsArticleDto) : list NewsArticleDto :=
  match category with Some c => filter (λ a, na_category a = c) articles | None => articles end.
(** [l.slice(0, limit)]; a negative limit counts from the end. *)
Definition slice_to {A} (limit : Z) (l : list A) : list A :=
  take (Z.to_nat (if bool_decide (limit < 0) then Z.of_nat (length l) + limit else limit)) l.
Definition news_json (articles : list NewsArticleDto) (timestamp : Z) : jsval :=
  JObject [("articles", JArray (article_json <$> articles)); ("total", JNumber (Z.of_nat (length articles)));
           ("timestamp", JString (iso_time timestamp)); ("cached", JBool false)].

Definition generateNewsKey (category : option NewsCategory.t) (limit : Z) : string :=
  join ":" (["news"] ++ match category with Some c => [NewsCategory.to_string c] | None => [] end ++
            (if bool_decide (limit = 0) then [] else ["limit:" +:+ pretty limit])).

Section News.
Context {DB W : Type} `{!Redis DB, !HasRedis DB W, !Ticking W, !RedisServer, !Clock, !Crypto}.

Definition fetchNews (category : option NewsCategory.t) (limit : Z) : eff W jsval :=
  delay 700 ;;
  now0 ← date_now; now1 ← date_now; now2 ← date_now; now3 ← date_now; now4 ← date_now; now5 ← date_now;
  let articles := mockArticles (λ i, nth i [now0; now1; now2; now3; now4; now5] 0) in
  let limitedArticles := slice_to limit (filteredArticles category articles) in
  timestamp ← date_now;
  mret (news_json limitedArticles timestamp).
Definition fetchArticleById (articleId : string) : eff W jsval :=
  delay 300 ;;
  if bool_decide (articleId = "news-1") then now ← date_now; mret (article_json (news_1 now)) else mret JNull.

Definition getNews (category : option NewsCategory.t) (limit : Z) (bypassCache : bool) : eff W jsval :=
  let cacheKey := generateNewsKey category limit in
  cached ← (if negb bypassCache then market_get cacheKey CacheNamespace.NEWS else mret JNull);
  if truthy cached then mret (spread_with cached "cached" (JBool true)) else
  news ← fetchNews category limit;
  market_set cacheKey news CacheNamespace.NEWS None ;;
  mret (spread_with news "cached" (JBool false)).

Definition getArticleById (articleId : string) : eff W jsval :=
  let cacheKey := "article:" +:+ articleId in
  cached ← market_get cacheKey CacheNamespace.NEWS;
  if truthy cached then mret cached else
  article ← fetchArticleById articleId;
  (if truthy article then market_set cacheKey article CacheNamespace.NEWS (Some 3600) else mret tt) ;;
  mret article.

Definition news_invalidateNewsCache (category : option NewsCategory.t) : eff W Z :=
  match category with
  | Some c => invalidateByPattern ("news:" +:+ NewsCategory.to_string c) CacheNamespace.NEWS
  | None => invalidateNamespace CacheNamespace.NEWS
  end.
End News.

(** ** Invalidation by events

    What is emitted; the listeners of the first three are below. *)
Inductive MarketEvent :=
| AssetUpdated (assetCode issuer updateType : string) (timestamp : Z)
| NewsPublished
| ManualInvalidation (namespace : option string) (keys : option (list string)) (pattern : option string)
| CacheInvalidated (namespace : option string) (keys : option (list string)) (pattern : option string) (reason : string).

Record MarketWorld (DB : Type) := mkMarketWorld { mw_redis : DB; mw_ticks : nat; emitted : list MarketEvent }.
Arguments mkMarketWorld {_} _ _ _.
Arguments mw_redis {_} _.
Arguments mw_ticks {_} _.
Arguments emitted {_} _.
#[export] Instance MarketWorld_redis DB : HasRedis DB (MarketWorld DB) := {|
  redis := mw_redis; set_redis s w := mkMarketWorld s (mw_ticks w) (emitted w) |}.
#[export] Instance MarketWorld_ticking DB : Ticking (MarketWorld DB) := {|
  tick := mw_ticks; advance w := mkMarketWorld (mw_redis w) (S (mw_ticks w)) (emitted w) |}.
#[export] Instance MarketWorld_lens DB : RedisLens DB (MarketWorld DB).
Proof. by split. Qed.

Section Invalidation.
Context {DB : Type} `{!Redis DB, !RedisServer, !Clock, !Crypto}.
Local Abbreviation W := (MarketWorld DB).

Definition emit (e : MarketEvent) : eff W unit := modify (λ w, mkMarketWorld (mw_redis w) (mw_ticks w) (emitted w ++ [e])).

Definition handleAssetUpdate (assetCode issuer updateType : string) : eff W unit :=
  try_catch
    (invalidateByPattern assetCode CacheNamespace.PRICE_DATA ;;
     invalidateNamespace CacheNamespace.MARKET_SNAPSHOT ;;
     emit (CacheInvalidated (Some CacheNamespace.PRICE_DATA) None (Some assetCode) ("Asset update: " +:+ updateType)))
    (λ _, mret tt).

Definition handleNewsPublished : eff W unit :=
  try_catch
    (invalidateNamespace CacheNamespace.NEWS ;;
     emit (CacheInvalidated (Some CacheNamespace.NEWS) None None "New article published"))
    (λ _, mret tt).

Definition handleManualInvalidation (namespace : option string) (keys : option (list string)) (pattern : option string) : eff W unit :=
  try_catch
    (let given o := negb (bool_decide (or_string o EmptyString = EmptyString)) in
     (if given namespace then invalidateNamespace (or_string namespace EmptyString)
      else if given pattern && given namespace then invalidateByPattern (or_string pattern EmptyString) (or_string namespace EmptyString)
      else match keys with
           | Some keys => if given namespace then market_invalidate keys (or_string namespace EmptyString) else mret 0
           | None => mret 0
           end) ;;
     emit (CacheInvalidated namespace keys pattern "Manual invalidation"))
    (λ _, mret tt).

(** The listeners that [OnEvent] registers. *)
Definition on_event (e : MarketEvent) : eff W unit :=
  match e with
  | AssetUpdated assetCode issuer updateType _ => handleAssetUpdate assetCode issuer updateType
  | NewsPublished => handleNewsPublished
  | ManualInvalidation namespace keys pattern => handleManualInvalidation namespace keys pattern
  | CacheInvalidated _ _ _ _ => mret tt
  end.

Definition triggerAssetUpdate (assetCode issuer updateType : string) : eff W unit :=
  timestamp ← date_now; emit (AssetUpdated assetCode issuer updateType timestamp).
Definition triggerNewsPublished : eff W unit := emit NewsPublished.
Definition triggerManualInvalidation (namespace : option string) (keys : option (list string)) (pattern : option string) : eff W unit :=
  emit (ManualInvalidation namespace keys pattern).
End Invalidation.

(** ** The controller *)

(** A query parameter that is [true] or its text. *)
Inductive BypassCache := BypassBool (b : bool) | BypassText (s : string).
Definition bypasses (o : option BypassCache) : bool :=
  match o with Some (BypassBool b) => b | Some (BypassText s) => bool_decide (s = "true") | None => false end.

Record CacheInvalidateDto := mkCacheInvalidateDto {
  ci_keys : option (list string); ci_pattern : option string; ci_namespace : option string }.
Record CacheInvalidateResponseDto := mkCacheInvalidateResponseDto { cr_invalidatedCount : Z; cr_success : bool; cr_message : string }.

Section Controller.
Context {DB W : Type} `{!Redis DB, !HasRedis DB W, !Ticking W, !RedisServer, !Clock, !Crypto}.

Definition asset_filter (assets : option string) : list string :=
  let assets := or_string assets EmptyString in
  if bool_decide (assets = EmptyString) then []
  else (λ a, toUpperCase (trim a)) <$> split_on (Ascii.ascii_of_nat 44) assets.
Definition controller_getMarketSnapshot (assets : option string) (bypassCache : option BypassCache) : eff W jsval :=
  getMarketSnapshot (asset_filter assets) (bypasses bypassCache).
Definition controller_getNews (category : option NewsCategory.t) (limit : option Z) (bypassCache : option BypassCache) : eff W jsval :=
  let limit := or_number limit 20 in getNews category limit (bypasses bypassCache).

Definition controller_getCacheStats : eff W OverallStatsDto := metrics_getOverallStats.
Definition getMarketDataCacheStats : eff W CacheStatsDto := getMarketDataStats.
Definition getNewsCacheStats : eff W CacheStatsDto := getNewsStats.

Definition controller_invalidateCache (dto : CacheInvalidateDto) : eff W CacheInvalidateResponseDto :=
  let namespace := or_string (ci_namespace dto) EmptyString in
  let pattern := or_string (ci_pattern dto) EmptyString in
  let keys := default [] (ci_keys dto) in
  invalidatedCount ←
    (if negb (bool_decide (namespace = EmptyString)) then invalidateNamespace namespace
     else if negb (bool_decide (pattern = EmptyString)) then invalidateByPattern pattern CacheNamespace.MARKET_SNAPSHOT
     else if bool_decide (0 < length keys)%nat then market_invalidate keys CacheNamespace.MARKET_SNAPSHOT
     else mret 0);
  mret (mkCacheInvalidateResponseDto invalidatedCount true ("Successfully invalidated " +:+ pretty invalidatedCount +:+ " cache entries")).

Definition controller_invalidateMarketCache : eff W CacheInvalidateResponseDto :=
  count ← market_invalidateMarketCache None;
  mret (mkCacheInvalidateResponseDto count true ("Invalidated " +:+ pretty count +:+ " market data cache entries")).
Definition controller_invalidateNewsCache : eff W CacheInvalidateResponseDto :=
  count ← news_invalidateNewsCache None;
  mret (mkCacheInvalidateResponseDto count true ("Invalidated " +:+ pretty count +:+ " news cache entries")).
End Controller.
