(* ===== verification/MarketFacts.v ===== *)
(** What the caches of the market data keep and delete. *)
From S2P Require Import Prelude Json JsonParse Redis CacheFacts VoiceSessions VoiceQuota MarketCache MarketData.
From Stdlib Require Import QArith.
Open Scope Z_scope.

Section Facts.
Context {DB W : Type} `{!Redis DB, !RedisLaws DB, !HasRedis DB W, !Ticking W, !RedisServer, !RedisLens DB W}.
Context `{!MonotoneServer, !Clock, !Crypto}.
Implicit Types (w : W).

(** ** Nothing throws *)

Lemma total_date_now : total date_now.
Proof. intros w. by eexists _, _. Qed.
Lemma total_delay ms : total (delay ms).
Proof. intros w. by eexists _, _. Qed.

Lemma total_get k ns : total (market_get k ns).
Proof. apply total_try. intros e. apply total_ret. Qed.
Lemma total_set k v ns ttl : total (market_set k v ns ttl).
Proof. apply total_try. intros e. apply total_ret. Qed.
Lemma total_invalidateByPattern p ns : total (invalidateByPattern p ns).
Proof. apply total_try. intros e. apply total_ret. Qed.
Lemma total_invalidateNamespace ns : total (invalidateNamespace ns).
Proof. apply total_try. intros e. apply total_ret. Qed.

(** ** Keys *)

Lemma market_key_other key ns s : s ≠ EmptyString → market_generateCacheKey key ns ≠ market_generateCacheKey key ns +:+ s.
Proof.
  intros Hs Heq. apply (f_equal String.length) in Heq. rewrite string_length_app in Heq. destruct s; [done|]. cbn in Heq. lia.
Qed.
Lemma substring_head n a t : ∃ r, String.substring 0 (S n) (String a t) = String a r.
Proof. by eexists. Qed.
Lemma market_key_hex `{!Sha256Hex} key ns : ∃ a r, market_generateCacheKey key ns = ns +:+ ":" +:+ String a r ∧ hex_char a = true.
Proof.
  unfold market_generateCacheKey. cbv zeta. destruct (hex_digest key) as (a & t & -> & Ha). destruct (substring_head 15 a t) as [r Hr].
  exists a, r. by rewrite Hr.
Qed.
(** A key of a value is none of the statistics: [s] is no digit. *)
Lemma market_key_stats `{!Sha256Hex} key ns s : market_generateCacheKey key ns ≠ ns +:+ ":stats" +:+ s.
Proof.
  destruct (market_key_hex key ns) as (a & r & -> & Ha). intros Heq%app_inj_l. rewrite !string_app_cons in Heq.
  injection Heq as Heq1. change (EmptyString +:+ ?x) with x in Heq1. subst a. done.
Qed.

(** ** A value that was written is read *)

Context `{!RedisUp}.

Lemma market_set_run key v ns ttl w t : let K := market_generateCacheKey key ns in let n := or_number ttl (getTtlForNamespace ns) in
  json_text v = Some t → 0 < n → K ≠ ns +:+ ":stats:total-entries" → ∃ w',
  market_set key v ns ttl w = (Return tt, w') ∧ (tick w ≤ tick w')%nat ∧ cached_until K t (server_at (tick w) + n * 1000) w'.
Proof.
  intros K n Ht Hn HK. destruct (run_setEx K w n t Hn) as (w1 & Hrun & Ht1 & Hh1 & _).
  unfold market_set, try_catch. cbv zeta. fold K n. rewrite Ht, (bind_run _ _ _ _ _ Hrun).
  match goal with |- context [let (_, _) := ?m w1 in _] => set (rest := m) end.
  assert (moves (leaves K) rest) as Hrest.
  { unfold rest. apply moves_bind; [apply _|auto with moves|]. intros c. apply leaves_all.
    apply Forall_cons_2; [apply leaves_command, spares_setEx; by apply market_key_other|]. apply Forall_cons_2; [|by apply Forall_nil_2].
    apply moves_bind; [apply _|by apply leaves_command, spares_incr|]. intros _. auto with moves. }
  specialize (Hrest w1). pose proof (cached_later _ _ _ _ _ Hrest (cached_setEx K t n w w1 Hn Hh1)) as Hc. destruct Hrest as [Ht2 _].
  destruct (rest w1) as [[[]|e] w2]; cbn [snd] in *; exists w2; (split; [done|]); (split; [lia|done]).
Qed.

Lemma market_get_run key ns text d w : let K := market_generateCacheKey key ns in
  held K w = Some (mkEntry (RText text) d) → text ≠ EmptyString →
  countable (held (ns +:+ ":stats:hits") w) → countable (held "market:cache:total-hits" w) → ∃ w',
  market_get key ns w = (Return (match JSON_parse text with Return v => v | Throw _ => JNull end), w') ∧ (tick w ≤ tick w')%nat ∧
  ∀ k, k ≠ ns +:+ ":stats:hits" → k ≠ "market:cache:total-hits" → leaves k w w'.
Proof.
  intros K Hh Htext H1c H2c. unfold market_get. cbv zeta. fold K. set (w1 := (command (cmd_get K) w).2).
  assert (command (cmd_get K) w = (Return (Some text), w1)) as Hget.
  { unfold w1. rewrite command_up. unfold cmd_get. fold (held K w). by rewrite Hh. }
  assert (∀ k, leaves k w w1) as Hl1 by (intros k; by apply leaves_command, spares_get).
  unfold try_catch. rewrite (bind_run _ _ _ _ _ Hget). cbn [or_string]. rewrite !(bool_decide_eq_false_2 (text = EmptyString)) by done. cbn [negb].
  assert (∀ k, countable (held k w) → countable (held k w1)) as Hc1 by (intros k Hk; destruct (Hl1 k) as [_ ->]; by apply countable_seen).
  destruct (incr_two (ns +:+ ":stats:hits") "market:cache:total-hits" w1 (Hc1 _ H1c) (Hc1 _ H2c)) as (w2 & Hrun2 & Ht2 & Hl2 & _).
  rewrite (bind_run _ _ _ _ _ Hrun2). exists w2. unfold of_outcome. destruct (Hl1 K) as [Ht1 _].
  split; [by destruct (JSON_parse text)|]. split; [lia|]. intros k Hk1 Hk2. etrans; [apply Hl1|]. by apply Hl2.
Qed.

Lemma json_text_nonempty v t : json_text v = Some t → t ≠ EmptyString.
Proof.
  intros Ht ->. destruct (JSON_parse_text v EmptyString Ht) as (u & _ & Hp). done.
Qed.
Lemma set_then_get `{!Sha256Hex} key v t ns ttl w w1 w2 o :
  let K := market_generateCacheKey key ns in let n := or_number ttl (getTtlForNamespace ns) in
  json_text v = Some t → 0 < n → market_set key v ns ttl w = (o, w1) → leaves K w1 w2 →
  server_at (tick w2) < server_at (tick w) + n * 1000 →
  countable (held (ns +:+ ":stats:hits") w2) → countable (held "market:cache:total-hits" w2) →
  ∃ u w3, json_value v = Some u ∧ market_get key ns w2 = (Return u, w3).
Proof.
  intros K n Ht Hn Hset Hl Hd H1c H2c.
  destruct (market_set_run key v ns ttl w t Ht Hn) as (w1' & Hrun & _ & Hc); [apply (market_key_stats key ns ":total-entries")|].
  rewrite Hset in Hrun. injection Hrun as -> ->. destruct (cached_later _ _ _ _ _ Hl Hc Hd) as (d' & _ & Hh).
  destruct (market_get_run key ns t (Some d') w2 Hh (json_text_nonempty _ _ Ht) H1c H2c) as (w3 & Hget & _).
  destruct (JSON_parse_text v t Ht) as (u & Hu & Hp). exists u, w3. split; [done|]. by rewrite Hget, Hp.
Qed.
End Facts.

(** a value that was put in the cache is read from it, as long as its time to live has not passed and
    nothing has touched its entry, as [JSON.parse] gives it back: without undefined values. *)
Theorem cached_value_is_read `{!Redis DB, !RedisLaws DB, !HasRedis DB W, !Ticking W, !RedisServer, !RedisLens DB W}
    `{!RedisUp, !MonotoneServer, !Clock, !Crypto, !Sha256Hex} key v t ns ttl (w w1 w2 : W) o :
  let K := market_generateCacheKey key ns in let n := or_number ttl (getTtlForNamespace ns) in
  json_text v = Some t → 0 < n → market_set key v ns ttl w = (o, w1) → leaves K w1 w2 →
  server_at (tick w2) < server_at (tick w) + n * 1000 →
  countable (held (ns +:+ ":stats:hits") w2) → countable (held "market:cache:total-hits" w2) →
  ∃ u w3, json_value v = Some u ∧ market_get key ns w2 = (Return u, w3).
Proof. intros K n. apply set_then_get. Qed.

(** * Snapshots *)

Definition plain (v : jsval) : Prop := json_value v = Some v.
Lemma plain_array l : Forall plain l → plain (JArray l).
Proof.
  intros Hl. unfold plain. cbn. do 2 f_equal. induction Hl as [|v l Hv Hl IH]; [done|]. cbn. by rewrite Hv, IH.
Qed.
Lemma plain_object o : Forall (λ kv, plain kv.2) o → plain (JObject o).
Proof.
  intros Ho. unfold plain. rewrite json_value_object. do 2 f_equal. induction Ho as [|[k v] o Hv Ho IH]; [done|].
  cbn [omap list_omap]. unfold field_value at 1. cbn [snd fst] in *. rewrite Hv. cbn. by rewrite IH.
Qed.
Lemma plain_snapshot f t : plain (snapshot_json (filteredAssets f) t).
Proof.
  apply plain_object. constructor; [|by repeat constructor]. cbn [snd]. apply plain_array, Forall_fmap.
  assert (Forall (plain ∘ asset_json) mockAssets) as Hall by by repeat constructor.
  unfold filteredAssets. case_bool_decide; [|done].
  apply Forall_forall. intros a [_ Ha]%list_elem_of_filter. rewrite Forall_forall in Hall. by apply Hall.
Qed.
Lemma plain_text v : plain v → ∃ t, json_text v = Some t.
Proof. intros Hv. destruct (json_text v) as [t|] eqn:Ht; [by exists t|]. apply json_text_value in Ht. unfold plain in Hv. congruence. Qed.

Lemma snapshot_key_perm f f' : f ≡ₚ f' → generateMarketSnapshotKey f = generateMarketSnapshotKey f'.
Proof. intros Hp. unfold generateMarketSnapshotKey. by rewrite (sort_strings_perm _ _ Hp), (Permutation_length Hp). Qed.
Lemma filtered_perm f f' : f ≡ₚ f' → filteredAssets f = filteredAssets f'.
Proof.
  intros Hp. unfold filteredAssets. rewrite (Permutation_length Hp). case_bool_decide; [|done].
  apply list_filter_iff. intros a. by rewrite Hp.
Qed.

(** Reading the cache raises two counters of its namespace and of the cache. *)
Lemma leaves_market_get `{!Redis DB, !RedisLaws DB, !HasRedis DB W, !Ticking W, !RedisServer, !RedisLens DB W} `{!MonotoneServer, !Crypto} K key ns :
  Forall (λ k, K ≠ k) [ns +:+ ":stats:hits"; "market:cache:total-hits"; ns +:+ ":stats:misses"; "market:cache:total-misses"] →
  moves (leaves K) (market_get key ns).
Proof.
  rewrite !Forall_cons. intros (Hh & Hth & Hm & Htm & _). unfold market_get. cbv zeta.
  assert (∀ k, K ≠ k → moves (leaves K) (command (cmd_incr k) ;; mret tt)) as Hincr.
  { intros k Hk. apply moves_bind; [apply _|by apply leaves_command, spares_incr|]. intros _. apply moves_ret, _. }
  apply moves_try; [apply _| |intros _; apply moves_ret, _]. apply moves_bind; [apply _|auto with moves|]. intros o.
  destruct (negb _); (apply moves_bind; [apply _|apply leaves_all; by repeat constructor; apply Hincr|intros _]); [|apply moves_ret, _].
  unfold of_outcome. intros w. by destruct (JSON_parse _).
Qed.

(** C17: a snapshot that is served again.  While Redis answers, a snapshot that was fetched, because the
    cache was bypassed or held none, is served to a later request for the same assets that does not
    bypass the cache, in whichever order they are named, and marked as cached, before five minutes
    have passed, as long as nothing writes or deletes its entry; the counters of hits are absent or
    numbers then. *)
Theorem snapshot_served_again `{!Redis DB, !RedisLaws DB, !HasRedis DB W, !Ticking W, !RedisServer, !RedisLens DB W}
    `{!RedisUp, !MonotoneServer, !Clock, !Crypto, !Sha256Hex} f f' bypassCache v (w w1 w2 : W) :
  let K := market_generateCacheKey (generateMarketSnapshotKey f) CacheNamespace.MARKET_SNAPSHOT in
  getMarketSnapshot f bypassCache w = (Return v, w1) → property v "cached" = Return (JBool false) →
  f ≡ₚ f' → leaves K w1 w2 →
  server_at (tick w2) < server_at (tick w) + 300 * 1000 →
  countable (held "market:snapshot:stats:hits" w2) → countable (held "market:cache:total-hits" w2) →
  ∃ t w3, v = snapshot_json (filteredAssets f) t ∧
    getMarketSnapshot f' false w2 = (Return (spread_with v "cached" (JBool true)), w3).
Proof.
  intros K Hfetch Hfresh Hperm Hl Hd H1c H2c. unfold getMarketSnapshot in Hfetch. cbv zeta in Hfetch.
  set (key := generateMarketSnapshotKey f) in *.
  assert (∃ c w0, (if negb bypassCache then market_get key CacheNamespace.MARKET_SNAPSHOT else mret JNull) w = (Return c, w0) ∧ (tick w ≤ tick w0)%nat)
    as (c & w0 & Hget0 & Ht0).
  { destruct bypassCache; [by exists JNull, w|]. cbn [negb]. destruct (total_get key CacheNamespace.MARKET_SNAPSHOT w) as (c & w0 & Hget0).
    exists c, w0. split; [done|]. pose proof (leaves_market_get EmptyString key CacheNamespace.MARKET_SNAPSHOT ltac:(by repeat constructor) w) as [Ht _].
    by rewrite Hget0 in Ht. }
  rewrite (bind_run _ _ _ _ _ Hget0) in Hfetch. destruct (truthy c).
  { injection Hfetch as <- _. unfold spread_with, property in Hfresh. by rewrite assoc_set_eq in Hfresh. }
  set (t := clock_at (tick (advance w0))) in *. set (wf := advance (advance w0)).
  assert (fetchMarketSnapshot f w0 = (Return (snapshot_json (filteredAssets f) t), wf)) as Hf by reflexivity.
  rewrite (bind_run _ _ _ _ _ Hf) in Hfetch.
  destruct (plain_text _ (plain_snapshot f t)) as [text Htext].
  destruct (total_set key (snapshot_json (filteredAssets f) t) CacheNamespace.MARKET_SNAPSHOT None wf) as ([] & wg & Hset).
  rewrite (bind_run _ _ _ _ _ Hset) in Hfetch. injection Hfetch as <- <-. exists t.
  assert (server_at (tick w) <= server_at (tick wf)) by (apply server_mono; unfold wf; rewrite !tick_advance; lia).
  destruct (set_then_get key (snapshot_json (filteredAssets f) t) text CacheNamespace.MARKET_SNAPSHOT None wf wg w2 _
    Htext ltac:(done) Hset Hl ltac:(change (or_number None (getTtlForNamespace CacheNamespace.MARKET_SNAPSHOT)) with 300; lia) H1c H2c) as (u & w3 & Hu & Hget).
  pose proof (plain_snapshot f t) as Hplain. unfold plain in Hplain. rewrite Hplain in Hu. injection Hu as <-.
  exists w3. split; [done|]. unfold getMarketSnapshot. cbv zeta. cbn [negb]. rewrite <-(snapshot_key_perm _ _ Hperm).
  by rewrite (bind_run _ _ _ _ _ Hget).
Qed.

(** * Invalidation *)

Section Invalidation.
Context {DB W : Type} `{!Redis DB, !RedisLaws DB, !HasRedis DB W, !Ticking W, !RedisServer, !RedisLens DB W}.
Context `{!MonotoneServer, !Clock, !Crypto, !RedisUp}.
Implicit Types (w : W).

Lemma deleted_more p r w w1 : deleted_prefix p w w1 → ∃ n w2, command (cmd_del [p +:+ r]) w1 = (Return n, w2) ∧ deleted_prefix p w w2.
Proof.
  intros [Hgone Hkept]. destruct (del_run [p +:+ r] w1) as (n & w2 & Hrun & _ & Hg & Hk). exists n, w2. split; [done|]. split.
  - intros r'. destruct (decide (p +:+ r' ∈ [p +:+ r])) as [Hin|Hin]; [by apply Hg|]. destruct (Hk _ Hin) as [_ ->]. by rewrite Hgone.
  - intros k Hne. etrans; [by apply Hkept|]. apply Hk. intros Hin%list_elem_of_singleton. by apply (Hne r).
Qed.

Lemma by_pattern_run pattern ns w : glob_free (ns +:+ ":" +:+ pattern) = true → ∃ ks w',
  invalidateByPattern pattern ns w = (Return (Z.of_nat (length ks)), w') ∧
  (∀ k, k ∈ ks ↔ is_Some (held k w) ∧ ∃ r, k = (ns +:+ ":" +:+ pattern) +:+ r) ∧ deleted_prefix (ns +:+ ":" +:+ pattern) w w'.
Proof.
  intros Hg. destruct (delete_prefix_run (ns +:+ ":" +:+ pattern) w (λ ks, Z.of_nat (length ks)) 0 Hg) as (ks & w' & Hrun & Hks & Hdel).
  exists ks, w'. split; [|done]. unfold invalidateByPattern, try_catch. cbv zeta.
  assert (ns +:+ ":" +:+ pattern +:+ star = (ns +:+ ":" +:+ pattern) +:+ star) as -> by by rewrite <-!string_app_assoc.
  rewrite Hrun. case_bool_decide as Hlen; [by rewrite Hlen|done].
Qed.

Lemma namespace_run ns w : glob_free (ns +:+ ":") = true → ∃ ks w',
  invalidateNamespace ns w = (Return (Z.of_nat (length ks)), w') ∧
  (∀ k, k ∈ ks ↔ is_Some (held k w) ∧ ∃ r, k = (ns +:+ ":") +:+ r) ∧ deleted_prefix (ns +:+ ":") w w'.
Proof.
  intros Hg. destruct (delete_prefix_parts (ns +:+ ":") w Hg) as (ks & w1 & Hkeys & Hks & Hnone & n & w2 & Hdel & Hsome).
  assert (∀ (s : string), ns +:+ ":" +:+ s = (ns +:+ ":") +:+ s) as Happ by (intros s; by rewrite <-!string_app_assoc).
  unfold invalidateNamespace, try_catch. rewrite (Happ star), (bind_run _ _ _ _ _ Hkeys). exists ks. case_bool_decide as Hlen.
  { exists w1. rewrite Hlen. split; [done|]. split; [done|by apply Hnone]. }
  destruct (deleted_more _ "stats:hits" _ _ Hsome) as (n2 & w3 & Hrun2 & Hdel2).
  destruct (deleted_more _ "stats:misses" _ _ Hdel2) as (n3 & w4 & Hrun3 & Hdel3).
  destruct (deleted_more _ "stats:total-entries" _ _ Hdel3) as (n4 & w5 & Hrun4 & Hdel4).
  rewrite <-(Happ "stats:hits") in Hrun2. rewrite <-(Happ "stats:misses") in Hrun3. rewrite <-(Happ "stats:total-entries") in Hrun4.
  exists w5. split; [|done]. rewrite (bind_run _ _ _ _ _ Hdel). cbn [promise_all]. unfold mbind, eff_bind, attempt.
  change (":stats:hits") with (":" +:+ "stats:hits"). change (":stats:misses") with (":" +:+ "stats:misses").
  change (":stats:total-entries") with (":" +:+ "stats:total-entries"). rewrite Hrun2. cbn. rewrite Hrun3. cbn. by rewrite Hrun4.
Qed.
End Invalidation.

(** deleting a namespace.  While Redis answers, exactly the keys that start with the namespace and a
    colon are deleted, values, metadata and statistics alike, and all of them are counted. *)
Theorem invalidateNamespace_spec `{!Redis DB, !RedisLaws DB, !HasRedis DB W, !Ticking W, !RedisServer, !RedisLens DB W}
    `{!RedisUp, !MonotoneServer, !Clock, !Crypto} ns (w : W) : glob_free (ns +:+ ":") = true → ∃ ks w',
  invalidateNamespace ns w = (Return (Z.of_nat (length ks)), w') ∧
  (∀ k, k ∈ ks ↔ is_Some (held k w) ∧ ∃ r, k = (ns +:+ ":") +:+ r) ∧
  (∀ r, held ((ns +:+ ":") +:+ r) w' = None) ∧
  (∀ k, (∀ r, k ≠ (ns +:+ ":") +:+ r) → held k w' = seen_at (server_at (tick w')) (held k w)).
Proof.
  intros Hg. destruct (namespace_run ns w Hg) as (ks & w' & Hrun & Hks & Hgone & Hkept). exists ks, w'. split; [done|]. split; [done|].
  split; [done|]. intros k Hk. by apply Hkept.
Qed.

(** an update of an asset.  The snapshots are deleted, but no price is: the keys of the prices are
    hashes, and a pattern that starts with the code of an asset, which is no hexadecimal digit in lower
    case, matches none of them.  Prices from before the update are served on. *)
Theorem asset_update_keeps_prices `{!Redis DB, !RedisLaws DB, !RedisServer, !RedisUp, !MonotoneServer, !Clock, !Crypto, !Sha256Hex}
    a code issuer updateType (w : MarketWorld DB) : hex_char a = false → glob_free (String a code) = true → ∃ w',
  handleAssetUpdate (String a code) issuer updateType w = (Return tt, w') ∧
  (∀ r, held ("market:snapshot:" +:+ r) w' = None) ∧
  (∀ key, leaves (market_generateCacheKey key CacheNamespace.PRICE_DATA) w w').
Proof.
  intros Ha Hg. set (P := CacheNamespace.PRICE_DATA +:+ ":" +:+ String a code).
  destruct (by_pattern_run (String a code) CacheNamespace.PRICE_DATA w) as (ks1 & w1 & Hrun1 & _ & [_ Hkept1]); [done|].
  destruct (namespace_run CacheNamespace.MARKET_SNAPSHOT w1) as (ks2 & w2 & Hrun2 & _ & [Hgone2 Hkept2]); [done|].
  eexists. split; [|split].
  - unfold handleAssetUpdate, try_catch. rewrite (bind_run _ _ _ _ _ Hrun1), (bind_run _ _ _ _ _ Hrun2). reflexivity.
  - intros r. exact (Hgone2 r).
  - intros key. destruct (market_key_hex key CacheNamespace.PRICE_DATA) as (b & r & -> & Hb).
    assert (leaves (CacheNamespace.PRICE_DATA +:+ ":" +:+ String b r) w w1) as Hl1.
    { apply Hkept1. intros r' Heq. rewrite <-!string_app_assoc in Heq. apply app_inj_l in Heq. rewrite !string_app_cons in Heq.
      injection Heq as -> _. congruence. }
    assert (leaves (CacheNamespace.PRICE_DATA +:+ ":" +:+ String b r) w1 w2) as Hl2 by (by apply Hkept2).
    exact (transitivity Hl1 Hl2).
Qed.

(** whatever an invalidation by hand names besides a namespace is ignored: with a namespace all of it is
    deleted, and without one nothing is. *)
Theorem manual_invalidation_ignores `{!Redis DB, !RedisServer, !Crypto} namespace keys pattern (w : MarketWorld DB) :
  handleManualInvalidation namespace keys pattern w =
    (Return tt, (emit (CacheInvalidated namespace keys pattern "Manual invalidation")
       (if bool_decide (or_string namespace EmptyString = EmptyString) then w
        else (invalidateNamespace (or_string namespace EmptyString) w).2)).2).
Proof.
  unfold handleManualInvalidation, try_catch. case_bool_decide as Hns; cbn [negb andb].
  - rewrite andb_false_r. destruct keys as [keys|]; by rewrite (bind_run (mret 0) _ w 0 w eq_refl).
  - destruct (total_invalidateNamespace (or_string namespace EmptyString) w) as (n & w1 & Hrun).
    rewrite (bind_run _ _ _ _ _ Hrun). by rewrite Hrun.
Qed.


(** * Outages *)

Section Outage.
Context {DB W : Type} `{!Redis DB, !HasRedis DB W, !Ticking W, !RedisServer, !Clock, !Crypto}.
Implicit Types (w : W).

Lemma total_fetch_snapshot f : total (fetchMarketSnapshot f : eff W _).
Proof. intros w. by eexists _, _. Qed.
Lemma total_fetch_price c i : total (fetchAssetPrice c i : eff W _).
Proof. intros w. by eexists _, _. Qed.
Lemma total_fetch_article id : total (fetchArticleById id : eff W _).
Proof. intros w. unfold fetchArticleById, mbind, eff_bind, delay. cbn. case_bool_decide; by eexists _, _. Qed.
Lemma total_fetch_news c l : total (fetchNews c l : eff W _).
Proof. unfold fetchNews. repeat (apply total_bind; [apply total_delay || apply total_date_now|intros ?]; cbv zeta). apply total_ret. Qed.
Lemma total_cached (b : bool) k ns : total (if negb b then market_get k ns else mret JNull : eff W _).
Proof. destruct b; [apply total_ret|apply total_get]. Qed.
Lemma total_snapshot f b : total (getMarketSnapshot f b : eff W _).
Proof.
  apply total_bind; [apply total_cached|]. intros v. destruct (truthy v); [apply total_ret|].
  apply total_bind; [apply total_fetch_snapshot|intros s]. apply total_bind; [apply total_set|intros _; apply total_ret].
Qed.
Lemma total_price c i : total (getAssetPrice c i : eff W _).
Proof.
  apply total_bind; [apply total_get|]. intros v. destruct (truthy v); [apply total_ret|].
  apply total_bind; [apply total_fetch_price|intros p]. apply total_bind; [|intros _; apply total_ret].
  destruct (truthy p); [apply total_set|apply total_ret].
Qed.
Lemma total_news c l b : total (getNews c l b : eff W _).
Proof.
  apply total_bind; [apply total_cached|]. intros v. destruct (truthy v); [apply total_ret|].
  apply total_bind; [apply total_fetch_news|intros s]. apply total_bind; [apply total_set|intros _; apply total_ret].
Qed.
Lemma total_article id : total (getArticleById id : eff W _).
Proof.
  apply total_bind; [apply total_get|]. intros v. destruct (truthy v); [apply total_ret|].
  apply total_bind; [apply total_fetch_article|intros a]. apply total_bind; [|intros _; apply total_ret].
  destruct (truthy a); [apply total_set|apply total_ret].
Qed.

(** Without Redis every reading of the cache is a miss. *)
Lemma outage_get k ns w : (∀ n, is_Some (server_fault n)) → ∃ w', market_get k ns w = (Return JNull, w').
Proof.
  intros Hdown. destruct (Hdown (tick w)) as [e He]. unfold market_get, try_catch. cbv zeta.
  rewrite (bind_throw _ _ _ e (advance w)); [by eexists|]. unfold command. by rewrite He.
Qed.
Lemma outage_snapshot f b w : (∀ n, is_Some (server_fault n)) → ∃ t, (getMarketSnapshot f b w).1 = Return (snapshot_json (filteredAssets f) t).
Proof.
  intros Hdown. unfold getMarketSnapshot. cbv zeta.
  assert (∃ w1, (if negb b then market_get (generateMarketSnapshotKey f) CacheNamespace.MARKET_SNAPSHOT else mret JNull : eff W jsval) w = (Return JNull, w1)) as [w1 Hget]
    by (destruct b; [by exists w|by apply outage_get]).
  rewrite (bind_run _ _ _ _ _ Hget). cbn [truthy]. set (t := clock_at (tick (advance w1))). exists t.
  assert (fetchMarketSnapshot f w1 = (Return (snapshot_json (filteredAssets f) t), advance (advance w1))) as Hf by reflexivity.
  rewrite (bind_run _ _ _ _ _ Hf). destruct (total_set (generateMarketSnapshotKey f) (snapshot_json (filteredAssets f) t) CacheNamespace.MARKET_SNAPSHOT None
    (advance (advance w1))) as ([] & w2 & Hset). by rewrite (bind_run _ _ _ _ _ Hset).
Qed.
Lemma outage_price c i w : (∀ n, is_Some (server_fault n)) →
  (getAssetPrice c i w).1 = Return (default JNull (asset_json <$> mockPrices (c +:+ ":" +:+ i))).
Proof.
  intros Hdown. unfold getAssetPrice. cbv zeta. destruct (outage_get (c +:+ ":" +:+ i) CacheNamespace.PRICE_DATA w Hdown) as [w1 Hget].
  rewrite (bind_run _ _ _ _ _ Hget). cbn [truthy]. set (v := default JNull _).
  assert (fetchAssetPrice c i w1 = (Return v, advance w1)) as Hf by reflexivity.
  rewrite (bind_run _ _ _ _ _ Hf). destruct (truthy v); [|done].
  destruct (total_set (c +:+ ":" +:+ i) v CacheNamespace.PRICE_DATA None (advance w1)) as ([] & w2 & Hset). by rewrite (bind_run _ _ _ _ _ Hset).
Qed.
End Outage.

(** the sources survive the cache.  Whichever commands fail, a request for prices or news is answered;
    and when all of them fail, with data that was fetched for it. *)
Theorem market_survives_outage `{!Redis DB, !HasRedis DB W, !Ticking W, !RedisServer, !Clock, !Crypto} f b code issuer category limit id (w : W) :
  returned (getMarketSnapshot f b w).1 = true ∧ returned (getAssetPrice code issuer w).1 = true ∧
  returned (getNews category limit b w).1 = true ∧ returned (getArticleById id w).1 = true ∧
  ((∀ n, is_Some (server_fault n)) → ∃ t, (getMarketSnapshot f b w).1 = Return (snapshot_json (filteredAssets f) t) ∧
    (getAssetPrice code issuer w).1 = Return (default JNull (asset_json <$> mockPrices (code +:+ ":" +:+ issuer)))).
Proof.
  assert (∀ A (m : eff W A), total m → returned (m w).1 = true) as Htotal by (intros A m Hm; by destruct (Hm w) as (a & w' & ->)).
  split_and!.
  - apply Htotal, total_snapshot.
  - apply Htotal, total_price.
  - apply Htotal, total_news.
  - apply Htotal, total_article.
  - intros Hdown. destruct (outage_snapshot f b w Hdown) as [t Ht]. exists t. split; [exact Ht|by apply outage_price].
Qed.

