(* ===== verification/CampaignForm.v ===== *)
(** The form of a campaign ([src/Frontend/web/src/types/campaign.ts]) and the schemas that check it
    ([validation/campaignSchemas.ts]).

    A schema is the conjunction of its checks: the library accepts a value when all of them hold.  Numbers are rationals
    besides [NaN] and the infinities, and texts are measured in characters of ASCII. *)
From S2P Require Import Prelude Json JsonParse.
From Stdlib Require Import QArith Ascii.
Open Scope Z_scope.

(** ** Numbers and dates *)

Inductive jsnum := NaN | Num (q : Q) | Infinite (negative : bool).
Definition jsnum_le (a b : jsnum) : bool :=
  match a, b with
  | Num p, Num q => Qle_bool p q
  | Infinite true, (Num _ | Infinite _) | Num _, Infinite false | Infinite false, Infinite false => true
  | _, _ => false
  end.
Definition jsnum_lt (a b : jsnum) : bool :=
  match a, b with NaN, _ | _, NaN => false | _, _ => negb (jsnum_le b a) end.
Definition jsnum_add (a b : jsnum) : jsnum :=
  match a, b with
  | Num p, Num q => Num (p + q)
  | NaN, _ | _, NaN => NaN
  | Infinite s, Infinite s' => if Bool.eqb s s' then Infinite s else NaN
  | Infinite s, _ | _, Infinite s => Infinite s
  end.
(** [Math.abs(a) < b] *)
Definition abs_below (a : jsnum) (b : Q) : bool :=
  match a with Num q => Qle_bool q b && Qle_bool (- b) q && negb (Qeq_bool q b) && negb (Qeq_bool q (- b)) | _ => false end.
Definition is_number (a : jsnum) : bool := match a with NaN => false | _ => true end.

(** A value where the type says [Date]: a date, an invalid one, the text that a date is stored as, or
    [null], as which an invalid one is stored. *)
Inductive form_date := DateObject (t : Z) | InvalidDate | DateText (s : string) | DateNull.
Definition date_value (d : form_date) : option Z := match d with DateObject t => Some t | _ => None end.

(** [parseFloat(s)], without rounding, overflow and underflow. *)
Fixpoint digits_of (n : Z) (count : nat) (s : string) : Z * nat * string :=
  match s with
  | String a s' => match digit_of a with Some d => digits_of (n * 10 + Z.of_N d) (S count) s' | None => (n, count, s) end
  | EmptyString => (n, count, EmptyString)
  end.
Definition scaled (n e : Z) : Q := if bool_decide (0 <= e) then inject_Z (n * 10 ^ e) else n # Z.to_pos (10 ^ (- e)).
(** The exponent at the front of a text, zero if there is none. *)
Definition exponent_of (s : string) : Z :=
  match s with
  | String a s =>
      if bool_decide (a = "e"%char ∨ a = "E"%char) then
        match s with
        | String b s' =>
            if bool_decide (b = "-"%char) then - (digits_of 0 0 s').1.1 else if bool_decide (b = "+"%char) then (digits_of 0 0 s').1.1 else (digits_of 0 0 s).1.1
        | EmptyString => 0
        end
      else 0
  | EmptyString => 0
  end.
Definition unsigned_of (s : string) : jsnum :=
  if String.prefix "Infinity" s then Infinite false else
  let '(whole, n, s) := digits_of 0 0 s in
  let '(mantissa, m, s') := match s with String a s' => if bool_decide (a = "."%char) then digits_of whole 0 s' else (whole, 0%nat, s) | EmptyString => (whole, 0%nat, s) end in
  if bool_decide (n + m = 0)%nat then NaN else Num (scaled mantissa (exponent_of s' - Z.of_nat m)).
Definition negate (a : jsnum) : jsnum := match a with Num q => Num (- q) | Infinite s => Infinite (negb s) | NaN => NaN end.
Definition parseFloat (s : string) : jsnum :=
  match trim_start s with
  | String a s' => if bool_decide (a = "-"%char) then negate (unsigned_of s') else if bool_decide (a = "+"%char) then unsigned_of s' else unsigned_of (String a s')
  | EmptyString => NaN
  end.

(** ** The form *)

Inductive VerificationType := single_agent | multi_party | satellite_cross_check.
Inductive AssetType := USDC | XLM.
Inductive RoiStructure := fixed_return | revenue_share.
Inductive FarmSizeUnit := hectares | acres.
Inductive CampaignStatus := draft | submitted | deployed.

Record EvidenceRequirements := mkEvidenceRequirements { er_photos : bool; er_gps : bool; er_satelliteCrossCheck : bool }.
Record MilestoneConfig := mkMilestoneConfig {
  mi_id : option string; mi_name : string; mi_description : string; mi_targetDate : form_date; mi_verificationType : VerificationType;
  mi_requiredAgentCount : option jsnum; mi_stakingRequirement : option string; mi_releasePercentage : jsnum;
  mi_evidenceRequirements : EvidenceRequirements; mi_bufferDays : jsnum }.
Record CampaignLocation := mkCampaignLocation { lo_latitude : jsnum; lo_longitude : jsnum; lo_address : string }.
Record MilestoneWindow := mkMilestoneWindow { mw_startDate : form_date; mw_endDate : form_date; mw_bufferDays : jsnum }.
Record AgentRequirements := mkAgentRequirements {
  ar_minStakeAmount : string; ar_requiredAgentCount : jsnum; ar_multiSigRequired : bool; ar_multiSigThreshold : option jsnum }.

Record CampaignFormData := mkCampaignFormData {
  cf_name : string; cf_description : string; cf_cropType : string; cf_location : CampaignLocation; cf_farmSize : jsnum; cf_farmSizeUnit : FarmSizeUnit;
  cf_targetAmount : string; cf_assetType : AssetType; cf_roiStructure : RoiStructure;
  cf_fixedReturnPercentage : option jsnum; cf_revenueSharePercentage : option jsnum;
  cf_startDate : form_date; cf_expectedHarvestDate : form_date; cf_milestoneWindows : list MilestoneWindow;
  cf_milestones : list MilestoneConfig; cf_agentRequirements : AgentRequirements;
  cf_status : CampaignStatus; cf_lastSaved : option form_date }.

(** ** The schemas *)

Definition length_between (a b : nat) (s : string) : bool := bool_decide (a ≤ String.length s ≤ b)%nat.
Definition number_between (a b : Q) (n : jsnum) : bool := is_number n && jsnum_le (Num a) n && jsnum_le n (Num b).
Definition optional {A} (check : A → bool) (o : option A) : bool := match o with Some a => check a | None => true end.
Definition some_positive (o : option jsnum) : bool := match o with Some n => jsnum_lt (Num 0) n | None => false end.
(** [!isNaN(parseFloat(val)) && parseFloat(val) > 0], and with [>= 0]. *)
Definition positive_amount (s : string) : bool := is_number (parseFloat s) && jsnum_lt (Num 0) (parseFloat s).
Definition valid_amount (s : string) : bool := is_number (parseFloat s) && jsnum_le (Num 0) (parseFloat s).
(** The five times that [new Date()] reads while the module is loaded, in their order: for the two dates of
    [timelineSchema], the one of [milestoneSchema] and the two of [campaignFormSchema]. *)
Record Loaded := mkLoaded {
  timeline_start : Z; timeline_harvest : Z; milestone_target : Z; form_start : Z; form_harvest : Z }.

(** [z.date()], and with [.min(new Date())]. *)
Definition is_date (d : form_date) : bool := bool_decide (is_Some (date_value d)).
Definition date_from (min : Z) (d : form_date) : bool := match date_value d with Some t => bool_decide (min <= t) | None => false end.
Definition date_after (a b : form_date) : bool := match date_value a, date_value b with Some a, Some b => bool_decide (b < a) | _, _ => false end.

Definition location_valid (l : CampaignLocation) : bool :=
  number_between (-90) 90 (lo_latitude l) && number_between (-180) 180 (lo_longitude l) && length_between 5 200 (lo_address l).
Definition basicInfoSchema (f : CampaignFormData) : bool :=
  length_between 3 100 (cf_name f) && length_between 10 1000 (cf_description f) && length_between 2 50 (cf_cropType f) &&
  location_valid (cf_location f) && number_between (1 # 10) 10000 (cf_farmSize f).

Definition roi_given (f : CampaignFormData) : bool :=
  match cf_roiStructure f with
  | fixed_return => some_positive (cf_fixedReturnPercentage f)
  | revenue_share => some_positive (cf_revenueSharePercentage f)
  end.
Definition financialTermsSchema (f : CampaignFormData) : bool :=
  bool_decide (1 ≤ String.length (cf_targetAmount f))%nat && positive_amount (cf_targetAmount f) &&
  optional (number_between 0 100) (cf_fixedReturnPercentage f) && optional (number_between 0 100) (cf_revenueSharePercentage f) && roi_given f.

Definition window_valid (m : MilestoneWindow) : bool := is_date (mw_startDate m) && is_date (mw_endDate m) && number_between 0 30 (mw_bufferDays m).
Definition timelineSchema (loaded : Loaded) (f : CampaignFormData) : bool :=
  date_from (timeline_start loaded) (cf_startDate f) && date_from (timeline_harvest loaded) (cf_expectedHarvestDate f) && forallb window_valid (cf_milestoneWindows f) &&
  date_after (cf_expectedHarvestDate f) (cf_startDate f).

Definition milestoneSchema (loaded : Loaded) (m : MilestoneConfig) : bool :=
  length_between 3 100 (mi_name m) && length_between 10 500 (mi_description m) && date_from (milestone_target loaded) (mi_targetDate m) &&
  optional (number_between 1 10) (mi_requiredAgentCount m) &&
  optional (λ s, bool_decide (1 ≤ String.length s)%nat && valid_amount s) (mi_stakingRequirement m) &&
  number_between 1 100 (mi_releasePercentage m) && number_between 0 30 (mi_bufferDays m).
Definition totalPercentage (milestones : list MilestoneConfig) : jsnum := foldl (λ sum m, jsnum_add sum (mi_releasePercentage m)) (Num 0) milestones.
Definition total_is_100 (milestones : list MilestoneConfig) : bool := abs_below (jsnum_add (totalPercentage milestones) (Num (-100))) (1 # 100).
Definition milestoneDefinitionSchema (loaded : Loaded) (f : CampaignFormData) : bool :=
  forallb (milestoneSchema loaded) (cf_milestones f) && bool_decide (3 ≤ length (cf_milestones f) ≤ 6)%nat && total_is_100 (cf_milestones f).

Definition threshold_met (r : AgentRequirements) : bool :=
  if ar_multiSigRequired r then match ar_multiSigThreshold r with Some t => jsnum_le t (ar_requiredAgentCount r) | None => false end else true.
Definition verificationSetupSchema (f : CampaignFormData) : bool :=
  let r := cf_agentRequirements f in
  bool_decide (1 ≤ String.length (ar_minStakeAmount r))%nat && positive_amount (ar_minStakeAmount r) && number_between 1 10 (ar_requiredAgentCount r) &&
  optional (number_between 2 10) (ar_multiSigThreshold r) && threshold_met r.

(** The whole form, before it is submitted. *)
Definition campaignFormSchema (loaded : Loaded) (f : CampaignFormData) : bool :=
  let r := cf_agentRequirements f in
  length_between 3 100 (cf_name f) && length_between 10 1000 (cf_description f) && length_between 2 50 (cf_cropType f) &&
  location_valid (cf_location f) && number_between (1 # 10) 10000 (cf_farmSize f) &&
  positive_amount (cf_targetAmount f) && optional (number_between 0 100) (cf_fixedReturnPercentage f) &&
  optional (number_between 0 100) (cf_revenueSharePercentage f) &&
  date_from (form_start loaded) (cf_startDate f) && date_from (form_harvest loaded) (cf_expectedHarvestDate f) && forallb window_valid (cf_milestoneWindows f) &&
  forallb (milestoneSchema loaded) (cf_milestones f) && bool_decide (3 ≤ length (cf_milestones f) ≤ 6)%nat &&
  positive_amount (ar_minStakeAmount r) && number_between 1 10 (ar_requiredAgentCount r) && optional (number_between 2 10) (ar_multiSigThreshold r) &&
  optional is_date (cf_lastSaved f) &&
  date_after (cf_expectedHarvestDate f) (cf_startDate f) && roi_given f && total_is_100 (cf_milestones f).
