(* ===== verification/CampaignWizard.v ===== *)
(** The wizard that makes a campaign: its store ([src/Frontend/web/src/store/campaignWizardStore.ts]) and what its components
    ([components/wizard/]) do with it.  The library zustand keeps the store and writes part of it to the browser's storage.

    A form of a step sends its values and whether they are valid to the store ([updateBasicInfo], ..., [setStepValidation]);
    what it does besides is the form library's. *)
From S2P Require Import Prelude Json CampaignForm.
From Stdlib Require Import QArith.
Open Scope Z_scope.

Module WizardStep.
Inductive t := basic_info | financial_terms | timeline | milestone_definition | verification_setup | review_submit.
#[global] Instance t_eq_dec : EqDecision t.
Proof. solve_decision. Defined.
Definition to_string (s : t) : string :=
  match s with
  | basic_info => "basic-info" | financial_terms => "financial-terms" | timeline => "timeline"
  | milestone_definition => "milestone-definition" | verification_setup => "verification-setup" | review_submit => "review-submit"
  end.
End WizardStep.
Definition stepOrder : list WizardStep.t :=
  [WizardStep.basic_info; WizardStep.financial_terms; WizardStep.timeline; WizardStep.milestone_definition; WizardStep.verification_setup; WizardStep.review_submit].

(** [Partial<CampaignFormData>]: a property that is there overrides, with [undefined] too where it may be. *)
Record CampaignFormUpdate := mkCampaignFormUpdate {
  up_name : option string; up_description : option string; up_cropType : option string; up_location : option CampaignLocation; up_farmSize : option jsnum; up_farmSizeUnit : option FarmSizeUnit; up_targetAmount : option string; up_assetType : option AssetType; up_roiStructure : option RoiStructure; up_fixedReturnPercentage : option (option jsnum); up_revenueSharePercentage : option (option jsnum); up_startDate : option form_date; up_expectedHarvestDate : option form_date; up_milestoneWindows : option (list MilestoneWindow); up_milestones : option (list MilestoneConfig); up_agentRequirements : option AgentRequirements; up_status : option CampaignStatus; up_lastSaved : option (option form_date) }.
Definition spread_form (f : CampaignFormData) (data : CampaignFormUpdate) : CampaignFormData :=
  mkCampaignFormData (default (cf_name f) (up_name data)) (default (cf_description f) (up_description data)) (default (cf_cropType f) (up_cropType data)) (default (cf_location f) (up_location data)) (default (cf_farmSize f) (up_farmSize data)) (default (cf_farmSizeUnit f) (up_farmSizeUnit data)) (default (cf_targetAmount f) (up_targetAmount data)) (default (cf_assetType f) (up_assetType data)) (default (cf_roiStructure f) (up_roiStructure data)) (default (cf_fixedReturnPercentage f) (up_fixedReturnPercentage data)) (default (cf_revenueSharePercentage f) (up_revenueSharePercentage data)) (default (cf_startDate f) (up_startDate data)) (default (cf_expectedHarvestDate f) (up_expectedHarvestDate data)) (default (cf_milestoneWindows f) (up_milestoneWindows data)) (default (cf_milestones f) (up_milestones data)) (default (cf_agentRequirements f) (up_agentRequirements data)) (default (cf_status f) (up_status data)) (default (cf_lastSaved f) (up_lastSaved data)).
Definition set_milestones (v : list MilestoneConfig) (f : CampaignFormData) : CampaignFormData :=
  mkCampaignFormData (cf_name f) (cf_description f) (cf_cropType f) (cf_location f) (cf_farmSize f) (cf_farmSizeUnit f) (cf_targetAmount f) (cf_assetType f) (cf_roiStructure f) (cf_fixedReturnPercentage f) (cf_revenueSharePercentage f) (cf_startDate f) (cf_expectedHarvestDate f) (cf_milestoneWindows f) v (cf_agentRequirements f) (cf_status f) (cf_lastSaved f).
(** [Partial<MilestoneConfig>] *)
Record MilestoneUpdate := mkMilestoneUpdate {
  um_id : option (option string); um_name : option string; um_description : option string; um_targetDate : option form_date; um_verificationType : option VerificationType; um_requiredAgentCount : option (option jsnum); um_stakingRequirement : option (option string); um_releasePercentage : option jsnum; um_evidenceRequirements : option EvidenceRequirements; um_bufferDays : option jsnum }.
Definition spread_milestone (m : MilestoneConfig) (data : MilestoneUpdate) : MilestoneConfig :=
  mkMilestoneConfig (default (mi_id m) (um_id data)) (default (mi_name m) (um_name data)) (default (mi_description m) (um_description data)) (default (mi_targetDate m) (um_targetDate data)) (default (mi_verificationType m) (um_verificationType data)) (default (mi_requiredAgentCount m) (um_requiredAgentCount data)) (default (mi_stakingRequirement m) (um_stakingRequirement data)) (default (mi_releasePercentage m) (um_releasePercentage data)) (default (mi_evidenceRequirements m) (um_evidenceRequirements data)) (default (mi_bufferDays m) (um_bufferDays data)).

(** [JSON.parse(JSON.stringify(x))]: dates come back as texts, an invalid one, [NaN] and the infinities as [null],
    which is no date and no number. *)
Definition stored_date (d : form_date) : form_date := match d with DateObject t => DateText (iso_time t) | InvalidDate => DateNull | _ => d end.
Definition stored_number (n : jsnum) : jsnum := match n with Infinite _ => NaN | _ => n end.
Definition stored_window (m : MilestoneWindow) : MilestoneWindow :=
  mkMilestoneWindow (stored_date (mw_startDate m)) (stored_date (mw_endDate m)) (stored_number (mw_bufferDays m)).
Definition stored_location (l : CampaignLocation) : CampaignLocation := mkCampaignLocation (stored_number (lo_latitude l)) (stored_number (lo_longitude l)) (lo_address l).
Definition stored_milestone (m : MilestoneConfig) : MilestoneConfig :=
  mkMilestoneConfig (mi_id m) (mi_name m) (mi_description m) (stored_date (mi_targetDate m)) (mi_verificationType m) (stored_number <$> mi_requiredAgentCount m)
    (mi_stakingRequirement m) (stored_number (mi_releasePercentage m)) (mi_evidenceRequirements m) (stored_number (mi_bufferDays m)).
Definition stored_agents (r : AgentRequirements) : AgentRequirements :=
  mkAgentRequirements (ar_minStakeAmount r) (stored_number (ar_requiredAgentCount r)) (ar_multiSigRequired r) (stored_number <$> ar_multiSigThreshold r).
Definition stored_form (f : CampaignFormData) : CampaignFormData :=
  mkCampaignFormData (cf_name f) (cf_description f) (cf_cropType f) (stored_location (cf_location f)) (stored_number (cf_farmSize f)) (cf_farmSizeUnit f) (cf_targetAmount f) (cf_assetType f) (cf_roiStructure f) (stored_number <$> cf_fixedReturnPercentage f) (stored_number <$> cf_revenueSharePercentage f) (stored_date (cf_startDate f)) (stored_date (cf_expectedHarvestDate f)) (stored_window <$> cf_milestoneWindows f) (stored_milestone <$> cf_milestones f) (stored_agents (cf_agentRequirements f)) (cf_status f) (stored_date <$> cf_lastSaved f).

(** ** The store *)

Record CampaignWizardState := mkCampaignWizardState {
  currentStep : WizardStep.t; formData : CampaignFormData; stepValidation : WizardStep.t → bool; isAutoSaving : bool; wz_lastSaved : option form_date }.

(** [now] is the time when the module was loaded. *)
Definition initialFormData (now : Z) : CampaignFormData :=
  mkCampaignFormData "" "" "" (mkCampaignLocation (Num 0) (Num 0) "") (Num 0) hectares "" USDC fixed_return (Some (Num 0)) (Some (Num 0))
    (DateObject now) (DateObject now) [] [] (mkAgentRequirements "" (Num 1) false (Some (Num 2))) draft None.
Definition initialState (now : Z) : CampaignWizardState :=
  mkCampaignWizardState WizardStep.basic_info (initialFormData now) (λ _, false) false None.

Module Scenario.
Inductive t := optimistic | expected | pessimistic.
End Scenario.

Section Store.
Implicit Types (s : CampaignWizardState).

Definition setCurrentStep (step : WizardStep.t) s : CampaignWizardState := mkCampaignWizardState step (formData s) (stepValidation s) (isAutoSaving s) (wz_lastSaved s).
Definition set_formData (f : CampaignFormData) s : CampaignWizardState := mkCampaignWizardState (currentStep s) f (stepValidation s) (isAutoSaving s) (wz_lastSaved s).
(** [stepOrder.indexOf(step)] *)
Definition step_index (step : WizardStep.t) : nat := default 0%nat (fst <$> list_find (λ x, x = step) stepOrder).
Definition nextStep s : CampaignWizardState :=
  let currentIndex := step_index (currentStep s) in
  if bool_decide (currentIndex < length stepOrder - 1)%nat
  then match stepOrder !! S currentIndex with Some step => setCurrentStep step s | None => s end else s.
Definition previousStep s : CampaignWizardState :=
  let currentIndex := step_index (currentStep s) in
  if bool_decide (0 < currentIndex)%nat
  then match stepOrder !! pred currentIndex with Some step => setCurrentStep step s | None => s end else s.
Definition updateFormData (data : CampaignFormUpdate) s : CampaignWizardState := set_formData (spread_form (formData s) data) s.
Definition updateBasicInfo := updateFormData.
Definition updateFinancialTerms := updateFormData.
Definition updateTimeline := updateFormData.
Definition updateVerificationSetup := updateFormData.
Definition update_milestones (f : list MilestoneConfig → list MilestoneConfig) s : CampaignWizardState :=
  set_formData (set_milestones (f (cf_milestones (formData s))) (formData s)) s.
Definition addMilestone (milestone : MilestoneConfig) s : CampaignWizardState := update_milestones (λ l, l ++ [milestone]) s.
Definition updateMilestone (index : nat) (milestone : MilestoneUpdate) s : CampaignWizardState :=
  update_milestones (imap (λ i m, if bool_decide (i = index) then spread_milestone m milestone else m)) s.
(** [filter((_, i) => i !== index)] *)
Fixpoint without {A} (index : nat) (l : list A) : list A :=
  match l, index with [], _ => [] | _ :: l, O => l | x :: l, S index => x :: without index l end.
Definition removeMilestone (index : nat) s : CampaignWizardState := update_milestones (without index) s.
Definition setStepValidation (step : WizardStep.t) (isValid : bool) s : CampaignWizardState :=
  mkCampaignWizardState (currentStep s) (formData s) (λ x, if bool_decide (x = step) then isValid else stepValidation s x) (isAutoSaving s) (wz_lastSaved s).
Definition setAutoSaving (isSaving : bool) s : CampaignWizardState := mkCampaignWizardState (currentStep s) (formData s) (stepValidation s) isSaving (wz_lastSaved s).
Definition setLastSaved (date : form_date) s : CampaignWizardState := mkCampaignWizardState (currentStep s) (formData s) (stepValidation s) (isAutoSaving s) (Some date).
Definition resetWizard (now : Z) s : CampaignWizardState := initialState now.
Definition canProceed s : bool := stepValidation s (currentStep s).

(** The page is loaded anew: what [partialize] keeps comes back from the storage. *)
Definition reload s : CampaignWizardState :=
  mkCampaignWizardState (currentStep s) (stored_form (formData s)) (stepValidation s) false (stored_date <$> wz_lastSaved s).

(** ** The components *)

Definition wizard_completedSteps s : list nat :=
  filter (λ index, match stepOrder !! index with Some step => stepValidation s step | None => false end = true) (seq 0 (step_index (currentStep s))).
Definition handleStepClick (stepIndex : nat) s : CampaignWizardState :=
  match stepOrder !! stepIndex with
  | Some step => if bool_decide (stepIndex < step_index (currentStep s))%nat || stepValidation s step then setCurrentStep step s else s
  | None => s
  end.
(** The button of a step in [Stepper]. *)
Definition stepper_click (index : nat) s : CampaignWizardState :=
  if bool_decide (index ∈ wizard_completedSteps s) || bool_decide (index < step_index (currentStep s))%nat then handleStepClick index s else s.
Definition handleNext s : CampaignWizardState := if canProceed s then nextStep s else s.
Definition handlePrevious s : CampaignWizardState := previousStep s.

(** [AutoSaveIndicator]: its text, or the exception that rendering it throws. *)
Definition formatLastSaved (now : Z) (locale_time : Z → string) (date : form_date) : outcome string :=
  match date with
  | DateText _ => Throw (TypeError "date.getTime is not a function")
  | DateNull => Throw (TypeError "Cannot read properties of null (reading 'getTime')")
  | InvalidDate => Return "Saved Invalid Date"
  | DateObject t =>
      let diffSecs := (now - t) / 1000 in
      let diffMins := diffSecs / 60 in
      Return (if bool_decide (diffSecs < 60) then "Saved " +:+ pretty diffSecs +:+ "s ago"
              else if bool_decide (diffMins < 60) then "Saved " +:+ pretty diffMins +:+ "m ago"
              else "Saved " +:+ locale_time t)
  end.
(** [date ?] *)
Definition date_truthy (date : form_date) : bool :=
  match date with DateNull => false | DateText s => negb (bool_decide (s = EmptyString)) | _ => true end.
Definition AutoSaveIndicator (now : Z) (locale_time : Z → string) s : outcome string :=
  if isAutoSaving s then Return "Saving..."
  else match wz_lastSaved s with
       | Some date => if date_truthy date then formatLastSaved now locale_time date else Return "Auto-save enabled"
       | None => Return "Auto-save enabled"
       end.

(** [ReviewSubmitStep] *)
Definition validateCampaign (loaded : Loaded) s : bool := campaignFormSchema loaded (formData s).
Record GasEstimate := mkGasEstimate { ge_gasUnits : Z; ge_estimatedCost : Q (* before [toFixed(4)] *) }.
Definition calculateGasEstimate s : GasEstimate :=
  let milestoneGas := Z.of_nat (length (cf_milestones (formData s))) * 50000 in
  let totalGas := 100000 + milestoneGas in
  mkGasEstimate totalGas (inject_Z totalGas * (1 # 100000))%Q.

Record Returns := mkReturns { re_totalRevenue : Q; re_investorReturn : Q; re_farmerProceeds : Q }.
Definition multiplier (scenario : Scenario.t) : Q := match scenario with Scenario.optimistic => 13 # 10 | Scenario.expected => 115 # 100 | Scenario.pessimistic => 9 # 10 end.
(** [n || 0], of finite numbers. *)
Definition finite_or_zero (n : jsnum) : Q := match n with Num q => q | _ => 0%Q end.
Definition simulateReturns (scenario : Scenario.t) s : Returns :=
  let targetAmount := finite_or_zero (parseFloat (cf_targetAmount (formData s))) in
  let totalRevenue := (targetAmount * multiplier scenario)%Q in
  let percentage o := finite_or_zero (default (Num 0) o) in
  let investorReturn :=
    match cf_roiStructure (formData s) with
    | fixed_return => (targetAmount * (1 + percentage (cf_fixedReturnPercentage (formData s)) / 100))%Q
    | revenue_share => (totalRevenue * (percentage (cf_revenueSharePercentage (formData s)) / 100))%Q
    end in
  mkReturns totalRevenue investorReturn (totalRevenue - investorReturn)%Q.
End Store.
