(* ===== verification/CampaignFacts.v ===== *)
(** The wizard of campaigns: what the schemas of its steps and of the whole form say together, which steps can be entered, and
    what a reload of the page makes of it. *)
From S2P Require Import Prelude Json JsonParse CampaignForm CampaignWizard.
From Stdlib Require Import QArith Ascii Lqa.
Open Scope Z_scope.

Example parseFloat_number : parseFloat " 12.50 XLM" = Num (1250 # 100).
Proof. reflexivity. Qed.
Example parseFloat_exponent : parseFloat "-2e3" = Num (-2000).
Proof. reflexivity. Qed.
Example parseFloat_text : parseFloat "abc" = NaN ∧ parseFloat "." = NaN ∧ parseFloat "Infinity" = Infinite false.
Proof. done. Qed.

(** ** The schemas *)

Lemma positive_not_empty s : positive_amount s = true → bool_decide (1 ≤ String.length s)%nat = true.
Proof. destruct s as [|a s]; [done|]. intros _. apply bool_decide_eq_true_2. cbn. lia. Qed.

(** The readings are in the order of the module. *)
Definition in_order (loaded : Loaded) : Prop :=
  timeline_start loaded <= form_start loaded ∧ timeline_harvest loaded <= form_harvest loaded.
Definition set_multiSigRequired (required : bool) (f : CampaignFormData) : CampaignFormData :=
  let r := cf_agentRequirements f in
  mkCampaignFormData (cf_name f) (cf_description f) (cf_cropType f) (cf_location f) (cf_farmSize f) (cf_farmSizeUnit f) (cf_targetAmount f) (cf_assetType f)
    (cf_roiStructure f) (cf_fixedReturnPercentage f) (cf_revenueSharePercentage f) (cf_startDate f) (cf_expectedHarvestDate f) (cf_milestoneWindows f) (cf_milestones f)
    (mkAgentRequirements (ar_minStakeAmount r) (ar_requiredAgentCount r) required (ar_multiSigThreshold r)) (cf_status f) (cf_lastSaved f).

Lemma date_from_earlier a b d : a <= b → date_from b d = true → date_from a d = true.
Proof. intros Hab. unfold date_from. destruct (date_value d) as [t|]; [|done]. rewrite !bool_decide_eq_true. lia. Qed.

(** C38: what the schema of the whole form and those of the steps say of each other.  The whole form is accepted
    with a threshold that is met exactly when every step is accepted, the date of the last save is a date if
    there is one, and both dates of the timeline are not before the later times at which the schema of the whole
    form was made.  Without the threshold it is not so: whether several signatures are required makes no
    difference to the schema of the whole form, but if they are, a threshold that is missing or above the number
    of agents is refused by the step. *)
Theorem submission_checks loaded f (Horder : in_order loaded) :
  campaignFormSchema loaded f && threshold_met (cf_agentRequirements f) =
  basicInfoSchema f && financialTermsSchema f && timelineSchema loaded f && milestoneDefinitionSchema loaded f && verificationSetupSchema f &&
    (optional is_date (cf_lastSaved f) && date_from (form_start loaded) (cf_startDate f) && date_from (form_harvest loaded) (cf_expectedHarvestDate f)) ∧
  (∀ required, campaignFormSchema loaded (set_multiSigRequired required f) = campaignFormSchema loaded f) ∧
  (match ar_multiSigThreshold (cf_agentRequirements f) with Some t => jsnum_le t (ar_requiredAgentCount (cf_agentRequirements f)) = false | None => True end →
   verificationSetupSchema (set_multiSigRequired true f) = false).
Proof.
  destruct Horder as [Hos Hoh]. split; [|split; [done|]].
  - unfold basicInfoSchema, financialTermsSchema, timelineSchema, milestoneDefinitionSchema, verificationSetupSchema, campaignFormSchema. cbv zeta.
    pose proof (positive_not_empty (cf_targetAmount f)) as Ht. pose proof (positive_not_empty (ar_minStakeAmount (cf_agentRequirements f))) as Hs.
    pose proof (date_from_earlier _ _ (cf_startDate f) Hos) as Hds. pose proof (date_from_earlier _ _ (cf_expectedHarvestDate f) Hoh) as Hdh.
    apply eq_iff_eq_true. rewrite !andb_true_iff. split; intros Hall; decompose [and] Hall; clear Hall; repeat split; auto.
  - intros Ht. unfold verificationSetupSchema. cbv zeta. apply andb_false_intro2. unfold threshold_met. cbn.
    by destruct (ar_multiSigThreshold _).
Qed.

(** One agent is to be enough for two signatures: the whole form is accepted. *)
Definition a_milestone (percentage : Q) : MilestoneConfig :=
  mkMilestoneConfig None "Planting" "Seeds are in the ground" (DateObject 10) single_agent None None (Num percentage) (mkEvidenceRequirements true true false) (Num 7).
Definition a_form : CampaignFormData :=
  mkCampaignFormData "Maize" "Maize on ten hectares" "Maize" (mkCampaignLocation (Num 0) (Num 0) "Nakuru") (Num 10) hectares "1000" USDC fixed_return (Some (Num 5)) None
    (DateObject 5) (DateObject 20) [] [a_milestone 30; a_milestone 30; a_milestone 40] (mkAgentRequirements "100" (Num 1) true (Some (Num 2))) draft None.
Definition loaded_at (t : Z) : Loaded := mkLoaded t t t t t.
Example threshold_not_checked : campaignFormSchema (loaded_at 0) a_form = true ∧ verificationSetupSchema a_form = false.
Proof. vm_compute. done. Qed.
Lemma submission_checks_witness :
  campaignFormSchema (loaded_at 0) a_form && threshold_met (cf_agentRequirements a_form) = false ∧
  campaignFormSchema (loaded_at 0) (set_multiSigRequired false a_form) = true ∧ verificationSetupSchema (set_multiSigRequired true a_form) = false.
Proof.
  destruct (submission_checks (loaded_at 0) a_form ltac:(split; done)) as (Heq & Hreq & Hbad). split; [|split].
  - rewrite Heq. by vm_compute.
  - rewrite Hreq. by vm_compute.
  - apply Hbad. by vm_compute.
Defined.

(** The schemas only know the time at which the page was loaded: dates that have passed since are accepted. *)
Example past_dates_accepted : timelineSchema (loaded_at 0) a_form = true ∧ timelineSchema (loaded_at 6) a_form = false.
Proof. vm_compute. done. Qed.

(** ** Steps *)

Section Steps.
Implicit Types (s : CampaignWizardState).
(** What a user, the forms and the timers do. *)
Inductive wizard_event :=
| ClickStep (index : nat) | ClickNext | ClickPrevious
| FormChange (data : CampaignFormUpdate) | FormValidity (step : WizardStep.t) (isValid : bool)
| AddMilestone (milestone : MilestoneConfig) | ChangeMilestone (index : nat) (data : MilestoneUpdate) | RemoveMilestone (index : nat)
| SaveBegins | SaveEnds (now : Z) | Reload.
Definition on_wizard_event (e : wizard_event) s : CampaignWizardState :=
  match e with
  | ClickStep index => stepper_click index s
  | ClickNext => handleNext s
  | ClickPrevious => handlePrevious s
  | FormChange data => updateFormData data s
  | FormValidity step isValid => setStepValidation step isValid s
  | AddMilestone milestone => addMilestone milestone s
  | ChangeMilestone index data => updateMilestone index data s
  | RemoveMilestone index => removeMilestone index s
  | SaveBegins => setAutoSaving true s
  | SaveEnds now => setLastSaved (DateObject now) (setAutoSaving false s)
  | Reload => reload s
  end.

Lemma index_at step : stepOrder !! step_index step = Some step.
Proof. by destruct step. Qed.
Lemma at_index i step : stepOrder !! i = Some step → step_index step = i.
Proof. by do 6 (destruct i as [|i]; [by intros [= <-]|]). Qed.
Lemma index_below step : (step_index step < 6)%nat.
Proof. destruct step; vm_compute; lia. Qed.
Lemma next_index s : step_index (currentStep (nextStep s)) = Nat.min 5 (S (step_index (currentStep s))).
Proof. destruct s as [c f v a l]. by destruct c. Qed.
Lemma previous_index s : step_index (currentStep (previousStep s)) = pred (step_index (currentStep s)).
Proof. destruct s as [c f v a l]. by destruct c. Qed.
Lemma click_index index s : step_index (currentStep (stepper_click index s)) = if bool_decide (index < step_index (currentStep s))%nat then index else step_index (currentStep s).
Proof.
  unfold stepper_click. case_bool_decide as Hin; cbn [orb].
  - unfold wizard_completedSteps in Hin. apply list_elem_of_filter in Hin as [_ Hin%elem_of_seq]. rewrite bool_decide_eq_true_2 by lia.
    unfold handleStepClick. destruct (stepOrder !! index) as [step|] eqn:Hi; [|apply lookup_ge_None in Hi; cbn in Hi; pose proof (index_below (currentStep s)); lia].
    rewrite bool_decide_eq_true_2 by lia. cbn. by apply at_index.
  - case_bool_decide as Hlt; [|done]. unfold handleStepClick.
    destruct (stepOrder !! index) as [step|] eqn:Hi; [|apply lookup_ge_None in Hi; cbn in Hi; pose proof (index_below (currentStep s)); lia].
    rewrite bool_decide_eq_true_2 by lia. cbn. by apply at_index.
Qed.
End Steps.

(** nothing takes the wizard further than to the next step, and that only while the current step is valid; the
    review is therefore only entered from the set-up of the verification while that is valid. *)
Theorem forward_only_validated e s :
  (step_index (currentStep (on_wizard_event e s)) ≤ step_index (currentStep s))%nat ∨
  e = ClickNext ∧ canProceed s = true ∧ step_index (currentStep (on_wizard_event e s)) = S (step_index (currentStep s)).
Proof.
  destruct e; cbn [on_wizard_event]; try (left; exact (le_n _)).
  - left. rewrite click_index. case_bool_decide; lia.
  - unfold handleNext. destruct (canProceed s); [|by left]. rewrite next_index. pose proof (index_below (currentStep s)).
    destruct (decide (step_index (currentStep s) = 5%nat)) as [->|]; [left; cbn; lia|right]. split; [done|]. split; [done|lia].
  - left. unfold handlePrevious. rewrite previous_index. lia.
Qed.

Lemma iso_time_nonempty t : iso_time t ≠ EmptyString.
Proof. intros Ht%(f_equal String.length). unfold iso_time in Ht. cbv zeta in Ht. rewrite !string_length_app in Ht. cbn in Ht. lia. Qed.
(** An automatic save that ended and a reload: the date is a text, which is not empty. *)
Lemma saved_then_reloaded now locale_time t s :
  AutoSaveIndicator now locale_time (on_wizard_event Reload (on_wizard_event (SaveEnds t) s)) = Throw (TypeError "date.getTime is not a function").
Proof.
  change (AutoSaveIndicator now locale_time (on_wizard_event Reload (on_wizard_event (SaveEnds t) s))) with
    (if negb (bool_decide (iso_time t = EmptyString)) then Throw (TypeError "date.getTime is not a function") else Return "Auto-save enabled" : outcome string).
  by rewrite bool_decide_eq_false_2 by apply iso_time_nonempty.
Qed.

(** C39: a reload breaks the wizard.  Dates come back from the storage as texts: whatever the form was, it is refused,
    and once it has been saved automatically the page cannot be shown any more. *)
Theorem reload_breaks_wizard loaded now locale_time s :
  validateCampaign loaded (on_wizard_event Reload s) = false ∧
  (∀ t, AutoSaveIndicator now locale_time (on_wizard_event Reload (on_wizard_event (SaveEnds t) s)) = Throw (TypeError "date.getTime is not a function")).
Proof.
  split; [|intros t; apply saved_then_reloaded]. unfold validateCampaign, campaignFormSchema. cbn. assert (date_from (form_start loaded) (stored_date (cf_startDate (formData s))) = false) as ->
    by by destruct (cf_startDate (formData s)). by rewrite !andb_false_r.
Qed.

(** An invalid date is stored as [null], which shows no time and is refused by the schema of the form. *)
Example invalid_date_stored now locale_time s : AutoSaveIndicator now locale_time (reload (setLastSaved InvalidDate (setAutoSaving false s))) =
  Return "Auto-save enabled".
Proof. done. Qed.

(** ** Milestones *)

Lemma without_last {A} (l : list A) x : without (length l) (l ++ [x]) = l.
Proof. induction l as [|y l IH]; [done|]. cbn. by rewrite IH. Qed.
Lemma removed_after_added milestone s :
  cf_milestones (formData (removeMilestone (length (cf_milestones (formData s))) (addMilestone milestone s))) = cf_milestones (formData s).
Proof. apply without_last. Qed.
Lemma update_out_of_range index data s : (length (cf_milestones (formData s)) ≤ index)%nat →
  cf_milestones (formData (updateMilestone index data s)) = cf_milestones (formData s).
Proof.
  intros Hi. cbn. apply list_eq. intros i. rewrite list_lookup_imap. destruct (cf_milestones (formData s) !! i) as [m|] eqn:Hm; [|done].
  cbn. apply lookup_lt_Some in Hm. by rewrite bool_decide_eq_false_2 by lia.
Qed.

(** A fixed return in the pessimistic scenario: the farmer pays more than comes in, whatever the percentage. *)
Lemma pessimistic_fixed_return s p : cf_roiStructure (formData s) = fixed_return → cf_fixedReturnPercentage (formData s) = Some (Num p) →
  (0 <= p)%Q → (0 < finite_or_zero (parseFloat (cf_targetAmount (formData s))))%Q → (re_farmerProceeds (simulateReturns Scenario.pessimistic s) < 0)%Q.
Proof.
  intros Hr Hp Hpos Ht. unfold simulateReturns. rewrite Hr, Hp. cbn [re_farmerProceeds default finite_or_zero multiplier].
  set (t := finite_or_zero _) in *. assert (0 <= t * p)%Q by (apply Qmult_le_0_compat; [lra|done]).
  assert (t * (9 # 10) - t * (1 + p / 100) == - (1 # 10) * t - (1 # 100) * (t * p))%Q as -> by field. lra.
Qed.
