(* ===== verification/QueueService.v ===== *)
(** [QueueService] and [QueueAdminController] ([queue/]): jobs of three Bull queues, and the list in Redis of
    those that failed for good.  The library Bull is a parameter: what it answers, and what becomes of its
    state. *)
From S2P Require Import Prelude Async Json JsonParse Redis.
Open Scope Z_scope.

Definition DLQ_PREFIX : string := "queue:dlq:".
Definition validQueues : list string := ["deploy-contract"; "process-tts"; "index-market-news"].

Module JobStatus.
Inductive t := PENDING | ACTIVE | COMPLETED | FAILED | DELAYED.
End JobStatus.

(** A job of the library; [finishedOn] and the like are times, absent or zero before. *)
Record Job := mkJob {
  job_id : string; job_name : string; job_data : jsval; job_queue : string;
  job_attempts : option Z; job_backoff : jsval;    (* opts.attempts, opts.backoff *)
  attemptsMade : Z; job_progress : jsval; returnvalue : jsval; failedReason : option string;
  job_timestamp : Z; processedOn : option Z; finishedOn : option Z }.

Record JobInfo := mkJobInfo {
  ji_id : string; ji_name : string; ji_status : JobStatus.t; ji_progress : Z; ji_attempts : Z; ji_maxAttempts : Z; ji_data : jsval;
  ji_result : option jsval; ji_error : option string; ji_createdAt : Z; ji_processedAt : option Z; ji_completedAt : option Z }.
Record JobCounts := mkJobCounts {
  jc_active : option Z; jc_completed : option Z; jc_failed : option Z; jc_delayed : option Z; jc_waiting : option Z }.
Record QueueTotals := mkQueueTotals { qs_active : Z; qs_completed : Z; qs_failed : Z; qs_delayed : Z; qs_waiting : Z }.

(** The library: queues by name. *)
Class Bull (Q : Type) := {
  bull_add : string → jsval → jsval → jsobj → nat → Q → outcome Job * Q;        (* queue, name, data, options *)
  bull_getJob : string → string → Q → outcome (option Job);
  bull_getState : Job → Q → outcome string;
  bull_getJobs : string → string → Q → outcome (list Job);                      (* queue, status *)
  bull_clean : string → Z → string → Q → outcome (list string) * Q;
  bull_getJobCounts : string → Q → outcome JobCounts;
  bull_progress : Job → Z → Q → outcome unit * Q;
}.

Record QueueWorld (DB Q : Type) := mkQueueWorld { qw_redis : DB; qw_ticks : nat; qw_bull : Q }.
Arguments mkQueueWorld {_ _} _ _ _.
Arguments qw_redis {_ _} _.
Arguments qw_ticks {_ _} _.
Arguments qw_bull {_ _} _.
#[export] Instance QueueWorld_redis DB Q : HasRedis DB (QueueWorld DB Q) := {|
  redis := qw_redis; set_redis s w := mkQueueWorld s (qw_ticks w) (qw_bull w) |}.
#[export] Instance QueueWorld_ticking DB Q : Ticking (QueueWorld DB Q) := {|
  tick := qw_ticks; advance w := mkQueueWorld (qw_redis w) (S (qw_ticks w)) (qw_bull w) |}.
#[export] Instance QueueWorld_lens DB Q : RedisLens DB (QueueWorld DB Q).
Proof. by split. Qed.

Section QueueService.
Context {DB Q : Type} `{!Redis DB, !RedisServer, !Clock, !Bull Q}.
Local Abbreviation W := (QueueWorld DB Q).

(** Calls of the library. *)
Definition bull_call {A} (f : nat → Q → outcome A * Q) : eff W A := λ w,
  let '(o, q) := f (tick w) (qw_bull w) in (o, mkQueueWorld (qw_redis w) (S (qw_ticks w)) q).
Definition bull_ask {A} (f : Q → outcome A) : eff W A := λ w, (f (qw_bull w), w).
Definition of_result {A} (o : outcome A) : eff W A := λ w, (o, w).

Definition getQueueByName (queueName : string) : eff W string :=
  if bool_decide (queueName ∈ validQueues) then mret queueName else throw (Error ("Unknown queue: " +:+ queueName)).

(** The options that are given override these. *)
Definition job_options (options : jsobj) : jsobj :=
  foldl (λ o kv, assoc_set kv.1 kv.2 o) [("removeOnComplete", JBool false); ("removeOnFail", JBool false)] options.
Definition addJob (queueName jobName : string) (data : jsval) (options : jsobj) : eff W Job :=
  queue ← getQueueByName queueName;
  bull_call (bull_add queue (JString jobName) data (job_options options)).

(** ** Information *)

Definition mapJobState (state : string) : JobStatus.t :=
  if bool_decide (state = "pending") then JobStatus.PENDING
  else if bool_decide (state = "active") then JobStatus.ACTIVE
  else if bool_decide (state = "completed") then JobStatus.COMPLETED
  else if bool_decide (state = "failed") then JobStatus.FAILED
  else if bool_decide (state = "delayed") then JobStatus.DELAYED
  else JobStatus.PENDING.

(** [t ? new Date(t) : undefined] *)
Definition some_time (t : option Z) : option Z := if bool_decide (or_number t 0 = 0) then None else t.
Definition job_info (job : Job) (state : string) : JobInfo := {|
  ji_id := job_id job; ji_name := job_name job; ji_status := mapJobState state;
  ji_progress := match job_progress job with JNumber n => n | _ => 0 end;
  ji_attempts := attemptsMade job; ji_maxAttempts := or_number (job_attempts job) 1; ji_data := job_data job;
  ji_result := if truthy (returnvalue job) then Some (JObject [("success", JBool true); ("data", returnvalue job)]) else None;
  ji_error := if bool_decide (or_string (failedReason job) EmptyString = EmptyString) then None else failedReason job;
  ji_createdAt := job_timestamp job; ji_processedAt := some_time (processedOn job); ji_completedAt := some_time (finishedOn job) |}.

Definition getJobInfo (queueName jobId : string) : eff W (option JobInfo) :=
  queue ← getQueueByName queueName;
  job ← bull_ask (bull_getJob queue jobId);
  match job with
  | None => mret None
  | Some job => state ← bull_ask (bull_getState job); mret (Some (job_info job state))
  end.

Fixpoint jobs_of (queue : string) (statuses : list string) (jobs : list Job) : eff W (list Job) :=
  match statuses with
  | [] => mret jobs
  | status :: statuses => statusJobs ← bull_ask (bull_getJobs queue status); jobs_of queue statuses (jobs ++ statusJobs)
  end.
Fixpoint job_infos (jobs : list Job) : eff W (list JobInfo) :=
  match jobs with
  | [] => mret []
  | job :: jobs => state ← bull_ask (bull_getState job); l ← job_infos jobs; mret (job_info job state :: l)
  end.
Definition getQueueJobs (queueName : string) (statuses : option (list string)) : eff W (list JobInfo) :=
  queue ← getQueueByName queueName;
  jobs ← jobs_of queue (default ["active"; "completed"; "failed"; "delayed"] statuses) [];
  job_infos jobs.

Definition getQueueStats (queueName : string) : eff W QueueTotals :=
  queue ← getQueueByName queueName;
  counts ← bull_ask (bull_getJobCounts queue);
  mret (mkQueueTotals (or_number (jc_active counts) 0) (or_number (jc_completed counts) 0) (or_number (jc_failed counts) 0)
          (or_number (jc_delayed counts) 0) (or_number (jc_waiting counts) 0)).

Definition updateJobProgress (queueName jobId : string) (progress : Z) : eff W unit :=
  queue ← getQueueByName queueName;
  job ← bull_ask (bull_getJob queue jobId);
  match job with
  | None => throw (Error ("Job " +:+ jobId +:+ " not found"))
  | Some job => bull_call (λ _, bull_progress job progress)
  end.

Definition purgeQueue (queueName : string) : eff W Z :=
  queue ← getQueueByName queueName;
  jobs ← bull_call (λ _, bull_clean queue 0 "failed");
  mret (Z.of_nat (length jobs)).

(** ** Failures *)

Definition dlq_key (queueName : string) : string := DLQ_PREFIX +:+ queueName.
Definition dlq_item (job : Job) (message : string) (attempts maxAttempts failedAt : Z) : jsval :=
  JObject [("id", JString (job_id job)); ("name", JString (job_name job)); ("data", job_data job); ("error", JString message);
           ("attempts", JNumber attempts); ("maxAttempts", JNumber maxAttempts); ("failedAt", JString (iso_time failedAt))].

Definition handleJobFailure (job : Job) (message : string) : eff W unit :=
  let maxAttempts := or_number (job_attempts job) 1 in
  let attempts := attemptsMade job in
  if bool_decide (attempts >= maxAttempts) then
    failedAt ← date_now;
    let dlqItem := default EmptyString (json_text (dlq_item job message attempts maxAttempts failedAt)) in
    try_catch (command (cmd_rPush (dlq_key (job_queue job)) dlqItem) ;; mret tt) (λ _, mret tt)
  else mret tt.

Definition getDeadLetterQueue (queueName : string) (limit : Z) : eff W (list jsval) :=
  dlqData ← command (cmd_lRange (dlq_key queueName) 0 (limit - 1));
  mret ((λ item, match JSON_parse item with Return v => v | Throw _ => JString item end) <$> dlqData).

Definition requeueJob (queueName jobId : string) : eff W Job :=
  queue ← getQueueByName queueName;
  job ← bull_ask (bull_getJob queue jobId);
  match job with
  | None => throw (Error ("Job " +:+ jobId +:+ " not found in queue " +:+ queueName))
  | Some job =>
      bull_call (bull_add queue (JString (job_name job)) (job_data job)
        [("removeOnComplete", JBool false); ("removeOnFail", JBool false); ("attempts", JNumber (or_number (job_attempts job) 3));
         ("backoff", job_backoff job)])
  end.

(** One item of the list: a new job, unless something throws. *)
Definition requeue_item (queueName item : string) : eff W Job :=
  jobData ← of_result (JSON_parse item);
  queue ← getQueueByName queueName;
  name ← of_result (property jobData "name");
  data ← of_result (property jobData "data");
  maxAttempts ← of_result (property jobData "maxAttempts");
  bull_call (bull_add queue name data
    [("removeOnComplete", JBool false); ("removeOnFail", JBool false); ("attempts", if truthy maxAttempts then maxAttempts else JNumber 3)]).
Fixpoint requeue_items (queueName : string) (dlqData : list string) (requeuedJobs : list Job) : task W (list Job) :=
  match dlqData with
  | [] => mret requeuedJobs
  | item :: dlqData =>
      requeued ← atomic (attempt (requeue_item queueName item));
      requeue_items queueName dlqData (match requeued with Return newJob => requeuedJobs ++ [newJob] | Throw _ => requeuedJobs end)
  end.
Definition requeueFromDLQ_task (queueName : string) (limit : Z) : task W (list Job) :=
  dlqData ← atomic (command (cmd_lRange (dlq_key queueName) 0 (limit - 1)));
  requeuedJobs ← requeue_items queueName dlqData [];
  (if bool_decide (0 < length requeuedJobs)%nat
   then atomic (command (cmd_lTrim (dlq_key queueName) (Z.of_nat (length requeuedJobs)) (-1))) else mret tt) ≫= λ _,
  mret requeuedJobs.
(** The same without anything in between. *)
Definition requeueFromDLQ (queueName : string) (limit : Z) : eff W (list Job) := run_task (requeueFromDLQ_task queueName limit).

(** ** [QueueAdminController] *)

Definition check_queue (queueName : string) : eff W unit :=
  if bool_decide (queueName ∈ validQueues) then mret tt
  else throw (BadRequestException ("Invalid queue name. Valid options: " +:+ join ", " validQueues)).

Fixpoint stats_of (queues : list string) : eff W (list (string * QueueTotals)) :=
  match queues with [] => mret [] | queue :: queues => s ← getQueueStats queue; l ← stats_of queues; mret ((queue, s) :: l) end.
Definition getAllQueueStats : eff W (list (string * QueueTotals)) := stats_of validQueues.
Definition admin_getQueueStats (queueName : string) : eff W QueueTotals := check_queue queueName ;; getQueueStats queueName.
Definition admin_getQueueJobs (queueName : string) (statusQuery : option string) : eff W (list JobInfo) :=
  check_queue queueName ;;
  let statuses := if bool_decide (or_string statusQuery EmptyString = EmptyString) then None
                  else split_on (Ascii.ascii_of_nat 44) <$> statusQuery in
  getQueueJobs queueName statuses.
Definition admin_getJob (queueName jobId : string) : eff W JobInfo :=
  check_queue queueName ;;
  job ← getJobInfo queueName jobId;
  match job with
  | None => throw (BadRequestException ("Job " +:+ jobId +:+ " not found in queue " +:+ queueName))
  | Some job => mret job
  end.
Definition admin_getDeadLetterQueue (queueName : string) (limit : option Z) : eff W (list jsval) :=
  check_queue queueName ;; getDeadLetterQueue queueName (default 50 limit).
Definition admin_requeueJob (queueName jobId : string) : eff W string :=
  check_queue queueName ;;
  try_catch (requeuedJob ← requeueJob queueName jobId; mret (job_id requeuedJob)) (λ error, throw (BadRequestException (exn_message error))).
Definition admin_requeueFromDLQ (queueName : string) (limit : option Z) : eff W (list string) :=
  check_queue queueName ;;
  requeuedJobs ← requeueFromDLQ queueName (default 10 limit);
  mret (job_id <$> requeuedJobs).
Definition admin_purgeQueue (queueName : string) : eff W Z := check_queue queueName ;; purgeQueue queueName.
End QueueService.
