(* ===== verification/QueueFacts.v ===== *)
(** The list of failed jobs: what a requeue takes from it, and what comes back of a job. *)
From S2P Require Import Prelude Async Json JsonParse Redis CacheFacts QueueService.
Open Scope Z_scope.

Section Facts.
Context {DB Q : Type} `{!Redis DB, !RedisLaws DB, !RedisServer, !Clock, !Bull Q}.
Context `{!RedisUp, !MonotoneServer}.
Local Abbreviation W := (QueueWorld DB Q).
Implicit Types (w : W).

(** The list under a key; none is an empty one. *)
Definition list_at (k : string) w : list string := match held k w with Some (mkEntry (RList l) _) => l | _ => [] end.
Definition a_list (o : option entry) : Prop := o = None ∨ ∃ l, o = Some (mkEntry (RList l) None).
Definition dlq_ok (k : string) w : Prop := a_list (held k w).

Lemma seen_forever t (e : option entry) : a_list e → seen_at t e = e.
Proof. by intros [->|[l ->]]. Qed.

(** ** Calls of the library leave Redis alone *)

Definition same_redis w w' : Prop := (tick w ≤ tick w')%nat ∧ redis w' = redis w.
#[local] Instance same_redis_preorder : PreOrder same_redis.
Proof. split; [by intros w|]. intros w1 w2 w3 [??] [??]. split; [lia|congruence]. Qed.
#[local] Hint Resolve same_redis_preorder : moves.
Lemma same_bull {A} (f : nat → Q → outcome A * Q) : moves same_redis (bull_call f).
Proof. intros w. unfold bull_call. destruct (f _ _) as [o q]. split; [cbn; lia|done]. Qed.
Lemma same_of_result {A} (o : outcome A) : moves same_redis (of_result o : eff W A).
Proof. by intros w. Qed.
Lemma same_queue q : moves same_redis (getQueueByName q).
Proof. unfold getQueueByName. moves_tac. Qed.
#[local] Hint Resolve same_bull same_of_result same_queue : moves.
Lemma same_item q item : moves same_redis (requeue_item q item).
Proof. unfold requeue_item. moves_tac. Qed.

Lemma held_same k w w' : a_list (held k w) → same_redis w w' → held k w' = held k w.
Proof.
  intros Ha [Ht Hr]. unfold held in *. rewrite Hr, (live_later (server_at (tick w))) by by apply server_mono. by apply seen_forever.
Qed.

(** The loop adds at most one job per item, and one per item when nothing throws. *)
Lemma requeue_items_run q items js w : ∃ js' w', run_task (requeue_items q items js) w = (Return js', w') ∧ same_redis w w' ∧
  (length js ≤ length js' ≤ length js + length items)%nat ∧
  ((∀ item w, item ∈ items → returned (requeue_item q item w).1 = true) → length js' = (length js + length items)%nat).
Proof.
  revert js w. induction items as [|item items IH]; intros js w.
  { exists js, w. split; [done|]. split; [done|]. split; [lia|]. cbn. lia. }
  cbn [requeue_items length]. rewrite run_piece. unfold attempt.
  pose proof (same_item q item w) as Hs. destruct (requeue_item q item w) as [o w1] eqn:Hrun. cbn [snd] in Hs.
  set (js1 := match o with Return newJob => js ++ [newJob] | Throw _ => js end).
  destruct (IH js1 w1) as (js' & w' & -> & Hs' & Hlen & Hall). exists js', w'. split; [done|]. split; [by etrans|].
  assert (length js ≤ length js1 ≤ S (length js))%nat as Hl1 by (unfold js1; destruct o; rewrite ?length_app; cbn; lia).
  split; [lia|]. intros Hok. rewrite Hall by (intros i w2 Hi; apply Hok; by right).
  specialize (Hok item w ltac:(by left)). rewrite Hrun in Hok. unfold js1. destruct o; [|done]. rewrite length_app. cbn. lia.
Qed.

Lemma range_from_zero {A} limit (l : list A) : 0 < limit → list_range 0 (limit - 1) l = take (Z.to_nat limit) l.
Proof.
  intros Hl. unfold list_range. rewrite !bool_decide_eq_false_2 by lia. cbn. do 2 f_equal. lia.
Qed.
Lemma range_to_end {A} n (l : list A) : (n ≤ length l)%nat → list_range (Z.of_nat n) (-1) l = drop n l.
Proof.
  intros Hn. unfold list_range. rewrite (bool_decide_eq_false_2 (Z.of_nat n < 0)), (bool_decide_eq_true_2 (-1 < 0)) by lia.
  rewrite take_ge; [f_equal; lia|]. rewrite length_drop. lia.
Qed.

Lemma lRange_run k a b w : dlq_ok k w → ∃ w', command (cmd_lRange k a b) w = (Return (list_range a b (list_at k w)), w') ∧ held k w' = held k w.
Proof.
  intros Hok. exists (command (cmd_lRange k a b) w).2. split.
  - rewrite command_up. unfold cmd_lRange. fold (held k w). unfold list_at. destruct Hok as [->|[l ->]]; [|done].
    cbn. unfold list_range. by rewrite drop_nil, take_nil.
  - rewrite held_spared by apply spares_lRange. by apply seen_forever.
Qed.
Lemma lTrim_run k n w : dlq_ok k w → (n ≤ length (list_at k w))%nat → ∃ w', command (cmd_lTrim k (Z.of_nat n) (-1)) w = (Return tt, w') ∧
  dlq_ok k w' ∧ list_at k w' = drop n (list_at k w).
Proof.
  intros Hok Hn. exists (command (cmd_lTrim k (Z.of_nat n) (-1)) w).2.
  destruct (cmd_lTrim k (Z.of_nat n) (-1) (server_at (tick w)) (redis w)) as [o s] eqn:Hc.
  pose proof (held_run k _ w o s (redis_up _) Hc) as Hh. rewrite (command_run _ _ _ _ (redis_up _) Hc). cbn [snd].
  rewrite (command_run _ _ _ _ (redis_up _) Hc) in Hh. cbn [snd] in Hh.
  unfold cmd_lTrim in Hc. fold (held k w) in Hc. unfold dlq_ok, list_at. rewrite Hh. unfold list_at in Hn. destruct Hok as [Hnone|[l Hl]].
  - rewrite Hnone in *. pair_inj Hc. split; [done|].
    assert (live (server_at (S (tick w))) k (redis w) = None) as ->.
    { rewrite (live_later (server_at (tick w))) by (apply server_mono; lia). fold (held k w). by rewrite Hnone. }
    split; [by left|by rewrite drop_nil].
  - rewrite Hl in *. rewrite range_to_end in Hc by done. pair_inj Hc. split; [done|]. case_decide as Hd.
    + rewrite live_write_eq. split; [by left|]. by rewrite Hd.
    + rewrite live_put. rewrite decide_True by done. split; [right; by eexists|done].
Qed.

(** A requeue: its loop over the head of the list, from the world that the query of the list leaves behind, and
    what is taken off the list then. *)
Lemma requeue_run q limit w : let K := dlq_key q in let l := list_at K w in dlq_ok K w → 0 < limit → ∃ js w2 w3,
  run_task (requeue_items q (take (Z.to_nat limit) l) []) (command (cmd_lRange K 0 (limit - 1)) w).2 = (Return js, w2) ∧
  requeueFromDLQ q limit w = (Return js, w3) ∧ dlq_ok K w3 ∧ list_at K w3 = drop (length js) l ∧
  (length js ≤ Nat.min (Z.to_nat limit) (length l))%nat ∧
  ((∀ item (w1 : W), item ∈ take (Z.to_nat limit) l → returned (requeue_item q item w1).1 = true) → length js = Nat.min (Z.to_nat limit) (length l)).
Proof.
  intros K l Hok Hlimit.
  destruct (lRange_run K 0 (limit - 1) w Hok) as (w1 & Hrun1 & Hh1). rewrite range_from_zero in Hrun1 by done.
  destruct (requeue_items_run q (take (Z.to_nat limit) l) [] w1) as (js & w2 & Hrun2 & Hs2 & Hlen & Hall). rewrite length_take in *.
  assert (held K w2 = held K w) as Hh2 by (rewrite (held_same K w1 w2), Hh1; [done|unfold dlq_ok in Hok; by rewrite Hh1|done]).
  assert (dlq_ok K w2 ∧ list_at K w2 = l) as [Hok2 Hl2] by (unfold dlq_ok, list_at, l; rewrite Hh2; done). cbn in Hlen, Hall.
  rewrite Hrun1. cbn [snd]. exists js, w2.
  assert (requeueFromDLQ q limit w = run_task ((if bool_decide (0 < length js)%nat
    then atomic (command (cmd_lTrim K (Z.of_nat (length js)) (-1))) else mret tt) ≫= λ _, mret js) w2) as ->.
  { unfold requeueFromDLQ, requeueFromDLQ_task. rewrite run_piece. fold K. by rewrite Hrun1, run_bind, (bind_run _ _ _ _ _ Hrun2). }
  case_bool_decide as Hjs.
  - destruct (lTrim_run K (length js) w2) as (w3 & Hrun3 & Hok3 & Hl3); [done|rewrite Hl2; lia|].
    exists w3. split; [done|]. split; [by rewrite run_piece, Hrun3|]. split; [done|]. split; [by rewrite Hl3, Hl2|]. split; [lia|done].
  - exists w2. split; [done|]. split; [done|]. split; [done|]. split; [|split; [lia|done]]. assert (length js = 0%nat) as -> by lia. by rewrite Hl2.
Qed.
End Facts.


(** * What comes back of a job *)

Section ComesBack.
Context {DB Q : Type} `{!Redis DB, !RedisLaws DB, !RedisServer, !Clock, !Bull Q}.
Context `{!RedisUp, !MonotoneServer}.
Local Abbreviation W := (QueueWorld DB Q).
Implicit Types (w : W).

Definition kept_data (job : Job) : jsval := js_undefined (json_value (job_data job)).
Definition back_options (job : Job) : jsobj :=
  [("removeOnComplete", JBool false); ("removeOnFail", JBool false); ("attempts", JNumber (or_number (job_attempts job) 1))].
Definition readd (job : Job) w : outcome Job * W :=
  bull_call (bull_add (job_queue job) (JString (job_name job)) (kept_data job) (back_options job)) w.

Lemma item_properties job message a m t : ∃ text v, json_text (dlq_item job message a m t) = Some text ∧ JSON_parse text = Return v ∧
  property v "name" = Return (JString (job_name job)) ∧ property v "data" = Return (kept_data job) ∧ property v "maxAttempts" = Return (JNumber m).
Proof.
  unfold dlq_item. set (o := JObject _). destruct (json_text o) as [text|] eqn:Htext; [|done].
  destruct (JSON_parse_text o text Htext) as (v & Hv & Hp). exists text, v. split; [done|]. split; [done|].
  unfold o in Hv. rewrite json_value_object in Hv. injection Hv as <-. unfold kept_data. cbn [omap list_omap].
  unfold field_value. cbn [fst snd json_value fmap option_fmap option_map]. by destruct (json_value (job_data job)).
Qed.

Lemma requeue_item_run job message a m t text w : job_queue job ∈ validQueues → m ≠ 0 →
  json_text (dlq_item job message a m t) = Some text →
  requeue_item (job_queue job) text w =
    bull_call (bull_add (job_queue job) (JString (job_name job)) (kept_data job)
      [("removeOnComplete", JBool false); ("removeOnFail", JBool false); ("attempts", JNumber m)]) w.
Proof.
  intros Hq Hm Htext. destruct (item_properties job message a m t) as (text' & v & Ht & Hp & Hname & Hdata & Hmax).
  rewrite Htext in Ht. injection Ht as <-. unfold requeue_item, of_result, getQueueByName, mbind, eff_bind.
  rewrite Hp, (bool_decide_eq_true_2 _ Hq). cbn. rewrite Hname, Hdata, Hmax. cbn [truthy]. by rewrite (bool_decide_eq_false_2 _ Hm).
Qed.
Lemma bull_command {A} (c : Z → DB → outcome A * DB) w : qw_bull (command c w).2 = qw_bull w.
Proof. unfold command. destruct (server_fault (tick w)); [done|]. by destruct (c _ _). Qed.
Lemma rPush_run k v w : dlq_ok k w → ∃ n w', command (cmd_rPush k v) w = (Return n, w') ∧ dlq_ok k w' ∧ list_at k w' = list_at k w ++ [v].
Proof.
  intros Hok. destruct (cmd_rPush k v (server_at (tick w)) (redis w)) as [o s] eqn:Hc.
  pose proof (held_run k _ w o s (redis_up _) Hc) as Hh. rewrite (command_run _ _ _ _ (redis_up _) Hc) in *. cbn [snd] in Hh.
  unfold cmd_rPush in Hc. fold (held k w) in Hc. unfold dlq_ok, list_at in *.
  destruct Hok as [Hn|[l Hl]]; [rewrite Hn in *|rewrite Hl in *]; pair_inj Hc; rewrite live_put, decide_True in Hh by done;
    (eexists _, _; split; [done|]; rewrite Hh; split; [right; by eexists|done]).
Qed.
Lemma requeue_items_app q l l' js w : run_task (requeue_items q (l ++ l') js) w =
  (run_task (requeue_items q l js) ≫= λ js', run_task (requeue_items q l' js')) w.
Proof.
  revert js w. induction l as [|item l IH]; intros js w; [done|]. cbn [requeue_items app].
  rewrite run_piece. unfold mbind at 1, eff_bind. rewrite run_piece. destruct (attempt (requeue_item q item) w) as [[o|e] w1]; [|done]. apply IH.
Qed.
Lemma or_one_nonzero o : or_number o 1 ≠ 0.
Proof. unfold or_number. destruct o as [n|]; [|done]. case_bool_decide; lia. Qed.
End ComesBack.

(** C26: a job that failed for the last time, while no command of Redis fails.  It is put at the end of the list of
    its queue.  A requeue that reaches it, and that adds every job before it on the list, then adds a job with its
    name, its attempts and its data, but for undefined values, and the list is empty; unless the library refuses
    that job, which stays on the list alone. *)
Theorem failed_job_comes_back `{!Redis DB, !RedisLaws DB, !RedisServer, !Clock, !Bull Q, !RedisUp, !MonotoneServer} job message limit (w : QueueWorld DB Q) :
  let q := job_queue job in let K := dlq_key q in let l := list_at K w in
  attemptsMade job >= or_number (job_attempts job) 1 → q ∈ validQueues → dlq_ok K w → Z.of_nat (length l) < limit →
  (∀ item (w' : QueueWorld DB Q), item ∈ l → returned (requeue_item q item w').1 = true) →
  let w1 := (handleJobFailure job message w).2 in ∃ text js w2 w3,
  handleJobFailure job message w = (Return tt, w1) ∧ list_at K w1 = l ++ [text] ∧
  run_task (requeue_items q l []) (command (cmd_lRange K 0 (limit - 1)) w1).2 = (Return js, w2) ∧ length js = length l ∧
  match (readd job w2).1 with
  | Return job' => requeueFromDLQ q limit w1 = (Return (js ++ [job']), w3) ∧ list_at K w3 = []
  | Throw _ => requeueFromDLQ q limit w1 = (Return js, w3) ∧ list_at K w3 = [text]
  end.
Proof.
  intros q K l Hmax Hq Hok Hlimit Hbefore w1. set (m := or_number (job_attempts job) 1).
  set (t := clock_at (tick w)). destruct (item_properties job message (attemptsMade job) m t) as (text & _ & Htext & _).
  assert (dlq_ok K (advance w) ∧ list_at K (advance w) = l) as [Hok0 Hl0].
  { unfold dlq_ok, list_at, l. destruct (leaves_advance K w) as [_ ->]. by rewrite (seen_forever _ _ Hok). }
  destruct (rPush_run K text (advance w) Hok0) as (n & w1' & Hpush & Hok1 & Hl1).
  assert (handleJobFailure job message w = (Return tt, w1')) as Hfail.
  { unfold handleJobFailure. cbv zeta. rewrite bool_decide_eq_true_2 by done. fold q K m.
    assert (date_now w = (Return t, advance w)) as Hnow by done. rewrite (bind_run _ _ _ _ _ Hnow), Htext. cbn [default].
    unfold try_catch. by rewrite (bind_run _ _ _ _ _ Hpush). }
  assert (w1' = w1) as -> by (unfold w1; by rewrite Hfail). rewrite Hl0 in Hl1.
  destruct (requeue_run q limit w1 Hok1 ltac:(lia)) as (js' & w2' & w3 & Hitems & Hrun & _ & Hleft & _). fold K in Hitems, Hleft.
  rewrite Hl1 in Hitems, Hleft. rewrite take_ge in Hitems by (rewrite length_app; cbn; lia). rewrite requeue_items_app in Hitems.
  destruct (requeue_items_run q l [] (command (cmd_lRange K 0 (limit - 1)) w1).2) as (js & w2 & Hbefore' & _ & _ & Hall).
  specialize (Hall Hbefore). cbn in Hall. rewrite (bind_run _ _ _ _ _ Hbefore') in Hitems. cbn [requeue_items] in Hitems. rewrite run_piece in Hitems.
  unfold attempt in Hitems. rewrite (requeue_item_run job message (attemptsMade job) m t text w2 Hq (or_one_nonzero _) Htext) in Hitems.
  change (bull_call _ w2) with (readd job w2) in Hitems. exists text, js, w2, w3. do 4 (split; [done|]).
  destruct (readd job w2) as [[job'|e] wa]; cbn [fst] in *; injection Hitems as <- <-.
  - split; [done|]. rewrite Hleft. apply drop_ge. rewrite !length_app. cbn. lia.
  - split; [done|]. by rewrite Hleft, Hall, drop_app_length.
Qed.
