(* ===== verification/QueueProcessors.v ===== *)
(** What runs the jobs of the queues and what adds them: the three processors
    ([queue/processors/]), whose work is simulated by timers and chance, and
    [queue/examples/queue-example.service.ts].  A field that a job may lack is an option. *)
From S2P Require Import Prelude Async Json JsonParse Redis QueueService.
From Stdlib Require Import QArith Ascii.
Open Scope Z_scope.

Record DeployContractData := mkDeployContractData {
  dc_contractName : option string; dc_contractCode : option string; dc_network : option string; dc_initializer : option string }.
Record IndexMarketNewsData := mkIndexMarketNewsData {
  in_source : option string; in_startDate : option string; in_endDate : option string; in_limit : option Z }.
Record ProcessTtsData := mkProcessTtsData {
  pt_text : option string; pt_voiceId : option string; pt_language : option string; pt_speed : option jsval; pt_sessionId : option string }.
Record NewsItem := mkNewsItem {
  ni_id : string; ni_title : string; ni_content : string; ni_source : string; ni_publishedAt : string; ni_tags : list string }.


(** [s.slice(2)] *)
Definition slice2 (s : string) : string := String.substring 2 (String.length s) s.
(** [s.padEnd(n, '0')] *)
Fixpoint zero_digits (n : nat) : string := match n with O => EmptyString | S n => String "0"%char (zero_digits n) end.
Definition padEnd (n : nat) (s : string) : string := s +:+ zero_digits (n - String.length s).

(** The number [n / 10]. *)
Definition tenths (n : Z) : jsval :=
  if bool_decide (n mod 10 = 0) then JNumber (n / 10) else JDecimal (mkDecimal false (Z.to_N (n / 10)) (digit_for (n mod 10)) []).

(** ** The text of a speech *)

(** [s.replace(/\s+/g, ' ')] *)
Fixpoint collapse_blanks (after_blank : bool) (s : string) : string :=
  match s with
  | EmptyString => EmptyString
  | String a s =>
      if blank a then (if after_blank then collapse_blanks true s else String " "%char (collapse_blanks true s))
      else String a (collapse_blanks false s)
  end.
(** [\w], [\s] and the signs [.,!?-] *)
Definition word_char (a : Ascii.ascii) : bool :=
  let n := Ascii.nat_of_ascii a in
  bool_decide (48 ≤ n ≤ 57 ∨ 65 ≤ n ≤ 90 ∨ 97 ≤ n ≤ 122 ∨ n = 95)%nat.
Definition spoken_char (a : Ascii.ascii) : bool :=
  word_char a || blank a || bool_decide (a ∈ ["."; ","; "!"; "?"; "-"]%char).
Fixpoint keep_chars (keep : Ascii.ascii → bool) (s : string) : string :=
  match s with
  | EmptyString => EmptyString
  | String a s => if keep a then String a (keep_chars keep s) else keep_chars keep s
  end.
Definition preprocessText (text : string) : string := keep_chars spoken_char (collapse_blanks false (trim text)).

(** The bytes of the audio: a tenth of a second per word at 48000 bytes a second. *)
Definition estimatedLength (text : string) : Z := Z.of_nat (length (split_on " "%char text)) * 100 * 48000 / 1000.
(** [Math.round(length * 0.3)] *)
Definition encodedLength (length : Z) : Z := (3 * length + 5) / 10.

(** ** Market news *)

Definition enrichNews (newsItems : list NewsItem) : list NewsItem :=
  (λ item, mkNewsItem (ni_id item) (ni_title item) (ni_content item) (ni_source item) (ni_publishedAt item)
             (ni_tags item ++ ["enriched"; "indexed"])) <$> newsItems.
(** [Math.floor(length * 0.05)] fail. *)
Definition indexNews (newsItems : list NewsItem) : Z * Z :=
  let failedCount := Z.of_nat (length newsItems) / 20 in
  (Z.of_nat (length newsItems) - failedCount, failedCount).

Section Processors.
Context {DB Q : Type} `{!Redis DB, !RedisServer, CLK : Clock, RND : Random, RDX : RadixText, !Bull Q}.
Local Abbreviation W := (QueueWorld DB Q).

(** [job.progress(n)] *)
Definition progress (job : Job) (n : Z) : eff W unit := bull_call (λ _, bull_progress job n).
Definition require_that (b : bool) (msg : string) : eff W unit := if b then mret tt else throw (Error msg).
Definition iso_now : eff W jsval := t ← date_now; mret (JString (iso_time t)).

(** ** [DeployContractProcessor] *)

(** The code of the contract in base 64, which nothing reads, is left out. *)
Definition compileContract (contractCode : string) : eff W (option string) :=
  delay 1000 ;;
  mret (if bool_decide (String.length contractCode = 0%nat) then Some "Empty contract code" else None).

Definition random_hex (n : nat) : eff W string := r ← random; mret ("0x" +:+ padEnd n (slice2 (radix_text 16 r))).
Definition deployToNetwork (network : string) (initializer : option string) : eff W (string * string) :=
  delay 2000 ;;
  contractAddress ← random_hex 40;
  transactionHash ← random_hex 64;
  mret (contractAddress, transactionHash).

Definition handleDeployContract (job : Job) (data : DeployContractData) : eff W jsval :=
  progress job 10 ;;
  require_that (given (dc_contractName data) && given (dc_contractCode data) && given (dc_network data))
    "Missing required fields: contractName, contractCode, network" ;;
  let network := or_string (dc_network data) EmptyString in
  progress job 30 ;;
  compilationError ← compileContract (or_string (dc_contractCode data) EmptyString);
  match compilationError with
  | Some error => throw (Error ("Compilation failed: " +:+ error))
  | None =>
      progress job 50 ;;
      deploymentResult ← deployToNetwork network (dc_initializer data);
      progress job 90 ;;
      progress job 100 ;;
      deployedAt ← iso_now;
      mret (JObject [("success", JBool true);
        ("data", JObject [("contractAddress", JString deploymentResult.1); ("transactionHash", JString deploymentResult.2);
                          ("network", JString network); ("contractName", text_value (dc_contractName data));
                          ("deployedAt", deployedAt)])])
  end.

(** ** [ProcessTtsProcessor] *)

Definition synthesizeAudio (text voiceId language : string) (speed : jsval) : eff W Z :=
  delay 2000 ;; mret (estimatedLength text).
Definition encodeAudio (audioLength : Z) : eff W Z := delay 1000 ;; mret (encodedLength audioLength).

(** The log reads the length of the text before anything else. *)
Definition handleProcessTts (job : Job) (data : ProcessTtsData) : eff W jsval :=
  match pt_text data with
  | None => throw (TypeError "Cannot read properties of undefined (reading 'length')")
  | Some text =>
      let language := default "en" (pt_language data) in
      let speed := default (JNumber 1) (pt_speed data) in
      progress job 10 ;;
      require_that (given (Some text) && given (pt_voiceId data)) "Missing required fields: text, voiceId" ;;
      require_that (bool_decide (String.length text <= 5000)%nat) "Text exceeds maximum length of 5000 characters" ;;
      progress job 30 ;;
      let preprocessedText := preprocessText text in
      progress job 50 ;;
      audioBuffer ← synthesizeAudio preprocessedText (or_string (pt_voiceId data) EmptyString) language speed;
      progress job 80 ;;
      encodeAudio audioBuffer ;;
      progress job 100 ;;
      processedAt ← iso_now;
      mret (JObject [("success", JBool true);
        ("data", JObject [("audioUrl", JString ("/audio/" +:+ job_id job +:+ ".mp3")); ("duration", tenths (audioBuffer / 4800));
                          ("voiceId", text_value (pt_voiceId data)); ("language", JString language); ("speed", speed);
                          ("sessionId", text_value (pt_sessionId data)); ("processedAt", processedAt)])])
  end.

(** ** [IndexMarketNewsProcessor] *)

(** The loop from [i]; [n] rounds are left. *)
Fixpoint news_items (source : string) (n : nat) (i : Z) : eff W (list NewsItem) :=
  match n with
  | O => mret []
  | S n =>
      now ← date_now;
      now' ← date_now;
      r ← random;
      rest ← news_items source n (i + 1);
      mret (mkNewsItem ("news-" +:+ pretty now +:+ "-" +:+ pretty i)
              ("Market News " +:+ pretty (i + 1) +:+ " from " +:+ source)
              ("This is a sample news article about market trends and opportunities from " +:+ source +:+ ".")
              source (iso_time (Z.quot (now' * random_scale - r * ms_per_day) random_scale))
              ["market"; "crypto"; toLowerCase source] :: rest)
  end.
Definition processor_fetchNews (source : string) (startDate endDate : option string) (limit : Z) : eff W (list NewsItem) :=
  delay 1500 ;; news_items source (Z.to_nat (or_number (Some limit) 10)) 0.

Definition handleIndexMarketNews (job : Job) (data : IndexMarketNewsData) : eff W jsval :=
  let limit := default 100 (in_limit data) in
  progress job 10 ;;
  require_that (given (in_source data)) "Missing required field: source" ;;
  let source := or_string (in_source data) EmptyString in
  progress job 20 ;;
  newsItems ← processor_fetchNews source (in_startDate data) (in_endDate data) limit;
  progress job 50 ;;
  delay 1000 ;;
  let enrichedNews := enrichNews newsItems in
  progress job 75 ;;
  delay 1500 ;;
  let '(indexedCount, failedCount) := indexNews enrichedNews in
  progress job 100 ;;
  lastIndexedAt ← iso_now;
  mret (JObject [("success", JBool true);
    ("data", JObject [("source", JString source); ("indexedCount", JNumber indexedCount); ("failedCount", JNumber failedCount);
                      ("lastIndexedAt", lastIndexedAt); ("itemsProcessed", JNumber (Z.of_nat (length enrichedNews)))])]).
End Processors.

(** ** [QueueExampleService]

    Everything that is logged is left out, and a [catch] block that only logs and throws again. *)
Module JobHealth.
Inductive t := Healthy | Warning | Critical.
End JobHealth.

(** The failure rate is in percent, before [toFixed(2)]. *)
Record QueueMetrics := mkQueueMetrics { qm_stats : QueueTotals; qm_totalJobs : Z; qm_failureRate : Q; qm_health : JobHealth.t }.

Section Examples.
Context {DB Bl : Type} `{!Redis DB, !RedisServer, CLK : Clock, !Bull Bl}.
Local Abbreviation W := (QueueWorld DB Bl).

Definition exponential_backoff (ms : Z) : jsval := JObject [("type", JString "exponential"); ("delay", JNumber ms)].

Definition queueContractDeployment (contractName contractCode network : string) (initializer : option string) : eff W Job :=
  addJob "deploy-contract" "deploy"
    (JObject [("contractName", JString contractName); ("contractCode", JString contractCode); ("network", JString network);
              ("initializer", text_value initializer)])
    [("attempts", JNumber 3); ("backoff", exponential_backoff 2000); ("timeout", JNumber 60000);
     ("removeOnComplete", JBool false); ("removeOnFail", JBool false)].

Definition queueTtsProcessing (text voiceId : string) (language : option string) (speed : option jsval)
    (sessionId : option string) : eff W Job :=
  addJob "process-tts" "process"
    (JObject [("text", JString text); ("voiceId", JString voiceId); ("language", JString (default "en" language));
              ("speed", default (JNumber 1) speed); ("sessionId", text_value sessionId)])
    [("attempts", JNumber 2); ("backoff", exponential_backoff 1000); ("timeout", JNumber 30000)].

Definition queueMarketNewsIndexing (source : string) (startDate endDate : option string) (limit : option Z) : eff W Job :=
  addJob "index-market-news" "index"
    (JObject [("source", JString source); ("startDate", text_value startDate); ("endDate", text_value endDate);
              ("limit", JNumber (or_number limit 100))])
    [("attempts", JNumber 3); ("backoff", exponential_backoff 5000); ("timeout", JNumber 120000)].

Definition monitorJobStatus (queueName jobId : string) : eff W (option JobInfo) := getJobInfo queueName jobId.

Definition handleJobCompletion (queueName jobId : string) : eff W JobInfo :=
  jobInfo ← getJobInfo queueName jobId;
  match jobInfo with
  | None => throw (Error ("Job " +:+ jobId +:+ " not found"))
  | Some jobInfo => mret jobInfo
  end.

Definition retryFailedJob (queueName jobId : string) : eff W Job := requeueJob queueName jobId.

Definition total_of (stats : QueueTotals) : Z :=
  qs_active stats + qs_completed stats + qs_failed stats + qs_delayed stats + qs_waiting stats.
Definition getQueueMetrics (queueName : string) : eff W QueueMetrics :=
  stats ← getQueueStats queueName;
  let totalJobs := total_of stats in
  let failureRate := if bool_decide (0 < totalJobs) then (100 * qs_failed stats # Z.to_pos totalJobs)%Q else 0%Q in
  mret (mkQueueMetrics stats totalJobs failureRate
          (if Qle_bool 5 failureRate then if Qle_bool 10 failureRate then JobHealth.Critical else JobHealth.Warning
           else JobHealth.Healthy)).

Definition processDeadLetterQueue (queueName : string) (limit : option Z) : eff W (list Job) :=
  let limit := default 10 limit in
  dlqItems ← getDeadLetterQueue queueName limit;
  if bool_decide (0 < length dlqItems)%nat then requeueFromDLQ queueName limit else mret [].
End Examples.

(** * What a job reports *)

Section Reports.
Context {DB Q : Type} `{!Redis DB, !RedisServer, CLK : Clock, RND : Random, RDX : RadixText, !Bull Q}.
Context (job : Job) (Hprogress : ∀ n q, (bull_progress job n q).1 = Return tt).
Local Abbreviation W := (QueueWorld DB Q).

(** The library after it was told of the percentages [l]. *)
Definition reported (l : list Z) (q : Q) : Q := foldl (λ q n, (bull_progress job n q).2) q l.

(** [m] reports [l] and returns a value within [P]; or it reports [l] and throws [e]. *)
Definition reports {A} (l : list Z) (P : A → Prop) (m : eff W A) : Prop :=
  ∀ w, ∃ v w', m w = (Return v, w') ∧ P v ∧ qw_bull w' = reported l (qw_bull w).
Definition stops {A} (l : list Z) (e : exn) (m : eff W A) : Prop :=
  ∀ w, ∃ w', m w = (Throw e, w') ∧ qw_bull w' = reported l (qw_bull w).

Lemma reports_ret {A} (P : A → Prop) v : P v → reports [] P (mret v).
Proof. intros HP w. by exists v, w. Qed.
Lemma reports_bind {A B} l1 l2 (P : A → Prop) (P' : B → Prop) m f :
  reports l1 P m → (∀ v, P v → reports l2 P' (f v)) → reports (l1 ++ l2) P' (m ≫= f).
Proof.
  intros Hm Hf w. destruct (Hm w) as (v & w1 & Hrun & Hv & Hq). destruct (Hf v Hv w1) as (v' & w2 & Hrun2 & Hv' & Hq2).
  exists v', w2. rewrite (bind_run _ _ w v w1) by done. split_and!; [done..|].
  rewrite Hq2, Hq. unfold reported. by rewrite foldl_app.
Qed.
Lemma stops_bind {A B} l1 l2 (P : A → Prop) e m (f : A → eff W B) :
  reports l1 P m → (∀ v, P v → stops l2 e (f v)) → stops (l1 ++ l2) e (m ≫= f).
Proof.
  intros Hm Hf w. destruct (Hm w) as (v & w1 & Hrun & Hv & Hq). destruct (Hf v Hv w1) as (w2 & Hrun2 & Hq2).
  exists w2. rewrite (bind_run _ _ w v w1) by done. split; [done|].
  rewrite Hq2, Hq. unfold reported. by rewrite foldl_app.
Qed.
Lemma stops_at {A B} e (m : eff W A) (f : A → eff W B) : stops [] e m → stops [] e (m ≫= f).
Proof. intros Hm w. destruct (Hm w) as (w' & Hrun & Hq). exists w'. by rewrite (bind_throw _ _ _ _ _ Hrun). Qed.

Lemma reports_progress n : reports [n] (λ _, True) (progress job n).
Proof.
  intros w. unfold progress, bull_call. pose proof (Hprogress n (qw_bull w)) as Hn.
  destruct (bull_progress job n (qw_bull w)) as [o q] eqn:Hb. cbn in Hn. subst o. do 2 eexists.
  split; [reflexivity|]. split; [done|]. unfold reported. cbn. by rewrite Hb.
Qed.
Lemma reports_delay ms : reports [] (λ _, True) (delay ms : eff W unit).
Proof. intros w. by eexists _, _. Qed.
Lemma reports_iso_now : reports [] (λ _, True) (iso_now : eff W jsval).
Proof. intros w. by eexists _, _. Qed.
Lemma reports_date_now : reports [] (λ _, True) (date_now : eff W Z).
Proof. intros w. by eexists _, _. Qed.
Lemma reports_random : reports [] (λ _, True) (random : eff W Z).
Proof. intros w. by eexists _, _. Qed.
Lemma reports_require b msg : b = true → reports [] (λ _, True) (require_that b msg : eff W unit).
Proof. intros -> w. by eexists _, _. Qed.
Lemma stops_throw {A} e : stops [] e (throw e : eff W A).
Proof. intros w. eexists. split; [reflexivity|]. done. Qed.
Lemma stops_require b msg : b = false → stops [] (Error msg) (require_that b msg : eff W unit).
Proof. intros -> w. by eexists _. Qed.
Lemma reports_deploy network initializer : reports [] (λ _, True) (deployToNetwork network initializer : eff W (string * string)).
Proof. intros w. by eexists _, _. Qed.
Lemma reports_news source n i : reports [] (λ l, length l = n) (news_items source n i : eff W (list NewsItem)).
Proof.
  revert i. induction n as [|n IH]; intros i; [by apply reports_ret|]. cbn [news_items].
  repeat (eapply (reports_bind [] []); [first [apply reports_date_now|apply reports_random|apply IH]|intros ? ?]).
  apply reports_ret. cbn. by f_equal.
Qed.
Lemma reports_fetch source startDate endDate limit :
  reports [] (λ l, length l = Z.to_nat (or_number (Some limit) 10)) (processor_fetchNews source startDate endDate limit : eff W (list NewsItem)).
Proof. eapply (reports_bind [] []); [apply reports_delay|]. intros _ _. apply reports_news. Qed.

End Reports.
Create HintDb reports.
#[local] Hint Resolve reports_delay reports_iso_now reports_require reports_deploy reports_progress : reports.

#[local] Ltac report_no l := eapply (reports_bind _ [] l); [by eauto with reports|intros ? ?].
#[local] Ltac report_one n l := eapply (reports_bind _ [n] l); [by eauto with reports|intros ? ?].

Section Outcomes.
Context {DB Q : Type} `{!Redis DB, !RedisServer, CLK : Clock, RND : Random, RDX : RadixText, !Bull Q}.
Context (job : Job) (Hprogress : ∀ n q, (bull_progress job n q).1 = Return tt).

Definition deploy_fields (data : DeployContractData) : bool :=
  given (dc_contractName data) && given (dc_contractCode data) && given (dc_network data).

(** deploying a contract: with a name, a code and a network the job reports 10, 30, 50, 90 and
    100 percent in this order, then succeeds with the name and the network it was given -- the
    error of the compiler is never seen, since an empty code is refused before; without one of
    them it reports 10 percent and fails. *)
Theorem deploy_reports data :
  if deploy_fields data then
    reports (DB:=DB) job [10; 30; 50; 90; 100]
      (λ v, ∃ address hash time, v = JObject [("success", JBool true);
         ("data", JObject [("contractAddress", JString address); ("transactionHash", JString hash);
                           ("network", text_value (dc_network data)); ("contractName", text_value (dc_contractName data));
                           ("deployedAt", time)])])
      (handleDeployContract job data)
  else stops (DB:=DB) job [10] (Error "Missing required fields: contractName, contractCode, network") (handleDeployContract job data).
Proof using Hprogress.
  unfold handleDeployContract, deploy_fields. cbv zeta. destruct (given _ && _ && _) eqn:Hv.
  2:{ eapply (stops_bind job [10] []); [by eauto with reports|]. intros ? ?. apply stops_at. by apply stops_require. }
  report_one 10 [30; 50; 90; 100]. report_no [30; 50; 90; 100]. report_one 30 [50; 90; 100].
  apply andb_true_iff in Hv as [[_ (code & -> & Hcode)%given_text]%andb_true_iff (net & -> & Hnet)%given_text].
  eapply (reports_bind job [] _ (λ o, o = None)).
  { intros w. exists None, (advance w). unfold compileContract. split; [|done].
    rewrite (bind_run _ _ w tt (advance w)) by done. by destruct code as [|c code]. }
  intros ? ->. report_one 50 [90; 100]. report_no [90; 100]. report_one 90 [100]. report_one 100 (@nil Z). report_no (@nil Z).
  apply reports_ret. eexists _, _, _. cbn. by rewrite bool_decide_eq_false_2.
Qed.

(** What is wrong with a job of text to speech, in the order of the checks. *)
Definition tts_refusal (text : string) (voiceId : option string) : option string :=
  if negb (given (Some text) && given voiceId) then Some "Missing required fields: text, voiceId"
  else if bool_decide (5000 < String.length text)%nat then Some "Text exceeds maximum length of 5000 characters" else None.

(** C25: text to speech, for every job, while the library takes its reports: without a text it fails with a TypeError before anything is
    reported; with a text that is refused it reports 10 percent and fails with the
    message of the first check it misses; an accepted one reports 10, 30, 50, 80 and 100 percent and
    succeeds with the address of its own audio, a tenth of a second for every word of the
    preprocessed text. *)
Theorem tts_reports data :
  match pt_text data with
  | None => stops (DB:=DB) job [] (TypeError "Cannot read properties of undefined (reading 'length')") (handleProcessTts job data)
  | Some text =>
  match tts_refusal text (pt_voiceId data) with
  | Some msg => stops (DB:=DB) job [10] (Error msg) (handleProcessTts job data)
  | None => reports (DB:=DB) job [10; 30; 50; 80; 100]
      (λ v, ∃ time, v = JObject [("success", JBool true);
        ("data", JObject [("audioUrl", JString ("/audio/" +:+ job_id job +:+ ".mp3"));
                          ("duration", tenths (Z.of_nat (length (split_on " "%char (preprocessText text)))));
                          ("voiceId", text_value (pt_voiceId data)); ("language", JString (default "en" (pt_language data)));
                          ("speed", default (JNumber 1) (pt_speed data)); ("sessionId", text_value (pt_sessionId data));
                          ("processedAt", time)])])
      (handleProcessTts job data)
  end end.
Proof using Hprogress.
  unfold handleProcessTts, tts_refusal. destruct (pt_text data) as [text|]; [|apply stops_throw]. cbv zeta. destruct (given _ && given _) eqn:Hv; cbn [negb].
  2:{ eapply (stops_bind job [10] []); [by eauto with reports|]. intros ? ?. apply stops_at. by apply stops_require. }
  case_bool_decide as Hlen.
  { eapply (stops_bind job [10] []); [by eauto with reports|]. intros ? ?.
    eapply (stops_bind job [] []); [by eauto with reports|]. intros ? ?. apply stops_at, stops_require. by rewrite bool_decide_eq_false_2 by lia. }
  report_one 10 [30; 50; 80; 100]. report_no [30; 50; 80; 100].
  eapply (reports_bind _ []); [apply reports_require; rewrite bool_decide_eq_true_2 by lia; done|intros ? ?].
  report_one 30 [50; 80; 100]. report_one 50 [80; 100].
  eapply (reports_bind job [] _ (λ n, n = estimatedLength (preprocessText text))); [intros w; by eexists _, _|intros ? ->].
  report_one 80 [100]. eapply (reports_bind job [] [100] (λ _, True)); [intros w; by eexists _, _|intros ? _].
  report_one 100 (@nil Z). report_no (@nil Z). apply reports_ret. eexists. repeat f_equal. unfold estimatedLength.
  replace (Z.of_nat _ * 100 * 48000) with (Z.of_nat (length (split_on " "%char (preprocessText text))) * 4800 * 1000) by lia.
  rewrite Z.div_mul by lia. by rewrite Z.div_mul by lia.
Qed.

(** indexing news: without a source the job reports 10 percent and fails; otherwise it reports
    10, 20, 50, 75 and 100 percent and succeeds, having processed as many items as were asked for
    (100 when no limit is given, 10 for a limit of zero, none for a negative one): every item is
    either indexed or failed, and one in twenty fails. *)
Theorem news_reports data :
  let asked := Z.of_nat (Z.to_nat (or_number (Some (default 100 (in_limit data))) 10)) in
  if given (in_source data) then
    reports (DB:=DB) job [10; 20; 50; 75; 100]
      (λ v, ∃ indexed failed time, indexed + failed = asked ∧ failed = asked / 20 ∧
        v = JObject [("success", JBool true);
          ("data", JObject [("source", text_value (in_source data)); ("indexedCount", JNumber indexed); ("failedCount", JNumber failed);
                            ("lastIndexedAt", time); ("itemsProcessed", JNumber asked)])])
      (handleIndexMarketNews job data)
  else stops (DB:=DB) job [10] (Error "Missing required field: source") (handleIndexMarketNews job data).
Proof using Hprogress.
  unfold handleIndexMarketNews. cbv zeta. destruct (given _) eqn:Hv.
  2:{ eapply (stops_bind job [10] []); [by eauto with reports|]. intros ? ?. apply stops_at. by apply stops_require. }
  report_one 10 [20; 50; 75; 100]. report_no [20; 50; 75; 100]. report_one 20 [50; 75; 100].
  eapply (reports_bind _ []); [apply reports_fetch|intros items Hitems].
  report_one 50 [75; 100]. report_no [75; 100]. report_one 75 [100]. report_no [100].
  report_one 100 (@nil Z). report_no (@nil Z). apply reports_ret.
  apply given_text in Hv as (source & -> & Hs). eexists _, _, _. unfold enrichNews. rewrite length_fmap, Hitems.
  split_and!; [| |cbn; by rewrite bool_decide_eq_false_2].
  { apply Z.sub_add. }
  done.
Qed.
End Outcomes.
