(* ===== verification/Tracing.v ===== *)
(** Observability: the tracing, logging and metrics services
    ([observability/services/]) and the controller that serves the metrics.

    A trace context is an object that several maps share, so it lives on a heap and a reference is
    its place there.  The metrics and the log are libraries: what they are told is kept, in order. *)
From S2P Require Import Prelude Async Json JsonParse QueueService.
From Stdlib Require Import QArith Ascii.
Open Scope Z_scope.

Record TraceContext := mkTraceContext {
  tc_traceId : string; tc_spanId : string; tc_parentSpanId : option string; tc_sampled : bool;
  tc_userId : option string; tc_serviceName : string; tc_timestamp : Z; tc_metadata : option jsobj }.
Definition set_metadata (m : option jsobj) (c : TraceContext) : TraceContext :=
  mkTraceContext (tc_traceId c) (tc_spanId c) (tc_parentSpanId c) (tc_sampled c) (tc_userId c) (tc_serviceName c) (tc_timestamp c) m.

Record TraceHeaders := mkTraceHeaders {
  th_traceparent : string; th_traceId : string; th_spanId : string; th_requestId : string; th_userId : option string }.
(** A [Record<string, string>]. *)
Abbreviation Headers := (list (string * string)).
(** [Object.entries(headers)] *)
Definition header_entries (h : TraceHeaders) : Headers :=
  [("traceparent", th_traceparent h); ("x-trace-id", th_traceId h); ("x-span-id", th_spanId h); ("x-request-id", th_requestId h)]
  ++ from_option (λ u, [("x-user-id", u)]) [] (th_userId h).

(** ** What the metrics are told *)

Inductive metric_op := Inc | Dec | SetTo (v : Q) | Observe (v : Q).
Record metric_call := mkMetricCall { mc_metric : string; mc_labels : list (string * string); mc_op : metric_op }.

Module MetricType.
Inductive t := Counter | Gauge | Histogram.
End MetricType.
Record metric_spec := mkMetricSpec { ms_name : string; ms_type : MetricType.t; ms_labels : list string; ms_buckets : list Q }.

Module LogLevel.
Inductive t := Error | Warn | Info | Debug | Custom (level : string).
End LogLevel.
Record log_entry := mkLogEntry { le_level : LogLevel.t; le_message : string; le_meta : jsobj }.

(** ** The state of the services *)
Record Telemetry := mkTelemetry {
  tl_contexts : list TraceContext;          (* the heap *)
  tl_traces : gmap string nat;              (* TracingService.traceContextMap *)
  tl_requests : gmap string jsobj;          (* LoggingService.requestContextStorage *)
  tl_sockets : gmap string nat;             (* WebSocketTracingAdapter.socketTraceMap *)
  tl_jobs : gmap string nat;                (* QueueJobTracingWrapper.jobTraceMap *)
  tl_metrics : list metric_call;
  tl_log : list log_entry }.
Definition set_contexts v t := mkTelemetry v (tl_traces t) (tl_requests t) (tl_sockets t) (tl_jobs t) (tl_metrics t) (tl_log t).
Definition set_traces v t := mkTelemetry (tl_contexts t) v (tl_requests t) (tl_sockets t) (tl_jobs t) (tl_metrics t) (tl_log t).
Definition set_requests v t := mkTelemetry (tl_contexts t) (tl_traces t) v (tl_sockets t) (tl_jobs t) (tl_metrics t) (tl_log t).
Definition set_sockets v t := mkTelemetry (tl_contexts t) (tl_traces t) (tl_requests t) v (tl_jobs t) (tl_metrics t) (tl_log t).
Definition set_jobs v t := mkTelemetry (tl_contexts t) (tl_traces t) (tl_requests t) (tl_sockets t) v (tl_metrics t) (tl_log t).
Definition set_metrics v t := mkTelemetry (tl_contexts t) (tl_traces t) (tl_requests t) (tl_sockets t) (tl_jobs t) v (tl_log t).
Definition set_log v t := mkTelemetry (tl_contexts t) (tl_traces t) (tl_requests t) (tl_sockets t) (tl_jobs t) (tl_metrics t) v.

(** The world: the telemetry and whatever else the traced code works on. *)
Record TracedWorld (X : Type) := mkTracedWorld { tw_telemetry : Telemetry; tw_rest : X; tw_ticks : nat }.
Arguments mkTracedWorld {_} _ _ _.
Arguments tw_telemetry {_} _.
Arguments tw_rest {_} _.
Arguments tw_ticks {_} _.
#[export] Instance TracedWorld_ticking X : Ticking (TracedWorld X) := {|
  tick := tw_ticks; advance w := mkTracedWorld (tw_telemetry w) (tw_rest w) (S (tw_ticks w)) |}.

(** [process.env.SERVICE_NAME], and the number that [parseFloat] reads in
    [process.env.SAMPLING_RATE || '1.0'], if it is one. *)
Class TracingSettings := { SERVICE_NAME : option string; samplingRate : option Q }.

Section Services.
Context {X : Type}.
Local Abbreviation W := (TracedWorld X).

Definition telemetry : eff W Telemetry := gets tw_telemetry.
Definition update (f : Telemetry → Telemetry) : eff W unit :=
  modify (λ w, mkTracedWorld (f (tw_telemetry w)) (tw_rest w) (tw_ticks w)).

(** The context a reference points to. *)
Definition deref (r : nat) : eff W (option TraceContext) := t ← telemetry; mret (tl_contexts t !! r).

(** ** [TracingService] *)

Section Tracing.
Context `{!Clock, !Random, !Crypto, !TracingSettings}.

Definition generateTraceId : eff W string := u ← randomUUID; mret (String.substring 0 32 (remove_dashes u)).
Definition generateSpanId : eff W string := u ← randomUUID; mret (String.substring 0 16 (remove_dashes u)).
(** [Math.random() < samplingRate], never when that is no number. *)
Definition shouldSample : eff W bool :=
  r ← random; mret (from_option (λ q, negb (Qle_bool q (r # Z.to_pos random_scale))) false samplingRate).

Definition createTraceContext (traceId parentSpanId userId : option string) (metadata : option jsobj) : eff W nat :=
  finalTraceId ← (if given traceId then mret (or_string traceId EmptyString) else generateTraceId);
  spanId ← generateSpanId;
  sampled ← shouldSample;
  timestamp ← date_now;
  t ← telemetry;
  let r := length (tl_contexts t) in
  update (λ t, t |> set_contexts (tl_contexts t ++
                      [mkTraceContext finalTraceId spanId parentSpanId sampled userId (or_string SERVICE_NAME "stellara-backend")
                         timestamp metadata])
                 |> set_traces (<[finalTraceId := r]> (tl_traces t))) ;;
  mret r.

Definition header (name Name : string) (headers : Headers) : option string := or_text (assoc name headers) (assoc Name headers).
Definition extractTraceContext (headers : Headers) : eff W nat :=
  let '(traceId, parentSpanId) :=
    match header "traceparent" "Traceparent" headers with
    | Some traceparent =>
        if bool_decide (traceparent = EmptyString) then (None, None) else
        match split_on "-"%char traceparent with
        | _ :: traceId :: parentSpanId :: _ => (Some traceId, Some parentSpanId)
        | _ => (None, None)
        end
    | None => (None, None)
    end in
  let traceId := or_text traceId (header "x-trace-id" "X-Trace-Id" headers) in
  let parentSpanId := or_text parentSpanId (header "x-span-id" "X-Span-Id" headers) in
  let userId := header "x-user-id" "X-User-Id" headers in
  let correlationId := header "x-correlation-id" "X-Correlation-Id" headers in
  createTraceContext traceId parentSpanId userId
    (if given correlationId then Some [("correlationId", JString (or_string correlationId EmptyString))] else None).

Definition createChildSpan (parentTraceId : string) : eff W nat :=
  t ← telemetry;
  match tl_traces t !! parentTraceId ≫= λ r, tl_contexts t !! r with
  | None => throw (Error ("Parent trace context not found: " +:+ parentTraceId))
  | Some parentContext =>
      createTraceContext (Some parentTraceId) (Some (tc_spanId parentContext)) (tc_userId parentContext) (tc_metadata parentContext)
  end.
End Tracing.

Definition getTraceContext (traceId : string) : eff W (option nat) := t ← telemetry; mret (tl_traces t !! traceId).

(** [{ ...a, ...b }] *)
Definition merge_objects (a b : jsobj) : jsobj := foldl (λ o '(k, v), assoc_set k v o) [] (a ++ b).

Definition addMetadata (traceId : string) (metadata : jsobj) : eff W unit :=
  update (λ t, match tl_traces t !! traceId with
               | Some r => set_contexts (alter (λ c, set_metadata (Some (merge_objects (default [] (tc_metadata c)) metadata)) c) r (tl_contexts t)) t
               | None => t
               end).

Definition injectTraceContext (context : TraceContext) : TraceHeaders :=
  let traceFlags := if tc_sampled context then "01" else "00" in
  mkTraceHeaders ("00-" +:+ tc_traceId context +:+ "-" +:+ tc_spanId context +:+ "-" +:+ traceFlags)
    (tc_traceId context) (tc_spanId context) (tc_traceId context)
    (if given (tc_userId context) then tc_userId context else None).

Definition removeTraceContext (traceId : string) : eff W unit := update (λ t, set_traces (delete traceId (tl_traces t)) t).
Definition getActiveTraces : eff W (gmap string nat) := t ← telemetry; mret (tl_traces t).
Definition tracing_onModuleDestroy : eff W unit := update (set_traces ∅).

(** ** [LoggingService] *)

Definition setRequestContext (traceId : string) (context : jsobj) : eff W unit :=
  update (λ t, set_requests (<[traceId := context]> (tl_requests t)) t).
Definition getRequestContext (traceId : string) : eff W (option jsobj) := t ← telemetry; mret (tl_requests t !! traceId).
Definition clearRequestContext (traceId : string) : eff W unit := update (λ t, set_requests (delete traceId (tl_requests t)) t).

Definition log (level : LogLevel.t) (message : string) (context : jsobj) : eff W unit :=
  update (λ t, set_log (tl_log t ++ [mkLogEntry level message context]) t).
Definition log_info : string → jsobj → eff W unit := log LogLevel.Info.
Definition log_warn : string → jsobj → eff W unit := log LogLevel.Warn.
Definition log_debug : string → jsobj → eff W unit := log LogLevel.Debug.

(** What is thrown in this program are [Error]s; [stack] gives the stack of one. *)
Definition error_object (stack : exn → string) (e : exn) : jsval :=
  JObject [("message", JString (exn_message e)); ("stack", JString (stack e)); ("name", JString (exn_name e))].
Definition error_meta (error : option jsval) (context : jsobj) : jsobj :=
  match error with
  | Some v => if truthy v then assoc_set "error" v context else context
  | None => context
  end.
Definition log_error (message : string) (error : option jsval) (context : jsobj) : eff W unit :=
  log LogLevel.Error message (error_meta error context).

(** The line that [printf] makes of an entry, whose meta holds what the caller gave and the
    service's name. *)
Definition meta_without (ks : list string) (o : jsobj) : jsobj := filter (λ '(k, _), k ∉ ks) o.
Definition format_entry (level timestamp message : string) (meta : jsobj) : option string :=
  let ids := filter (λ '(_, v), truthy v = true)
               [("traceId", js_undefined (assoc "traceId" meta)); ("spanId", js_undefined (assoc "spanId" meta))] in
  json_text (JObject (foldl (λ o '(k, v), assoc_set k v o)
    [("level", JString level); ("timestamp", JString timestamp); ("message", JString message)]
    (meta_without ["level"; "message"; "timestamp"; "traceId"; "spanId"] meta ++ ids))).

(** ** [MetricsService] *)

Definition tell (c : metric_call) : eff W unit := update (λ t, set_metrics (tl_metrics t ++ [c]) t).
Definition inc (metric : string) (labels : list (string * string)) : eff W unit := tell (mkMetricCall metric labels Inc).
Definition dec_gauge (metric : string) (labels : list (string * string)) : eff W unit := tell (mkMetricCall metric labels Dec).
Definition set_to (metric : string) (labels : list (string * string)) (v : Q) : eff W unit := tell (mkMetricCall metric labels (SetTo v)).
Definition observe (metric : string) (labels : list (string * string)) (v : Q) : eff W unit := tell (mkMetricCall metric labels (Observe v)).
End Services.

Open Scope Q_scope.
(** [initializeMetrics] *)
Definition initializeMetrics : list metric_spec :=
  [ mkMetricSpec "http_request_duration_seconds" MetricType.Histogram ["method"; "route"; "status_code"] [1#100; 5#100; 1#10; 5#10; 1; 2; 5];
    mkMetricSpec "http_requests_total" MetricType.Counter ["method"; "route"; "status_code"] [];
    mkMetricSpec "http_request_errors_total" MetricType.Counter ["method"; "route"; "error_type"] [];
    mkMetricSpec "http_request_size_bytes" MetricType.Histogram ["method"; "route"] [100; 1000; 10000; 100000; 1000000];
    mkMetricSpec "http_response_size_bytes" MetricType.Histogram ["method"; "route"; "status_code"] [100; 1000; 10000; 100000; 1000000];
    mkMetricSpec "websocket_connections_active" MetricType.Gauge ["namespace"] [];
    mkMetricSpec "websocket_connections_total" MetricType.Counter ["namespace"] [];
    mkMetricSpec "websocket_disconnections_total" MetricType.Counter ["namespace"; "reason"] [];
    mkMetricSpec "websocket_messages_total" MetricType.Counter ["namespace"; "event_type"] [];
    mkMetricSpec "job_duration_seconds" MetricType.Histogram ["job_name"; "status"] [1; 5; 10; 30; 60; 300];
    mkMetricSpec "jobs_total" MetricType.Counter ["job_name"; "status"] [];
    mkMetricSpec "jobs_active" MetricType.Gauge ["job_name"] [];
    mkMetricSpec "jobs_completed_total" MetricType.Counter ["job_name"] [];
    mkMetricSpec "jobs_failed_total" MetricType.Counter ["job_name"; "error_type"] [];
    mkMetricSpec "job_queue_size" MetricType.Gauge ["queue_name"] [];
    mkMetricSpec "database_query_duration_seconds" MetricType.Histogram ["operation"; "table"] [1#1000; 1#100; 1#10; 5#10; 1];
    mkMetricSpec "database_query_errors_total" MetricType.Counter ["operation"; "table"; "error_type"] [];
    mkMetricSpec "database_connection_pool_active" MetricType.Gauge [] [];
    mkMetricSpec "database_connection_pool_size" MetricType.Gauge [] [];
    mkMetricSpec "active_users_total" MetricType.Gauge [] [];
    mkMetricSpec "transactions_total" MetricType.Counter ["type"; "status"] [];
    mkMetricSpec "transaction_errors_total" MetricType.Counter ["type"; "error_reason"] [];
    mkMetricSpec "process_uptime_seconds" MetricType.Gauge [] [];
    mkMetricSpec "process_memory_usage_bytes" MetricType.Gauge ["type"] [] ].
Open Scope Z_scope.

Section Metrics.
Context {X : Type}.
Local Abbreviation W := (TracedWorld X).

(** What the timer of [setupDefaultMetrics] does every five seconds. *)
Definition updateProcessMetrics (uptime heapUsed heapTotal rss : Q) : eff W unit :=
  set_to "process_uptime_seconds" [] uptime ;;
  set_to "process_memory_usage_bytes" [("type", "heapUsed")] heapUsed ;;
  set_to "process_memory_usage_bytes" [("type", "heapTotal")] heapTotal ;;
  set_to "process_memory_usage_bytes" [("type", "rss")] rss.

(** A size of zero, or one that is not a number, is not told. *)
Definition sized (size : option Z) (m : Q → eff W unit) : eff W unit :=
  match size with Some n => if bool_decide (n = 0) then mret tt else m (inject_Z n) | None => mret tt end.
Definition recordHttpRequest (method route : string) (statusCode : Z) (duration : Q) (requestSize responseSize : option Z) : eff W unit :=
  let labels := [("method", method); ("route", route); ("status_code", pretty statusCode)] in
  observe "http_request_duration_seconds" labels duration ;;
  inc "http_requests_total" labels ;;
  sized requestSize (observe "http_request_size_bytes" [("method", method); ("route", route)]) ;;
  sized responseSize (observe "http_response_size_bytes" labels).
Definition recordHttpError (method route errorType : string) : eff W unit :=
  inc "http_request_errors_total" [("method", method); ("route", route); ("error_type", errorType)].

Definition recordWebSocketConnection (namespace : string) : eff W unit :=
  inc "websocket_connections_total" [("namespace", namespace)] ;;
  inc "websocket_connections_active" [("namespace", namespace)].
Definition recordWebSocketDisconnection (namespace reason : string) : eff W unit :=
  inc "websocket_disconnections_total" [("namespace", namespace); ("reason", reason)] ;;
  dec_gauge "websocket_connections_active" [("namespace", namespace)].
Definition recordWebSocketMessage (namespace eventType : string) : eff W unit :=
  inc "websocket_messages_total" [("namespace", namespace); ("event_type", eventType)].
Definition getActiveWebSocketConnections (namespace : string) : Z := 0.

Definition recordJobStart (jobName : string) : eff W unit := inc "jobs_active" [("job_name", jobName)].
Definition recordJobCompleted (jobName : string) (duration : Q) : eff W unit :=
  observe "job_duration_seconds" [("job_name", jobName); ("status", "success")] duration ;;
  inc "jobs_total" [("job_name", jobName); ("status", "success")] ;;
  inc "jobs_completed_total" [("job_name", jobName)] ;;
  dec_gauge "jobs_active" [("job_name", jobName)].
Definition recordJobFailed (jobName : string) (duration : Q) (errorType : string) : eff W unit :=
  observe "job_duration_seconds" [("job_name", jobName); ("status", "failed")] duration ;;
  inc "jobs_total" [("job_name", jobName); ("status", "failed")] ;;
  inc "jobs_failed_total" [("job_name", jobName); ("error_type", errorType)] ;;
  dec_gauge "jobs_active" [("job_name", jobName)].
Definition updateJobQueueSize (queueName : string) (size : Z) : eff W unit :=
  set_to "job_queue_size" [("queue_name", queueName)] (inject_Z size).

Definition recordDatabaseQuery (operation table : string) (duration : Q) : eff W unit :=
  observe "database_query_duration_seconds" [("operation", operation); ("table", table)] duration.
Definition recordDatabaseError (operation table errorType : string) : eff W unit :=
  inc "database_query_errors_total" [("operation", operation); ("table", table); ("error_type", errorType)].
Definition updateConnectionPoolStats (active total : Z) : eff W unit :=
  set_to "database_connection_pool_active" [] (inject_Z active) ;; set_to "database_connection_pool_size" [] (inject_Z total).
Definition updateActiveUsers (count : Z) : eff W unit := set_to "active_users_total" [] (inject_Z count).
Definition recordTransaction (type status : string) : eff W unit := inc "transactions_total" [("type", type); ("status", status)].
Definition recordTransactionError (type errorReason : string) : eff W unit :=
  inc "transaction_errors_total" [("type", type); ("error_reason", errorReason)].

(** What the library has to say of what it was told, and in which form. *)
Class PromClient := { register_metrics : list metric_call → string; register_contentType : string }.
Definition getMetrics `{!PromClient} : eff W string := t ← telemetry; mret (register_metrics (tl_metrics t)).
Definition getMetricsContentType `{!PromClient} : string := register_contentType.
(** [GET /metrics]: the content type and the text that are sent. *)
Definition controller_getMetrics `{!PromClient} : eff W (string * string) :=
  metrics ← getMetrics; mret (getMetricsContentType, metrics).
End Metrics.

(** * What is traced: HTTP requests ([interceptors/tracing.interceptor.ts]), the connections of the
    socket server and the jobs of the queues ([middleware/]). *)

#[export] Instance TraceContext_inhabited : Inhabited TraceContext :=
  populate (mkTraceContext EmptyString EmptyString None false None EmptyString 0 None).

(** Milliseconds as seconds, for a metric and for a line of the log. *)
Definition in_seconds (ms : Z) : Q := (ms # 1000)%Q.
Definition seconds (ms : Z) : jsval :=
  if bool_decide (ms mod 1000 = 0) then JNumber (ms / 1000) else
  let a := Z.abs ms in
  JDecimal (mkDecimal (bool_decide (ms < 0)) (Z.to_N (a / 1000)) (digit_for (a / 100 mod 10))
    (if bool_decide (a mod 10 = 0) then if bool_decide (a / 10 mod 10 = 0) then [] else [digit_for (a / 10 mod 10)]
     else [digit_for (a / 10 mod 10); digit_for (a mod 10)])).
(** A number, or [NaN], which is written as null. *)
Definition number_or_nan (n : option Z) : jsval := from_option JNumber JNull n.

(** [error.name || 'UnknownError'] *)
Definition error_type (e : exn) : string := or_string (head (split_on " "%char (exn_name e))) "UnknownError".

Section Calls.
Context {X : Type} `{!Clock, !Random, !Crypto, !TracingSettings} (stack : exn → string).
Local Abbreviation W := (TracedWorld X).

Definition pointed (r : nat) : eff W TraceContext := t ← telemetry; mret (tl_contexts t !!! r).
(** The identifiers at the head of an entry of the log. *)
Definition traced (c : TraceContext) (meta : jsobj) : jsobj :=
  ("traceId", JString (tc_traceId c)) :: ("spanId", JString (tc_spanId c)) :: meta.

(** ** [TracingInterceptor] *)

(** Express gives a header by its name in lower case. *)
Record HttpRequest := mkHttpRequest {
  hq_method : string; hq_path : string; hq_url : string; hq_route : option string; hq_ip : option string; hq_headers : Headers }.

Definition getRequestSize (request : HttpRequest) : option Z :=
  match assoc "content-length" (hq_headers request) with
  | Some contentLength => if bool_decide (contentLength = EmptyString) then Some 0 else parseInt (trim_start contentLength)
  | None => Some 0
  end.
Definition getResponseSize (data : jsval) : Z :=
  if negb (truthy data) then 0 else
  match data with
  | JString s => Z.of_nat (String.length s)
  | _ => from_option (λ s, Z.of_nat (String.length s)) 0 (json_text data)
  end.
Definition getClientIp (request : HttpRequest) : string :=
  or_string (or_text (assoc "x-forwarded-for" (hq_headers request) ≫= λ s, head (split_on ","%char s)) (hq_ip request)) "unknown".
Definition getRouteLabel (request : HttpRequest) : string :=
  hq_method request +:+ " " +:+ or_string (hq_route request) (hq_path request).

(** Express keeps the status and the headers of the response; the handler finds the context on
    the request. *)
Section Http.
Context (statusCode : W → Z) (setHeader : string → string → eff W unit).

Definition intercept (request : HttpRequest) (handle : nat → eff W jsval) : eff W jsval :=
  r ← extractTraceContext (hq_headers request);
  traceContext ← pointed r;
  foreach (header_entries (injectTraceContext traceContext)) (λ kv, setHeader kv.1 kv.2) ;;
  startTime ← date_now;
  let requestSize := getRequestSize request in
  log_info "HTTP request received" (traced traceContext
    [("method", JString (hq_method request)); ("path", JString (hq_path request)); ("url", JString (hq_url request));
     ("ip", JString (getClientIp request)); ("userAgent", text_value (assoc "user-agent" (hq_headers request)));
     ("userId", text_value (tc_userId traceContext))]) ;;
  result ← attempt (handle r);
  now ← date_now;
  let duration := now - startTime in
  let route := getRouteLabel request in
  status ← gets statusCode;
  match result with
  | Return responseData =>
      let responseSize := getResponseSize responseData in
      recordHttpRequest (hq_method request) route status (in_seconds duration) requestSize (Some responseSize) ;;
      log_info "HTTP request completed" (traced traceContext
        [("method", JString (hq_method request)); ("path", JString (hq_path request)); ("statusCode", JNumber status);
         ("duration", seconds duration); ("requestSize", number_or_nan requestSize); ("responseSize", JNumber responseSize);
         ("userId", text_value (tc_userId traceContext))]) ;;
      mret responseData
  | Throw error =>
      recordHttpError (hq_method request) route (error_type error) ;;
      log_error "HTTP request error" (Some (error_object stack error)) (traced traceContext
        [("method", JString (hq_method request)); ("path", JString (hq_path request)); ("statusCode", JNumber status);
         ("duration", seconds duration); ("userId", text_value (tc_userId traceContext)); ("errorMessage", JString (exn_message error))]) ;;
      throw error
  end.
End Http.

(** ** [WebSocketTracingAdapter] *)

Record TracedSocket := mkTracedSocket { ts_id : string; ts_headers : Headers; ts_address : string }.

Definition socketContext (socketId : string) : eff W (option nat) := t ← telemetry; mret (tl_sockets t !! socketId).

Definition initializeConnection (socket : TracedSocket) (namespace : string) : eff W nat :=
  r ← extractTraceContext (ts_headers socket);
  update (λ t, set_sockets (<[ts_id socket := r]> (tl_sockets t)) t) ;;
  recordWebSocketConnection namespace ;;
  traceContext ← pointed r;
  log_info "WebSocket connection established" (traced traceContext
    [("socketId", JString (ts_id socket)); ("namespace", JString namespace); ("userId", text_value (tc_userId traceContext));
     ("remoteAddress", JString (ts_address socket)); ("userAgent", text_value (assoc "user-agent" (ts_headers socket)))]) ;;
  mret r.

Definition handleDisconnection (socketId namespace reason : string) : eff W unit :=
  found ← socketContext socketId;
  match found with
  | None => mret tt
  | Some r =>
      recordWebSocketDisconnection namespace reason ;;
      traceContext ← pointed r;
      log_info "WebSocket connection closed" (traced traceContext
        [("socketId", JString socketId); ("namespace", JString namespace); ("reason", JString reason);
         ("userId", text_value (tc_userId traceContext))]) ;;
      update (λ t, set_sockets (delete socketId (tl_sockets t)) t)
  end.

Definition recordMessage (socketId namespace eventType : string) (messageSize : option Z) : eff W unit :=
  found ← socketContext socketId;
  match found with
  | None => mret tt
  | Some r =>
      recordWebSocketMessage namespace eventType ;;
      traceContext ← pointed r;
      log_debug "WebSocket message" (traced traceContext
        [("socketId", JString socketId); ("namespace", JString namespace); ("eventType", JString eventType);
         ("messageSize", JNumber (default 0 messageSize)); ("userId", text_value (tc_userId traceContext))])
  end.

Definition socket_injectTraceContext (socketId : string) : eff W Headers :=
  found ← socketContext socketId;
  match found with
  | None => mret []
  | Some r => traceContext ← pointed r; mret (header_entries (injectTraceContext traceContext))
  end.

Definition updateMetadata (socketId : string) (metadata : jsobj) : eff W unit :=
  found ← socketContext socketId;
  match found with
  | None => mret tt
  | Some r => traceContext ← pointed r; addMetadata (tc_traceId traceContext) metadata
  end.

Definition getActiveConnections : eff W (gmap string nat) := t ← telemetry; mret (tl_sockets t).
Definition getActiveConnectionCount : eff W Z := t ← telemetry; mret (Z.of_nat (size (tl_sockets t))).

(** ** [QueueJobTracingWrapper] *)

(** [{ ...v }] *)
Definition own_properties (v : jsval) : jsobj :=
  match v with
  | JObject o => o
  | JArray l => imap (λ i v, (pretty i, v)) l
  | JString s => imap (λ i a, (pretty i, JString (String a EmptyString))) (String.list_ascii_of_string s)
  | _ => []
  end.
Definition sensitiveFields : list string := ["password"; "token"; "secret"; "apiKey"; "privateKey"].
Definition redact (o : jsobj) (field : string) : jsobj :=
  if bool_decide (is_Some (assoc field o)) then assoc_set field (JString "[REDACTED]") o else o.
Definition sanitizeJobData (data : jsval) : jsval :=
  if negb (truthy data) then JUndefined else
  match data with
  | JObject _ | JArray _ | JPromise _ => JObject (foldl redact (own_properties data) sensitiveFields)
  | _ => data
  end.

Definition job_injectTraceContext (data : jsval) (parentTraceContext : TraceContext) : jsval :=
  JObject (merge_objects (own_properties data)
    [("traceContext", JObject [("traceId", JString (tc_traceId parentTraceContext)); ("spanId", JString (tc_spanId parentTraceContext));
                               ("userId", text_value (tc_userId parentTraceContext))])]).

(** A field of the context in a job's data; the identifiers that are put there are texts. *)
Definition text_field (v : jsval) (k : string) : option string :=
  match property v k with Return (JString s) => Some s | _ => None end.
Definition createJobTraceContext (job : Job) (jobName : string) : eff W nat :=
  r ← match job_data job with
      | JObject data =>
          let v := js_undefined (assoc "traceContext" data) in
          if truthy v then createTraceContext (text_field v "traceId") (text_field v "spanId") (text_field v "userId") None
          else createTraceContext None None None (Some [("jobName", JString jobName); ("jobId", JString (job_id job))])
      | _ => createTraceContext None None None (Some [("jobName", JString jobName); ("jobId", JString (job_id job))])
      end;
  update (λ t, set_jobs (<[job_id job := r]> (tl_jobs t)) t) ;;
  mret r.

Definition forget_job (job : Job) : eff W unit := update (λ t, set_jobs (delete (job_id job) (tl_jobs t)) t).

(** The pieces of a wrapped job before and after the processor. *)
Definition job_started (c : TraceContext) (job : Job) (jobName : string) : eff W unit :=
  recordJobStart jobName ;;
  log_info "Job processing started" (traced c
    [("jobId", JString (job_id job)); ("jobName", JString jobName); ("jobData", sanitizeJobData (job_data job))]).
Definition job_completed (c : TraceContext) (startTime : Z) (job : Job) (jobName : string) (result : jsval) : eff W unit :=
  now ← date_now;
  recordJobCompleted jobName (in_seconds (now - startTime)) ;;
  log_info "Job processing completed" (traced c
    [("jobId", JString (job_id job)); ("jobName", JString jobName); ("duration", seconds (now - startTime));
     ("result", sanitizeJobData result)]) ;;
  forget_job job.
Definition job_failed (c : TraceContext) (startTime : Z) (job : Job) (jobName : string) (error : exn) : eff W unit :=
  now ← date_now;
  recordJobFailed jobName (in_seconds (now - startTime)) (error_type error) ;;
  log_error "Job processing failed" (Some (error_object stack error)) (traced c
    [("jobId", JString (job_id job)); ("jobName", JString jobName); ("duration", seconds (now - startTime));
     ("jobData", sanitizeJobData (job_data job))]) ;;
  forget_job job.

Definition wrapProcessor (processor : Job → task W jsval) (jobName : string) (job : Job) : task W jsval :=
  begun ← atomic (r ← createJobTraceContext job jobName; c ← pointed r; t ← date_now; mret (c, t));
  let '(traceContext, startTime) := begun in
  task_try
    (atomic (job_started traceContext job jobName) ;;
     result ← processor job;
     atomic (job_completed traceContext startTime job jobName result) ;;
     mret result)
    (λ error, atomic (job_failed traceContext startTime job jobName error ;; throw error)).

(** The queue calls a listener at its events; [count] asks it for its size.  Nobody waits for the
    first count. *)
Definition wrapQueueMetrics (on : string → eff W unit → eff W unit) (count : eff W Z) (queueName : string) : eff W unit :=
  let report := (n ← count; updateJobQueueSize queueName n) in
  on "waiting" report ;;
  on "completed" report ;;
  on "failed" report ;;
  attempt report ;; mret tt.

Definition getJobTraceContext (jobId : string) : eff W (option nat) := t ← telemetry; mret (tl_jobs t !! jobId).
Definition getActiveJobTraces : eff W (gmap string nat) := t ← telemetry; mret (tl_jobs t).
End Calls.
