(* ===== verification/TelemetryFacts.v ===== *)
(** What holds of the telemetry: jobs and connections are counted exactly, metrics are used as they
    were registered, spans form chains, and headers carry a trace from one service to the next. *)
From S2P Require Import Prelude Async Json JsonParse QueueService Tracing.
From Stdlib Require Import QArith Ascii.
Open Scope Z_scope.

(** ** Counting what the metrics were told *)

Definition is_inc (op : metric_op) : bool := match op with Inc => true | _ => false end.
Definition is_dec (op : metric_op) : bool := match op with Dec => true | _ => false end.
Definition of_series (metric : string) (labels : list (string * string)) (c : metric_call) : bool :=
  String.eqb (mc_metric c) metric &&
  forallb (λ kv, match find (λ kv', String.eqb kv'.1 kv.1) (mc_labels c) with Some kv' => String.eqb kv'.2 kv.2 | None => false end) labels.
(** How often a metric was raised, or lowered, under labels that include the given ones. *)
Definition told (metric : string) (labels : list (string * string)) (which : metric_op → bool) (l : list metric_call) : Z :=
  Z.of_nat (length (List.filter (λ c, of_series metric labels c && which (mc_op c)) l)).
Definition gauge (metric : string) (labels : list (string * string)) (l : list metric_call) : Z :=
  told metric labels is_inc l - told metric labels is_dec l.

Lemma told_app metric labels which l1 l2 : told metric labels which (l1 ++ l2) = told metric labels which l1 + told metric labels which l2.
Proof. unfold told. rewrite List.filter_app, length_app. lia. Qed.

Inductive job_counter := JobsActive | JobsTotal | JobsCompleted | JobsFailed.
Definition job_count (jobName : string) (i : job_counter) (l : list metric_call) : Z :=
  match i with
  | JobsActive => gauge "jobs_active" [("job_name", jobName)] l
  | JobsTotal => told "jobs_total" [("job_name", jobName)] is_inc l
  | JobsCompleted => told "jobs_completed_total" [("job_name", jobName)] is_inc l
  | JobsFailed => told "jobs_failed_total" [("job_name", jobName)] is_inc l
  end.

(** What one series of calls adds to a counter: evaluated but for the name of the job. *)
Lemma job_count_app n i l1 l2 : job_count n i (l1 ++ l2) = job_count n i l1 + job_count n i l2.
Proof. destruct i; cbn; unfold gauge; rewrite !told_app; lia. Qed.

Module Phase.
Inductive t := Waiting | Running | Succeeded | Failed.
#[global] Instance eq_dec : EqDecision t.
Proof. solve_decision. Defined.
End Phase.

(** What a job in a phase adds to a counter of its name. *)
Definition phase_share (i : job_counter) (p : Phase.t) : Z :=
  match i, p with
  | JobsActive, Phase.Running => 1
  | JobsTotal, Phase.Succeeded | JobsTotal, Phase.Failed => 1
  | JobsCompleted, Phase.Succeeded => 1
  | JobsFailed, Phase.Failed => 1
  | _, _ => 0
  end.
Definition job_share (jobName : string) (i : job_counter) (np : string * Phase.t) : Z :=
  if bool_decide (np.1 = jobName) then phase_share i np.2 else 0.
Definition unended (np : string * Phase.t) : Prop := np.2 = Phase.Waiting ∨ np.2 = Phase.Running.
(** How a task has ended fits the phase of its job. *)
Definition phase_fits {A} (o : outcome A) (np : string * Phase.t) : Prop :=
  np.2 = match o with Return _ => Phase.Succeeded | Throw _ => Phase.Failed end.

Section Jobs.
Context {X : Type} `{!Clock, !Random, !Crypto, !TracingSettings} (stack : exn → string).
Local Abbreviation W := (TracedWorld X).

Definition world_count (jobName : string) (i : job_counter) (w : W) : Z := job_count jobName i (tl_metrics (tw_telemetry w)).

(** [m] tells the metrics exactly [l]. *)
Definition tells {A} (l : list metric_call) (m : eff W A) : Prop :=
  ∀ w, ∃ a, (m w).1 = Return a ∧ tl_metrics (tw_telemetry (m w).2) = tl_metrics (tw_telemetry w) ++ l.
Lemma tells_ret {A} (a : A) : tells [] (mret a).
Proof. intros w. exists a. by rewrite app_nil_r. Qed.
Lemma tells_bind {A B} l1 l2 (m : eff W A) (f : A → eff W B) : tells l1 m → (∀ a, tells l2 (f a)) → tells (l1 ++ l2) (m ≫= f).
Proof.
  intros Hm Hf w. destruct (Hm w) as (a & Ha & Hl). destruct (Hf a (m w).2) as (b & Hb & Hl').
  unfold mbind, eff_bind. destruct (m w) as [o w1]. cbn [fst snd] in *. subst o. exists b. by rewrite Hl', Hl, app_assoc.
Qed.
Lemma tells_gets {A} (f : W → A) : tells [] (gets f).
Proof. intros w. eexists. by rewrite app_nil_r. Qed.
Lemma tells_update f : (∀ t, tl_metrics (f t) = tl_metrics t) → tells [] (update (X:=X) f).
Proof. intros Hf w. exists tt. cbn. by rewrite Hf, app_nil_r. Qed.
Lemma tells_telemetry : tells [] (telemetry (X:=X)).
Proof. apply tells_gets. Qed.
Lemma tells_now : tells [] (date_now : eff W Z).
Proof. intros w. eexists. cbn. by rewrite app_nil_r. Qed.
Lemma tells_random : tells [] (random : eff W Z).
Proof. intros w. eexists. cbn. by rewrite app_nil_r. Qed.
Lemma tells_uuid : tells [] (randomUUID : eff W string).
Proof. intros w. eexists. cbn. by rewrite app_nil_r. Qed.
Lemma tells_tell c : tells [c] (tell (X:=X) c).
Proof. intros w. by exists tt. Qed.
Lemma tells_log level msg meta : tells [] (log (X:=X) level msg meta).
Proof. by apply tells_update. Qed.
Lemma tells_none_bind {A B} l (m : eff W A) (f : A → eff W B) : tells [] m → (∀ a, tells l (f a)) → tells l (m ≫= f).
Proof. intros Hm Hf. by apply (tells_bind []). Qed.
End Jobs.

Create HintDb tells.
#[export] Hint Resolve tells_ret tells_gets tells_telemetry tells_now tells_random tells_uuid tells_tell tells_log : tells.
#[export] Hint Extern 2 (tells [] (update _)) => by apply tells_update : tells.

(** Splits a method into its calls; those that tell the metrics nothing go away. *)
Ltac tells_tac := repeat first
  [ solve [auto with tells]
  | apply tells_none_bind; [solve [auto with tells]|intros ?]
  | apply tells_bind; [solve [auto with tells]|intros ?]
  | case_match ].

Section Accounts.
Context {X : Type} `{!Clock, !Random, !Crypto, !TracingSettings} (stack : exn → string).
Local Abbreviation W := (TracedWorld X).

Lemma tells_trace : tells [] (generateTraceId (X:=X)).
Proof. unfold generateTraceId. tells_tac. Qed.
Lemma tells_span : tells [] (generateSpanId (X:=X)).
Proof. unfold generateSpanId. tells_tac. Qed.
Lemma tells_sample : tells [] (shouldSample (X:=X)).
Proof. unfold shouldSample. tells_tac. Qed.
Lemma tells_create t p u m : tells [] (createTraceContext (X:=X) t p u m).
Proof.
  unfold createTraceContext. apply tells_none_bind; [case_match; auto using tells_trace with tells|intros ?].
  apply tells_none_bind; [apply tells_span|intros ?]. apply tells_none_bind; [apply tells_sample|intros ?].
  tells_tac.
Qed.
Hint Resolve tells_create : tells.

Lemma tells_job_context job n : tells [] (createJobTraceContext (X:=X) job n).
Proof. unfold createJobTraceContext. apply tells_none_bind; [repeat case_match; auto with tells|intros ?]. tells_tac. Qed.
Lemma tells_pointed r : tells [] (pointed (X:=X) r).
Proof. unfold pointed. tells_tac. Qed.
Lemma tells_forget job : tells [] (forget_job (X:=X) job).
Proof. unfold forget_job. tells_tac. Qed.
Lemma tells_info msg meta : tells [] (log_info (X:=X) msg meta).
Proof. apply tells_log. Qed.
Lemma tells_error msg e meta : tells [] (log_error (X:=X) msg e meta).
Proof. apply tells_log. Qed.
Hint Resolve tells_job_context tells_pointed tells_forget tells_info tells_error : tells.

Definition completion (n : string) (duration : Q) : list metric_call :=
  [mkMetricCall "job_duration_seconds" [("job_name", n); ("status", "success")] (Observe duration);
   mkMetricCall "jobs_total" [("job_name", n); ("status", "success")] Inc;
   mkMetricCall "jobs_completed_total" [("job_name", n)] Inc; mkMetricCall "jobs_active" [("job_name", n)] Dec].
Definition failure (n : string) (duration : Q) (type : string) : list metric_call :=
  [mkMetricCall "job_duration_seconds" [("job_name", n); ("status", "failed")] (Observe duration);
   mkMetricCall "jobs_total" [("job_name", n); ("status", "failed")] Inc;
   mkMetricCall "jobs_failed_total" [("job_name", n); ("error_type", type)] Inc; mkMetricCall "jobs_active" [("job_name", n)] Dec].

Lemma started_tells c job n w :
  tl_metrics (tw_telemetry (job_started c job n w).2) = tl_metrics (tw_telemetry (X:=X) w) ++ [mkMetricCall "jobs_active" [("job_name", n)] Inc].
Proof. done. Qed.
Lemma completed_tells c start job n result w : ∃ d w', job_completed (X:=X) c start job n result w = (Return tt, w') ∧
  tl_metrics (tw_telemetry w') = tl_metrics (tw_telemetry w) ++ completion n d.
Proof. eexists _, _. split; [reflexivity|]. cbn. by rewrite <-!app_assoc. Qed.
Lemma failed_tells c start job n e w : ∃ d w', job_failed (X:=X) stack c start job n e w = (Return tt, w') ∧
  tl_metrics (tw_telemetry w') = tl_metrics (tw_telemetry w) ++ failure n d (error_type e).
Proof. eexists _, _. split; [reflexivity|]. cbn. by rewrite <-!app_assoc. Qed.

Ltac count_tac := 
  match goal with n : string, m : string |- _ => unfold job_share; cbn [fst snd]; destruct (String.eqb_spec n m) as [<-|Hne];
    [rewrite bool_decide_eq_true_2 by done; pose proof (String.eqb_refl n) as E|rewrite bool_decide_eq_false_2 by done; pose proof Hne as E; apply String.eqb_neq in E] end.
Lemma completion_count n m i d :
  job_count m i (completion n d) = job_share m i (n, Phase.Succeeded) - job_share m i (n, Phase.Running).
Proof. count_tac; destruct i; unfold job_count, gauge, told, completion, of_series; cbn -[Z.sub]; by rewrite ?E. Qed.
Lemma failure_count n m i d type :
  job_count m i (failure n d type) = job_share m i (n, Phase.Failed) - job_share m i (n, Phase.Running).
Proof. count_tac; destruct i; unfold job_count, gauge, told, failure, of_series; cbn -[Z.sub]; by rewrite ?E. Qed.
Lemma start_count n m i :
  job_count m i [mkMetricCall "jobs_active" [("job_name", n)] Inc] = job_share m i (n, Phase.Running) - job_share m i (n, Phase.Waiting).
Proof. count_tac; destruct i; unfold job_count, gauge, told, of_series; cbn -[Z.sub]; by rewrite ?E. Qed.

(** Every counter of jobs, for every name. *)
Definition counters : string * job_counter → W → Z := λ mi, world_count mi.1 mi.2.
Definition shares : string * job_counter → string * Phase.t → Z := λ mi, job_share mi.1 mi.2.
Definition same_name : relation (string * Phase.t) := λ d d', d'.1 = d.1.
Local Abbreviation job_owes := (owes same_name counters shares unended).

Lemma told_counts w w' l : tl_metrics (tw_telemetry w') = tl_metrics (tw_telemetry w) ++ l →
  ∀ mi, counters mi w' = counters mi w + job_count mi.1 mi.2 l.
Proof. intros Hl [m i]. unfold counters, world_count. by rewrite Hl, job_count_app. Qed.

(** A piece that returns, having told [l], which takes a job of the name [n] from [p] to [p']. *)
Definition becomes (np : string * Phase.t) {A} (o : outcome A) (d : string * Phase.t) : Prop :=
  match o with Return _ => d = np | Throw _ => False end.
Lemma piece_owes {A} (m : eff W A) n p p' : unended (n, p) →
  (∀ w, ∃ a w' l, m w = (Return a, w') ∧ tl_metrics (tw_telemetry w') = tl_metrics (tw_telemetry w) ++ l ∧
     ∀ m' i, job_count m' i l = job_share m' i (n, p') - job_share m' i (n, p)) →
  job_owes (becomes (n, p')) (n, p) (atomic m).
Proof.
  intros Hl Hm. split; [done|]. intros w. destruct (Hm w) as (a & w' & l & -> & Hw & Hc). exists (n, p').
  split_and!; [done| |done]. intros [m' i]. rewrite (told_counts _ _ _ Hw), Hc. unfold shares. cbn. lia.
Qed.
Lemma no_count m i : job_count m i [] = 0.
Proof. by destruct i. Qed.

Definition begin_job (job : Job) (n : string) : eff W (TraceContext * Z) :=
  r ← createJobTraceContext job n; c ← pointed r; t ← date_now; mret (c, t).
Lemma begin_tells job n : tells [] (begin_job job n).
Proof. unfold begin_job. tells_tac. Qed.

Lemma wrapped_owes processor n job : aside counters (processor job) →
  job_owes phase_fits (n, Phase.Waiting) (wrapProcessor stack processor n job).
Proof.
  intros Hp. unfold wrapProcessor. fold (begin_job job n). eapply (owes_bind _ _ _ _ _ _ (becomes (n, Phase.Waiting))); [| |by intros ? ? []].
  { apply (piece_owes _ n Phase.Waiting Phase.Waiting); [by left|]. intros w. destruct (begin_tells job n w) as (a & Ha & Hl).
    exists a, (begin_job job n w).2, []. split_and!; [|done|intros; rewrite no_count; lia]. rewrite <-Ha. by destruct (begin_job job n w). }
  intros [c start] ? ->. cbv beta iota.
  eapply (owes_try _ _ _ _ _ _ (λ o d, match o with Return _ => d = (n, Phase.Succeeded) | Throw _ => d = (n, Phase.Running) end)).
  2:{ by intros ? ? ->. }
  - eapply (owes_bind _ _ _ _ _ _ (becomes (n, Phase.Running))); [|intros ? ? ->|by intros ? ? []].
    { apply (piece_owes _ n Phase.Waiting Phase.Running); [by left|]. intros w.
      eexists tt, _, _. split_and!; [reflexivity|apply started_tells|]. intros. apply start_count. }
    eapply (owes_bind _ _ _ _ _ _ (λ _ d, d = (n, Phase.Running))); [apply owes_aside; [done|by right|done]|intros result ? ->|by intros ? ? ->].
    eapply (owes_bind _ _ _ _ _ _ (becomes (n, Phase.Succeeded))); [|by intros ? ? ->|by intros ? ? []].
    apply (piece_owes _ n Phase.Running Phase.Succeeded); [by right|]. intros w.
    destruct (completed_tells c start job n result w) as (d & w' & ? & ?). eexists tt, _, _. split_and!; [done..|].
    intros. apply completion_count.
  - intros e ? ->. split; [by right|]. intros w. destruct (failed_tells c start job n e w) as (d & w' & Hrun & Hl).
    exists (n, Phase.Failed). rewrite (bind_run _ _ w tt w') by done. split_and!; [done| |done].
    intros [m i]. cbn [snd throw]. rewrite (told_counts _ _ _ Hl), failure_count. unfold shares. cbn. lia.
Qed.

(** ** Jobs side by side *)

Definition wrapped_jobs (processor : string → Job → task W jsval) (jobs : list (string * Job)) : list (task W unit) :=
  (λ nj, wrapProcessor stack (processor nj.1) nj.1 nj.2 ≫= λ _, mret tt) <$> jobs.
(** The jobs of a name in a phase. *)
Definition phase_num (n : string) (p : Phase.t) (l : list (string * Phase.t)) : Z := Z.of_nat (length (filter (λ np, np = (n, p)) l)).
Definition in_phase (t : task W unit) (np : string * Phase.t) : Prop :=
  match t with Done o => phase_fits o np | Segment _ _ => unended np end.

Lemma phase_num_cons n p np l : phase_num n p (np :: l) = (if bool_decide (np = (n, p)) then 1 else 0) + phase_num n p l.
Proof. unfold phase_num. rewrite filter_cons. case_bool_decide; [rewrite decide_True by done; cbn [length]; lia|by rewrite decide_False by done]. Qed.
Lemma total_share n i l : total shares (n, i) l =
  match i with
  | JobsActive => phase_num n Phase.Running l
  | JobsTotal => phase_num n Phase.Succeeded l + phase_num n Phase.Failed l
  | JobsCompleted => phase_num n Phase.Succeeded l
  | JobsFailed => phase_num n Phase.Failed l
  end.
Proof.
  induction l as [|[m p] l IH]; [by destruct i|]. cbn [total]. rewrite IH, !phase_num_cons. unfold shares, job_share. cbn [fst snd].
  repeat case_bool_decide; simplify_eq; destruct i; try destruct p; cbn [phase_share]; try lia; congruence.
Qed.

(** C19: however the pieces of wrapped jobs interleave, every job is in one phase -- its task has
    returned and it succeeded, or has thrown and it failed, or it is waiting or running -- and for
    each name of jobs the gauge of active jobs has grown by the jobs that are running now, the
    completed and the failed ones by those that succeeded and failed, and the total by both. *)
Theorem jobs_accounted processor jobs w ts w'
    (Hproc : Forall (λ nj, aside counters (processor nj.1 nj.2)) jobs)
    (Hsteps : rtc pool_step (wrapped_jobs processor jobs, w) (ts, w')) :
  ∃ phases, phases.*1 = jobs.*1 ∧ Forall2 in_phase ts phases ∧ ∀ name,
    world_count name JobsActive w' = world_count name JobsActive w + phase_num name Phase.Running phases ∧
    world_count name JobsCompleted w' = world_count name JobsCompleted w + phase_num name Phase.Succeeded phases ∧
    world_count name JobsFailed w' = world_count name JobsFailed w + phase_num name Phase.Failed phases ∧
    world_count name JobsTotal w' = world_count name JobsTotal w + phase_num name Phase.Succeeded phases + phase_num name Phase.Failed phases.
Proof.
  assert (∀ ds, ds = (λ nj : string * Job, (nj.1, Phase.Waiting)) <$> jobs → ds.*1 = jobs.*1 ∧ Forall2 (job_owes phase_fits) ds (wrapped_jobs processor jobs) ∧
    ∀ n i, total shares (n, i) ds = 0) as Hstart.
  { intros ? ->. clear Hsteps. induction Hproc as [|[n j] l Hnj _ (IH1 & IH2 & IH3)]; [done|]. split_and!.
    - csimpl. by rewrite IH1.
    - constructor; [|done]. eapply owes_bind; [by apply wrapped_owes|by intros ? ? ?|by intros ? ? ?].
    - intros m i. csimpl. cbn [total]. rewrite IH3. unfold shares, job_share. cbn. by repeat case_bool_decide; destruct i. }
  destruct (Hstart _ eq_refl) as (Hnames & Howes & Hzero).
  destruct (pool_owes _ _ _ _ _ _ _ Hsteps _ Howes) as (phases & Hnext & Hin & Hcount). cbn [fst snd] in *.
  exists phases. split_and!.
  - rewrite <-Hnames. clear -Hnext. induction Hnext as [|x y l l' Hxy _ IH]; [done|]. csimpl. rewrite IH. f_equal.
    induction Hxy as [|x y z Hxy _ IHxy]; [done|]. unfold same_name in Hxy. congruence.
  - clear -Hin. induction Hin as [|np t l l' Ht _ IH]; [done|]. constructor; [|done]. destruct t; [done|apply Ht].
  - intros n. assert (∀ i, world_count n i w' = world_count n i w + total shares (n, i) phases) as Hi.
    { intros i. specialize (Hcount (n, i)). rewrite Hzero in Hcount. unfold counters in Hcount. cbn [fst snd] in Hcount. lia. }
    rewrite !Hi, !total_share. lia.
Qed.
End Accounts.
