(* ===== verification/TracingFacts.v ===== *)
(** What holds of traces: headers carry them from one service to the next, the spans of a trace form
    a chain, connections are counted exactly, metrics are used as they were registered, and the
    interceptor changes nothing of what it traces. *)
From S2P Require Import Prelude Async Json JsonParse QueueService Tracing TelemetryFacts.
From Stdlib Require Import QArith Ascii.
Open Scope Z_scope.

Section Traces.
Context {X : Type} `{!Clock, !Random, !Crypto, !TracingSettings} (stack : exn → string).
Local Abbreviation W := (TracedWorld X).
Local Abbreviation contexts w := (tl_contexts (tw_telemetry w)).
Local Abbreviation traces w := (tl_traces (tw_telemetry w)).
Local Abbreviation sockets w := (tl_sockets (tw_telemetry w)).
Local Abbreviation metrics w := (tl_metrics (tw_telemetry w)).

(** ** A new context *)

(** [w'] is [w] with one context more, which its trace now leads to. *)
Definition opens (c : TraceContext) (w w' : W) : Prop :=
  contexts w' = contexts w ++ [c] ∧ traces w' = <[tc_traceId c := length (contexts w)]> (traces w) ∧
  sockets w' = sockets w ∧ tl_jobs (tw_telemetry w') = tl_jobs (tw_telemetry w) ∧ metrics w' = metrics w ∧
  tl_log (tw_telemetry w') = tl_log (tw_telemetry w) ∧ tw_rest w' = tw_rest w.
Lemma create_opens t p u m (w : W) : ∃ c w', createTraceContext t p u m w = (Return (length (contexts w)), w') ∧ opens c w w' ∧
  (given t = true → t = Some (tc_traceId c)) ∧ tc_parentSpanId c = p ∧ tc_userId c = u ∧ tc_metadata c = m.
Proof.
  unfold createTraceContext. destruct (given t) eqn:Ht.
  - apply given_text in Ht as (id & -> & Hne). eexists _, _. split; [reflexivity|]. split_and!; try done.
    intros _. cbn. by rewrite bool_decide_eq_false_2.
  - eexists _, _. split; [reflexivity|]. by split_and!.
Qed.
Lemma opened_lookup c w w' : opens c w w' → contexts w' !! length (contexts w) = Some c.
Proof. intros (-> & _). by rewrite lookup_app_r, Nat.sub_diag. Qed.

(** ** Headers *)

Lemma given_some s : s ≠ EmptyString → given (Some s) = true.
Proof. intros Hs. unfold given, or_string. by rewrite !bool_decide_eq_false_2 by (rewrite ?bool_decide_eq_false_2 by done; done). Qed.
Lemma or_text_given a b : given a = true → or_text a b = a.
Proof. unfold given, or_text. by destruct (bool_decide _). Qed.

Lemma extract_traceparent headers version traceId spanId rest (w : W) :
  header "traceparent" "Traceparent" headers = Some (version +:+ String "-" (traceId +:+ String "-" (spanId +:+ String "-" rest))) →
  free_of "-" version = true → free_of "-" traceId = true → free_of "-" spanId = true →
  traceId ≠ EmptyString → spanId ≠ EmptyString → ∃ m,
  extractTraceContext headers w = createTraceContext (Some traceId) (Some spanId) (header "x-user-id" "X-User-Id" headers) m w ∧
  (header "x-correlation-id" "X-Correlation-Id" headers = None → m = None).
Proof.
  intros Hh Hv Ht Hs Htne Hsne. unfold extractTraceContext. rewrite Hh.
  rewrite bool_decide_eq_false_2 by (by destruct version). unfold split_on.
  rewrite !split_go_cons by done. cbv iota beta zeta.
  rewrite !or_text_given by (by apply given_some). eexists. split; [reflexivity|]. by intros ->.
Qed.

Lemma or_text_same a : or_text a None = if given a then a else None.
Proof. unfold or_text, given. by destruct (bool_decide _). Qed.
Lemma injected_headers c : let h := header_entries (injectTraceContext c) in
  header "traceparent" "Traceparent" h = Some (th_traceparent (injectTraceContext c)) ∧
  header "x-user-id" "X-User-Id" h = (if given (tc_userId c) then tc_userId c else None) ∧
  header "x-correlation-id" "X-Correlation-Id" h = None.
Proof.
  unfold header, header_entries. cbn [assoc app injectTraceContext th_userId th_traceparent th_spanId th_traceId th_requestId].
  repeat first [rewrite bool_decide_eq_true_2 by done|rewrite bool_decide_eq_false_2 by done].
  destruct (given (tc_userId c)) eqn:Hg; [|done]. pose proof Hg as (u & Hu & _)%given_text. rewrite Hu in *.
  cbn [from_option assoc]. repeat first [rewrite bool_decide_eq_true_2 by done|rewrite bool_decide_eq_false_2 by done].
  unfold or_text. unfold given in Hg. by destruct (bool_decide (or_string (Some u) EmptyString = EmptyString)).
Qed.

(** C21: headers carry a trace to the next service: from the headers that are injected for a context
    whose identifiers have no dash, the service that extracts them makes a context of the same
    trace, whose parent is the span that sent them, for the same user; it leads the trace there from
    then on.  The sampling decision and the metadata do not travel. *)
Theorem trace_roundtrip c (w : W) (Hid : free_of "-" (tc_traceId c) = true ∧ tc_traceId c ≠ EmptyString)
    (Hspan : free_of "-" (tc_spanId c) = true ∧ tc_spanId c ≠ EmptyString) :
  ∃ r c' w', extractTraceContext (header_entries (injectTraceContext c)) w = (Return r, w') ∧
    contexts w' !! r = Some c' ∧ traces w' !! tc_traceId c = Some r ∧ tc_traceId c' = tc_traceId c ∧
    tc_parentSpanId c' = Some (tc_spanId c) ∧ tc_userId c' = (if given (tc_userId c) then tc_userId c else None) ∧
    tc_metadata c' = None.
Proof.
  destruct Hid as [Hid Hidne], Hspan as [Hspan Hspanne]. destruct (injected_headers c) as (Htp & Huser & Hcorr).
  destruct (extract_traceparent _ "00" (tc_traceId c) (tc_spanId c) _ w Htp) as (m & -> & Hm); [done..|].
  destruct (create_opens (Some (tc_traceId c)) (Some (tc_spanId c)) (header "x-user-id" "X-User-Id" (header_entries (injectTraceContext c))) m w)
    as (c' & w' & -> & Hop & Ht & Hp & Hu & Hmeta).
  specialize (Ht (given_some _ Hidne)). injection Ht as Ht. eexists _, c', w'.
  split_and!; [reflexivity|by apply opened_lookup| |done..|by rewrite Hu|by rewrite Hmeta, Hm].
  destruct Hop as (_ & -> & _). rewrite Ht. apply lookup_insert_eq.
Qed.

(** ** Child spans *)

(** The contexts of [n] calls of [createChildSpan]. *)
Fixpoint child_spans (n : nat) (traceId : string) : eff W (list nat) :=
  match n with
  | O => mret []
  | S n => r ← createChildSpan traceId; rs ← child_spans n traceId; mret (r :: rs)
  end.
Fixpoint chain_of (c0 : TraceContext) (cs : list TraceContext) : Prop :=
  match cs with
  | [] => True
  | c :: cs => tc_traceId c = tc_traceId c0 ∧ tc_parentSpanId c = Some (tc_spanId c0) ∧ tc_userId c = tc_userId c0 ∧
      tc_metadata c = tc_metadata c0 ∧ chain_of c cs
  end.

(** C22: the spans of a trace form a chain: the first child span has the context that the trace leads
    to as its parent, and every further one the span that was created before it -- so that what a
    handler opens side by side, for the same parent, appears one inside the other. *)
Theorem spans_chain traceId n (w : W) r0 c0 (Hid : traceId ≠ EmptyString) (Hr0 : traces w !! traceId = Some r0)
    (Hc0 : contexts w !! r0 = Some c0) (Hc0id : tc_traceId c0 = traceId) :
  ∃ rs cs w', child_spans n traceId w = (Return rs, w') ∧
    rs = seq (length (contexts w)) n ∧ contexts w' = contexts w ++ cs ∧ length cs = n ∧ chain_of c0 cs ∧
    traces w' !! traceId = last (r0 :: rs).
Proof.
  revert w r0 c0 Hr0 Hc0 Hc0id. induction n as [|n IH]; intros w r0 c0 Hr0 Hc0 Hc0id; cbn [child_spans].
  { exists [], [], w. by rewrite app_nil_r. }
  assert (∃ c w1, createChildSpan traceId w = (Return (length (contexts w)), w1) ∧ opens c w w1 ∧ tc_traceId c = traceId ∧
    tc_parentSpanId c = Some (tc_spanId c0) ∧ tc_userId c = tc_userId c0 ∧ tc_metadata c = tc_metadata c0)
    as (c & w1 & Hrun & Hop & Hcid & Hp & Hu & Hm).
  { unfold createChildSpan. rewrite (bind_run _ _ w (tw_telemetry w) w) by done. rewrite Hr0. cbn [mbind option_bind]. rewrite Hc0.
    destruct (create_opens (Some traceId) (Some (tc_spanId c0)) (tc_userId c0) (tc_metadata c0) w) as (c & w1 & -> & ? & Ht & ? & ? & ?).
    exists c, w1. split_and!; [done..| |done|done|done]. specialize (Ht (given_some _ Hid)). congruence. }
  pose proof (opened_lookup _ _ _ Hop) as Hlook. pose proof Hop as (Hcs & Htr & _).
  destruct (IH w1 (length (contexts w)) c) as (rs & cs & w' & Hrun' & Hrs & Hall & Hlen & Hch & Hlast); [|done..|].
  { rewrite Htr, Hcid. apply lookup_insert_eq. }
  rewrite (bind_run _ _ _ _ _ Hrun), (bind_run _ _ _ _ _ Hrun'). exists (length (contexts w) :: rs), (c :: cs), w'.
  rewrite Hcs, length_app in Hrs. cbn [length seq] in *. rewrite Nat.add_1_r in Hrs.
  split; [done|]. split; [by rewrite Hrs|]. split; [by rewrite Hall, Hcs, <-app_assoc|]. split; [by rewrite Hlen|].
  split; [|by rewrite Hlast]. cbn [chain_of]. by rewrite Hcid, Hc0id.
Qed.

(** ** Connections *)

Inductive socket_event :=
| Connected (socket : TracedSocket)
| Disconnected (socketId reason : string)
| Message (socketId eventType : string) (messageSize : option Z)
| Metadata (socketId : string) (metadata : jsobj).
Definition socket_step (namespace : string) (e : socket_event) : eff W unit :=
  match e with
  | Connected socket => initializeConnection socket namespace ;; mret tt
  | Disconnected socketId reason => handleDisconnection socketId namespace reason
  | Message socketId eventType messageSize => recordMessage socketId namespace eventType messageSize
  | Metadata socketId metadata => updateMetadata socketId metadata
  end.
(** The server gives a connection an identifier that none of the open ones has. *)
Fixpoint fresh_connects (open : gset string) (es : list socket_event) : Prop :=
  match es with
  | [] => True
  | Connected socket :: es => (ts_id socket ∉ open) ∧ fresh_connects ({[ts_id socket]} ∪ open) es
  | Disconnected socketId _ :: es => fresh_connects (open ∖ {[socketId]}) es
  | _ :: es => fresh_connects open es
  end.

Definition active_gauge (namespace : string) (w : W) : Z := gauge "websocket_connections_active" [("namespace", namespace)] (metrics w).
Definition opened_total (namespace : string) (w : W) : Z := told "websocket_connections_total" [("namespace", namespace)] is_inc (metrics w).
Definition closed_total (namespace : string) (w : W) : Z := told "websocket_disconnections_total" [("namespace", namespace)] is_inc (metrics w).
Definition open_count (w : W) : Z := Z.of_nat (size (sockets w)).

(** The gauge is ahead of the map by the same number before and after, and behind the connections
    that were opened by those that were closed. *)
Definition in_step (namespace : string) : relation W := λ w w',
  active_gauge namespace w' - open_count w' = active_gauge namespace w - open_count w ∧
  active_gauge namespace w' - (opened_total namespace w' - closed_total namespace w') =
    active_gauge namespace w - (opened_total namespace w - closed_total namespace w).
#[local] Instance in_step_preorder ns : PreOrder (in_step ns).
Proof. split; [by intros w|]. intros w1 w2 w3 [? ?] [? ?]. split; congruence. Qed.

Lemma extract_creates h (w : W) : ∃ t p u m, extractTraceContext h w = createTraceContext t p u m w.
Proof. unfold extractTraceContext. repeat case_match; simplify_eq; by eexists _, _, _, _. Qed.
Lemma pointed_run r (w : W) : pointed r w = (Return (contexts w !!! r), w).
Proof. done. Qed.


Lemma in_step_intro ns w w' l : metrics w' = metrics w ++ l →
  open_count w' = open_count w + gauge "websocket_connections_active" [("namespace", ns)] l →
  gauge "websocket_connections_active" [("namespace", ns)] l =
    told "websocket_connections_total" [("namespace", ns)] is_inc l - told "websocket_disconnections_total" [("namespace", ns)] is_inc l →
  in_step ns w w'.
Proof.
  intros Hl Hs Hg. unfold in_step, active_gauge, opened_total, closed_total, gauge in *. rewrite !Hl, !told_app. lia.
Qed.
(** The counters of a list of calls about one namespace. *)
Ltac namespace_tac ns := unfold gauge, told, of_series; cbn; rewrite ?String.eqb_refl; cbn.

Lemma socketContext_run id (w : W) : socketContext id w = (Return (sockets w !! id), w).
Proof. done. Qed.
Lemma connected_step ns socket w : sockets w !! ts_id socket = None → ∃ w', socket_step ns (Connected socket) w = (Return tt, w') ∧
  dom (sockets w') = {[ts_id socket]} ∪ dom (sockets w) ∧ in_step ns w w'.
Proof.
  intros Hnew. cbn [socket_step]. unfold initializeConnection. destruct (extract_creates (ts_headers socket) w) as (t & p & u & m & He).
  destruct (create_opens t p u m w) as (c & w1 & Hrun & (_ & _ & Hs & _ & Hmet & _) & _).
  eexists. rewrite <-bind_assoc. rewrite (bind_run _ _ w (length (contexts w)) w1) by by rewrite He. split; [reflexivity|]. split.
  { cbn. by rewrite Hs, dom_insert_L. }
  eapply in_step_intro; [cbn; by rewrite Hmet, <-app_assoc| |by namespace_tac ns].
  unfold open_count. cbn [tl_sockets tw_telemetry]. cbn. rewrite Hs, map_size_insert_None by done. namespace_tac ns. lia.
Qed.
Lemma disconnected_step ns socketId reason w : ∃ w', socket_step ns (Disconnected socketId reason) w = (Return tt, w') ∧
  dom (sockets w') = dom (sockets w) ∖ {[socketId]} ∧ in_step ns w w'.
Proof.
  cbn [socket_step]. unfold handleDisconnection. rewrite (bind_run _ _ _ _ _ (socketContext_run socketId w)).
  destruct (sockets w !! socketId) as [r|] eqn:Hr.
  2:{ exists w. split_and!; [done| |done]. apply not_elem_of_dom in Hr. set_solver. }
  eexists. split; [reflexivity|]. split; [cbn; by rewrite dom_delete_L|].
  eapply in_step_intro; [cbn; by rewrite <-app_assoc| |by namespace_tac ns].
  unfold open_count. cbn. rewrite map_size_delete, Hr. namespace_tac ns.
  assert (size (sockets w) ≠ 0%nat) by (apply (map_size_ne_0_lookup_2 _ socketId); by rewrite Hr). lia.
Qed.
Lemma other_step ns e w : match e with Message _ _ _ | Metadata _ _ => True | _ => False end →
  ∃ w', socket_step ns e w = (Return tt, w') ∧ sockets w' = sockets w ∧ in_step ns w w'.
Proof.
  destruct e as [| |id type n|id m]; [done|done|intros _..]; cbn [socket_step]; unfold recordMessage, updateMetadata;
    rewrite (bind_run _ _ _ _ _ (socketContext_run id w));
    (destruct (sockets w !! id) as [r|]; [|by exists w]); eexists; (split; [reflexivity|]).
  - split; [done|]. eapply in_step_intro; [done| |by namespace_tac ns]. unfold open_count. namespace_tac ns. by rewrite Z.sub_diag, Z.add_0_r.
  - cbn. case_match; (split; [done|]); (eapply in_step_intro; [by rewrite app_nil_r|unfold open_count; namespace_tac ns; by rewrite Z.sub_diag, Z.add_0_r|done]).
Qed.

(** C20: the metrics of connections are exact: whatever connects, disconnects -- even twice --,
    sends messages or sets metadata, the gauge of active connections moves as the number of
    connections the adapter holds, which is what was opened less what was closed. *)
Theorem connections_counted ns es (w : W) (Hfresh : fresh_connects (dom (sockets w)) es) :
  ∃ w', foreach es (socket_step ns) w = (Return tt, w') ∧
    active_gauge ns w' - active_gauge ns w = open_count w' - open_count w ∧
    active_gauge ns w' - active_gauge ns w =
      (opened_total ns w' - opened_total ns w) - (closed_total ns w' - closed_total ns w).
Proof.
  cut (∃ w', foreach es (socket_step ns) w = (Return tt, w') ∧ in_step ns w w').
  { intros (w' & Hrun & Hg & Ht). exists w'. split; [done|]. split; lia. }
  revert w Hfresh. induction es as [|e es IH]; intros w Hfresh; cbn [foreach]; [by exists w|].
  assert (∃ w1, socket_step ns e w = (Return tt, w1) ∧ fresh_connects (dom (sockets w1)) es ∧ in_step ns w w1) as (w1 & Hrun & Hf & Hin).
  { destruct e as [socket|id reason|id type n|id m]; cbn [fresh_connects] in Hfresh.
    - destruct Hfresh as [Hid%not_elem_of_dom Hf]. destruct (connected_step ns socket w Hid) as (w1 & ? & Hd & ?).
      exists w1. by rewrite Hd.
    - destruct (disconnected_step ns id reason w) as (w1 & ? & Hd & ?). exists w1. by rewrite Hd.
    - destruct (other_step ns (Message id type n) w) as (w1 & ? & Hs & ?); [done|]. exists w1. by rewrite Hs.
    - destruct (other_step ns (Metadata id m) w) as (w1 & ? & Hs & ?); [done|]. exists w1. by rewrite Hs. }
  destruct (IH w1 Hf) as (w' & Hrun' & Hin'). exists w'. rewrite (bind_run _ _ _ _ _ Hrun). split; [done|]. by etrans.
Qed.

(** ** The interceptor *)

Lemma foreach_silent {A} (l : list A) (f : A → eff W unit) (R : relation W) `{!PreOrder R} :
  (∀ x w, ∃ w', f x w = (Return tt, w') ∧ R w w') → ∀ w, ∃ w', foreach l f w = (Return tt, w') ∧ R w w'.
Proof.
  intros Hf. induction l as [|x l IH]; intros w; [by exists w|]. destruct (Hf x w) as (w1 & Hrun & HR).
  destruct (IH w1) as (w' & ? & ?). exists w'. cbn [foreach]. rewrite (bind_run _ _ _ _ _ Hrun). split; [done|]. by etrans.
Qed.

Definition same_telemetry : relation W := λ w w', tw_telemetry w' = tw_telemetry w.
#[local] Instance same_telemetry_preorder : PreOrder same_telemetry.
Proof. split; [by intros w|]. intros w1 w2 w3 H12 H23. unfold same_telemetry in *. congruence. Qed.

Definition route_labels (request : HttpRequest) : list (string * string) :=
  [("method", hq_method request); ("route", getRouteLabel request)].
Definition recorded (metric : string) (request : HttpRequest) (w w' : W) : Z :=
  told metric (route_labels request) is_inc (metrics w') - told metric (route_labels request) is_inc (metrics w).

(** Nothing but values of one metric. *)
Definition only_observes (name : string) (labels : list (string * string)) (l : list metric_call) : Prop :=
  Forall (λ c, ∃ v, c = mkMetricCall name labels (Observe v)) l.
Lemma observes_told name labels l metric ls : only_observes name labels l → told metric ls is_inc l = 0.
Proof.
  induction 1 as [|c l [v ->] _ IH]; [done|]. change (?c :: l) with ([c] ++ l). rewrite told_app, IH.
  unfold told. cbn. by rewrite andb_false_r.
Qed.
Lemma sized_tells n name labels (w : W) : ∃ l w', sized n (observe name labels) w = (Return tt, w') ∧ metrics w' = metrics w ++ l ∧
  tw_rest w' = tw_rest w ∧ only_observes name labels l.
Proof.
  destruct n as [n|]; cbn [sized]; [case_bool_decide|]; try (exists [], w; rewrite app_nil_r; split_and!; [done..|constructor]).
  eexists _, _. split_and!; [reflexivity|reflexivity|done|]. by constructor; [eexists|constructor].
Qed.

Lemma recorded_app metric request (w w' : W) l : metrics w' = metrics w ++ l →
  recorded metric request w w' = told metric (route_labels request) is_inc l.
Proof. intros Hl. unfold recorded. rewrite Hl, told_app. lia. Qed.
Lemma request_tells m r s d n n' (w : W) : let labels := [("method", m); ("route", r); ("status_code", pretty s)] in ∃ l1 l2 w',
  recordHttpRequest m r s d n n' w = (Return tt, w') ∧ tw_rest w' = tw_rest w ∧
  metrics w' = metrics w ++ [mkMetricCall "http_request_duration_seconds" labels (Observe d); mkMetricCall "http_requests_total" labels Inc] ++ l1 ++ l2 ∧
  only_observes "http_request_size_bytes" [("method", m); ("route", r)] l1 ∧ only_observes "http_response_size_bytes" labels l2.
Proof.
  cbv zeta. unfold recordHttpRequest. cbv zeta.
  rewrite (bind_run (observe _ _ _) _ _ _ _ eq_refl), (bind_run (inc _ _) _ _ _ _ eq_refl).
  match goal with |- context [(sized n (observe ?a ?b) ≫= _) ?w1] => destruct (sized_tells n a b w1) as (l1 & w2 & Hrun & Hl1 & Hr1 & Ht1) end.
  rewrite (bind_run _ _ _ _ _ Hrun).
  match goal with |- context [sized n' (observe ?a ?b) ?w] => destruct (sized_tells n' a b w) as (l2 & w3 & Hrun2 & Hl2 & Hr2 & Ht2) end.
  exists l1, l2, w3. split_and!; [done|by rewrite Hr2, Hr1| |done..]. rewrite Hl2, Hl1. cbn. by rewrite <-!app_assoc.
Qed.
Lemma request_recorded request status d n n' (w : W) : ∃ l w',
  recordHttpRequest (hq_method request) (getRouteLabel request) status d n n' w = (Return tt, w') ∧ metrics w' = metrics w ++ l ∧
  tw_rest w' = tw_rest w ∧ told "http_requests_total" (route_labels request) is_inc l = 1 ∧
  told "http_request_errors_total" (route_labels request) is_inc l = 0.
Proof.
  destruct (request_tells (hq_method request) (getRouteLabel request) status d n n' w) as (l1 & l2 & w' & Hrun & Hrest & Hl & H1' & H2').
  eexists _, w'. split_and!; [done..| |]; rewrite !told_app, (observes_told _ _ _ _ _ H1'), (observes_told _ _ _ _ _ H2');
    unfold route_labels, told, of_series; cbn; by rewrite ?String.eqb_refl.
Qed.

(** C23: the interceptor does not change what it traces: whatever the handler does, the request ends as
    the handler ended, with the value it returned or the error it threw, and nothing outside the
    telemetry happens after it.  A request that succeeds adds one to the requests of its route and
    none to the errors; one that fails adds one to the errors and none to the requests. *)
Theorem intercept_transparent statusCode setHeader request handle (w : W)
    (Hset : ∀ k v w, ∃ w', setHeader k v w = (Return tt, w') ∧ same_telemetry w w') :
  ∃ r w1 o w2 w', handle r w1 = (o, w2) ∧ intercept stack statusCode setHeader request handle w = (o, w') ∧ tw_rest w' = tw_rest w2 ∧
    metrics w1 = metrics w ∧
    recorded "http_requests_total" request w2 w' = (if returned o then 1 else 0) ∧
    recorded "http_request_errors_total" request w2 w' = (if returned o then 0 else 1).
Proof.
  unfold intercept. destruct (extract_creates (hq_headers request) w) as (t & p & u & m & He).
  destruct (create_opens t p u m w) as (c & w0 & Hrun & (_ & _ & _ & _ & Hmet & _) & _).
  rewrite (bind_run _ _ w (length (contexts w)) w0) by by rewrite He. rewrite (bind_run _ _ _ _ _ (pointed_run _ w0)).
  destruct (foreach_silent (header_entries (injectTraceContext (contexts w0 !!! length (contexts w)))) (λ kv, setHeader kv.1 kv.2)
    same_telemetry (λ kv, Hset kv.1 kv.2) w0) as (wh & Hh & Htel).
  rewrite (bind_run _ _ _ _ _ Hh). unfold same_telemetry in Htel.
  rewrite (bind_run date_now _ _ _ _ eq_refl). cbv zeta.
  erewrite (bind_run (log_info _ _) _ _ _ _ eq_refl).
  match goal with |- context [attempt (handle ?r) ?w1] => idtac | |- context [(attempt (handle ?r) ≫= _) ?w1] =>
    destruct (handle r w1) as [o w2] eqn:Hhandle; exists r, w1, o, w2 end.
  rewrite (bind_run _ _ _ _ _ (attempt_run _ _ _ _ Hhandle)).
  rewrite (bind_run date_now _ _ _ _ eq_refl), (bind_run (gets statusCode) _ _ _ _ eq_refl).
  destruct o as [data|e].
  - destruct (request_recorded request (statusCode (advance w2)) (in_seconds (clock_at (tick w2) - clock_at (tick wh)))
      (getRequestSize request) (Some (getResponseSize data)) (advance w2)) as (l & w3 & Hrec & Hl & Hrest & H1' & H2').
    cbv zeta. rewrite (bind_run _ _ _ _ _ Hrec). eexists. split; [done|]. split; [reflexivity|]. split; [exact Hrest|].
    split; [cbn; by rewrite Htel|]. rewrite !(recorded_app _ _ w2 _ l) by exact Hl. by rewrite H1', H2'.
  - eexists. split; [done|]. split; [reflexivity|]. split; [done|]. split; [cbn; by rewrite Htel|].
    erewrite !recorded_app by reflexivity. unfold route_labels, told, of_series. cbn. by rewrite !String.eqb_refl.
Qed.

(** ** Metrics as they were registered *)

(** The methods of [MetricsService] that tell a metric something. *)
Inductive metric_method : eff W unit → Prop :=
| do_updateProcessMetrics u a b c : metric_method (updateProcessMetrics u a b c)
| do_recordHttpRequest m r s d n n' : metric_method (recordHttpRequest m r s d n n')
| do_recordHttpError m r e : metric_method (recordHttpError m r e)
| do_recordWebSocketConnection n : metric_method (recordWebSocketConnection n)
| do_recordWebSocketDisconnection n r : metric_method (recordWebSocketDisconnection n r)
| do_recordWebSocketMessage n e : metric_method (recordWebSocketMessage n e)
| do_recordJobStart n : metric_method (recordJobStart n)
| do_recordJobCompleted n d : metric_method (recordJobCompleted n d)
| do_recordJobFailed n d e : metric_method (recordJobFailed n d e)
| do_updateJobQueueSize q n : metric_method (updateJobQueueSize q n)
| do_recordDatabaseQuery o t d : metric_method (recordDatabaseQuery o t d)
| do_recordDatabaseError o t e : metric_method (recordDatabaseError o t e)
| do_updateConnectionPoolStats a t : metric_method (updateConnectionPoolStats a t)
| do_updateActiveUsers n : metric_method (updateActiveUsers n)
| do_recordTransaction t s : metric_method (recordTransaction t s)
| do_recordTransactionError t r : metric_method (recordTransactionError t r).

(** What a type of metric can be told. *)
Definition op_fits (type : MetricType.t) (op : metric_op) : bool :=
  match type, op with
  | MetricType.Counter, Inc | MetricType.Gauge, Inc | MetricType.Gauge, Dec | MetricType.Gauge, SetTo _ | MetricType.Histogram, Observe _ => true
  | _, _ => false
  end.
(** A metric of this name is registered, it can be told this, and the labels are its own. *)
Definition well_told (c : metric_call) : bool :=
  match find (λ m, String.eqb (ms_name m) (mc_metric c)) initializeMetrics with
  | Some m => op_fits (ms_type m) (mc_op c) && bool_decide ((mc_labels c).*1 = ms_labels m)
  | None => false
  end.

(** C24: every method of the metrics service tells only metrics that were registered, each what its type
    allows -- a counter is only raised, a histogram only observed -- under exactly the labels it was
    registered with; no method throws. *)
Theorem metrics_registered m (w : W) (Hm : metric_method m) : ∃ l w', m w = (Return tt, w') ∧
  metrics w' = metrics w ++ l ∧ Forall (λ c, well_told c = true) l ∧ NoDup (ms_name <$> initializeMetrics).
Proof.
  assert (NoDup (ms_name <$> initializeMetrics)) as Hnd by by apply (bool_decide_unpack _).
  destruct Hm; try by eexists _, _; (split; [reflexivity|]); (split; [cbn; by rewrite <-?app_assoc|]); split; [by repeat constructor|].
  destruct (request_tells m r s d n n' w) as (l1 & l2 & w' & Hrun & Hrest & Hl & Hl1 & Hl2).
  eexists _, w'. split_and!; [done|exact Hl| |done]. apply Forall_app. split; [by repeat constructor|]. apply Forall_app.
  split; (eapply Forall_impl; [eassumption|]); by intros ? [v ->].
Qed.
End Traces.

(** ** What is logged of a job *)

Lemma assoc_redact k f o : assoc k (redact o f) =
  if bool_decide (k = f) then (λ _, JString "[REDACTED]") <$> assoc f o else assoc k o.
Proof.
  unfold redact. case_bool_decide as Hf; case_bool_decide as Hk; subst; [|by apply assoc_set_ne| |done].
  - rewrite assoc_set_eq. destruct Hf as [v Hv]. by rewrite Hv.
  - by apply eq_None_not_Some in Hf as ->.
Qed.
Lemma assoc_redacted k fs o : assoc k (foldl redact o fs) =
  if bool_decide (k ∈ fs) then (λ _, JString "[REDACTED]") <$> assoc k o else assoc k o.
Proof.
  revert o. induction fs as [|f fs IH]; intros o; [done|]. cbn [foldl]. rewrite IH, assoc_redact.
  repeat case_bool_decide; subst; try set_solver. by destruct (assoc f o).
Qed.

(** what is logged of a job's data: its own fields that are called a password, a token, a secret or a
    key are replaced, whatever they held; every other field, and so everything that is nested in
    one, is logged as it is. *)
Theorem sanitize_redacts o : ∃ o', sanitizeJobData (JObject o) = JObject o' ∧ ∀ k, assoc k o' =
  if bool_decide (k ∈ sensitiveFields) then (λ _, JString "[REDACTED]") <$> assoc k o else assoc k o.
Proof. eexists. split; [reflexivity|]. intros k. apply assoc_redacted. Qed.
