(* ===== verification/Repository.v ===== *)
(** The interface of a TypeORM [Repository<E>] as the services use it.

    The ORM and the database are not code of this repository: the class lists
    the operations the services call, the laws state the documented behaviour
    they rely on, and every theorem about a service is proved against them.
    Calls do not fail, and an entity is the value of its columns; relations
    are looked up explicitly where a service asks for them. *)
From S2P Require Import Prelude.

Class Repository (DB E : Type) := {
  row_id : E → string;
  rows : DB → list E;                    (* the table, in an order of its own *)
  fresh_id : DB → string;                (* @PrimaryGeneratedColumn('uuid') *)
  written : Z → option E → E → E;        (* time, row before, entity: the row after save *)
  write : Z → E → DB → DB;               (* save *)
  drop : string → DB → DB;               (* remove, delete *)
}.

Definition lookup_row `{Repository DB E} (id : string) (db : DB) : option E :=
  array_find (λ r, row_id r = id) (rows db).

Class RepositoryLaws (DB E : Type) `{!Repository DB E} := {
  rows_nodup db : NoDup (row_id <$> rows db);
  written_id t o e : row_id (written t o e) = row_id e;
  elem_of_write t e db r :
    r ∈ rows (write t e db) ↔
      r = written t (lookup_row (row_id e) db) e ∨ (r ∈ rows db ∧ row_id r ≠ row_id e);
  elem_of_drop id db r : r ∈ rows (drop id db) ↔ r ∈ rows db ∧ row_id r ≠ id;
  fresh_id_fresh db : fresh_id db ∉ row_id <$> rows db;
}.

(** What saving an entity leaves in a nullable column: a property that is
    [undefined] is left out of the UPDATE, so the column keeps its value. *)
Definition merge_column {A} (old new : option A) : option A :=
  match new with Some _ => new | None => old end.

Section Theory.
Context `{RepositoryLaws DB E}.
Implicit Types (db : DB) (e r : E) (id : string).

Lemma rows_id_inj db r r' : r ∈ rows db → r' ∈ rows db → row_id r = row_id r' → r = r'.
Proof.
  intros Hr Hr' Hid. pose proof (rows_nodup db) as Hnd. revert Hr Hr' Hnd.
  generalize (rows db). induction l as [|x l IH]; intros Hr Hr' Hnd; [set_solver|].
  csimpl in Hnd. apply NoDup_cons in Hnd as [Hx Hnd].
  apply elem_of_cons in Hr as [->|Hr]; apply elem_of_cons in Hr' as [->|Hr']; auto.
  - exfalso. apply Hx. rewrite Hid. by apply list_elem_of_fmap_2.
  - exfalso. apply Hx. rewrite <-Hid. by apply list_elem_of_fmap_2.
Qed.

Lemma array_find_Some {A} (P : A → Prop) `{∀ x, Decision (P x)} l x :
  array_find P l = Some x → x ∈ l ∧ P x.
Proof.
  unfold array_find. intros ([i y] & Hf & ->)%fmap_Some.
  apply list_find_Some in Hf as (Hi & HP & _). split; [by eapply list_elem_of_lookup_2|done].
Qed.

Lemma array_find_None {A} (P : A → Prop) `{∀ x, Decision (P x)} l x :
  array_find P l = None → x ∈ l → ¬ P x.
Proof.
  unfold array_find. intros Hn%fmap_None Hx. apply list_find_None in Hn.
  rewrite Forall_forall in Hn. auto.
Qed.

Lemma lookup_row_elem id db r : lookup_row id db = Some r ↔ r ∈ rows db ∧ row_id r = id.
Proof.
  unfold lookup_row. split; [apply (array_find_Some (λ r, row_id r = id))|].
  intros [Hr Hid]. destruct (array_find _ _) as [r'|] eqn:E1.
  - apply array_find_Some in E1 as [Hr' Hid']. f_equal. apply (rows_id_inj db); congruence.
  - by apply (array_find_None (λ r, row_id r = id) _ r) in E1.
Qed.

Lemma lookup_row_id id db r : lookup_row id db = Some r → row_id r = id.
Proof. intros H'. by apply lookup_row_elem in H' as []. Qed.

Lemma lookup_row_ext id db db' :
  (∀ r, row_id r = id → r ∈ rows db ↔ r ∈ rows db') → lookup_row id db = lookup_row id db'.
Proof.
  intros Hext. apply option_eq. intros r. rewrite !lookup_row_elem.
  split; intros [Hr Hid]; (split; [|done]); by apply Hext.
Qed.

Lemma lookup_write_eq t e db :
  lookup_row (row_id e) (write t e db) = Some (written t (lookup_row (row_id e) db) e).
Proof. apply lookup_row_elem. rewrite elem_of_write, written_id. auto. Qed.

Lemma lookup_write_ne t e db id :
  id ≠ row_id e → lookup_row id (write t e db) = lookup_row id db.
Proof.
  intros Hne. apply lookup_row_ext. intros r Hid. rewrite elem_of_write. split; [|naive_solver].
  intros [->|[]]; [|done]. rewrite written_id in Hid. congruence.
Qed.

Lemma lookup_fresh db : lookup_row (fresh_id db) db = None.
Proof.
  destruct (lookup_row _ db) as [r|] eqn:E1; [|done].
  apply lookup_row_elem in E1 as [Hr Hid]. exfalso. apply (fresh_id_fresh db).
  rewrite <-Hid. by apply list_elem_of_fmap_2.
Qed.

Lemma rows_NoDup db : NoDup (rows db).
Proof. eapply NoDup_fmap_1, rows_nodup. Qed.

End Theory.

(** ** Queries *)
Section Queries.
Context `{Repository DB E}.

(** [find({ where })], [findOne({ where })] and [count({ where })] *)
Definition find_where (P : E → Prop) `{∀ r, Decision (P r)} (db : DB) : list E := filter P (rows db).
Definition findOne_where (P : E → Prop) `{∀ r, Decision (P r)} (db : DB) : option E :=
  array_find P (rows db).
Definition count_where (P : E → Prop) `{∀ r, Decision (P r)} (db : DB) : Z :=
  Z.of_nat (length (find_where P db)).

(** [delete({ where })] *)
Definition drop_where (P : E → Prop) `{∀ r, Decision (P r)} (db : DB) : DB :=
  foldr (λ r, drop (row_id r)) db (find_where P db).

(** [update({ where }, changes)]; [f] makes the changes. *)
Definition update_where (P : E → Prop) `{∀ r, Decision (P r)} (f : E → E) (t : Z) (db : DB) : DB :=
  foldr (λ r, write t (f r)) db (find_where P db).

(** Whether another row has the value that [e] has in a column declared [unique]. *)
Definition taken (key : E → string) (e : E) (db : DB) : bool :=
  bool_decide (Exists (λ r, row_id r ≠ row_id e ∧ key r = key e) (rows db)).

(** [take] and [skip] *)
Definition page_of (skip take : nat) (l : list E) : list E := firstn take (skipn skip l).
End Queries.

Lemma elem_of_find_where `{Repository DB E} (P : E → Prop) `{∀ r, Decision (P r)} db r :
  r ∈ find_where P db ↔ P r ∧ r ∈ rows db.
Proof. apply list_elem_of_filter. Qed.

Section QueryTheory.
Context `{RepositoryLaws DB E} (P : E → Prop) `{∀ r, Decision (P r)}.
Implicit Types (db : DB) (e r : E).

Lemma NoDup_find_where db : NoDup (find_where P db).
Proof. apply NoDup_filter, rows_NoDup. Qed.

Lemma find_where_lookup db r : r ∈ find_where P db ↔ P r ∧ lookup_row (row_id r) db = Some r.
Proof. rewrite elem_of_find_where, lookup_row_elem. naive_solver. Qed.

(** A query after the insertion of a new row, matching or not. *)
Lemma find_where_insert t e db :
  lookup_row (row_id e) db = None →
  find_where P (write t e db) ≡ₚ
    (if decide (P (written t None e)) then [written t None e] else []) ++ find_where P db.
Proof.
  intros Hnew.
  assert (written t None e ∉ find_where P db) as Hni.
  { rewrite find_where_lookup, written_id, Hnew. naive_solver. }
  apply NoDup_Permutation; [apply NoDup_find_where| |].
  - case_decide; simpl; [constructor; [done|]|]; apply NoDup_find_where.
  - intros r. rewrite elem_of_app, !elem_of_find_where, elem_of_write, Hnew.
    assert (r ∈ rows db → row_id r ≠ row_id e) as Hne.
    { intros Hr Hid. assert (lookup_row (row_id e) db = Some r) by by apply lookup_row_elem.
      congruence. }
    case_decide; [rewrite list_elem_of_singleton|rewrite elem_of_nil]; naive_solver.
Qed.

Lemma findOne_where_None db : findOne_where P db = None ↔ ∀ r, r ∈ rows db → ¬ P r.
Proof.
  unfold findOne_where. split; [intros Hn r Hr; by eapply array_find_None|].
  intros Hall. destruct (array_find P (rows db)) as [r|] eqn:E1; [|done].
  apply array_find_Some in E1 as [Hr HP]. by destruct (Hall r).
Qed.

(** A deletion by condition. *)
Lemma elem_of_drop_where db r : r ∈ rows (drop_where P db) ↔ r ∈ rows db ∧ ¬ P r.
Proof.
  unfold drop_where. assert (∀ l, r ∈ rows (foldr (λ r, drop (row_id r)) db l) ↔ r ∈ rows db ∧ row_id r ∉ row_id <$> l) as ->.
  { induction l as [|x l IH]; csimpl; [set_solver|]. rewrite elem_of_drop, IH, not_elem_of_cons. naive_solver. }
  rewrite list_elem_of_fmap. split; intros [Hr Hn]; (split; [done|]).
  - intros HP. apply Hn. exists r. by rewrite elem_of_find_where.
  - intros (r' & Hid & Hr'). apply elem_of_find_where in Hr' as [HP Hr']. apply Hn.
    by rewrite (rows_id_inj db r r').
Qed.

Lemma lookup_drop_where id db :
  lookup_row id (drop_where P db) =
    match lookup_row id db with Some r => if decide (P r) then None else Some r | None => None end.
Proof.
  apply option_eq. intros r. rewrite lookup_row_elem, elem_of_drop_where.
  destruct (lookup_row id db) as [r'|] eqn:Hl.
  - pose proof Hl as [Hr' Hid]%lookup_row_elem. split.
    + intros [[Hr HP] Hid']. assert (r = r') as -> by (apply (rows_id_inj db); congruence). by case_decide.
    + case_decide; [done|]. intros [= <-]. done.
  - split; [|done]. intros [[Hr HP] Hid]. assert (lookup_row id db = Some r) by by apply lookup_row_elem. congruence.
Qed.

(** An update by condition, of columns other than the id. *)
Lemma lookup_update_where f t id db : (∀ r, row_id (f r) = row_id r) →
  lookup_row id (update_where P f t db) =
    match lookup_row id db with
    | Some r => Some (if decide (P r) then written t (Some r) (f r) else r)
    | None => None
    end.
Proof.
  intros Hf. unfold update_where.
  assert (∀ l, NoDup (row_id <$> l) → (∀ r, r ∈ l → r ∈ rows db) →
    lookup_row id (foldr (λ r, write t (f r)) db l) =
      match lookup_row id db with
      | Some r => Some (if decide (id ∈ row_id <$> l) then written t (Some r) (f r) else r)
      | None => None
      end) as ->.
  { induction l as [|x l IH]; intros Hnd Hl; csimpl; [by destruct (lookup_row id db)|].
    csimpl in Hnd. apply NoDup_cons in Hnd as [Hx Hnd]. specialize (IH Hnd ltac:(set_solver)).
    assert (lookup_row (row_id x) db = Some x) as Hlx by (apply lookup_row_elem; split; [apply Hl; left|done]).
    destruct (decide (id = row_id x)) as [->|Hid].
    - rewrite <-(Hf x) at 1. rewrite lookup_write_eq, Hf, IH, Hlx.
      rewrite decide_False by done. rewrite decide_True by left. done.
    - rewrite lookup_write_ne by (by rewrite Hf). rewrite IH. destruct (lookup_row id db) as [r|]; [|done].
      destruct (decide (id ∈ row_id <$> l)), (decide (id ∈ row_id x :: (row_id <$> l))); set_solver. }
  - destruct (lookup_row id db) as [r|] eqn:Hr; [|done]. apply lookup_row_elem in Hr as [Hr <-].
    rewrite (decide_ext _ (P r)); [done|]. rewrite list_elem_of_fmap. split.
    + intros (r' & Hid & Hr'). apply elem_of_find_where in Hr' as [HP Hr']. by rewrite (rows_id_inj db r r').
    + intros HP. exists r. by rewrite elem_of_find_where.
  - eapply sublist_NoDup; [apply (rows_nodup db)|]. apply fmap_sublist, sublist_filter.
  - intros r Hr. by apply elem_of_find_where in Hr as [_ Hr].
Qed.

Lemma elem_of_update_where f t db r : (∀ r, row_id (f r) = row_id r) →
  r ∈ rows (update_where P f t db) ↔
    ∃ r0, r0 ∈ rows db ∧ r = (if decide (P r0) then written t (Some r0) (f r0) else r0).
Proof.
  intros Hf. assert (∀ r0, row_id (if decide (P r0) then written t (Some r0) (f r0) else r0) = row_id r0) as Hid.
  { intros r0. case_decide; [by rewrite written_id|done]. }
  split.
  - intros Hr. assert (lookup_row (row_id r) (update_where P f t db) = Some r) as Hl by by apply lookup_row_elem.
    rewrite lookup_update_where in Hl by done. destruct (lookup_row (row_id r) db) as [r0|] eqn:Hr0; [|done].
    injection Hl as <-. exists r0. split; [|done]. by apply lookup_row_elem in Hr0 as [? _].
  - intros (r0 & Hr0 & ->). assert (lookup_row (row_id r0) db = Some r0) as Hl by by apply lookup_row_elem.
    assert (lookup_row (row_id r0) (update_where P f t db) =
      Some (if decide (P r0) then written t (Some r0) (f r0) else r0)) as H'%lookup_row_elem; [|by destruct H'].
    by rewrite lookup_update_where, Hl.
Qed.
End QueryTheory.

(** ** The insertion of a new row *)
Section Insertion.
Context `{RepositoryLaws DB E}.
Implicit Types (db : DB) (e r : E).

Lemma fresh_row db r : r ∈ rows db → row_id r ≠ fresh_id db.
Proof. intros Hr Heq. apply (fresh_id_fresh db). rewrite <-Heq. by apply list_elem_of_fmap_2. Qed.

Lemma elem_of_insert t e db r : row_id e = fresh_id db →
  r ∈ rows (write t e db) ↔ r = written t None e ∨ r ∈ rows db.
Proof.
  intros Hid. rewrite elem_of_write, Hid, lookup_fresh. split; [naive_solver|].
  intros [->|Hr]; [by left|right]. split; [done|by apply fresh_row].
Qed.

Lemma lookup_insert_row t e db : row_id e = fresh_id db →
  lookup_row (fresh_id db) (write t e db) = Some (written t None e).
Proof. intros Hid. rewrite <-Hid at 1. rewrite lookup_write_eq. by rewrite Hid, lookup_fresh. Qed.

Lemma lookup_insert_other t e db id r : row_id e = fresh_id db →
  lookup_row id db = Some r → lookup_row id (write t e db) = Some r.
Proof.
  intros Hid Hr. rewrite lookup_write_ne; [done|]. rewrite Hid. intros ->. by rewrite lookup_fresh in Hr.
Qed.

Lemma taken_fresh (key : E → string) e db r :
  taken key e db = false → row_id e = fresh_id db → r ∈ rows db → key r ≠ key e.
Proof.
  intros Ht%bool_decide_eq_false Hid Hr Hk. apply Ht, Exists_exists. exists r.
  split; [done|]. split; [|done]. rewrite Hid. by apply fresh_row.
Qed.
End Insertion.

(** ** Columns with distinct values, and conditions on all rows *)
Section Columns.
Context `{RepositoryLaws DB E}.
Implicit Types (db : DB) (e r : E).

Definition unique (key : E → string) db : Prop :=
  ∀ r r', r ∈ rows db → r' ∈ rows db → key r = key r' → r = r'.
Definition all_rows (P : E → Prop) db : Prop := ∀ r, r ∈ rows db → P r.

Section Unique.
Context (key : E → string) (Hkey : ∀ t o e, key (written t o e) = key e).

Lemma unique_write t e db : taken key e db = false → unique key db → unique key (write t e db).
Proof.
  intros Ht Hu r r'. rewrite !elem_of_write.
  assert (∀ x, x ∈ rows db → row_id x ≠ row_id e → key x ≠ key e) as Hne.
  { intros x Hx Hid Hk. apply bool_decide_eq_false in Ht. apply Ht, Exists_exists. eauto. }
  intros [->|[Hr Hid]] [->|[Hr' Hid']]; rewrite ?Hkey; [done| | |by apply Hu].
  - intros Hk. by destruct (Hne r').
  - intros Hk. by destruct (Hne r).
Qed.

Lemma unique_update (P : E → Prop) `{∀ r, Decision (P r)} f t db :
  (∀ r, row_id (f r) = row_id r) → (∀ r, key (f r) = key r) → unique key db → unique key (update_where P f t db).
Proof.
  intros Hid Hf Hu r r'. rewrite !elem_of_update_where by done. intros (x & Hx & ->) (x' & Hx' & ->) Hk.
  assert (∀ y, key (if decide (P y) then written t (Some y) (f y) else y) = key y) as Hy.
  { intros y. destruct (decide (P y)); [by rewrite Hkey, Hf|done]. }
  rewrite !Hy in Hk. by rewrite (Hu x x').
Qed.
End Unique.

Lemma unique_rows key db : NoDup (key <$> rows db) → unique key db.
Proof.
  unfold unique. generalize (rows db). intros l Hnd r r' Hr Hr' Hk.
  apply list_elem_of_lookup in Hr as [i Hi]. apply list_elem_of_lookup in Hr' as [j Hj].
  assert (i = j) as -> by (eapply NoDup_lookup; [exact Hnd| |]; rewrite list_lookup_fmap; [by rewrite Hi|by rewrite Hj, Hk]).
  congruence.
Qed.
Lemma all_rows_Forall (P : E → Prop) db : Forall P (rows db) → all_rows P db.
Proof. intros Hall r. by apply Forall_forall. Qed.

Lemma unique_mono key db db' : (∀ r, r ∈ rows db' → r ∈ rows db) → unique key db → unique key db'.
Proof. intros Hs Hu r r' Hr Hr'. apply Hu; auto. Qed.

Lemma all_rows_write (P : E → Prop) t e db :
  all_rows P db → P (written t (lookup_row (row_id e) db) e) → all_rows P (write t e db).
Proof. intros Hall He r. rewrite elem_of_write. intros [->|[Hr _]]; [done|by apply Hall]. Qed.

Lemma all_rows_update (P : E → Prop) (C : E → Prop) `{∀ r, Decision (C r)} f t db :
  (∀ r, row_id (f r) = row_id r) → all_rows P db → (∀ r, P r → P (written t (Some r) (f r))) →
  all_rows P (update_where C f t db).
Proof.
  intros Hid Hall Hf r. rewrite elem_of_update_where by done. intros (x & Hx & ->). case_decide; auto.
Qed.

(** Every row of one table is still there in another, up to [S]. *)
Definition rows_move (S : relation E) db db' : Prop :=
  ∀ id r, lookup_row id db = Some r → ∃ r', lookup_row id db' = Some r' ∧ S r r'.

#[export] Instance rows_move_preorder S `{!PreOrder S} : PreOrder (rows_move S).
Proof.
  split; [intros db id r Hr; by exists r|]. intros db1 db2 db3 H12 H23 id r Hr.
  destruct (H12 id r Hr) as (r2 & Hr2 & ?). destruct (H23 id r2 Hr2) as (r3 & Hr3 & ?).
  exists r3. split; [done|by etrans].
Qed.

Lemma rows_move_insert S `{!Reflexive S} t e db : row_id e = fresh_id db → rows_move S db (write t e db).
Proof. intros Hid id r Hr. exists r. split; [by apply lookup_insert_other|done]. Qed.

Lemma rows_move_update S `{!Reflexive S} (P : E → Prop) `{∀ r, Decision (P r)} f t db :
  (∀ r, row_id (f r) = row_id r) → (∀ r, S r (written t (Some r) (f r))) → rows_move S db (update_where P f t db).
Proof.
  intros Hid Hf id r Hr. rewrite lookup_update_where, Hr by done.
  eexists. split; [done|]. by case_decide.
Qed.
End Columns.

(** ** A repository in memory

    A finite map from ids to rows meets the interface: the hypotheses of the
    theorems can hold, and examples compute in it. *)
Section Memory.
Context {E : Type} (id_of : E → string) (wr : Z → option E → E → E).

Definition mem_rows (db : gmap string E) : list E :=
  snd <$> filter (λ kr, id_of kr.2 = kr.1) (map_to_list db).

Definition mem_lookup (id : string) (db : gmap string E) : option E :=
  array_find (λ r, id_of r = id) (mem_rows db).

Definition mem_repository : Repository (gmap string E) E := {|
  row_id := id_of;
  rows := mem_rows;
  fresh_id db := fresh (dom db);
  written := wr;
  write t e db := <[id_of e := wr t (mem_lookup (id_of e) db) e]> db;
  drop id db := delete id db;
|}.

Lemma elem_of_mem_rows db r : r ∈ mem_rows db ↔ db !! id_of r = Some r.
Proof.
  unfold mem_rows. rewrite list_elem_of_fmap. split.
  - intros ([k r'] & -> & [Hid Hin]%list_elem_of_filter). simpl in *. subst k.
    by apply elem_of_map_to_list.
  - intros Hl. exists (id_of r, r). split; [done|]. apply list_elem_of_filter. split; [done|].
    by apply elem_of_map_to_list.
Qed.

Lemma mem_repository_laws (Hid : ∀ t o e, id_of (wr t o e) = id_of e) :
  @RepositoryLaws (gmap string E) E mem_repository.
Proof.
  split; simpl.
  - intros db. unfold mem_rows. rewrite <-list_fmap_compose.
    erewrite (Forall_fmap_ext_1 _ fst).
    + eapply sublist_NoDup; [apply (NoDup_fst_map_to_list db)|].
      apply fmap_sublist, sublist_filter.
    + apply Forall_forall. intros [k r]. rewrite list_elem_of_filter. simpl. naive_solver.
  - done.
  - intros t e db r. rewrite !elem_of_mem_rows, lookup_insert. fold (mem_lookup (id_of e) db).
    case_decide as Hd.
    + rewrite <-Hd. split; [intros [=]; by left|]. intros [->|[]]; [done|congruence].
    + split; [by right|]. intros [->|[]]; [|done]. by rewrite Hid in Hd.
  - intros id db r. rewrite !elem_of_mem_rows, lookup_delete. case_decide; naive_solver.
  - intros db. rewrite list_elem_of_fmap. intros (r & Hr & Hin%elem_of_mem_rows).
    apply (is_fresh (dom db)). rewrite Hr. apply elem_of_dom. eauto.
Qed.
End Memory.
