(* ===== verification/VoiceJobs.v ===== *)
(** [VoiceService], [VoiceProcessor] and [VoiceController] ([voice/services/voice.service.ts], [voice/voice.processor.ts],
    [voice/voice.controller.ts]): jobs that turn speech into text and text into speech.  Their rows are in one table, and
    a queue of the library Bull hands them to the processor.  The file system is a parameter. *)
From S2P Require Import Prelude Async Json Repository.
Open Scope Z_scope.

Module VoiceJobStatus.
Inductive t : Set := PENDING | PROCESSING | COMPLETED | FAILED.
#[global] Instance t_eq_dec : EqDecision t.
Proof. solve_decision. Defined.
End VoiceJobStatus.

Module JobType.
Inductive t : Set := STT | TTS.
#[global] Instance t_eq_dec : EqDecision t.
Proof. solve_decision. Defined.
End JobType.

(** A row of [voice_jobs]. *)
Record VoiceJob := mkVoiceJob {
  vj_id : string;
  vj_type : JobType.t;
  vj_status : VoiceJobStatus.t;
  vj_userId : option string;
  vj_audioUrl : option string;
  vj_audioHash : option string;
  vj_transcribedText : option string;
  vj_generatedAudioUrl : option string;
  vj_inputText : option string;
  vj_errorMessage : option string;
  vj_retryCount : Z;
  vj_maxRetries : Z;
  vj_metadata : option jsobj;
  vj_createdAt : Z;
  vj_updatedAt : Z;
  vj_completedAt : option Z;
}.

Definition set_vj_status (v : VoiceJobStatus.t) (j : VoiceJob) : VoiceJob :=
  mkVoiceJob (vj_id j) (vj_type j) v (vj_userId j) (vj_audioUrl j) (vj_audioHash j) (vj_transcribedText j) (vj_generatedAudioUrl j) (vj_inputText j) (vj_errorMessage j) (vj_retryCount j) (vj_maxRetries j) (vj_metadata j) (vj_createdAt j) (vj_updatedAt j) (vj_completedAt j).
Definition set_vj_transcribedText (v : option string) (j : VoiceJob) : VoiceJob :=
  mkVoiceJob (vj_id j) (vj_type j) (vj_status j) (vj_userId j) (vj_audioUrl j) (vj_audioHash j) v (vj_generatedAudioUrl j) (vj_inputText j) (vj_errorMessage j) (vj_retryCount j) (vj_maxRetries j) (vj_metadata j) (vj_createdAt j) (vj_updatedAt j) (vj_completedAt j).
Definition set_vj_generatedAudioUrl (v : option string) (j : VoiceJob) : VoiceJob :=
  mkVoiceJob (vj_id j) (vj_type j) (vj_status j) (vj_userId j) (vj_audioUrl j) (vj_audioHash j) (vj_transcribedText j) v (vj_inputText j) (vj_errorMessage j) (vj_retryCount j) (vj_maxRetries j) (vj_metadata j) (vj_createdAt j) (vj_updatedAt j) (vj_completedAt j).
Definition set_vj_errorMessage (v : option string) (j : VoiceJob) : VoiceJob :=
  mkVoiceJob (vj_id j) (vj_type j) (vj_status j) (vj_userId j) (vj_audioUrl j) (vj_audioHash j) (vj_transcribedText j) (vj_generatedAudioUrl j) (vj_inputText j) v (vj_retryCount j) (vj_maxRetries j) (vj_metadata j) (vj_createdAt j) (vj_updatedAt j) (vj_completedAt j).
Definition set_vj_retryCount (v : Z) (j : VoiceJob) : VoiceJob :=
  mkVoiceJob (vj_id j) (vj_type j) (vj_status j) (vj_userId j) (vj_audioUrl j) (vj_audioHash j) (vj_transcribedText j) (vj_generatedAudioUrl j) (vj_inputText j) (vj_errorMessage j) v (vj_maxRetries j) (vj_metadata j) (vj_createdAt j) (vj_updatedAt j) (vj_completedAt j).
Definition set_vj_createdAt (v : Z) (j : VoiceJob) : VoiceJob :=
  mkVoiceJob (vj_id j) (vj_type j) (vj_status j) (vj_userId j) (vj_audioUrl j) (vj_audioHash j) (vj_transcribedText j) (vj_generatedAudioUrl j) (vj_inputText j) (vj_errorMessage j) (vj_retryCount j) (vj_maxRetries j) (vj_metadata j) v (vj_updatedAt j) (vj_completedAt j).
Definition set_vj_updatedAt (v : Z) (j : VoiceJob) : VoiceJob :=
  mkVoiceJob (vj_id j) (vj_type j) (vj_status j) (vj_userId j) (vj_audioUrl j) (vj_audioHash j) (vj_transcribedText j) (vj_generatedAudioUrl j) (vj_inputText j) (vj_errorMessage j) (vj_retryCount j) (vj_maxRetries j) (vj_metadata j) (vj_createdAt j) v (vj_completedAt j).

Class VoiceJobTable (DB : Type) := {
  job_repo :: Repository DB VoiceJob;
  job_laws :: RepositoryLaws DB VoiceJob;
  job_row_id j : row_id j = vj_id j;
  (* every value that is written comes from the row before, so that no column is left out of an update *)
  job_written t o j : written t o j = set_vj_updatedAt t (set_vj_createdAt (match o with Some r => vj_createdAt r | None => t end) j);
}.
Definition mem_job_written (t : Z) (o : option VoiceJob) (j : VoiceJob) : VoiceJob :=
  set_vj_updatedAt t (set_vj_createdAt (match o with Some r => vj_createdAt r | None => t end) j).
Definition mem_job_table : VoiceJobTable (gmap string VoiceJob) := {|
  job_repo := mem_repository vj_id mem_job_written;
  job_laws := mem_repository_laws vj_id mem_job_written (λ _ _ _, eq_refl);
  job_row_id _ := eq_refl;
  job_written _ _ _ := eq_refl |}.

(** Paths, the outcome of the [n]-th call of the file system, and of the [n]-th job given to the queue. *)
Class JobEnvironment := { process_cwd : string; path_join : list string → string; disk : nat → outcome unit; queue_takes : nat → outcome unit }.

Record JobWorld (DB : Type) := mkJobWorld { jobs : DB; jticks : nat; queued : list (string * string) (* name, jobId *) }.
Arguments mkJobWorld {_} _ _ _.
Arguments jobs {_} _.
Arguments jticks {_} _.
Arguments queued {_} _.
#[export] Instance JobWorld_ticking DB : Ticking (JobWorld DB) := {|
  tick := jticks; advance w := mkJobWorld (jobs w) (S (jticks w)) (queued w) |}.

Record AudioFile := mkAudioFile { af_buffer : string; af_originalname : string }.
(** [Partial<VoiceJob>], of the columns that are updated. *)
Record JobUpdates := mkJobUpdates { ju_transcribedText : option string; ju_generatedAudioUrl : option string; ju_errorMessage : option string }.
Definition no_updates : JobUpdates := mkJobUpdates None None None.

Section VoiceJobs.
Context {DB : Type} `{!VoiceJobTable DB, !Clock, !Crypto, !JobEnvironment}.
Local Abbreviation W := (JobWorld DB).
Implicit Types (w : W) (j : VoiceJob).

Definition generateHash (content : string) : string := sha256_hex content.
Definition on_disk : eff W unit := λ w, (disk (tick w), advance w).
Definition enqueue_job (name jobId : string) : eff W unit := λ w,
  match queue_takes (tick w) with
  | Return _ => (Return tt, mkJobWorld (jobs w) (S (jticks w)) (queued w ++ [(name, jobId)]))
  | Throw e => (Throw e, advance w)
  end.

Definition findJob (id : string) w : option VoiceJob := lookup_row id (jobs w).
(** A job with this content that has been done. *)
Definition findCompleted (audioHash : string) (type : JobType.t) w : option VoiceJob :=
  findOne_where (λ j, vj_audioHash j = Some audioHash ∧ vj_type j = type ∧ vj_status j = VoiceJobStatus.COMPLETED) (jobs w).
(** [create] and [save], with the defaults of the columns. *)
Definition createJob (type : JobType.t) (audioUrl inputText : option string) (audioHash : string) : eff W string := λ w,
  let t := clock_at (tick w) in
  let id := fresh_id (jobs w) in
  (Return id, mkJobWorld (write t (mkVoiceJob id type VoiceJobStatus.PENDING None audioUrl (Some audioHash) None None inputText None 0 3 None t t None) (jobs w))
                (S (jticks w)) (queued w)).
(** [update(id, ...)] *)
Definition updateJob (id : string) (f : VoiceJob → VoiceJob) : eff W unit := λ w,
  (Return tt, mkJobWorld (update_where (λ j, vj_id j = id) f (clock_at (tick w)) (jobs w)) (S (jticks w)) (queued w)).

(** ** [VoiceService] *)

Definition processSTT (file : AudioFile) : eff W string :=
  let audioHash := generateHash (af_buffer file) in
  existingJob ← gets (findCompleted audioHash JobType.STT);
  match existingJob with
  | Some existingJob => mret (vj_id existingJob)
  | None =>
      let uploadDir := path_join [process_cwd; "uploads"; "audio"] in
      on_disk ;;                                     (* mkdir *)
      now ← date_now;
      let fileName := pretty now +:+ "-" +:+ af_originalname file in
      let filePath := path_join [uploadDir; fileName] in
      on_disk ;;                                     (* writeFile *)
      id ← createJob JobType.STT (Some filePath) None audioHash;
      enqueue_job "process-stt" id ;;
      mret id
  end.
Definition processTTS (text : string) : eff W string :=
  let audioHash := generateHash text in
  existingJob ← gets (findCompleted audioHash JobType.TTS);
  match existingJob with
  | Some existingJob => mret (vj_id existingJob)
  | None =>
      id ← createJob JobType.TTS None (Some text) audioHash;
      enqueue_job "process-tts" id ;;
      mret id
  end.

Record JobStatusReply := mkJobStatusReply {
  js_id : string; js_type : JobType.t; js_status : VoiceJobStatus.t; js_text_ : option string; js_audioUrl : option string;
  js_resultAudioUrl : option string; js_errorMessage : option string; js_createdAt : Z; js_updatedAt : Z }.
Definition getJobStatus (id : string) : eff W JobStatusReply :=
  job ← gets (findJob id);
  match job with
  | None => throw (NotFoundException "Job not found")
  | Some job => mret (mkJobStatusReply (vj_id job) (vj_type job) (vj_status job) (or_text (vj_inputText job) (vj_transcribedText job)) (vj_audioUrl job)
                        (vj_generatedAudioUrl job) (vj_errorMessage job) (vj_createdAt job) (vj_updatedAt job))
  end.

Inductive JobResultReply :=
| NotCompleted (status : VoiceJobStatus.t) (message : string)
| Completed (status : VoiceJobStatus.t) (type : JobType.t) (text resultAudioUrl : option string).
Definition getJobResult (id : string) : eff W JobResultReply :=
  job ← gets (findJob id);
  match job with
  | None => throw (NotFoundException "Job not found")
  | Some job =>
      mret (if negb (bool_decide (vj_status job = VoiceJobStatus.COMPLETED)) then NotCompleted (vj_status job) "Job not completed yet"
            else Completed (vj_status job) (vj_type job) (or_text (vj_inputText job) (vj_transcribedText job)) (vj_generatedAudioUrl job))
  end.

Definition assign_updates (updates : JobUpdates) j : VoiceJob :=
  let j := match ju_transcribedText updates with Some v => set_vj_transcribedText (Some v) j | None => j end in
  let j := match ju_generatedAudioUrl updates with Some v => set_vj_generatedAudioUrl (Some v) j | None => j end in
  match ju_errorMessage updates with Some v => set_vj_errorMessage (Some v) j | None => j end.
Definition updateJobStatus (id : string) (status : VoiceJobStatus.t) (updates : JobUpdates) : eff W unit :=
  updateJob id (λ j, assign_updates updates (set_vj_status status j)).

Definition incrementRetry (id : string) : eff W bool :=
  job ← gets (findJob id);
  match job with
  | None => mret false
  | Some job =>
      let newRetryCount := vj_retryCount job + 1 in
      updateJob id (set_vj_retryCount newRetryCount) ;;
      mret (bool_decide (newRetryCount < vj_maxRetries job))
  end.

(** ** [VoiceProcessor] *)

Definition transcribeAudio (audioPath : option string) : eff W string := mret "Transcribed text from audio".
Definition generateSpeech (text : string) : eff W string :=
  let outputDir := path_join [process_cwd; "uploads"; "tts"] in
  on_disk ;;                                         (* mkdir *)
  now ← date_now;
  let filePath := path_join [outputDir; pretty now +:+ "-speech.mp3"] in
  on_disk ;;                                         (* writeFile *)
  mret filePath.

(** The [catch] block of both handlers; what it throws makes Bull try again. *)
Definition retry_or_fail (jobId : string) (error : exn) : eff W unit :=
  canRetry ← incrementRetry jobId;
  if (canRetry : bool) then updateJobStatus jobId VoiceJobStatus.PENDING no_updates ;; throw error
  else updateJobStatus jobId VoiceJobStatus.FAILED (mkJobUpdates None None (Some (exn_message error))).
Definition handleSTT (jobId : string) : eff W unit :=
  try_catch
    (voiceJob ← gets (findJob jobId);
     match voiceJob with
     | None => throw (Error "Job not found")
     | Some voiceJob =>
         updateJobStatus jobId VoiceJobStatus.PROCESSING no_updates ;;
         transcribedText ← transcribeAudio (vj_audioUrl voiceJob);
         updateJobStatus jobId VoiceJobStatus.COMPLETED (mkJobUpdates (Some transcribedText) None None)
     end)
    (retry_or_fail jobId).
Definition handleTTS (jobId : string) : eff W unit :=
  try_catch
    (voiceJob ← gets (findJob jobId);
     match voiceJob with
     | None => throw (Error "Job not found")
     | Some voiceJob =>
         updateJobStatus jobId VoiceJobStatus.PROCESSING no_updates ;;
         audioPath ← generateSpeech (or_string (vj_inputText voiceJob) EmptyString);
         updateJobStatus jobId VoiceJobStatus.COMPLETED (mkJobUpdates None (Some audioPath) None)
     end)
    (retry_or_fail jobId).

(** The library hands a job to its handler until one call returns, [attempts] times at most. *)
Fixpoint bull_runs (attempts : nat) (handler : eff W unit) : eff W unit :=
  match attempts with
  | O => mret tt
  | S O => handler
  | S attempts => try_catch handler (λ _, bull_runs attempts handler)
  end.

(** ** [VoiceController] *)

Definition uploadAudio (file : option AudioFile) : eff W string :=
  match file with None => throw (BadRequestException "No audio file provided") | Some file => processSTT file end.
Definition generateTTS (text : string) : eff W string := processTTS text.
Definition controller_getJobStatus (id : string) : eff W JobStatusReply := getJobStatus id.
Definition controller_getJobResult (id : string) : eff W JobResultReply := getJobResult id.

(** * What becomes of a job *)

Lemma update_run id f w j : lookup_row id (jobs w) = Some j → (∀ j, vj_id (f j) = vj_id j) → ∃ w',
  updateJob id f w = (Return tt, w') ∧ lookup_row id (jobs w') = Some (written (clock_at (tick w)) (Some j) (f j)) ∧ queued w' = queued w.
Proof.
  intros Hj Hf. eexists. split; [reflexivity|]. split; [|done]. cbn [jobs].
  rewrite lookup_update_where by (intros r; rewrite !job_row_id; apply Hf). rewrite Hj. rewrite decide_True; [done|].
  rewrite <-job_row_id. by eapply lookup_row_id.
Qed.
Lemma assign_id u j : vj_id (assign_updates u j) = vj_id j.
Proof. unfold assign_updates. by destruct (ju_transcribedText u), (ju_generatedAudioUrl u), (ju_errorMessage u). Qed.
(** What no update changes, and what of a row matters besides. *)
Definition content j : JobType.t * option string * option string * Z := (vj_type j, vj_audioHash j, vj_inputText j, vj_maxRetries j).
Definition job_at (id : string) (c : JobType.t * option string * option string * Z) (status : VoiceJobStatus.t) (retries : Z) w : Prop :=
  ∃ j, lookup_row id (jobs w) = Some j ∧ content j = c ∧ vj_status j = status ∧ vj_retryCount j = retries.
Lemma status_run id c old new r u w : job_at id c old r w → ∃ w', updateJobStatus id new u w = (Return tt, w') ∧ job_at id c new r w'.
Proof.
  intros (j & Hj & Hc & _ & Hr).
  destruct (update_run id (λ j, assign_updates u (set_vj_status new j)) w j Hj) as (w' & Hrun & Hj' & _); [intros; by rewrite assign_id|].
  exists w'. split; [exact Hrun|]. eexists. split; [exact Hj'|]. rewrite job_written.
  unfold assign_updates. by destruct (ju_transcribedText u), (ju_generatedAudioUrl u), (ju_errorMessage u).
Qed.
Lemma increment_run id c status r w : job_at id c status r w → ∃ w', incrementRetry id w = (Return (bool_decide (r + 1 < c.2)), w') ∧ job_at id c status (r + 1) w'.
Proof.
  intros (j & Hj & Hc & Hs & Hr). unfold incrementRetry. rewrite bind_gets. unfold findJob. rewrite Hj. cbv zeta.
  destruct (update_run id (set_vj_retryCount (vj_retryCount j + 1)) w j Hj) as (w' & Hrun & Hj' & _); [done|].
  rewrite (bind_run _ _ _ _ _ Hrun). exists w'. split; [by rewrite <-Hc, <-Hr|]. eexists. split; [exact Hj'|]. rewrite job_written. cbn. by rewrite Hr.
Qed.
Lemma retry_or_fail_run id c status r e w : job_at id c status r w → ∃ w',
  if bool_decide (r + 1 < c.2) then retry_or_fail id e w = (Throw e, w') ∧ job_at id c VoiceJobStatus.PENDING (r + 1) w'
  else retry_or_fail id e w = (Return tt, w') ∧ job_at id c VoiceJobStatus.FAILED (r + 1) w'.
Proof.
  intros Hj. destruct (increment_run id c status r w Hj) as (w1 & Hrun & Hj1). unfold retry_or_fail. rewrite (bind_run _ _ _ _ _ Hrun).
  destruct (bool_decide (r + 1 < c.2)).
  - destruct (status_run id c status VoiceJobStatus.PENDING (r + 1) no_updates w1 Hj1) as (w' & Hs & Hj'). exists w'. by rewrite (bind_run _ _ _ _ _ Hs).
  - by apply (status_run id c status).
Qed.
Lemma speech_run text w : ∃ o w', generateSpeech text w = (o, w') ∧ jobs w' = jobs w.
Proof.
  unfold generateSpeech, on_disk, mbind, eff_bind. cbn. destruct (disk (jticks w)); [|by do 2 eexists]. cbn. destruct (disk _); by do 2 eexists.
Qed.

(** One call of the handler: the speech is made, or it is not and the job is tried again or given up. *)
Lemma handleTTS_run id c status r w : job_at id c status r w → ∃ w',
  handleTTS id w = (Return tt, w') ∧ job_at id c VoiceJobStatus.COMPLETED r w' ∨
  r + 1 < c.2 ∧ (∃ e, handleTTS id w = (Throw e, w')) ∧ job_at id c VoiceJobStatus.PENDING (r + 1) w' ∨
  c.2 ≤ r + 1 ∧ handleTTS id w = (Return tt, w') ∧ job_at id c VoiceJobStatus.FAILED (r + 1) w'.
Proof.
  intros Hj. unfold handleTTS, try_catch. pose proof Hj as (j & Hrow & _). rewrite bind_gets. unfold findJob. rewrite Hrow.
  destruct (status_run id c status VoiceJobStatus.PROCESSING r no_updates w Hj) as (w1 & Hs1 & Hj1). rewrite (bind_run _ _ _ _ _ Hs1).
  destruct (speech_run (or_string (vj_inputText j) EmptyString) w1) as (o & w2 & Hspeech & Hjobs).
  assert (job_at id c VoiceJobStatus.PROCESSING r w2) as Hj2 by (unfold job_at; by rewrite Hjobs). destruct o as [audioPath|e].
  - rewrite (bind_run _ _ _ _ _ Hspeech).
    destruct (status_run id c _ VoiceJobStatus.COMPLETED r (mkJobUpdates None (Some audioPath) None) w2 Hj2) as (w' & Hs & Hj'). rewrite Hs. exists w'. by left.
  - rewrite (bind_throw _ _ _ _ _ Hspeech). destruct (retry_or_fail_run id c _ r e w2 Hj2) as (w' & Hr). exists w'. right. case_bool_decide as Hlt; destruct Hr as [Hrun Hj'].
    + left. split; [done|]. split; [by exists e|done].
    + right. split; [lia|done].
Qed.
(** A job of speech comes to an end.  When the library tries as often as the row allows, the job ends completed after
    fewer failures than the row allows, or failed after that many, and the library is told that it is done. *)
Lemma speech_job_settles id c status r w attempts : job_at id c status r w → r < c.2 → c.2 ≤ r + Z.of_nat attempts → ∃ w' r',
  bull_runs attempts (handleTTS id) w = (Return tt, w') ∧
  (job_at id c VoiceJobStatus.COMPLETED r' w' ∧ r ≤ r' < c.2 ∨ job_at id c VoiceJobStatus.FAILED r' w' ∧ r' = c.2).
Proof.
  revert status r w. induction attempts as [|attempts IH]; intros status r w Hj Hr Ha; [lia|].
  destruct (handleTTS_run id c status r w Hj) as (w1 & [(Hrun & Hj1)|[(Hlt & (e & Hrun) & Hj1)|(Hge & Hrun & Hj1)]]).
  - exists w1, r. split; [by destruct attempts; cbn [bull_runs]; unfold try_catch; rewrite Hrun|left; split; [done|lia]].
  - destruct attempts as [|attempts]; [lia|]. destruct (IH _ _ w1 Hj1 Hlt ltac:(lia)) as (w' & r' & Hruns & Hend). exists w', r'.
    split; [by cbn [bull_runs]; unfold try_catch; rewrite Hrun|]. destruct Hend as [[? ?]|?]; [left; split; [done|lia]|by right].
  - exists w1, (r + 1). split; [by destruct attempts; cbn [bull_runs]; unfold try_catch; rewrite Hrun|right; split; [done|lia]].
Qed.
(** With fewer tries than that and a disk that is full, the job is left pending for ever. *)
Lemma speech_left_pending id c status r w attempts e : (∀ n, disk n = Throw e) → job_at id c status r w → r + Z.of_nat (S attempts) < c.2 → ∃ w',
  bull_runs (S attempts) (handleTTS id) w = (Throw e, w') ∧ job_at id c VoiceJobStatus.PENDING (r + Z.of_nat (S attempts)) w'.
Proof.
  intros Hdisk. revert status r w. induction attempts as [|attempts IH]; intros status r w Hj Hr.
  all: pose proof Hj as (j & Hrow & _); destruct (status_run id c status VoiceJobStatus.PROCESSING r no_updates w Hj) as (w1 & Hs1 & Hj1).
  all: assert (generateSpeech (or_string (vj_inputText j) EmptyString) w1 = (Throw e, advance w1)) as Hspeech
    by (unfold generateSpeech, on_disk, mbind, eff_bind; cbn; by rewrite Hdisk).
  all: destruct (retry_or_fail_run id c VoiceJobStatus.PROCESSING r e (advance w1)) as (w2 & Hretry); [exact Hj1|]; rewrite bool_decide_eq_true_2 in Hretry by lia; destruct Hretry as [Hretry Hj2].
  all: assert (handleTTS id w = (Throw e, w2)) as Hrun
    by (unfold handleTTS, try_catch; rewrite bind_gets; unfold findJob; by rewrite Hrow, (bind_run _ _ _ _ _ Hs1), (bind_throw _ _ _ _ _ Hspeech)).
  - exists w2. split; [exact Hrun|exact Hj2].
  - destruct (IH _ _ w2 Hj2) as (w' & Hruns & Hj'); [lia|]. exists w'. split.
    + change (try_catch (handleTTS id) (λ _, bull_runs (S attempts) (handleTTS id)) w = (Throw e, w')). unfold try_catch. by rewrite Hrun.
    + by replace (r + Z.of_nat (S (S attempts))) with (r + 1 + Z.of_nat (S attempts)) by lia.
Qed.
End VoiceJobs.

(** C37: a text is spoken once.  A text for which no job was completed gets a new row and is queued; when the library
    has run the job three times at most it is completed or failed, and once it is completed a request with the same text
    is answered with a completed job of that text, and changes nothing. *)
Theorem text_spoken_once `{!VoiceJobTable DB, !Clock, !Crypto, !JobEnvironment} text (w : JobWorld DB) :
  findCompleted (generateHash text) JobType.TTS w = None → queue_takes (S (tick w)) = Return tt → ∃ id w1 w2,
  processTTS text w = (Return id, w1) ∧ lookup_row id (jobs w) = None ∧ queued w1 = queued w ++ [("process-tts", id)] ∧
  bull_runs 3 (handleTTS id) w1 = (Return tt, w2) ∧
  (vj_status <$> lookup_row id (jobs w2) = Some VoiceJobStatus.FAILED ∨
   vj_status <$> lookup_row id (jobs w2) = Some VoiceJobStatus.COMPLETED ∧
   ∃ j, findCompleted (generateHash text) JobType.TTS w2 = Some j ∧ processTTS text w2 = (Return (vj_id j), w2)).
Proof.
  intros Hnone Hqueue. set (id := fresh_id (jobs w)). set (c := (JobType.TTS, Some (generateHash text), Some text, 3)).
  destruct (createJob JobType.TTS None (Some text) (generateHash text) w) as [o w0] eqn:Hcreate. pose proof Hcreate as Hcreate'.
  unfold createJob in Hcreate'. injection Hcreate' as <- <-. set (w0 := mkJobWorld _ _ _) in *.
  set (w1 := mkJobWorld (jobs w0) (S (jticks w0)) (queued w0 ++ [("process-tts", id)])).
  assert (job_at id c VoiceJobStatus.PENDING 0 w1) as Hj.
  { eexists. split; [apply (lookup_insert_row (E := VoiceJob)); by rewrite job_row_id|]. by rewrite job_written. }
  destruct (speech_job_settles id c _ _ w1 3 Hj) as (w2 & r' & Hruns & Hend); [done|done|].
  exists id, w1, w2. split.
  { unfold processTTS. rewrite bind_gets, Hnone, (bind_run _ _ _ _ _ Hcreate).
    assert (enqueue_job "process-tts" id w0 = (Return tt, w1)) as Hen by (unfold enqueue_job; change (tick w0) with (S (tick w)); by rewrite Hqueue). by rewrite (bind_run _ _ _ _ _ Hen). }
  split; [apply lookup_fresh|]. split; [done|]. split; [done|]. destruct Hend as [[(j & Hrow & Hc & Hs & _) _]|[(j & Hrow & _ & Hs & _) _]].
  - right. rewrite Hrow. split; [cbn; by rewrite Hs|].
    destruct (findCompleted (generateHash text) JobType.TTS w2) as [j'|] eqn:Hfound.
    + exists j'. split; [done|]. unfold processTTS. by rewrite bind_gets, Hfound.
    + exfalso. apply lookup_row_elem in Hrow as [Hin _]. unfold findCompleted in Hfound.
      apply (proj1 (findOne_where_None _ _) Hfound j Hin). injection Hc as Ht Hh _ _. by split_and!.
  - left. rewrite Hrow. cbn. by rewrite Hs.
Qed.
