(* ===== verification/WorkflowTypes.v ===== *)
(** The workflow engine's data: the state enumerations, the two tables
    ([entities/workflow.entity.ts], [entities/workflow-step.entity.ts]) and the
    definitions a workflow is made from ([types/*.ts]).  Timestamps are
    milliseconds since the epoch; a nullable column is an option.  The relation
    columns ([steps], [workflow]) are not stored: a query that loads them looks
    the rows up by [workflowId]. *)
From S2P Require Import Prelude Json Repository.

Module WorkflowState.
Inductive t : Set :=
| PENDING | RUNNING | COMPLETED | FAILED | CANCELLED | COMPENSATING | COMPENSATED.

#[global] Instance t_eq_dec : EqDecision t.
Proof. solve_decision. Defined.

Definition all : list t := [PENDING; RUNNING; COMPLETED; FAILED; CANCELLED; COMPENSATING; COMPENSATED].

Definition to_string (s : t) : string :=
  match s with
  | PENDING => "pending"
  | RUNNING => "running"
  | COMPLETED => "completed"
  | FAILED => "failed"
  | CANCELLED => "cancelled"
  | COMPENSATING => "compensating"
  | COMPENSATED => "compensated"
  end.

End WorkflowState.

Module StepState.
Inductive t : Set :=
| PENDING | RUNNING | COMPLETED | FAILED | SKIPPED | COMPENSATING | COMPENSATED.

#[global] Instance t_eq_dec : EqDecision t.
Proof. solve_decision. Defined.

Definition all : list t := [PENDING; RUNNING; COMPLETED; FAILED; SKIPPED; COMPENSATING; COMPENSATED].

Definition to_string (s : t) : string :=
  match s with
  | PENDING => "pending"
  | RUNNING => "running"
  | COMPLETED => "completed"
  | FAILED => "failed"
  | SKIPPED => "skipped"
  | COMPENSATING => "compensating"
  | COMPENSATED => "compensated"
  end.

End StepState.

Module WorkflowType.
Inductive t : Set :=
| CONTRACT_DEPLOYMENT | TRADE_EXECUTION | AI_JOB_CHAIN
| INDEXING_VERIFICATION | PORTFOLIO_UPDATE | REWARD_GRANT.

Definition to_string (x : t) : string :=
  match x with
  | CONTRACT_DEPLOYMENT => "contract_deployment"
  | TRADE_EXECUTION => "trade_execution"
  | AI_JOB_CHAIN => "ai_job_chain"
  | INDEXING_VERIFICATION => "indexing_verification"
  | PORTFOLIO_UPDATE => "portfolio_update"
  | REWARD_GRANT => "reward_grant"
  end.
End WorkflowType.

(** A row of [workflows]. *)
Record Workflow := mkWorkflow {
  wf_id : string;
  wf_idempotencyKey : string;
  wf_type : string;
  wf_state : WorkflowState.t;
  wf_userId : option string;
  wf_walletAddress : option string;
  wf_input : jsobj;
  wf_output : option jsobj;
  wf_context : option jsobj;
  wf_currentStepIndex : Z;
  wf_totalSteps : Z;
  wf_startedAt : option Z;
  wf_completedAt : option Z;
  wf_failedAt : option Z;
  wf_failureReason : option string;
  wf_retryCount : Z;
  wf_maxRetries : Z;
  wf_nextRetryAt : option Z;
  wf_requiresCompensation : bool;
  wf_isCompensated : bool;
  wf_createdAt : Z;
  wf_updatedAt : Z;
}.

Definition set_wf_state (v : WorkflowState.t) (w : Workflow) : Workflow := {|
  wf_id := wf_id w; wf_idempotencyKey := wf_idempotencyKey w; wf_type := wf_type w; wf_state :=
  v; wf_userId := wf_userId w; wf_walletAddress := wf_walletAddress w; wf_input := wf_input w;
  wf_output := wf_output w; wf_context := wf_context w; wf_currentStepIndex :=
  wf_currentStepIndex w; wf_totalSteps := wf_totalSteps w; wf_startedAt := wf_startedAt w;
  wf_completedAt := wf_completedAt w; wf_failedAt := wf_failedAt w; wf_failureReason :=
  wf_failureReason w; wf_retryCount := wf_retryCount w; wf_maxRetries := wf_maxRetries w;
  wf_nextRetryAt := wf_nextRetryAt w; wf_requiresCompensation := wf_requiresCompensation w;
  wf_isCompensated := wf_isCompensated w; wf_createdAt := wf_createdAt w; wf_updatedAt :=
  wf_updatedAt w |}.
Definition set_wf_userId (v : option string) (w : Workflow) : Workflow := {|
  wf_id := wf_id w; wf_idempotencyKey := wf_idempotencyKey w; wf_type := wf_type w; wf_state :=
  wf_state w; wf_userId := v; wf_walletAddress := wf_walletAddress w; wf_input := wf_input w;
  wf_output := wf_output w; wf_context := wf_context w; wf_currentStepIndex :=
  wf_currentStepIndex w; wf_totalSteps := wf_totalSteps w; wf_startedAt := wf_startedAt w;
  wf_completedAt := wf_completedAt w; wf_failedAt := wf_failedAt w; wf_failureReason :=
  wf_failureReason w; wf_retryCount := wf_retryCount w; wf_maxRetries := wf_maxRetries w;
  wf_nextRetryAt := wf_nextRetryAt w; wf_requiresCompensation := wf_requiresCompensation w;
  wf_isCompensated := wf_isCompensated w; wf_createdAt := wf_createdAt w; wf_updatedAt :=
  wf_updatedAt w |}.
Definition set_wf_walletAddress (v : option string) (w : Workflow) : Workflow := {|
  wf_id := wf_id w; wf_idempotencyKey := wf_idempotencyKey w; wf_type := wf_type w; wf_state :=
  wf_state w; wf_userId := wf_userId w; wf_walletAddress := v; wf_input := wf_input w; wf_output
  := wf_output w; wf_context := wf_context w; wf_currentStepIndex := wf_currentStepIndex w;
  wf_totalSteps := wf_totalSteps w; wf_startedAt := wf_startedAt w; wf_completedAt :=
  wf_completedAt w; wf_failedAt := wf_failedAt w; wf_failureReason := wf_failureReason w;
  wf_retryCount := wf_retryCount w; wf_maxRetries := wf_maxRetries w; wf_nextRetryAt :=
  wf_nextRetryAt w; wf_requiresCompensation := wf_requiresCompensation w; wf_isCompensated :=
  wf_isCompensated w; wf_createdAt := wf_createdAt w; wf_updatedAt := wf_updatedAt w |}.
Definition set_wf_output (v : option jsobj) (w : Workflow) : Workflow := {|
  wf_id := wf_id w; wf_idempotencyKey := wf_idempotencyKey w; wf_type := wf_type w; wf_state :=
  wf_state w; wf_userId := wf_userId w; wf_walletAddress := wf_walletAddress w; wf_input :=
  wf_input w; wf_output := v; wf_context := wf_context w; wf_currentStepIndex :=
  wf_currentStepIndex w; wf_totalSteps := wf_totalSteps w; wf_startedAt := wf_startedAt w;
  wf_completedAt := wf_completedAt w; wf_failedAt := wf_failedAt w; wf_failureReason :=
  wf_failureReason w; wf_retryCount := wf_retryCount w; wf_maxRetries := wf_maxRetries w;
  wf_nextRetryAt := wf_nextRetryAt w; wf_requiresCompensation := wf_requiresCompensation w;
  wf_isCompensated := wf_isCompensated w; wf_createdAt := wf_createdAt w; wf_updatedAt :=
  wf_updatedAt w |}.
Definition set_wf_context (v : option jsobj) (w : Workflow) : Workflow := {|
  wf_id := wf_id w; wf_idempotencyKey := wf_idempotencyKey w; wf_type := wf_type w; wf_state :=
  wf_state w; wf_userId := wf_userId w; wf_walletAddress := wf_walletAddress w; wf_input :=
  wf_input w; wf_output := wf_output w; wf_context := v; wf_currentStepIndex :=
  wf_currentStepIndex w; wf_totalSteps := wf_totalSteps w; wf_startedAt := wf_startedAt w;
  wf_completedAt := wf_completedAt w; wf_failedAt := wf_failedAt w; wf_failureReason :=
  wf_failureReason w; wf_retryCount := wf_retryCount w; wf_maxRetries := wf_maxRetries w;
  wf_nextRetryAt := wf_nextRetryAt w; wf_requiresCompensation := wf_requiresCompensation w;
  wf_isCompensated := wf_isCompensated w; wf_createdAt := wf_createdAt w; wf_updatedAt :=
  wf_updatedAt w |}.
Definition set_wf_currentStepIndex (v : Z) (w : Workflow) : Workflow := {|
  wf_id := wf_id w; wf_idempotencyKey := wf_idempotencyKey w; wf_type := wf_type w; wf_state :=
  wf_state w; wf_userId := wf_userId w; wf_walletAddress := wf_walletAddress w; wf_input :=
  wf_input w; wf_output := wf_output w; wf_context := wf_context w; wf_currentStepIndex := v;
  wf_totalSteps := wf_totalSteps w; wf_startedAt := wf_startedAt w; wf_completedAt :=
  wf_completedAt w; wf_failedAt := wf_failedAt w; wf_failureReason := wf_failureReason w;
  wf_retryCount := wf_retryCount w; wf_maxRetries := wf_maxRetries w; wf_nextRetryAt :=
  wf_nextRetryAt w; wf_requiresCompensation := wf_requiresCompensation w; wf_isCompensated :=
  wf_isCompensated w; wf_createdAt := wf_createdAt w; wf_updatedAt := wf_updatedAt w |}.
Definition set_wf_startedAt (v : option Z) (w : Workflow) : Workflow := {|
  wf_id := wf_id w; wf_idempotencyKey := wf_idempotencyKey w; wf_type := wf_type w; wf_state :=
  wf_state w; wf_userId := wf_userId w; wf_walletAddress := wf_walletAddress w; wf_input :=
  wf_input w; wf_output := wf_output w; wf_context := wf_context w; wf_currentStepIndex :=
  wf_currentStepIndex w; wf_totalSteps := wf_totalSteps w; wf_startedAt := v; wf_completedAt :=
  wf_completedAt w; wf_failedAt := wf_failedAt w; wf_failureReason := wf_failureReason w;
  wf_retryCount := wf_retryCount w; wf_maxRetries := wf_maxRetries w; wf_nextRetryAt :=
  wf_nextRetryAt w; wf_requiresCompensation := wf_requiresCompensation w; wf_isCompensated :=
  wf_isCompensated w; wf_createdAt := wf_createdAt w; wf_updatedAt := wf_updatedAt w |}.
Definition set_wf_completedAt (v : option Z) (w : Workflow) : Workflow := {|
  wf_id := wf_id w; wf_idempotencyKey := wf_idempotencyKey w; wf_type := wf_type w; wf_state :=
  wf_state w; wf_userId := wf_userId w; wf_walletAddress := wf_walletAddress w; wf_input :=
  wf_input w; wf_output := wf_output w; wf_context := wf_context w; wf_currentStepIndex :=
  wf_currentStepIndex w; wf_totalSteps := wf_totalSteps w; wf_startedAt := wf_startedAt w;
  wf_completedAt := v; wf_failedAt := wf_failedAt w; wf_failureReason := wf_failureReason w;
  wf_retryCount := wf_retryCount w; wf_maxRetries := wf_maxRetries w; wf_nextRetryAt :=
  wf_nextRetryAt w; wf_requiresCompensation := wf_requiresCompensation w; wf_isCompensated :=
  wf_isCompensated w; wf_createdAt := wf_createdAt w; wf_updatedAt := wf_updatedAt w |}.
Definition set_wf_failedAt (v : option Z) (w : Workflow) : Workflow := {|
  wf_id := wf_id w; wf_idempotencyKey := wf_idempotencyKey w; wf_type := wf_type w; wf_state :=
  wf_state w; wf_userId := wf_userId w; wf_walletAddress := wf_walletAddress w; wf_input :=
  wf_input w; wf_output := wf_output w; wf_context := wf_context w; wf_currentStepIndex :=
  wf_currentStepIndex w; wf_totalSteps := wf_totalSteps w; wf_startedAt := wf_startedAt w;
  wf_completedAt := wf_completedAt w; wf_failedAt := v; wf_failureReason := wf_failureReason w;
  wf_retryCount := wf_retryCount w; wf_maxRetries := wf_maxRetries w; wf_nextRetryAt :=
  wf_nextRetryAt w; wf_requiresCompensation := wf_requiresCompensation w; wf_isCompensated :=
  wf_isCompensated w; wf_createdAt := wf_createdAt w; wf_updatedAt := wf_updatedAt w |}.
Definition set_wf_failureReason (v : option string) (w : Workflow) : Workflow := {|
  wf_id := wf_id w; wf_idempotencyKey := wf_idempotencyKey w; wf_type := wf_type w; wf_state :=
  wf_state w; wf_userId := wf_userId w; wf_walletAddress := wf_walletAddress w; wf_input :=
  wf_input w; wf_output := wf_output w; wf_context := wf_context w; wf_currentStepIndex :=
  wf_currentStepIndex w; wf_totalSteps := wf_totalSteps w; wf_startedAt := wf_startedAt w;
  wf_completedAt := wf_completedAt w; wf_failedAt := wf_failedAt w; wf_failureReason := v;
  wf_retryCount := wf_retryCount w; wf_maxRetries := wf_maxRetries w; wf_nextRetryAt :=
  wf_nextRetryAt w; wf_requiresCompensation := wf_requiresCompensation w; wf_isCompensated :=
  wf_isCompensated w; wf_createdAt := wf_createdAt w; wf_updatedAt := wf_updatedAt w |}.
Definition set_wf_retryCount (v : Z) (w : Workflow) : Workflow := {|
  wf_id := wf_id w; wf_idempotencyKey := wf_idempotencyKey w; wf_type := wf_type w; wf_state :=
  wf_state w; wf_userId := wf_userId w; wf_walletAddress := wf_walletAddress w; wf_input :=
  wf_input w; wf_output := wf_output w; wf_context := wf_context w; wf_currentStepIndex :=
  wf_currentStepIndex w; wf_totalSteps := wf_totalSteps w; wf_startedAt := wf_startedAt w;
  wf_completedAt := wf_completedAt w; wf_failedAt := wf_failedAt w; wf_failureReason :=
  wf_failureReason w; wf_retryCount := v; wf_maxRetries := wf_maxRetries w; wf_nextRetryAt :=
  wf_nextRetryAt w; wf_requiresCompensation := wf_requiresCompensation w; wf_isCompensated :=
  wf_isCompensated w; wf_createdAt := wf_createdAt w; wf_updatedAt := wf_updatedAt w |}.
Definition set_wf_nextRetryAt (v : option Z) (w : Workflow) : Workflow := {|
  wf_id := wf_id w; wf_idempotencyKey := wf_idempotencyKey w; wf_type := wf_type w; wf_state :=
  wf_state w; wf_userId := wf_userId w; wf_walletAddress := wf_walletAddress w; wf_input :=
  wf_input w; wf_output := wf_output w; wf_context := wf_context w; wf_currentStepIndex :=
  wf_currentStepIndex w; wf_totalSteps := wf_totalSteps w; wf_startedAt := wf_startedAt w;
  wf_completedAt := wf_completedAt w; wf_failedAt := wf_failedAt w; wf_failureReason :=
  wf_failureReason w; wf_retryCount := wf_retryCount w; wf_maxRetries := wf_maxRetries w;
  wf_nextRetryAt := v; wf_requiresCompensation := wf_requiresCompensation w; wf_isCompensated :=
  wf_isCompensated w; wf_createdAt := wf_createdAt w; wf_updatedAt := wf_updatedAt w |}.
Definition set_wf_requiresCompensation (v : bool) (w : Workflow) : Workflow := {|
  wf_id := wf_id w; wf_idempotencyKey := wf_idempotencyKey w; wf_type := wf_type w; wf_state :=
  wf_state w; wf_userId := wf_userId w; wf_walletAddress := wf_walletAddress w; wf_input :=
  wf_input w; wf_output := wf_output w; wf_context := wf_context w; wf_currentStepIndex :=
  wf_currentStepIndex w; wf_totalSteps := wf_totalSteps w; wf_startedAt := wf_startedAt w;
  wf_completedAt := wf_completedAt w; wf_failedAt := wf_failedAt w; wf_failureReason :=
  wf_failureReason w; wf_retryCount := wf_retryCount w; wf_maxRetries := wf_maxRetries w;
  wf_nextRetryAt := wf_nextRetryAt w; wf_requiresCompensation := v; wf_isCompensated :=
  wf_isCompensated w; wf_createdAt := wf_createdAt w; wf_updatedAt := wf_updatedAt w |}.
Definition set_wf_isCompensated (v : bool) (w : Workflow) : Workflow := {|
  wf_id := wf_id w; wf_idempotencyKey := wf_idempotencyKey w; wf_type := wf_type w; wf_state :=
  wf_state w; wf_userId := wf_userId w; wf_walletAddress := wf_walletAddress w; wf_input :=
  wf_input w; wf_output := wf_output w; wf_context := wf_context w; wf_currentStepIndex :=
  wf_currentStepIndex w; wf_totalSteps := wf_totalSteps w; wf_startedAt := wf_startedAt w;
  wf_completedAt := wf_completedAt w; wf_failedAt := wf_failedAt w; wf_failureReason :=
  wf_failureReason w; wf_retryCount := wf_retryCount w; wf_maxRetries := wf_maxRetries w;
  wf_nextRetryAt := wf_nextRetryAt w; wf_requiresCompensation := wf_requiresCompensation w;
  wf_isCompensated := v; wf_createdAt := wf_createdAt w; wf_updatedAt := wf_updatedAt w |}.
Definition set_wf_createdAt (v : Z) (w : Workflow) : Workflow := {|
  wf_id := wf_id w; wf_idempotencyKey := wf_idempotencyKey w; wf_type := wf_type w; wf_state :=
  wf_state w; wf_userId := wf_userId w; wf_walletAddress := wf_walletAddress w; wf_input :=
  wf_input w; wf_output := wf_output w; wf_context := wf_context w; wf_currentStepIndex :=
  wf_currentStepIndex w; wf_totalSteps := wf_totalSteps w; wf_startedAt := wf_startedAt w;
  wf_completedAt := wf_completedAt w; wf_failedAt := wf_failedAt w; wf_failureReason :=
  wf_failureReason w; wf_retryCount := wf_retryCount w; wf_maxRetries := wf_maxRetries w;
  wf_nextRetryAt := wf_nextRetryAt w; wf_requiresCompensation := wf_requiresCompensation w;
  wf_isCompensated := wf_isCompensated w; wf_createdAt := v; wf_updatedAt := wf_updatedAt w |}.
Definition set_wf_updatedAt (v : Z) (w : Workflow) : Workflow := {|
  wf_id := wf_id w; wf_idempotencyKey := wf_idempotencyKey w; wf_type := wf_type w; wf_state :=
  wf_state w; wf_userId := wf_userId w; wf_walletAddress := wf_walletAddress w; wf_input :=
  wf_input w; wf_output := wf_output w; wf_context := wf_context w; wf_currentStepIndex :=
  wf_currentStepIndex w; wf_totalSteps := wf_totalSteps w; wf_startedAt := wf_startedAt w;
  wf_completedAt := wf_completedAt w; wf_failedAt := wf_failedAt w; wf_failureReason :=
  wf_failureReason w; wf_retryCount := wf_retryCount w; wf_maxRetries := wf_maxRetries w;
  wf_nextRetryAt := wf_nextRetryAt w; wf_requiresCompensation := wf_requiresCompensation w;
  wf_isCompensated := wf_isCompensated w; wf_createdAt := wf_createdAt w; wf_updatedAt := v |}.

(** The row that [save] leaves: a nullable column whose property is undefined
    keeps its value, and the ORM stamps the creation and update columns. *)
Definition merge_workflow (created updated : Z) (o : option Workflow) (w : Workflow) : Workflow :=
  w |> set_wf_userId (merge_column (o ≫= wf_userId) (wf_userId w))
    |> set_wf_walletAddress (merge_column (o ≫= wf_walletAddress) (wf_walletAddress w))
    |> set_wf_output (merge_column (o ≫= wf_output) (wf_output w))
    |> set_wf_context (merge_column (o ≫= wf_context) (wf_context w))
    |> set_wf_startedAt (merge_column (o ≫= wf_startedAt) (wf_startedAt w))
    |> set_wf_completedAt (merge_column (o ≫= wf_completedAt) (wf_completedAt w))
    |> set_wf_failedAt (merge_column (o ≫= wf_failedAt) (wf_failedAt w))
    |> set_wf_failureReason (merge_column (o ≫= wf_failureReason) (wf_failureReason w))
    |> set_wf_nextRetryAt (merge_column (o ≫= wf_nextRetryAt) (wf_nextRetryAt w))
    |> set_wf_createdAt created
    |> set_wf_updatedAt updated.

(** A row of [workflow_steps]. *)
Record WorkflowStep := mkWorkflowStep {
  st_id : string;
  st_workflowId : string;
  st_stepName : string;
  st_stepIndex : Z;
  st_state : StepState.t;
  st_input : option jsobj;
  st_output : option jsval;
  st_config : option jsobj;
  st_retryCount : Z;
  st_maxRetries : Z;
  st_startedAt : option Z;
  st_completedAt : option Z;
  st_failedAt : option Z;
  st_failureReason : option string;
  st_nextRetryAt : option Z;
  st_requiresCompensation : bool;
  st_isCompensated : bool;
  st_compensatedAt : option Z;
  st_compensationStepName : option string;
  st_compensationConfig : option jsobj;
  st_isIdempotent : bool;
  st_idempotencyKey : option string;
  st_createdAt : Z;
  st_updatedAt : Z;
}.

Definition set_st_state (v : StepState.t) (s : WorkflowStep) : WorkflowStep := {|
  st_id := st_id s; st_workflowId := st_workflowId s; st_stepName := st_stepName s; st_stepIndex
  := st_stepIndex s; st_state := v; st_input := st_input s; st_output := st_output s; st_config
  := st_config s; st_retryCount := st_retryCount s; st_maxRetries := st_maxRetries s;
  st_startedAt := st_startedAt s; st_completedAt := st_completedAt s; st_failedAt := st_failedAt
  s; st_failureReason := st_failureReason s; st_nextRetryAt := st_nextRetryAt s;
  st_requiresCompensation := st_requiresCompensation s; st_isCompensated := st_isCompensated s;
  st_compensatedAt := st_compensatedAt s; st_compensationStepName := st_compensationStepName s;
  st_compensationConfig := st_compensationConfig s; st_isIdempotent := st_isIdempotent s;
  st_idempotencyKey := st_idempotencyKey s; st_createdAt := st_createdAt s; st_updatedAt :=
  st_updatedAt s |}.
Definition set_st_input (v : option jsobj) (s : WorkflowStep) : WorkflowStep := {|
  st_id := st_id s; st_workflowId := st_workflowId s; st_stepName := st_stepName s; st_stepIndex
  := st_stepIndex s; st_state := st_state s; st_input := v; st_output := st_output s; st_config
  := st_config s; st_retryCount := st_retryCount s; st_maxRetries := st_maxRetries s;
  st_startedAt := st_startedAt s; st_completedAt := st_completedAt s; st_failedAt := st_failedAt
  s; st_failureReason := st_failureReason s; st_nextRetryAt := st_nextRetryAt s;
  st_requiresCompensation := st_requiresCompensation s; st_isCompensated := st_isCompensated s;
  st_compensatedAt := st_compensatedAt s; st_compensationStepName := st_compensationStepName s;
  st_compensationConfig := st_compensationConfig s; st_isIdempotent := st_isIdempotent s;
  st_idempotencyKey := st_idempotencyKey s; st_createdAt := st_createdAt s; st_updatedAt :=
  st_updatedAt s |}.
Definition set_st_output (v : option jsval) (s : WorkflowStep) : WorkflowStep := {|
  st_id := st_id s; st_workflowId := st_workflowId s; st_stepName := st_stepName s; st_stepIndex
  := st_stepIndex s; st_state := st_state s; st_input := st_input s; st_output := v; st_config
  := st_config s; st_retryCount := st_retryCount s; st_maxRetries := st_maxRetries s;
  st_startedAt := st_startedAt s; st_completedAt := st_completedAt s; st_failedAt := st_failedAt
  s; st_failureReason := st_failureReason s; st_nextRetryAt := st_nextRetryAt s;
  st_requiresCompensation := st_requiresCompensation s; st_isCompensated := st_isCompensated s;
  st_compensatedAt := st_compensatedAt s; st_compensationStepName := st_compensationStepName s;
  st_compensationConfig := st_compensationConfig s; st_isIdempotent := st_isIdempotent s;
  st_idempotencyKey := st_idempotencyKey s; st_createdAt := st_createdAt s; st_updatedAt :=
  st_updatedAt s |}.
Definition set_st_config (v : option jsobj) (s : WorkflowStep) : WorkflowStep := {|
  st_id := st_id s; st_workflowId := st_workflowId s; st_stepName := st_stepName s; st_stepIndex
  := st_stepIndex s; st_state := st_state s; st_input := st_input s; st_output := st_output s;
  st_config := v; st_retryCount := st_retryCount s; st_maxRetries := st_maxRetries s;
  st_startedAt := st_startedAt s; st_completedAt := st_completedAt s; st_failedAt := st_failedAt
  s; st_failureReason := st_failureReason s; st_nextRetryAt := st_nextRetryAt s;
  st_requiresCompensation := st_requiresCompensation s; st_isCompensated := st_isCompensated s;
  st_compensatedAt := st_compensatedAt s; st_compensationStepName := st_compensationStepName s;
  st_compensationConfig := st_compensationConfig s; st_isIdempotent := st_isIdempotent s;
  st_idempotencyKey := st_idempotencyKey s; st_createdAt := st_createdAt s; st_updatedAt :=
  st_updatedAt s |}.
Definition set_st_retryCount (v : Z) (s : WorkflowStep) : WorkflowStep := {|
  st_id := st_id s; st_workflowId := st_workflowId s; st_stepName := st_stepName s; st_stepIndex
  := st_stepIndex s; st_state := st_state s; st_input := st_input s; st_output := st_output s;
  st_config := st_config s; st_retryCount := v; st_maxRetries := st_maxRetries s; st_startedAt
  := st_startedAt s; st_completedAt := st_completedAt s; st_failedAt := st_failedAt s;
  st_failureReason := st_failureReason s; st_nextRetryAt := st_nextRetryAt s;
  st_requiresCompensation := st_requiresCompensation s; st_isCompensated := st_isCompensated s;
  st_compensatedAt := st_compensatedAt s; st_compensationStepName := st_compensationStepName s;
  st_compensationConfig := st_compensationConfig s; st_isIdempotent := st_isIdempotent s;
  st_idempotencyKey := st_idempotencyKey s; st_createdAt := st_createdAt s; st_updatedAt :=
  st_updatedAt s |}.
Definition set_st_startedAt (v : option Z) (s : WorkflowStep) : WorkflowStep := {|
  st_id := st_id s; st_workflowId := st_workflowId s; st_stepName := st_stepName s; st_stepIndex
  := st_stepIndex s; st_state := st_state s; st_input := st_input s; st_output := st_output s;
  st_config := st_config s; st_retryCount := st_retryCount s; st_maxRetries := st_maxRetries s;
  st_startedAt := v; st_completedAt := st_completedAt s; st_failedAt := st_failedAt s;
  st_failureReason := st_failureReason s; st_nextRetryAt := st_nextRetryAt s;
  st_requiresCompensation := st_requiresCompensation s; st_isCompensated := st_isCompensated s;
  st_compensatedAt := st_compensatedAt s; st_compensationStepName := st_compensationStepName s;
  st_compensationConfig := st_compensationConfig s; st_isIdempotent := st_isIdempotent s;
  st_idempotencyKey := st_idempotencyKey s; st_createdAt := st_createdAt s; st_updatedAt :=
  st_updatedAt s |}.
Definition set_st_completedAt (v : option Z) (s : WorkflowStep) : WorkflowStep := {|
  st_id := st_id s; st_workflowId := st_workflowId s; st_stepName := st_stepName s; st_stepIndex
  := st_stepIndex s; st_state := st_state s; st_input := st_input s; st_output := st_output s;
  st_config := st_config s; st_retryCount := st_retryCount s; st_maxRetries := st_maxRetries s;
  st_startedAt := st_startedAt s; st_completedAt := v; st_failedAt := st_failedAt s;
  st_failureReason := st_failureReason s; st_nextRetryAt := st_nextRetryAt s;
  st_requiresCompensation := st_requiresCompensation s; st_isCompensated := st_isCompensated s;
  st_compensatedAt := st_compensatedAt s; st_compensationStepName := st_compensationStepName s;
  st_compensationConfig := st_compensationConfig s; st_isIdempotent := st_isIdempotent s;
  st_idempotencyKey := st_idempotencyKey s; st_createdAt := st_createdAt s; st_updatedAt :=
  st_updatedAt s |}.
Definition set_st_failedAt (v : option Z) (s : WorkflowStep) : WorkflowStep := {|
  st_id := st_id s; st_workflowId := st_workflowId s; st_stepName := st_stepName s; st_stepIndex
  := st_stepIndex s; st_state := st_state s; st_input := st_input s; st_output := st_output s;
  st_config := st_config s; st_retryCount := st_retryCount s; st_maxRetries := st_maxRetries s;
  st_startedAt := st_startedAt s; st_completedAt := st_completedAt s; st_failedAt := v;
  st_failureReason := st_failureReason s; st_nextRetryAt := st_nextRetryAt s;
  st_requiresCompensation := st_requiresCompensation s; st_isCompensated := st_isCompensated s;
  st_compensatedAt := st_compensatedAt s; st_compensationStepName := st_compensationStepName s;
  st_compensationConfig := st_compensationConfig s; st_isIdempotent := st_isIdempotent s;
  st_idempotencyKey := st_idempotencyKey s; st_createdAt := st_createdAt s; st_updatedAt :=
  st_updatedAt s |}.
Definition set_st_failureReason (v : option string) (s : WorkflowStep) : WorkflowStep := {|
  st_id := st_id s; st_workflowId := st_workflowId s; st_stepName := st_stepName s; st_stepIndex
  := st_stepIndex s; st_state := st_state s; st_input := st_input s; st_output := st_output s;
  st_config := st_config s; st_retryCount := st_retryCount s; st_maxRetries := st_maxRetries s;
  st_startedAt := st_startedAt s; st_completedAt := st_completedAt s; st_failedAt := st_failedAt
  s; st_failureReason := v; st_nextRetryAt := st_nextRetryAt s; st_requiresCompensation :=
  st_requiresCompensation s; st_isCompensated := st_isCompensated s; st_compensatedAt :=
  st_compensatedAt s; st_compensationStepName := st_compensationStepName s;
  st_compensationConfig := st_compensationConfig s; st_isIdempotent := st_isIdempotent s;
  st_idempotencyKey := st_idempotencyKey s; st_createdAt := st_createdAt s; st_updatedAt :=
  st_updatedAt s |}.
Definition set_st_nextRetryAt (v : option Z) (s : WorkflowStep) : WorkflowStep := {|
  st_id := st_id s; st_workflowId := st_workflowId s; st_stepName := st_stepName s; st_stepIndex
  := st_stepIndex s; st_state := st_state s; st_input := st_input s; st_output := st_output s;
  st_config := st_config s; st_retryCount := st_retryCount s; st_maxRetries := st_maxRetries s;
  st_startedAt := st_startedAt s; st_completedAt := st_completedAt s; st_failedAt := st_failedAt
  s; st_failureReason := st_failureReason s; st_nextRetryAt := v; st_requiresCompensation :=
  st_requiresCompensation s; st_isCompensated := st_isCompensated s; st_compensatedAt :=
  st_compensatedAt s; st_compensationStepName := st_compensationStepName s;
  st_compensationConfig := st_compensationConfig s; st_isIdempotent := st_isIdempotent s;
  st_idempotencyKey := st_idempotencyKey s; st_createdAt := st_createdAt s; st_updatedAt :=
  st_updatedAt s |}.
Definition set_st_isCompensated (v : bool) (s : WorkflowStep) : WorkflowStep := {|
  st_id := st_id s; st_workflowId := st_workflowId s; st_stepName := st_stepName s; st_stepIndex
  := st_stepIndex s; st_state := st_state s; st_input := st_input s; st_output := st_output s;
  st_config := st_config s; st_retryCount := st_retryCount s; st_maxRetries := st_maxRetries s;
  st_startedAt := st_startedAt s; st_completedAt := st_completedAt s; st_failedAt := st_failedAt
  s; st_failureReason := st_failureReason s; st_nextRetryAt := st_nextRetryAt s;
  st_requiresCompensation := st_requiresCompensation s; st_isCompensated := v; st_compensatedAt
  := st_compensatedAt s; st_compensationStepName := st_compensationStepName s;
  st_compensationConfig := st_compensationConfig s; st_isIdempotent := st_isIdempotent s;
  st_idempotencyKey := st_idempotencyKey s; st_createdAt := st_createdAt s; st_updatedAt :=
  st_updatedAt s |}.
Definition set_st_compensatedAt (v : option Z) (s : WorkflowStep) : WorkflowStep := {|
  st_id := st_id s; st_workflowId := st_workflowId s; st_stepName := st_stepName s; st_stepIndex
  := st_stepIndex s; st_state := st_state s; st_input := st_input s; st_output := st_output s;
  st_config := st_config s; st_retryCount := st_retryCount s; st_maxRetries := st_maxRetries s;
  st_startedAt := st_startedAt s; st_completedAt := st_completedAt s; st_failedAt := st_failedAt
  s; st_failureReason := st_failureReason s; st_nextRetryAt := st_nextRetryAt s;
  st_requiresCompensation := st_requiresCompensation s; st_isCompensated := st_isCompensated s;
  st_compensatedAt := v; st_compensationStepName := st_compensationStepName s;
  st_compensationConfig := st_compensationConfig s; st_isIdempotent := st_isIdempotent s;
  st_idempotencyKey := st_idempotencyKey s; st_createdAt := st_createdAt s; st_updatedAt :=
  st_updatedAt s |}.
Definition set_st_compensationStepName (v : option string) (s : WorkflowStep) : WorkflowStep := {|
  st_id := st_id s; st_workflowId := st_workflowId s; st_stepName := st_stepName s; st_stepIndex
  := st_stepIndex s; st_state := st_state s; st_input := st_input s; st_output := st_output s;
  st_config := st_config s; st_retryCount := st_retryCount s; st_maxRetries := st_maxRetries s;
  st_startedAt := st_startedAt s; st_completedAt := st_completedAt s; st_failedAt := st_failedAt
  s; st_failureReason := st_failureReason s; st_nextRetryAt := st_nextRetryAt s;
  st_requiresCompensation := st_requiresCompensation s; st_isCompensated := st_isCompensated s;
  st_compensatedAt := st_compensatedAt s; st_compensationStepName := v; st_compensationConfig :=
  st_compensationConfig s; st_isIdempotent := st_isIdempotent s; st_idempotencyKey :=
  st_idempotencyKey s; st_createdAt := st_createdAt s; st_updatedAt := st_updatedAt s |}.
Definition set_st_compensationConfig (v : option jsobj) (s : WorkflowStep) : WorkflowStep := {|
  st_id := st_id s; st_workflowId := st_workflowId s; st_stepName := st_stepName s; st_stepIndex
  := st_stepIndex s; st_state := st_state s; st_input := st_input s; st_output := st_output s;
  st_config := st_config s; st_retryCount := st_retryCount s; st_maxRetries := st_maxRetries s;
  st_startedAt := st_startedAt s; st_completedAt := st_completedAt s; st_failedAt := st_failedAt
  s; st_failureReason := st_failureReason s; st_nextRetryAt := st_nextRetryAt s;
  st_requiresCompensation := st_requiresCompensation s; st_isCompensated := st_isCompensated s;
  st_compensatedAt := st_compensatedAt s; st_compensationStepName := st_compensationStepName s;
  st_compensationConfig := v; st_isIdempotent := st_isIdempotent s; st_idempotencyKey :=
  st_idempotencyKey s; st_createdAt := st_createdAt s; st_updatedAt := st_updatedAt s |}.
Definition set_st_idempotencyKey (v : option string) (s : WorkflowStep) : WorkflowStep := {|
  st_id := st_id s; st_workflowId := st_workflowId s; st_stepName := st_stepName s; st_stepIndex
  := st_stepIndex s; st_state := st_state s; st_input := st_input s; st_output := st_output s;
  st_config := st_config s; st_retryCount := st_retryCount s; st_maxRetries := st_maxRetries s;
  st_startedAt := st_startedAt s; st_completedAt := st_completedAt s; st_failedAt := st_failedAt
  s; st_failureReason := st_failureReason s; st_nextRetryAt := st_nextRetryAt s;
  st_requiresCompensation := st_requiresCompensation s; st_isCompensated := st_isCompensated s;
  st_compensatedAt := st_compensatedAt s; st_compensationStepName := st_compensationStepName s;
  st_compensationConfig := st_compensationConfig s; st_isIdempotent := st_isIdempotent s;
  st_idempotencyKey := v; st_createdAt := st_createdAt s; st_updatedAt := st_updatedAt s |}.
Definition set_st_createdAt (v : Z) (s : WorkflowStep) : WorkflowStep := {|
  st_id := st_id s; st_workflowId := st_workflowId s; st_stepName := st_stepName s; st_stepIndex
  := st_stepIndex s; st_state := st_state s; st_input := st_input s; st_output := st_output s;
  st_config := st_config s; st_retryCount := st_retryCount s; st_maxRetries := st_maxRetries s;
  st_startedAt := st_startedAt s; st_completedAt := st_completedAt s; st_failedAt := st_failedAt
  s; st_failureReason := st_failureReason s; st_nextRetryAt := st_nextRetryAt s;
  st_requiresCompensation := st_requiresCompensation s; st_isCompensated := st_isCompensated s;
  st_compensatedAt := st_compensatedAt s; st_compensationStepName := st_compensationStepName s;
  st_compensationConfig := st_compensationConfig s; st_isIdempotent := st_isIdempotent s;
  st_idempotencyKey := st_idempotencyKey s; st_createdAt := v; st_updatedAt := st_updatedAt s |}.
Definition set_st_updatedAt (v : Z) (s : WorkflowStep) : WorkflowStep := {|
  st_id := st_id s; st_workflowId := st_workflowId s; st_stepName := st_stepName s; st_stepIndex
  := st_stepIndex s; st_state := st_state s; st_input := st_input s; st_output := st_output s;
  st_config := st_config s; st_retryCount := st_retryCount s; st_maxRetries := st_maxRetries s;
  st_startedAt := st_startedAt s; st_completedAt := st_completedAt s; st_failedAt := st_failedAt
  s; st_failureReason := st_failureReason s; st_nextRetryAt := st_nextRetryAt s;
  st_requiresCompensation := st_requiresCompensation s; st_isCompensated := st_isCompensated s;
  st_compensatedAt := st_compensatedAt s; st_compensationStepName := st_compensationStepName s;
  st_compensationConfig := st_compensationConfig s; st_isIdempotent := st_isIdempotent s;
  st_idempotencyKey := st_idempotencyKey s; st_createdAt := st_createdAt s; st_updatedAt := v |}.

Definition merge_step (created updated : Z) (o : option WorkflowStep) (s : WorkflowStep) : WorkflowStep :=
  s |> set_st_input (merge_column (o ≫= st_input) (st_input s))
    |> set_st_output (merge_column (o ≫= st_output) (st_output s))
    |> set_st_config (merge_column (o ≫= st_config) (st_config s))
    |> set_st_startedAt (merge_column (o ≫= st_startedAt) (st_startedAt s))
    |> set_st_completedAt (merge_column (o ≫= st_completedAt) (st_completedAt s))
    |> set_st_failedAt (merge_column (o ≫= st_failedAt) (st_failedAt s))
    |> set_st_failureReason (merge_column (o ≫= st_failureReason) (st_failureReason s))
    |> set_st_nextRetryAt (merge_column (o ≫= st_nextRetryAt) (st_nextRetryAt s))
    |> set_st_compensatedAt (merge_column (o ≫= st_compensatedAt) (st_compensatedAt s))
    |> set_st_compensationStepName (merge_column (o ≫= st_compensationStepName) (st_compensationStepName s))
    |> set_st_compensationConfig (merge_column (o ≫= st_compensationConfig) (st_compensationConfig s))
    |> set_st_idempotencyKey (merge_column (o ≫= st_idempotencyKey) (st_idempotencyKey s))
    |> set_st_createdAt created
    |> set_st_updatedAt updated.

(** ** The tables

    [WorkflowTable] and [StepTable] are repositories of these rows with the
    column behaviour above; when the generated columns change is the ORM's. *)
Class WorkflowTable (DB : Type) := {
  workflow_repo :: Repository DB Workflow;
  workflow_laws :: RepositoryLaws DB Workflow;
  workflow_id w : row_id w = wf_id w;
  workflow_written t o w : ∃ c u, written t o w = merge_workflow c u o w;
}.

Class StepTable (DB : Type) := {
  step_repo :: Repository DB WorkflowStep;
  step_laws :: RepositoryLaws DB WorkflowStep;
  step_id s : row_id s = st_id s;
  step_written t o s : ∃ c u, written t o s = merge_step c u o s;
}.

(** In-memory tables: creation stamps a new row, every save stamps the update. *)
Definition mem_workflow_written (t : Z) (o : option Workflow) (w : Workflow) : Workflow :=
  merge_workflow (match o with Some r => wf_createdAt r | None => t end) t o w.
Definition mem_step_written (t : Z) (o : option WorkflowStep) (s : WorkflowStep) : WorkflowStep :=
  merge_step (match o with Some r => st_createdAt r | None => t end) t o s.

Definition mem_workflow_table : WorkflowTable (gmap string Workflow) := {|
  workflow_repo := mem_repository wf_id mem_workflow_written;
  workflow_laws := mem_repository_laws wf_id mem_workflow_written (λ _ _ _, eq_refl);
  workflow_id _ := eq_refl;
  workflow_written _ _ _ := ex_intro _ _ (ex_intro _ _ eq_refl);
|}.

Definition mem_step_table : StepTable (gmap string WorkflowStep) := {|
  step_repo := mem_repository st_id mem_step_written;
  step_laws := mem_repository_laws st_id mem_step_written (λ _ _ _, eq_refl);
  step_id _ := eq_refl;
  step_written _ _ _ := ex_intro _ _ (ex_intro _ _ eq_refl);
|}.

(** ** Definitions

    [WorkflowContext] is what a step's [execute] is told about its run. *)
Record WorkflowContext := mkContext {
  ctx_workflowId : string;
  ctx_idempotencyKey : string;
  ctx_userId : option string;
  ctx_walletAddress : option string;
  ctx_type : string;
  ctx_retryCount : Z;
  ctx_stepIndex : Z;
  ctx_metadata : option jsobj;
}.

(** A step's [execute] and [compensate] are effects on the world [W]: nothing
    is known of what they do while the engine awaits them. *)
Record StepDefinition (W : Type) := mkStepDefinition {
  sd_name : string;
  sd_execute : jsval → WorkflowContext → eff W jsval;
  sd_compensate : option (jsval → jsval → WorkflowContext → eff W jsval);
  sd_isIdempotent : bool;
  sd_maxRetries : option Z;
  sd_timeout : option Z;
  sd_config : option jsobj;
}.
Arguments mkStepDefinition {_} _ _ _ _ _ _ _.
Arguments sd_name {_} _.
Arguments sd_execute {_} _.
Arguments sd_compensate {_} _.
Arguments sd_isIdempotent {_} _.
Arguments sd_maxRetries {_} _.
Arguments sd_timeout {_} _.
Arguments sd_config {_} _.

Record WorkflowDefinition (W : Type) := mkWorkflowDefinition {
  wd_type : WorkflowType.t;
  wd_name : string;
  wd_description : string;
  wd_steps : list (StepDefinition W);
  wd_maxRetries : option Z;
  wd_timeout : option Z;
  wd_requiresCompensation : option bool;
  wd_metadata : option jsobj;
}.
Arguments mkWorkflowDefinition {_} _ _ _ _ _ _ _ _.
Arguments wd_type {_} _.
Arguments wd_name {_} _.
Arguments wd_description {_} _.
Arguments wd_steps {_} _.
Arguments wd_maxRetries {_} _.
Arguments wd_timeout {_} _.
Arguments wd_requiresCompensation {_} _.
Arguments wd_metadata {_} _.
