(* ===== verification/StateMachine.v ===== *)
(** [workflow/services/workflow-state-machine.service.ts]: the transition
    tables of workflows and steps, the predicates over them and the retry
    policy. *)
From S2P Require Import Prelude Json Repository WorkflowTypes.

(** ** The tables *)

Definition workflowTransitions (s : WorkflowState.t) : list WorkflowState.t :=
  match s with
  | WorkflowState.PENDING => [WorkflowState.RUNNING; WorkflowState.CANCELLED]
  | WorkflowState.RUNNING =>
      [WorkflowState.COMPLETED; WorkflowState.FAILED; WorkflowState.CANCELLED; WorkflowState.COMPENSATING]
  | WorkflowState.COMPLETED => [WorkflowState.COMPENSATING]
  | WorkflowState.FAILED => [WorkflowState.RUNNING; WorkflowState.CANCELLED; WorkflowState.COMPENSATING]
  | WorkflowState.CANCELLED => [WorkflowState.COMPENSATING]
  | WorkflowState.COMPENSATING => [WorkflowState.COMPENSATED; WorkflowState.FAILED]
  | WorkflowState.COMPENSATED => []
  end.

Definition stepTransitions (s : StepState.t) : list StepState.t :=
  match s with
  | StepState.PENDING => [StepState.RUNNING; StepState.SKIPPED]
  | StepState.RUNNING => [StepState.COMPLETED; StepState.FAILED; StepState.SKIPPED]
  | StepState.COMPLETED => [StepState.COMPENSATING]
  | StepState.FAILED => [StepState.RUNNING; StepState.SKIPPED; StepState.COMPENSATING]
  | StepState.SKIPPED => [StepState.COMPENSATING]
  | StepState.COMPENSATING => [StepState.COMPENSATED; StepState.FAILED]
  | StepState.COMPENSATED => []
  end.

Definition canTransitionWorkflow (from to : WorkflowState.t) : bool :=
  bool_decide (to ∈ workflowTransitions from).

Definition canTransitionStep (from to : StepState.t) : bool :=
  bool_decide (to ∈ stepTransitions from).

(** [{ success: boolean; error?: string }] *)
Record transition := mkTransition { success : bool; error : option string }.

Definition transitionWorkflow (currentState newState : WorkflowState.t) : transition :=
  if negb (canTransitionWorkflow currentState newState) then
    mkTransition false (Some ("Invalid workflow state transition from " +:+
      WorkflowState.to_string currentState +:+ " to " +:+ WorkflowState.to_string newState))
  else mkTransition true None.

Definition transitionStep (currentState newState : StepState.t) : transition :=
  if negb (canTransitionStep currentState newState) then
    mkTransition false (Some ("Invalid step state transition from " +:+
      StepState.to_string currentState +:+ " to " +:+ StepState.to_string newState))
  else mkTransition true None.

(** [`... ${transition.error}`] *)
Definition error_text (t : transition) : string := default "undefined" (error t).

Definition getValidWorkflowTransitions (s : WorkflowState.t) : list WorkflowState.t := workflowTransitions s.
Definition getValidStepTransitions (s : StepState.t) : list StepState.t := stepTransitions s.

(** ** Predicates *)

Definition isWorkflowTerminal (s : WorkflowState.t) : bool :=
  bool_decide (s = WorkflowState.COMPLETED) || bool_decide (s = WorkflowState.CANCELLED)
  || bool_decide (s = WorkflowState.COMPENSATED).

Definition isStepTerminal (s : StepState.t) : bool :=
  bool_decide (s = StepState.COMPLETED) || bool_decide (s = StepState.SKIPPED)
  || bool_decide (s = StepState.COMPENSATED).

Definition isWorkflowRecoverable (s : WorkflowState.t) : bool := bool_decide (s = WorkflowState.FAILED).
Definition isStepRecoverable (s : StepState.t) : bool := bool_decide (s = StepState.FAILED).

Definition canWorkflowCompensate (s : WorkflowState.t) : bool :=
  bool_decide (s ∈ [WorkflowState.COMPLETED; WorkflowState.FAILED; WorkflowState.CANCELLED]).

Definition canStepCompensate (s : StepState.t) : bool :=
  bool_decide (s ∈ [StepState.COMPLETED; StepState.FAILED; StepState.SKIPPED]).

(** ** Retries *)

Definition shouldRetry (state : WorkflowState.t + StepState.t) (retryCount maxRetries : Z) : bool :=
  if bool_decide (state = inl WorkflowState.FAILED) || bool_decide (state = inr StepState.FAILED)
  then bool_decide (retryCount < maxRetries)%Z
  else false.

Definition exponential_delay (retryCount baseDelay : Z) : Z := baseDelay * 2 ^ retryCount.

(** The jitter is [Math.random() * 0.1 * exponentialDelay], and [new Date] keeps
    whole milliseconds of the sum. *)
Definition calculateNextRetryTime `{!Ticking W, !Clock, !Random} (retryCount baseDelay : Z) : eff W Z :=
  let exponentialDelay := exponential_delay retryCount baseDelay in
  r ← random;
  now ← date_now;
  mret (now + exponentialDelay + (r * exponentialDelay) `div` (10 * random_scale))%Z.

Definition default_base_delay : Z := 1000.

(** * Properties *)

(** One move the table allows. *)
Definition workflow_edge (s s' : WorkflowState.t) : Prop := canTransitionWorkflow s s' = true.
Definition step_edge (s s' : StepState.t) : Prop := canTransitionStep s s' = true.

Lemma transitionWorkflow_success s s' : success (transitionWorkflow s s') = canTransitionWorkflow s s'.
Proof. unfold transitionWorkflow. by destruct (canTransitionWorkflow s s'). Qed.

Lemma transitionStep_success s s' : success (transitionStep s s') = canTransitionStep s s'.
Proof. unfold transitionStep. by destruct (canTransitionStep s s'). Qed.

(** Closes a goal by a hypothesis that claims a move the tables do not have. *)
Ltac no_edge :=
  exfalso; match goal with
  | H : workflow_edge _ _ |- _ => vm_compute in H; discriminate
  | H : step_edge _ _ |- _ => vm_compute in H; discriminate
  end.

Lemma shouldRetry_step rc mr :
  shouldRetry (inr StepState.FAILED) rc mr = bool_decide (rc < mr)%Z.
Proof. done. Qed.

(** Closes a reachability goal between named states. *)
Ltac walk_workflow :=
  repeat first [ apply rtc_refl | apply rtc_once; reflexivity
               | apply (rtc_l workflow_edge _ WorkflowState.COMPENSATING); [reflexivity|]
               | apply (rtc_l workflow_edge _ WorkflowState.FAILED); [reflexivity|] ].
Ltac walk_step :=
  repeat first [ apply rtc_refl | apply rtc_once; reflexivity
               | apply (rtc_l step_edge _ StepState.COMPENSATING); [reflexivity|]
               | apply (rtc_l step_edge _ StepState.COMPLETED); [reflexivity|]
               | apply (rtc_l step_edge _ StepState.FAILED); [reflexivity|] ].

Lemma workflow_to_running s : s ≠ WorkflowState.COMPENSATED → rtc workflow_edge s WorkflowState.RUNNING.
Proof. intros H. destruct s; try (by destruct H); walk_workflow. Qed.
Lemma workflow_from_running s : s ≠ WorkflowState.PENDING → rtc workflow_edge WorkflowState.RUNNING s.
Proof. intros H. destruct s; try (by destruct H); walk_workflow. Qed.
Lemma step_to_running s : s ≠ StepState.COMPENSATED → rtc step_edge s StepState.RUNNING.
Proof. intros H. destruct s; try (by destruct H); walk_step. Qed.
Lemma step_from_running s : s ≠ StepState.PENDING → rtc step_edge StepState.RUNNING s.
Proof. intros H. destruct s; try (by destruct H); walk_step. Qed.

(** Nothing enters the state [first] and nothing leaves the state [last]. *)
Lemma rtc_between {S} (R : relation S) (first last s s' : S) :
  (∀ s, ¬ R s first) → (∀ s, ¬ R last s) → rtc R s s' → s = s' ∨ (s ≠ last ∧ s' ≠ first).
Proof.
  intros Hfirst Hlast H. destruct H as [s|s s1 s' H1 H]; [by left|]. right. split.
  - intros ->. by eapply Hlast.
  - intros ->. apply rtc_inv_r in H as [<-|(y & _ & Hy)]; by eapply Hfirst.
Qed.

(** reachability in both tables, exactly: any number of transitions leads from a state
    to another one if and only if the former is not COMPENSATED and the latter is not
    PENDING.  COMPENSATED is the only final state, PENDING is never re-entered, and a
    COMPLETED or CANCELLED workflow can be brought back to RUNNING through a compensation
    that fails. *)
Theorem reachability s s' t t' :
  (rtc workflow_edge s s' ↔ s = s' ∨ (s ≠ WorkflowState.COMPENSATED ∧ s' ≠ WorkflowState.PENDING)) ∧
  (rtc step_edge t t' ↔ t = t' ∨ (t ≠ StepState.COMPENSATED ∧ t' ≠ StepState.PENDING)).
Proof.
  split; split; [apply rtc_between; intros []; intros ?; no_edge|intros [->|[? ?]]; [done|]
                |apply rtc_between; intros []; intros ?; no_edge|intros [->|[? ?]]; [done|]].
  - etrans; [by apply workflow_to_running|by apply workflow_from_running].
  - etrans; [by apply step_to_running|by apply step_from_running].
Qed.

(** the predicates and the tables.  Compensation may start exactly where the tables have an
    edge to COMPENSATING, except for the one from RUNNING that workflows have and
    [canWorkflowCompensate] refuses; recoverable are the states that the tables let run again,
    other than by starting.  What the predicates call terminal has no way out except that of a
    compensation, which COMPLETED, CANCELLED and SKIPPED all have.  A transition is refused with an
    error exactly when its target is not listed, and never leads to the same state. *)
Theorem predicates_agree_with_table s s' t t' :
  (canWorkflowCompensate s = canTransitionWorkflow s WorkflowState.COMPENSATING
     && negb (bool_decide (s = WorkflowState.RUNNING))) ∧
  canStepCompensate t = canTransitionStep t StepState.COMPENSATING ∧
  (isWorkflowRecoverable s = canTransitionWorkflow s WorkflowState.RUNNING
     && negb (bool_decide (s = WorkflowState.PENDING))) ∧
  (isStepRecoverable t = canTransitionStep t StepState.RUNNING && negb (bool_decide (t = StepState.PENDING))) ∧
  (isWorkflowTerminal s = true ↔ Forall (λ x, x = WorkflowState.COMPENSATING) (getValidWorkflowTransitions s)) ∧
  (isStepTerminal t = true ↔ Forall (λ x, x = StepState.COMPENSATING) (getValidStepTransitions t)) ∧
  (error (transitionWorkflow s s') = None ↔ s' ∈ getValidWorkflowTransitions s) ∧
  (error (transitionStep t t') = None ↔ t' ∈ getValidStepTransitions t) ∧
  (success (transitionWorkflow s s') = true → s ≠ s') ∧ (success (transitionStep t t') = true → t ≠ t').
Proof.
  rewrite transitionWorkflow_success, transitionStep_success. split_and!.
  - by destruct s.
  - by destruct t.
  - by destruct s.
  - by destruct t.
  - unfold getValidWorkflowTransitions. destruct s; cbn [workflowTransitions]; rewrite ?Forall_cons; naive_solver.
  - unfold getValidStepTransitions. destruct t; cbn [stepTransitions]; rewrite ?Forall_cons; naive_solver.
  - unfold transitionWorkflow, canTransitionWorkflow, getValidWorkflowTransitions. case_bool_decide; simpl; naive_solver.
  - unfold transitionStep, canTransitionStep, getValidStepTransitions. case_bool_decide; simpl; naive_solver.
  - intros H ->. by destruct s'.
  - intros H ->. by destruct t'.
Qed.

(** the retry time of a non-negative attempt lies between the exponential delay and
    110% of it after the reading of the clock, and reads chance once and the clock once. *)
Theorem calculateNextRetryTime_bounds `{!Ticking W, !Clock, !Random, !RandomRange}
    (retryCount baseDelay : Z) (w : W) :
  (0 ≤ retryCount)%Z → (0 ≤ baseDelay)%Z →
  ∃ t, calculateNextRetryTime retryCount baseDelay w = (Return t, advance (advance w)) ∧
    (clock_at (tick (advance w)) + baseDelay * 2 ^ retryCount ≤ t)%Z ∧
    (10 * (t - clock_at (tick (advance w))) ≤ 11 * (baseDelay * 2 ^ retryCount))%Z.
Proof.
  intros Hn Hb. eexists. split; [reflexivity|].
  fold (exponential_delay retryCount baseDelay).
  assert (0 ≤ exponential_delay retryCount baseDelay)%Z as He.
  { unfold exponential_delay. apply Z.mul_nonneg_nonneg; [done|]. by apply Z.pow_nonneg. }
  pose proof (random_range (tick w)) as Hr.
  set (d := exponential_delay retryCount baseDelay) in *.
  set (r := random_at (tick w)) in *.
  assert (0 < random_scale)%Z as Hs by done.
  assert (0 ≤ (r * d) `div` (10 * random_scale))%Z by (apply Z.div_pos; nia).
  assert (10 * ((r * d) `div` (10 * random_scale)) ≤ d)%Z.
  { assert (random_scale * (10 * ((r * d) `div` (10 * random_scale))) ≤ random_scale * d)%Z; [|nia].
    pose proof (Z.mul_div_le (r * d) (10 * random_scale)). nia. }
  lia.
Qed.
