(* ===== verification/Idempotency.v ===== *)
(** [workflow/services/idempotency.service.ts]: deterministic keys for
    workflows and steps, and the optional result cache. *)
From S2P Require Import Prelude Json Repository WorkflowTypes.

Section Idempotency.
Context `{!Crypto}.

(** [stableStringify]: the keys of the top level serve as the property list. *)
Definition stableStringify (obj : jsval) : option string :=
  stringify (sort_strings (object_keys obj)) obj.

(** A string, or undefined. *)
Definition js_of_string (s : option string) : jsval :=
  match s with Some s => JString s | None => JUndefined end.

(** [createHash('sha256').update(JSON.stringify(keyData, Object.keys(keyData).sort())).digest('hex')] *)
Definition hash_key_data (keyData : jsobj) : string :=
  sha256_hex (default EmptyString (stableStringify (JObject keyData))).

Definition workflow_key_data (workflowType userId : string) (input : jsobj)
    (additionalContext : option jsobj) (now : Z) : jsobj :=
  [("workflowType", JString workflowType);
   ("userId", JString userId);
   ("input", js_of_string (stableStringify (JObject input)));
   ("additionalContext",
     match additionalContext with
     | Some c => js_of_string (stableStringify (JObject c))
     | None => JUndefined
     end);
   ("timestamp", JString (iso_day now))].

(** The clock is read once, for the day. *)
Definition generateWorkflowIdempotencyKey (workflowType userId : string) (input : jsobj)
    (additionalContext : option jsobj) (now : Z) : string :=
  let keyData := workflow_key_data workflowType userId input additionalContext now in
  let hash := hash_key_data keyData in
  "workflow:" +:+ workflowType +:+ ":" +:+ userId +:+ ":" +:+ hash.

Definition step_key_data (workflowIdempotencyKey stepName : string) (stepInput : jsval) : jsobj :=
  [("workflowIdempotencyKey", JString workflowIdempotencyKey);
   ("stepName", JString stepName);
   ("stepInput", js_of_string (stableStringify stepInput))].

Definition generateStepIdempotencyKey (workflowIdempotencyKey stepName : string)
    (stepInput : jsval) : string :=
  let hash := hash_key_data (step_key_data workflowIdempotencyKey stepName stepInput) in
  "step:" +:+ stepName +:+ ":" +:+ hash.

Definition generateUniqueIdempotencyKey `{!Ticking W} (operationType identifier : string) : eff W string :=
  u ← randomUUID;
  mret (operationType +:+ ":" +:+ identifier +:+ ":" +:+ u).

Definition validateIdempotencyKey (expectedKey workflowType userId : string) (input : jsobj)
    (additionalContext : option jsobj) (now : Z) : bool :=
  let generatedKey := generateWorkflowIdempotencyKey workflowType userId input additionalContext now in
  bool_decide (expectedKey = generatedKey).

(** ** Parsing a key back *)

Inductive key_type : Set := KWorkflow | KStep | KUnique.

Record parsed_key := mkParsedKey {
  pk_type : key_type; pk_prefix : string; pk_identifier : string; pk_hash : option string }.

Definition colon : Ascii.ascii := Ascii.ascii_of_nat 58.

(** [parts[i]] where the text of [undefined] is not at stake. *)
Definition part (parts : list string) (i : nat) : string := default EmptyString (parts !! i).

Definition parseIdempotencyKey (idempotencyKey : string) : parsed_key :=
  let parts := split_on colon idempotencyKey in
  if bool_decide (parts !! 0 = Some "workflow") && bool_decide (4 ≤ length parts) then
    mkParsedKey KWorkflow (part parts 0) (part parts 1 +:+ ":" +:+ part parts 2) (parts !! 3)
  else if bool_decide (parts !! 0 = Some "step") && bool_decide (3 ≤ length parts) then
    mkParsedKey KStep (part parts 0) (part parts 1) (parts !! 2)
  else if bool_decide (parts !! 0 = Some "unique") && bool_decide (3 ≤ length parts) then
    mkParsedKey KUnique (part parts 0) (part parts 1) (parts !! 2)
  else
    mkParsedKey KUnique (or_string (parts !! 0) "unknown") (or_string (parts !! 1) "unknown") (parts !! 2).

(** ** The result cache *)

Record idempotency_cache (W : Type) := mkCache {
  cache_get : string → eff W jsval;
  cache_set : string → jsval → eff W unit;
}.

Record checked := mkChecked { ck_result : jsval; ck_isDuplicate : bool }.

(** A cache that throws is logged and ignored, on both sides of the operation. *)
Definition checkIdempotency {W} (idempotencyKey : string) (operation : eff W jsval)
    (cache : option (idempotency_cache W)) : eff W checked :=
  cachedResult ← match cache with
                 | Some c => try_catch (cache_get _ c idempotencyKey) (λ _, mret JUndefined)
                 | None => mret JUndefined
                 end;
  if truthy cachedResult then mret (mkChecked cachedResult true)
  else
    result ← operation;
    (match cache with
     | Some c => try_catch (cache_set _ c idempotencyKey result) (λ _, mret tt)
     | None => mret tt
     end) ;;
    mret (mkChecked result false).
End Idempotency.

(** * Properties *)

Lemma stableStringify_perm (o o' : jsobj) :
  NoDup o.*1 → o ≡ₚ o' → stableStringify (JObject o) = stableStringify (JObject o').
Proof.
  intros Hnd Hp. unfold stableStringify; simpl. f_equal.
  rewrite (sort_strings_perm o.*1 o'.*1) by by rewrite Hp.
  apply print_object_ext. intros k _. rewrite !assoc_map. by rewrite (assoc_perm k o o').
Qed.

(** What a nested object contributes: only the properties whose names also occur
    at the top level. *)
Definition seen_by (allow : list string) (v v' : jsval) : Prop := stringify allow v = stringify allow v'.

Lemma stableStringify_same_view (o o' : jsobj) :
  o.*1 = o'.*1 →
  Forall2 (λ kv kv', seen_by (sort_strings o.*1) kv.2 kv'.2) o o' →
  stableStringify (JObject o) = stableStringify (JObject o').
Proof.
  intros Hk Hall. unfold stableStringify; simpl. rewrite <-Hk. f_equal.
  apply print_object_ext. intros k _. revert Hk. clear -Hall.
  generalize (sort_strings o.*1) as allow, Hall. clear Hall. intros allow Hall.
  induction Hall as [|[k1 v1] [k2 v2] o o' Hv Hall IH]; intros Hk; [done|].
  csimpl in *. injection Hk as -> Hk. case_bool_decide; [by f_equal|]. by apply IH.
Qed.

Section Keys.
Context `{!Crypto}.

(** C40: the key of a workflow does not depend on the order in which the properties of
    its input were written, nor on the moment of the UTC day it is computed at. *)
Theorem workflow_key_canonical workflowType userId (input input' : jsobj) ctx t t' :
  NoDup input.*1 → input ≡ₚ input' → (t `div` ms_per_day = t' `div` ms_per_day)%Z →
  generateWorkflowIdempotencyKey workflowType userId input ctx t =
  generateWorkflowIdempotencyKey workflowType userId input' ctx t'.
Proof.
  intros Hnd Hp Hday. unfold generateWorkflowIdempotencyKey, workflow_key_data.
  rewrite (stableStringify_perm input input' Hnd Hp).
  assert (iso_day t = iso_day t') as -> by (unfold iso_day; by rewrite Hday). done.
Qed.

(** the property list reaches into nested objects.  Two inputs with one field [f]
    holding an object whose own property names all differ from [f] get the same key:
    whatever the nested objects say is not part of the key. *)
Theorem workflow_key_ignores_nested workflowType userId f (nested nested' : jsobj) ctx t :
  f ∉ nested.*1 → f ∉ nested'.*1 →
  generateWorkflowIdempotencyKey workflowType userId [(f, JObject nested)] ctx t =
  generateWorkflowIdempotencyKey workflowType userId [(f, JObject nested')] ctx t.
Proof.
  intros Hn Hn'. unfold generateWorkflowIdempotencyKey, workflow_key_data.
  rewrite (stableStringify_same_view [(f, JObject nested)] [(f, JObject nested')]); [done|done|].
  constructor; [|constructor]. unfold seen_by. simpl. f_equal.
  apply print_object_ext. intros k Hk.
  assert (k = f) as -> by (change (sort_strings [f]) with [f] in Hk; set_solver).
  assert (∀ o : jsobj, f ∉ o.*1 → assoc f o = None) as Hnone.
  { intros o Ho. destruct (assoc f o) as [v|] eqn:E; [|done]. exfalso. apply Ho. clear -E.
    induction o as [|[k v'] o IH]; simpl in *; [done|]. case_bool_decide; set_solver. }
  by rewrite !assoc_map, !Hnone.
Qed.

Lemma colon_app s : ":" +:+ s = String colon s.
Proof. done. Qed.

(** parsing recovers what a key was generated from, provided no part of it
    contains a colon: the type and the user of a workflow key, the name of a step key,
    and the hash of both. *)
Theorem parse_generated_key workflowType userId input ctx t wkey stepName stepInput :
  free_of colon workflowType = true → free_of colon userId = true → free_of colon stepName = true →
  (∀ s, free_of colon (sha256_hex s) = true) →
  let hw := hash_key_data (workflow_key_data workflowType userId input ctx t) in
  let hs := hash_key_data (step_key_data wkey stepName stepInput) in
  parseIdempotencyKey (generateWorkflowIdempotencyKey workflowType userId input ctx t) =
    mkParsedKey KWorkflow "workflow" (workflowType +:+ ":" +:+ userId) (Some hw) ∧
  parseIdempotencyKey (generateStepIdempotencyKey wkey stepName stepInput) =
    mkParsedKey KStep "step" stepName (Some hs).
Proof.
  intros Ht Hu Hn Hh hw hs.
  assert (free_of colon hw = true ∧ free_of colon hs = true) as [Hhw Hhs] by (split; apply Hh).
  unfold parseIdempotencyKey, generateWorkflowIdempotencyKey, generateStepIdempotencyKey, split_on.
  fold hw hs. split.
  - change ("workflow:" +:+ ?s) with ("workflow" +:+ String colon s).
    rewrite !colon_app. rewrite split_go_cons, split_go_cons, split_go_cons by done.
    by rewrite split_go_free.
  - change ("step:" +:+ ?s) with ("step" +:+ String colon s).
    rewrite !colon_app. rewrite split_go_cons, split_go_cons by done.
    by rewrite split_go_free.
Qed.
End Keys.

(** with a cache that answers with what it was given, an operation whose result is
    truthy runs once: the second check returns the stored result as a duplicate and runs
    nothing.  A cache that throws, on reading and on writing, changes nothing: the operation
    runs and its result is returned. *)
Theorem checkIdempotency_once {W} (key : string) (op op' : eff W jsval)
    (c : idempotency_cache W) (w w1 w2 : W) (v : jsval) :
  cache_get _ c key w = (Return JUndefined, w) →
  op w = (Return v, w1) → truthy v = true →
  cache_set _ c key v w1 = (Return tt, w2) →
  cache_get _ c key w2 = (Return v, w2) →
  checkIdempotency key op (Some c) w = (Return (mkChecked v false), w2) ∧
  checkIdempotency key op' (Some c) w2 = (Return (mkChecked v true), w2).
Proof.
  intros Hget Hop Hv Hset Hget2. unfold checkIdempotency. split.
  - rewrite (bind_run _ _ w JUndefined w) by (unfold try_catch; by rewrite Hget). simpl.
    rewrite (bind_run _ _ w v w1) by done.
    rewrite (bind_run _ _ w1 tt w2) by (unfold try_catch; by rewrite Hset). done.
  - rewrite (bind_run _ _ w2 v w2) by (unfold try_catch; by rewrite Hget2). by rewrite Hv.
Qed.
