(* ===== verification/WorkflowExecution.v ===== *)
(** [workflow/services/workflow-execution.service.ts]: starting a workflow,
    running its steps with their retries, retrying and cancelling.

    The world holds the two tables, the number of clock readings so far, and a
    record of the calls made to the steps' [execute] functions.  The registry
    of definitions ([workflowDefinitions], filled at start-up) is a map passed
    to the operations.  A step's [execute] is an arbitrary effect on the world:
    whatever other requests do to the tables while the engine awaits it is
    part of that effect. *)
From S2P Require Import Prelude Json Repository WorkflowTypes StateMachine Idempotency.

(** One call of a step's [execute]. *)
Record call := mkCall { call_workflowId : string; call_stepName : string; call_retryCount : Z }.

Record World (DBW DBS : Type) := mkWorld {
  wfs : DBW;              (* workflowRepository *)
  sts : DBS;              (* stepRepository *)
  ticks : nat;            (* readings of the clock and of chance *)
  calls : list call;      (* calls of execute, oldest first *)
}.
Arguments mkWorld {_ _} _ _ _ _.
Arguments wfs {_ _} _.
Arguments sts {_ _} _.
Arguments ticks {_ _} _.
Arguments calls {_ _} _.

#[export] Instance World_ticking DBW DBS : Ticking (World DBW DBS) := {|
  tick := ticks;
  advance w := mkWorld (wfs w) (sts w) (S (ticks w)) (calls w);
|}.

Section Execution.
Context {DBW DBS : Type} `{!WorkflowTable DBW, !StepTable DBS, CLK : Clock, RND : Random, CRY : Crypto}.
Local Abbreviation World := (World DBW DBS).
Local Abbreviation registry := (gmap string (WorkflowDefinition World)).
Implicit Types (wf : Workflow) (step : WorkflowStep).

(** ** The repositories *)

Definition saveWorkflow wf : eff World unit := λ w,
  (Return tt, mkWorld (write (clock_at (ticks w)) wf (wfs w)) (sts w) (S (ticks w)) (calls w)).

Definition saveStep step : eff World unit := λ w,
  (Return tt, mkWorld (wfs w) (write (clock_at (ticks w)) step (sts w)) (S (ticks w)) (calls w)).

Definition findWorkflow (id : string) : eff World (option Workflow) :=
  gets (λ w, lookup_row id (wfs w)).

(** [find({ where: { workflowId } })], the [steps] relation. *)
Definition stepsOf (id : string) (w : World) : list WorkflowStep :=
  find_where (λ s, st_workflowId s = id) (sts w).

(** ** Definitions *)

Definition registerWorkflowDefinition (definition : WorkflowDefinition World) (reg : registry) : registry :=
  <[WorkflowType.to_string (wd_type definition) := definition]> reg.

Definition getWorkflowDefinition (type : string) (reg : registry) : option (WorkflowDefinition World) :=
  reg !! type.

(** [array[i]] *)
Definition array_get {A} (l : list A) (i : Z) : option A :=
  if bool_decide (0 ≤ i)%Z then l !! Z.to_nat i else None.

(** ** Running one step *)

(** The promise of [prepareStepInput], which is not awaited where it is used. *)
Definition prepareStepInput wf step (w : World) : jsobj :=
  if bool_decide (st_stepIndex step > 0)%Z then
    let previousSteps := sort_on st_stepIndex
      (find_where (λ s, st_workflowId s = wf_id wf ∧ (st_stepIndex s < st_stepIndex step)%Z) (sts w)) in
    foldl (λ stepInput prevStep,
      match st_output prevStep with
      | Some output => if truthy output then assoc_set (st_stepName prevStep) output stepInput else stepInput
      | None => stepInput
      end) (wf_input wf) previousSteps
  else wf_input wf.

Definition log_call (c : call) : eff World unit :=
  modify (λ w, mkWorld (wfs w) (sts w) (ticks w) (calls w ++ [c])).

(** Both branches call [execute]; reading a property of an undefined definition
    throws. *)
Definition executeWithIdempotency (stepName : string) (stepDefinition : option (StepDefinition World))
    (input : jsval) (context : WorkflowContext) (idempotencyKey : option string) : eff World jsval :=
  match stepDefinition with
  | None => throw (TypeError "Cannot read properties of undefined (reading 'isIdempotent')")
  | Some sd =>
      if negb (sd_isIdempotent sd) || bool_decide (idempotencyKey = None) then
        log_call (mkCall (ctx_workflowId context) stepName (ctx_retryCount context)) ;;
        sd_execute sd input context
      else
        log_call (mkCall (ctx_workflowId context) stepName (ctx_retryCount context)) ;;
        sd_execute sd input context
  end.

Definition step_context wf step : WorkflowContext :=
  mkContext (wf_id wf) (wf_idempotencyKey wf) (wf_userId wf) (wf_walletAddress wf) (wf_type wf)
    (st_retryCount step) (st_stepIndex step) (wf_context wf).

(** What follows the call: the end of the [try] block, or the [catch] block with the
    recursive call [retry]. *)
Definition settleStep (retry : WorkflowStep → eff World unit) step (result : outcome jsval) : eff World unit :=
  match result with
  | Return output =>
      completedAt ← date_now;
      saveStep (step |> set_st_state StepState.COMPLETED |> set_st_output (Some output)
                     |> set_st_completedAt (Some completedAt))
  | Throw e =>
      failedAt ← date_now;
      let step := step |> set_st_state StepState.FAILED |> set_st_failedAt (Some failedAt)
                       |> set_st_failureReason (Some (exn_message e))
                       |> set_st_retryCount (st_retryCount step + 1)%Z in
      if shouldRetry (inr StepState.FAILED) (st_retryCount step) (st_maxRetries step) then
        nextRetryAt ← calculateNextRetryTime (st_retryCount step) default_base_delay;
        let step := step |> set_st_nextRetryAt (Some nextRetryAt) in
        saveStep step ;;
        now ← date_now;
        delay (nextRetryAt - now)%Z ;;
        retry step
      else
        saveStep step ;;
        throw (Error ("Step " +:+ st_stepName step +:+ " failed after " +:+
                      pretty (st_retryCount step) +:+ " retries: " +:+ exn_message e))
  end.

(** The mark of a recursion that was given too little fuel. *)
Definition out_of_fuel : exn := Exn "OutOfFuel" "executeStep".

Fixpoint executeStep_fuel (fuel : nat) wf step (stepDefinition : option (StepDefinition World)) :
    eff World unit :=
  match fuel with
  | O => throw out_of_fuel
  | S fuel =>
    let transition := transitionStep (st_state step) StepState.RUNNING in
    if negb (success transition) then
      throw (Error ("Cannot execute step: " +:+ error_text transition))
    else
    startedAt ← date_now;
    let step := step |> set_st_state StepState.RUNNING |> set_st_startedAt (Some startedAt) in
    saveStep step ;;
    let context := step_context wf step in
    prepared ← gets (prepareStepInput wf step);
    let stepInput := JPromise (JObject prepared) in
    step ← (if st_isIdempotent step then
              let stepIdempotencyKey :=
                generateStepIdempotencyKey (wf_idempotencyKey wf) (st_stepName step) stepInput in
              let step := step |> set_st_idempotencyKey (Some stepIdempotencyKey) in
              saveStep step ;; mret step
            else mret step);
    let stepIdempotencyKey := if st_isIdempotent step then st_idempotencyKey step else None in
    result ← attempt (executeWithIdempotency (st_stepName step) stepDefinition stepInput context
                        stepIdempotencyKey);
    settleStep (λ step, executeStep_fuel fuel wf step stepDefinition) step result
  end.

(** Every call of [executeStep] raises the retry count, up to the maximum. *)
Definition executeStep wf step (stepDefinition : option (StepDefinition World)) : eff World unit :=
  executeStep_fuel (S (Z.to_nat (st_maxRetries step - st_retryCount step))) wf step stepDefinition.

(** ** Running a workflow *)

(** The loop over the steps.  The workflow object is shared with the caller,
    which goes on with it whether the loop ends or throws: the result is the object as
    the loop left it, and how the loop ended. *)
Fixpoint executeSteps_from wf (definition : WorkflowDefinition World) (steps : list WorkflowStep) :
    eff World (Workflow * outcome unit) :=
  match steps with
  | [] => mret (wf, Return tt)
  | step :: steps =>
      let wf := wf |> set_wf_currentStepIndex (st_stepIndex step) in
      saveWorkflow wf ;;
      r ← attempt (executeStep wf step (array_get (wd_steps definition) (st_stepIndex step)));
      match r with
      | Return _ => executeSteps_from wf definition steps
      | Throw e => mret (wf, Throw e)
      end
  end.

Definition executeSteps wf (definition : WorkflowDefinition World) : eff World (Workflow * outcome unit) :=
  steps ← gets (λ w, sort_on st_stepIndex (stepsOf (wf_id wf) w));
  executeSteps_from wf definition steps.

(** Returns the workflow object as the caller sees it afterwards. *)
Definition executeWorkflow (reg : registry) wf : eff World Workflow :=
  match getWorkflowDefinition (wf_type wf) reg with
  | None => throw (Error ("Workflow definition not found for type: " +:+ wf_type wf))
  | Some definition =>
      let transition := transitionWorkflow (wf_state wf) WorkflowState.RUNNING in
      if negb (success transition) then
        throw (Error ("Cannot start workflow: " +:+ error_text transition))
      else
      startedAt ← date_now;
      let wf := wf |> set_wf_state WorkflowState.RUNNING |> set_wf_startedAt (Some startedAt) in
      saveWorkflow wf ;;
      ended ← executeSteps wf definition;
      let '(wf, r) := ended in
      match r with
      | Return _ =>
          completedAt ← date_now;
          let wf := wf |> set_wf_state WorkflowState.COMPLETED |> set_wf_completedAt (Some completedAt) in
          saveWorkflow wf ;; mret wf
      | Throw e =>
          failedAt ← date_now;
          let wf := wf |> set_wf_state WorkflowState.FAILED |> set_wf_failedAt (Some failedAt)
                       |> set_wf_failureReason (Some (exn_message e)) in
          saveWorkflow wf ;; throw e
      end
  end.

(** [workflowRepository.create({...})], with the column defaults of the entity. *)
Definition new_workflow (id idempotencyKey type : string) (input : jsobj) (userId walletAddress : option string)
    (context : option jsobj) (totalSteps maxRetries : Z) (requiresCompensation : bool) (now : Z) : Workflow :=
  mkWorkflow id idempotencyKey type WorkflowState.PENDING userId walletAddress input None context
    0 totalSteps None None None None 0 maxRetries None requiresCompensation false now now.

(** [stepRepository.create({...})] for the [index]-th step of a definition. *)
Definition new_step (id workflowId : string) (index : Z) (sd : StepDefinition World) (now : Z) : WorkflowStep :=
  mkWorkflowStep id workflowId (sd_name sd) index StepState.PENDING None None (sd_config sd)
    0 (or_number (sd_maxRetries sd) 3) None None None None None
    (match sd_compensate sd with Some _ => true | None => false end) false None None None
    (sd_isIdempotent sd) None now now.

(** [stepRepository.save(steps)]: one row per step of the definition. *)
Fixpoint createSteps (workflowId : string) (index : Z) (defs : list (StepDefinition World)) :
    eff World unit :=
  match defs with
  | [] => mret tt
  | sd :: defs =>
      w ← gets id;
      saveStep (new_step (fresh_id (sts w)) workflowId index sd (clock_at (ticks w))) ;;
      createSteps workflowId (index + 1) defs
  end.

Definition startWorkflow (reg : registry) (type : string) (input : jsobj)
    (userId walletAddress : option string) (context : option jsobj) : eff World Workflow :=
  match getWorkflowDefinition type reg with
  | None => throw (Error ("Workflow definition not found for type: " +:+ type))
  | Some definition =>
      today ← date_now;
      let idempotencyKey :=
        generateWorkflowIdempotencyKey type (or_string userId "anonymous") input context today in
      existingWorkflow ← gets (λ w, findOne_where (λ r, wf_idempotencyKey r = idempotencyKey) (wfs w));
      match existingWorkflow with
      | Some existing => mret existing
      | None =>
          w ← gets id;
          let savedWorkflow :=
            new_workflow (fresh_id (wfs w)) idempotencyKey type input userId walletAddress context
              (Z.of_nat (length (wd_steps definition))) (or_number (wd_maxRetries definition) 3)
              (or_false (wd_requiresCompensation definition)) (clock_at (ticks w)) in
          saveWorkflow savedWorkflow ;;
          createSteps (wf_id savedWorkflow) 0 (wd_steps definition) ;;
          executeWorkflow reg savedWorkflow
      end
  end.

(** ** Retrying and cancelling *)

Definition retryWorkflow (reg : registry) (workflowId : string) : eff World unit :=
  workflow ← findWorkflow workflowId;
  match workflow with
  | None => throw (Error ("Workflow not found: " +:+ workflowId))
  | Some wf =>
      steps ← gets (stepsOf workflowId);
      if negb (isWorkflowRecoverable (wf_state wf)) then
        throw (Error ("Workflow " +:+ workflowId +:+ " is not in a recoverable state"))
      else
      startedAt ← date_now;
      let wf := wf |> set_wf_state WorkflowState.RUNNING |> set_wf_retryCount (wf_retryCount wf + 1)%Z
                   |> set_wf_startedAt (Some startedAt) |> set_wf_failedAt None
                   |> set_wf_failureReason None in
      saveWorkflow wf ;;
      (match array_find (λ s, st_state s = StepState.FAILED) steps with
       | Some failedStep =>
           saveStep (failedStep |> set_st_state StepState.PENDING |> set_st_failedAt None
                                |> set_st_failureReason None)
       | None => mret tt
       end) ;;
      executeWorkflow reg wf ;;
      mret tt
  end.

Definition cancelWorkflow (workflowId : string) : eff World unit :=
  workflow ← findWorkflow workflowId;
  match workflow with
  | None => throw (Error ("Workflow not found: " +:+ workflowId))
  | Some wf =>
      let transition := transitionWorkflow (wf_state wf) WorkflowState.CANCELLED in
      if negb (success transition) then
        throw (Error ("Cannot cancel workflow: " +:+ error_text transition))
      else
      completedAt ← date_now;
      saveWorkflow (wf |> set_wf_state WorkflowState.CANCELLED |> set_wf_completedAt (Some completedAt))
  end.

(** The execution service's own [compensateWorkflow] only points elsewhere. *)
Definition execution_compensateWorkflow (workflowId : string) : eff World unit :=
  throw (Error "Use CompensationService.compensateWorkflow() instead").
End Execution.
