(* ===== verification/ExecutionFacts.v ===== *)
(** What the execution service does: the retry loop of a step, the run of a
    workflow, idempotent starts, retries and cancellation. *)
From S2P Require Import Prelude Json Repository WorkflowTypes StateMachine Idempotency WorkflowExecution.

Section Tables.
Context {DBW DBS : Type} `{!WorkflowTable DBW, !StepTable DBS, CLK : Clock, RND : Random, CRY : Crypto}.
Local Abbreviation World := (World DBW DBS).
Implicit Types (wf : Workflow) (step : WorkflowStep) (w : World).

(** ** Reading a table after a save *)

Lemma lookup_workflow_save_eq t wf (db : DBW) :
  ∃ c u, lookup_row (wf_id wf) (write t wf db) =
    Some (merge_workflow c u (lookup_row (wf_id wf) db) wf).
Proof.
  rewrite <-workflow_id, lookup_write_eq.
  destruct (workflow_written t (lookup_row (row_id wf) db) wf) as (c & u & ->). eauto.
Qed.

Lemma lookup_workflow_save_ne t wf (db : DBW) id :
  id ≠ wf_id wf → lookup_row id (write t wf db) = lookup_row id db.
Proof. rewrite <-workflow_id. apply lookup_write_ne. Qed.

Lemma lookup_step_save_eq t step (db : DBS) :
  ∃ c u, lookup_row (st_id step) (write t step db) =
    Some (merge_step c u (lookup_row (st_id step) db) step).
Proof.
  rewrite <-step_id, lookup_write_eq.
  destruct (step_written t (lookup_row (row_id step) db) step) as (c & u & ->). eauto.
Qed.

Lemma lookup_step_save_ne t step (db : DBS) id :
  id ≠ st_id step → lookup_row id (write t step db) = lookup_row id db.
Proof. rewrite <-step_id. apply lookup_write_ne. Qed.

(** ** Frames *)

(** Nothing but the clock has moved. *)
Definition same_tables w w' : Prop := wfs w' = wfs w ∧ sts w' = sts w ∧ calls w' = calls w.

(** Only the row of one step has changed, and calls may have been made. *)
Definition only_step (id : string) w w' : Prop :=
  wfs w' = wfs w ∧ ∀ id', id' ≠ id → lookup_row id' (sts w') = lookup_row id' (sts w).

#[export] Instance only_step_preorder id : PreOrder (only_step id).
Proof.
  split; [by split|]. intros w1 w2 w3 [H1 H2] [H3 H4]. split; [congruence|].
  intros id' Hne. by rewrite H4, H2.
Qed.

Lemma only_step_save step w : only_step (st_id step) w (saveStep step w).2.
Proof. split; [done|]. intros id Hne. by apply lookup_step_save_ne. Qed.

Lemma only_step_same id w w' : same_tables w w' → only_step id w w'.
Proof. intros (?&Hs&?). split; [done|]. by rewrite Hs. Qed.

(** The columns that say which step of which workflow a row is. *)
Definition same_step step step' : Prop :=
  st_id step' = st_id step ∧ st_workflowId step' = st_workflowId step ∧
  st_stepName step' = st_stepName step ∧ st_stepIndex step' = st_stepIndex step ∧
  st_maxRetries step' = st_maxRetries step ∧ st_isIdempotent step' = st_isIdempotent step.

(** ** One attempt *)

(** Up to the call of [execute], an attempt writes only its own row, and what it
    passes to [execute] is a promise. *)
Lemma executeStep_fuel_S wf step sdo w :
  canTransitionStep (st_state step) StepState.RUNNING = true →
  ∃ step1 w1 prepared ctx key,
    (∀ fuel, executeStep_fuel (S fuel) wf step sdo w =
      (let '(o, w2) := executeWithIdempotency (st_stepName step) sdo (JPromise (JObject prepared)) ctx key w1 in
       settleStep (λ step, executeStep_fuel fuel wf step sdo) step1 o w2)) ∧
    same_step step step1 ∧ st_retryCount step1 = st_retryCount step ∧
    only_step (st_id step) w w1 ∧ calls w1 = calls w ∧
    ctx_retryCount ctx = st_retryCount step ∧ ctx_workflowId ctx = wf_id wf.
Proof.
  intros Htr.
  set (s0 := step |> set_st_state StepState.RUNNING |> set_st_startedAt (Some (clock_at (ticks w)))).
  set (w0 := (saveStep s0 (advance w)).2).
  assert (only_step (st_id step) w w0) as Hw0.
  { etrans; [|apply (only_step_save s0)]. by apply only_step_same. }
  set (s1 := s0 |> set_st_idempotencyKey (Some (generateStepIdempotencyKey (wf_idempotencyKey wf)
    (st_stepName s0) (JPromise (JObject (prepareStepInput wf s0 w0)))))).
  set (w1 := (saveStep s1 w0).2).
  destruct (st_isIdempotent s0) eqn:Hi.
  - exists s1, w1, (prepareStepInput wf s0 w0), (step_context wf s0), (st_idempotencyKey s1).
    split_and!; try done; [|by etrans; [exact Hw0|apply (only_step_save s1)]].
    intros fuel. cbn [executeStep_fuel]. rewrite transitionStep_success, Htr. cbn [negb].
    rewrite (bind_run _ _ w (clock_at (ticks w)) (advance w)) by done. cbv beta zeta. fold s0.
    rewrite (bind_run _ _ _ tt w0) by done.
    rewrite (bind_run _ _ _ (prepareStepInput wf s0 w0) w0) by done. rewrite Hi.
    rewrite (bind_run _ _ _ s1 w1) by done. rewrite bind_attempt.
    change (st_isIdempotent s1) with (st_isIdempotent s0). by rewrite Hi.
  - exists s0, w0, (prepareStepInput wf s0 w0), (step_context wf s0), None.
    split_and!; try done.
    intros fuel. cbn [executeStep_fuel]. rewrite transitionStep_success, Htr. cbn [negb].
    rewrite (bind_run _ _ w (clock_at (ticks w)) (advance w)) by done. cbv beta zeta. fold s0.
    rewrite (bind_run _ _ _ tt w0) by done.
    rewrite (bind_run _ _ _ (prepareStepInput wf s0 w0) w0) by done. rewrite Hi.
    rewrite (bind_run _ _ _ s0 w0) by done. rewrite bind_attempt. by rewrite Hi.
Qed.

Lemma executeWithIdempotency_run name sd input ctx key w :
  executeWithIdempotency name (Some sd) input ctx key w =
    sd_execute sd input ctx
      (log_call (mkCall (ctx_workflowId ctx) name (ctx_retryCount ctx)) w).2.
Proof. unfold executeWithIdempotency. by case_match. Qed.

(** ** The retry loop *)

(** An [execute] that, when it gets a promise as the engine passes one and fewer than [m]
    attempts precede it, fails with [e] while they are fewer than [k], answers within [V]
    afterwards, and leaves the tables to the engine. *)
Definition flaky (sd : StepDefinition World) (m k : Z) (e : exn) (V : jsval → Prop) : Prop :=
  ∀ prepared ctx w, (0 ≤ ctx_retryCount ctx < m)%Z →
  ∃ o w', sd_execute sd (JPromise (JObject prepared)) ctx w = (o, w') ∧ same_tables w w' ∧
    if bool_decide (ctx_retryCount ctx < k)%Z then o = Throw e else ∃ v, o = Return v ∧ V v.

Definition retries_error step (n : Z) (e : exn) : exn :=
  Error ("Step " +:+ st_stepName step +:+ " failed after " +:+ pretty n +:+ " retries: " +:+ exn_message e).

(** Where a step that starts its attempts at [c] ends up, and the calls made. *)
Definition settled wf step (c k : Z) (e : exn) (V : jsval → Prop) w (o : outcome unit) w' : Prop :=
  only_step (st_id step) w w' ∧
  let logged n := calls w' = calls w ++ (mkCall (wf_id wf) (st_stepName step) <$> seqZ c n) in
  ∃ r, lookup_row (st_id step) (sts w') = Some r ∧ same_step step r ∧
    if bool_decide (k < st_maxRetries step)%Z then
      o = Return tt ∧ st_state r = StepState.COMPLETED ∧ (∃ v, st_output r = Some v ∧ V v) ∧ st_retryCount r = k ∧
      logged (k - c + 1)%Z
    else
      o = Throw (retries_error step (st_maxRetries step) e) ∧ st_state r = StepState.FAILED ∧
      st_retryCount r = st_maxRetries step ∧ logged (st_maxRetries step - c)%Z.

Lemma saved_step step s w :
  st_id s = st_id step → ∃ r c u, lookup_row (st_id step) (sts (saveStep s w).2) = Some r ∧
    r = merge_step c u (lookup_row (st_id step) (sts w)) s.
Proof.
  intros <-. destruct (lookup_step_save_eq (clock_at (ticks w)) s (sts w)) as (c & u & Hl). eauto.
Qed.

Lemma only_step_save_from id s w w0 :
  st_id s = id → wfs w = wfs w0 → sts w = sts w0 → only_step id w0 (saveStep s w).2.
Proof. intros <- Hw Hs. destruct (only_step_save s w) as [? Ho]. split; [done|]. by rewrite <-Hs. Qed.

(** The attempt that succeeds. *)
Lemma settle_return retry step v w :
  ∃ w', settleStep retry step (Return v) w = (Return tt, w') ∧ only_step (st_id step) w w' ∧
    calls w' = calls w ∧ ∃ r, lookup_row (st_id step) (sts w') = Some r ∧ same_step step r ∧
      st_state r = StepState.COMPLETED ∧ st_output r = Some v ∧ st_retryCount r = st_retryCount step.
Proof.
  set (s := step |> set_st_state StepState.COMPLETED |> set_st_output (Some v)
                 |> set_st_completedAt (Some (clock_at (ticks w)))).
  exists (saveStep s (advance w)).2. split; [done|]. split; [by apply only_step_save_from|].
  split; [done|]. destruct (saved_step step s (advance w)) as (r & c & u & Hr & ->); [done|].
  eexists. split; [exact Hr|]. by repeat split.
Qed.

(** The attempt that fails and is the last. *)
Lemma settle_throw_last retry step e w :
  (st_maxRetries step ≤ st_retryCount step + 1)%Z →
  ∃ w', settleStep retry step (Throw e) w =
      (Throw (retries_error step (st_retryCount step + 1) e), w') ∧
    only_step (st_id step) w w' ∧ calls w' = calls w ∧
    ∃ r, lookup_row (st_id step) (sts w') = Some r ∧ same_step step r ∧
      st_state r = StepState.FAILED ∧ st_retryCount r = (st_retryCount step + 1)%Z.
Proof.
  intros Hm. set (s := step |> set_st_state StepState.FAILED |> set_st_failedAt (Some (clock_at (ticks w)))
    |> set_st_failureReason (Some (exn_message e)) |> set_st_retryCount (st_retryCount step + 1)%Z).
  exists (saveStep s (advance w)).2. split_and!; [|by apply only_step_save_from|done|].
  - unfold settleStep. rewrite (bind_run _ _ w (clock_at (ticks w)) (advance w)) by done. cbv beta zeta.
    fold s. rewrite shouldRetry_step, bool_decide_eq_false_2 by (cbn; lia). done.
  - destruct (saved_step step s (advance w)) as (r & c & u & Hr & ->); [done|].
    eexists. split; [exact Hr|]. by repeat split.
Qed.

(** The attempt that fails and is followed by another, on a step marked FAILED. *)
Lemma settle_throw_retry retry step e w :
  (st_retryCount step + 1 < st_maxRetries step)%Z →
  ∃ step' w', settleStep retry step (Throw e) w = retry step' w' ∧
    only_step (st_id step) w w' ∧ calls w' = calls w ∧ same_step step step' ∧
    st_state step' = StepState.FAILED ∧ st_retryCount step' = (st_retryCount step + 1)%Z.
Proof.
  intros Hm. set (s := step |> set_st_state StepState.FAILED |> set_st_failedAt (Some (clock_at (ticks w)))
    |> set_st_failureReason (Some (exn_message e)) |> set_st_retryCount (st_retryCount step + 1)%Z).
  set (wr := advance (advance (advance w))).
  assert (∃ t, calculateNextRetryTime (st_retryCount s) default_base_delay (advance w) = (Return t, wr))
    as [t Ht] by by eexists.
  set (s' := s |> set_st_nextRetryAt (Some t)).
  exists s', (advance (advance (saveStep s' wr).2)). split_and!.
  - unfold settleStep. rewrite (bind_run _ _ w (clock_at (ticks w)) (advance w)) by done. cbv beta zeta.
    fold s. rewrite shouldRetry_step, bool_decide_eq_true_2 by (cbn; lia).
    by rewrite (bind_run _ _ (advance w) t wr).
  - etrans; [|by apply only_step_same]. by apply (only_step_save_from _ s' wr).
  - done.
  - done.
  - done.
  - done.
Qed.

Lemma executeStep_fuel_flaky fuel wf sd m k e V : flaky sd m k e V → ∀ step w,
  canTransitionStep (st_state step) StepState.RUNNING = true → st_maxRetries step = m →
  (0 ≤ st_retryCount step ≤ k)%Z → (st_retryCount step < st_maxRetries step)%Z →
  Z.to_nat (st_maxRetries step - st_retryCount step) < fuel →
  ∃ o w', executeStep_fuel fuel wf step (Some sd) w = (o, w') ∧
    settled wf step (st_retryCount step) k e V w o w'.
Proof.
  intros Hsd. induction fuel as [|fuel IH]; intros step w Htr Hm' Hk Hm Hf; [lia|].
  destruct (executeStep_fuel_S wf step (Some sd) w Htr)
    as (step1 & w1 & prepared & ctx & key & Hrun &  Hsame & Hrc & Hw1 & Hc1 & Hctx & Hctxid).
  rewrite Hrun, executeWithIdempotency_run. clear Hrun.
  set (wl := (log_call _ w1).2).
  destruct (Hsd prepared ctx wl) as (oe & w2 & -> & Hw2 & Hoe); [lia|]. rewrite Hctx in Hoe.
  assert (only_step (st_id step) w w2) as Hw.
  { etrans; [exact Hw1|]. etrans; [|by apply only_step_same]. done. }
  assert (calls w2 = calls w ++ [mkCall (wf_id wf) (st_stepName step) (st_retryCount step)]) as Hc2.
  { destruct Hw2 as (_ & _ & ->). by rewrite <-Hc1, <-Hctx, <-Hctxid. }
  destruct Hsame as (Hid & Hwid & Hname & Hidx & Hmax & Hidem).
  case_bool_decide as Hlt; cycle 1.
  - destruct Hoe as (v & -> & HV). assert (st_retryCount step = k) as Hrk by lia.
    destruct (settle_return (λ s, executeStep_fuel fuel wf s (Some sd)) step1 v w2)
      as (w' & -> & Hw' & Hc' & r & Hr & Hsr & Hst & Hout & Hrc').
    exists (Return tt), w'. split; [done|]. rewrite Hid in Hw', Hr. split; [by etrans|].
    exists r. split; [done|]. split; [unfold same_step in *; naive_solver congruence|].
    rewrite bool_decide_eq_true_2 by lia. split_and!; try done; [by eauto|congruence|].
    rewrite Hc', Hc2, Hrk. replace (k - k + 1)%Z with 1%Z by lia. done.
  - subst oe. destruct (decide (st_retryCount step + 1 < st_maxRetries step)%Z) as [Hmore|Hlast].
    + destruct (settle_throw_retry (λ s, executeStep_fuel fuel wf s (Some sd)) step1 e w2)
        as (step2 & w3 & -> & Hw3 & Hc3 & Hs2 & Hst2 & Hrc2); [rewrite Hmax, Hrc; lia|].
      destruct Hs2 as (Hid2 & Hwid2 & Hname2 & Hidx2 & Hmax2 & Hidem2).
      destruct (IH step2 w3) as (o & w' & -> & Hs & r & Hr & Hsr & Hend).
      { by rewrite Hst2. } { lia. } { lia. } { lia. } { lia. }
      exists o, w'. split; [done|].
      rewrite Hid2, Hid in *. split; [by do 2 (etrans; [done|])|].
      exists r. split; [done|]. split; [unfold same_step in *; naive_solver congruence|].
      revert Hend. unfold retries_error.
      rewrite Hmax2, Hmax, Hname2, Hname, Hrc2, Hrc, Hc3, Hc2.
      set (mk := mkCall _ _). set (c := st_retryCount step) in *. case_bool_decide; intros Hend.
      * rewrite (seqZ_cons c) by lia. replace (Z.succ c) with (c + 1)%Z by lia.
        replace (Z.pred (k - c + 1))%Z with (k - (c + 1) + 1)%Z by lia.
        rewrite <-app_assoc in Hend. done.
      * rewrite (seqZ_cons c) by lia. replace (Z.succ c) with (c + 1)%Z by lia.
        replace (Z.pred (st_maxRetries step - c))%Z with (st_maxRetries step - (c + 1))%Z by lia.
        rewrite <-app_assoc in Hend. done.
    + destruct (settle_throw_last (λ s, executeStep_fuel fuel wf s (Some sd)) step1 e w2)
        as (w' & -> & Hw' & Hc' & r & Hr & Hsr & Hst & Hrc'); [lia|].
      assert (st_maxRetries step = st_retryCount step + 1)%Z as Hm1 by lia.
      eexists _, w'. split; [done|]. rewrite Hid in Hw', Hr. split; [by etrans|].
      exists r. split; [done|]. split; [unfold same_step in *; naive_solver congruence|].
      rewrite bool_decide_eq_false_2 by lia.
      split_and!; [unfold retries_error; by rewrite Hname, Hrc, Hm1|done|congruence|].
      rewrite Hc', Hc2, Hm1. replace (st_retryCount step + 1 - st_retryCount step)%Z with 1%Z by lia. done.
Qed.

(** ** Termination *)

Lemma settleStep_ext (r1 r2 : WorkflowStep → eff World unit) step o w :
  (∀ s w, st_retryCount s = (st_retryCount step + 1)%Z → st_maxRetries s = st_maxRetries step →
    (st_retryCount step + 1 < st_maxRetries step)%Z → r1 s w = r2 s w) →
  settleStep r1 step o w = settleStep r2 step o w.
Proof.
  intros Hr. destruct o as [v|e]; [done|]. unfold settleStep, mbind, eff_bind, date_now.
  cbv beta iota zeta. rewrite shouldRetry_step.
  case_bool_decide as Hm; [|done]. cbn in Hm. destruct (calculateNextRetryTime _ _ _) as [[t|] w1]; [|done].
  cbn. by apply Hr.
Qed.

Lemma executeStep_fuel_irrelevant n m wf sdo : ∀ step w,
  Z.to_nat (st_maxRetries step - st_retryCount step) < n →
  Z.to_nat (st_maxRetries step - st_retryCount step) < m →
  executeStep_fuel n wf step sdo w = executeStep_fuel m wf step sdo w.
Proof.
  revert m. induction n as [|n IH]; intros [|m] step w Hn Hm; [lia..|].
  destruct (canTransitionStep (st_state step) StepState.RUNNING) eqn:Htr; cycle 1.
  { cbn [executeStep_fuel]. by rewrite transitionStep_success, Htr. }
  destruct (executeStep_fuel_S wf step sdo w Htr)
    as (step1 & w1 & prepared & ctx & key & Hrun & (_&_&_&_&Hmax&_) & Hrc & _).
  rewrite !Hrun. destruct (executeWithIdempotency _ _ _ _ _ _) as [o w2].
  apply settleStep_ext. intros s w3 Hs1 Hs2 Hlt. apply IH; lia.
Qed.

Lemma settleStep_not_fuel retry step o w :
  (∀ s w, st_retryCount s = (st_retryCount step + 1)%Z → st_maxRetries s = st_maxRetries step →
    (st_retryCount step + 1 < st_maxRetries step)%Z → (retry s w).1 ≠ Throw out_of_fuel) →
  (settleStep retry step o w).1 ≠ Throw out_of_fuel.
Proof.
  intros Hr. destruct o as [v|e]; [done|]. unfold settleStep, mbind, eff_bind, date_now.
  cbv beta iota zeta. rewrite shouldRetry_step.
  case_bool_decide as Hm; [|done]. cbn in Hm. cbn. by apply Hr.
Qed.

Lemma executeStep_fuel_not_out n wf sdo : ∀ step w,
  Z.to_nat (st_maxRetries step - st_retryCount step) < n →
  (executeStep_fuel n wf step sdo w).1 ≠ Throw out_of_fuel.
Proof.
  induction n as [|n IH]; intros step w Hn; [lia|].
  destruct (canTransitionStep (st_state step) StepState.RUNNING) eqn:Htr; cycle 1.
  { cbn [executeStep_fuel]. by rewrite transitionStep_success, Htr. }
  destruct (executeStep_fuel_S wf step sdo w Htr)
    as (step1 & w1 & prepared & ctx & key & Hrun & (_&_&_&_&Hmax&_) & Hrc & _).
  rewrite !Hrun. destruct (executeWithIdempotency _ _ _ _ _ _) as [o w2].
  apply settleStep_not_fuel. intros s w3 Hs1 Hs2 Hlt. apply IH; lia.
Qed.

(** The attempts that are left; a step without any is attempted once. *)
Definition attempts_left step : nat := Z.to_nat (st_maxRetries step - st_retryCount step).

(** Step code that leaves the record of the calls to the engine. *)
Definition leaves_calls (sdo : option (StepDefinition World)) : Prop :=
  ∀ sd, sdo = Some sd → ∀ input ctx w, calls (sd_execute sd input ctx w).2 = calls w.
(** [n] calls of [execute], numbered from the retry count; there are none without a definition. *)
Definition calls_made (sdo : option (StepDefinition World)) (id name : string) (c : Z) (n : nat) : list call :=
  match sdo with Some _ => mkCall id name <$> seqZ c (Z.of_nat n) | None => [] end.
Lemma calls_made_S sdo id name c n : calls_made sdo id name c 1 ++ calls_made sdo id name (c + 1) n = calls_made sdo id name c (S n).
Proof.
  destruct sdo; [|done]. cbn [calls_made]. rewrite (seqZ_cons c (Z.of_nat (S n))) by lia.
  by replace (Z.pred (Z.of_nat (S n))) with (Z.of_nat n) by lia.
Qed.

Lemma attempt_calls sdo name input ctx key w : leaves_calls sdo →
  calls (executeWithIdempotency name sdo input ctx key w).2 =
    calls w ++ calls_made sdo (ctx_workflowId ctx) name (ctx_retryCount ctx) 1.
Proof.
  intros Hsd. destruct sdo as [sd|]; [|by rewrite app_nil_r]. by rewrite executeWithIdempotency_run, (Hsd sd eq_refl).
Qed.

Lemma executeStep_fuel_calls fuel wf sdo : leaves_calls sdo → ∀ step w, ∃ n, n ≤ 1 `max` attempts_left step ∧
  calls (executeStep_fuel fuel wf step sdo w).2 = calls w ++ calls_made sdo (wf_id wf) (st_stepName step) (st_retryCount step) n.
Proof.
  intros Hsd. assert (∀ id name c, calls_made sdo id name c 0 = []) as H0 by (by intros; destruct sdo).
  induction fuel as [|fuel IH]; intros step w; [exists 0; rewrite H0, app_nil_r; split; [lia|done]|].
  destruct (canTransitionStep (st_state step) StepState.RUNNING) eqn:Htr; cycle 1.
  { exists 0. cbn [executeStep_fuel]. rewrite transitionStep_success, Htr, H0, app_nil_r. split; [lia|done]. }
  destruct (executeStep_fuel_S wf step sdo w Htr)
    as (step1 & w1 & prepared & ctx & key & -> & (_&_&Hname&_&Hmax&_) & Hrc & _ & Hc1 & Hctx & Hid).
  pose proof (attempt_calls sdo (st_stepName step) (JPromise (JObject prepared)) ctx key w1 Hsd) as Hc2. rewrite Hctx, Hid, Hc1 in Hc2.
  destruct (executeWithIdempotency _ _ _ _ _ _) as [o w2]. cbn [snd] in Hc2. destruct o as [v|e].
  { destruct (settle_return (λ s, executeStep_fuel fuel wf s sdo) step1 v w2) as (w' & -> & _ & Hc' & _).
    exists 1. cbn [snd]. rewrite Hc', Hc2. split; [lia|done]. }
  destruct (decide (st_retryCount step1 + 1 < st_maxRetries step1)%Z) as [Hmore|Hlast]; cycle 1.
  { destruct (settle_throw_last (λ s, executeStep_fuel fuel wf s sdo) step1 e w2) as (w' & -> & _ & Hc' & _); [lia|].
    exists 1. cbn [snd]. rewrite Hc', Hc2. split; [lia|done]. }
  destruct (settle_throw_retry (λ s, executeStep_fuel fuel wf s sdo) step1 e w2)
    as (step2 & w3 & -> & _ & Hc3 & (_&_&Hname2&_&Hmax2&_) & _ & Hrc2); [done|].
  destruct (IH step2 w3) as (n & Hn & ->). exists (S n). unfold attempts_left in *. split; [lia|].
  by rewrite Hname2, Hname, Hrc2, Hrc, Hc3, Hc2, <-app_assoc, calls_made_S.
Qed.

(** C30: [executeStep] terminates after a bounded number of attempts.  The retry recursion never runs out
    of fuel, whatever the [execute] of the step does, and any more fuel gives the same run.  It calls
    [execute] at most [maxRetries - retryCount] times, once when no attempt is left, with retry counts
    that go up one by one, and never without a definition; the [execute] does not write the record of
    these calls itself. *)
Theorem executeStep_terminates wf step sdo w :
  (leaves_calls sdo → ∃ n, n ≤ 1 `max` attempts_left step ∧
    calls (executeStep wf step sdo w).2 = calls w ++ calls_made sdo (wf_id wf) (st_stepName step) (st_retryCount step) n) ∧
  (executeStep wf step sdo w).1 ≠ Throw out_of_fuel ∧
  ∀ fuel, attempts_left step < fuel → executeStep_fuel fuel wf step sdo w = executeStep wf step sdo w.
Proof.
  split; [intros Hsd; by apply executeStep_fuel_calls|]. unfold attempts_left.
  split; [apply executeStep_fuel_not_out; lia|]. intros fuel Hf. apply executeStep_fuel_irrelevant; lia.
Qed.

(** C3: the retry policy of a step.  If [execute] fails its first [k] attempts, then
    [executeStep] calls it with the retry counts from the step's own up to [k] and returns
    with the row COMPLETED when [k] is below [maxRetries]; otherwise it stops after the
    attempt [maxRetries - 1], leaves the row FAILED with the retry count at the maximum, and
    throws the error that names both.  No other step row and no workflow row is touched. *)
Theorem executeStep_retries wf step sd k e V w :
  flaky sd (st_maxRetries step) k e V →
  canTransitionStep (st_state step) StepState.RUNNING = true →
  (0 ≤ st_retryCount step ≤ k)%Z → (st_retryCount step < st_maxRetries step)%Z →
  ∃ o w', executeStep wf step (Some sd) w = (o, w') ∧
    settled wf step (st_retryCount step) k e V w o w'.
Proof. intros. eapply executeStep_fuel_flaky; try done. lia. Qed.

(** ** The loop over the steps *)

Definition same_workflow wf wf' : Prop :=
  wf_id wf' = wf_id wf ∧ wf_idempotencyKey wf' = wf_idempotencyKey wf ∧ wf_type wf' = wf_type wf ∧
  wf_state wf' = wf_state wf ∧ wf_input wf' = wf_input wf ∧ wf_startedAt wf' = wf_startedAt wf.

(** Only the row of one workflow has changed in its table. *)
Definition only_workflow (id : string) w w' : Prop :=
  ∀ id', id' ≠ id → lookup_row id' (wfs w') = lookup_row id' (wfs w).

#[export] Instance only_workflow_preorder id : PreOrder (only_workflow id).
Proof.
  split; [by intros w id'|]. intros w1 w2 w3 Ho1 Ho2 id' Hne. by rewrite Ho2, Ho1.
Qed.

Lemma only_workflow_save wf w w0 :
  wfs w = wfs w0 → only_workflow (wf_id wf) w0 (saveWorkflow wf w).2.
Proof. intros Hw id Hne. rewrite <-Hw. by apply lookup_workflow_save_ne. Qed.

(** The loop always comes back, with the same workflow up to its step index. *)
Lemma executeSteps_from_returns d steps : ∀ wf w, ∃ wf' o w',
  executeSteps_from wf d steps w = (Return (wf', o), w') ∧ same_workflow wf wf'.
Proof.
  induction steps as [|step steps IH]; intros wf w; [by eexists wf, _, _|]. cbn [executeSteps_from].
  set (wf1 := set_wf_currentStepIndex _ wf).
  rewrite (bind_run _ _ w tt (saveWorkflow wf1 w).2) by done.
  rewrite bind_attempt. destruct (executeStep _ _ _ _) as [[?|e] w2].
  - destruct (IH wf1 w2) as (wf' & o & w' & -> & Hs). by exists wf', o, w'.
  - by eexists wf1, _, _.
Qed.

(** How a run that was started ended, and the row it left. *)
Definition ended_as wf (o : outcome Workflow) (r : Workflow) : Prop :=
  match o with
  | Return wf' => wf_state r = WorkflowState.COMPLETED ∧ wf_state wf' = WorkflowState.COMPLETED ∧
                  wf_id wf' = wf_id wf
  | Throw e => wf_state r = WorkflowState.FAILED ∧ wf_failureReason r = Some (exn_message e)
  end.

(** how a run that starts ends, whatever the steps do.  The workflow row is COMPLETED
    when [executeWorkflow] returns, and FAILED with the message of the exception when it
    throws: any other state the row was given meanwhile, by a cancellation for instance, is
    overwritten. *)
Theorem executeWorkflow_final_state reg wf d w :
  getWorkflowDefinition (wf_type wf) reg = Some d →
  canTransitionWorkflow (wf_state wf) WorkflowState.RUNNING = true →
  ∃ o w' r, executeWorkflow reg wf w = (o, w') ∧ lookup_row (wf_id wf) (wfs w') = Some r ∧
    ended_as wf o r.
Proof.
  intros Hd Htr. unfold executeWorkflow. rewrite Hd, transitionWorkflow_success, Htr. cbn [negb].
  rewrite (bind_run _ _ w (clock_at (ticks w)) (advance w)) by done. cbv beta zeta.
  set (wf1 := set_wf_startedAt _ _).
  rewrite (bind_run _ _ _ tt (saveWorkflow wf1 (advance w)).2) by done.
  set (w1 := (saveWorkflow wf1 (advance w)).2).
  destruct (executeSteps_from_returns d (sort_on st_stepIndex (stepsOf (wf_id wf1) w1)) wf1 w1)
    as (wf2 & o & w2 & Hrun & Hsame).
  rewrite (bind_run _ _ w1 (wf2, o) w2) by exact Hrun. cbv beta iota zeta.
  destruct Hsame as (Hid & _). change (wf_id wf1) with (wf_id wf) in Hid.
  destruct o as [?|e]; rewrite (bind_run _ _ w2 (clock_at (ticks w2)) (advance w2)) by done; cbv beta zeta.
  - set (wf3 := set_wf_completedAt _ _).
    destruct (lookup_workflow_save_eq (clock_at (ticks (advance w2))) wf3 (wfs w2)) as (c & u & Hl).
    change (wf_id wf3) with (wf_id wf2) in Hl. rewrite Hid in Hl.
    do 3 eexists. split; [done|]. split; [exact Hl|]. by rewrite <-Hid.
  - set (wf3 := set_wf_failureReason _ _).
    destruct (lookup_workflow_save_eq (clock_at (ticks (advance w2))) wf3 (wfs w2)) as (c & u & Hl).
    change (wf_id wf3) with (wf_id wf2) in Hl. rewrite Hid in Hl.
    do 3 eexists. split; [done|]. by split; [exact Hl|].
Qed.

(** A run that may not start throws before it does anything. *)
Lemma executeWorkflow_refused reg wf d w :
  getWorkflowDefinition (wf_type wf) reg = Some d →
  canTransitionWorkflow (wf_state wf) WorkflowState.RUNNING = false →
  executeWorkflow reg wf w =
    (Throw (Error ("Cannot start workflow: " +:+ "Invalid workflow state transition from " +:+
      WorkflowState.to_string (wf_state wf) +:+ " to running")), w).
Proof.
  intros Hd Htr. unfold executeWorkflow. rewrite Hd, transitionWorkflow_success, Htr. cbn [negb].
  unfold transitionWorkflow. by rewrite Htr.
Qed.

Lemma executeWorkflow_unknown reg wf w :
  getWorkflowDefinition (wf_type wf) reg = None →
  executeWorkflow reg wf w =
    (Throw (Error ("Workflow definition not found for type: " +:+ wf_type wf)), w).
Proof. intros Hd. unfold executeWorkflow. by rewrite Hd. Qed.

(** Running what is already RUNNING always throws, and touches nothing. *)
Lemma executeWorkflow_running reg wf :
  wf_state wf = WorkflowState.RUNNING → ∃ e, ∀ w, executeWorkflow reg wf w = (Throw e, w).
Proof.
  intros Hs. destruct (getWorkflowDefinition (wf_type wf) reg) as [d|] eqn:Hd.
  - eexists. intros w. eapply executeWorkflow_refused; [done|]. by rewrite Hs.
  - eexists. intros w. by apply executeWorkflow_unknown.
Qed.
End Tables.
