(* ===== verification/ExecutionRuns.v ===== *)
(** Whole runs: what [startWorkflow] leaves in the tables when the steps of a
    definition fail a given number of times before they answer. *)
From S2P Require Import Prelude Json Repository WorkflowTypes StateMachine Idempotency.
From S2P Require Import WorkflowExecution ExecutionFacts.

(** ** The specification of a run

    [fails sd] is the number of attempts of [sd] that fail, and [error sd] what they throw. *)
Section Specification.
Context {W : Type} (fails : StepDefinition W → Z) (error : StepDefinition W → exn).
Implicit Types sd : StepDefinition W.

Definition attempts sd : Z := or_number (sd_maxRetries sd) 3.
Definition succeeds sd : bool := bool_decide (fails sd < attempts sd)%Z.

(** The final states of the steps: the first one that never succeeds fails and
    the ones after it are not begun. *)
Fixpoint final_states (running : bool) (sds : list (StepDefinition W)) : list StepState.t :=
  match sds with
  | [] => []
  | sd :: sds =>
      (if running then if succeeds sd then StepState.COMPLETED else StepState.FAILED
       else StepState.PENDING) :: final_states (running && succeeds sd) sds
  end.

(** The error of the run: the one of the first step that never succeeds. *)
Fixpoint run_error (sds : list (StepDefinition W)) : option exn :=
  match sds with
  | [] => None
  | sd :: sds =>
      if succeeds sd then run_error sds
      else Some (Error ("Step " +:+ sd_name sd +:+ " failed after " +:+ pretty (attempts sd) +:+ " retries: " +:+
                        exn_message (error sd)))
  end.

(** The calls of [execute], in order. *)
Fixpoint run_calls (workflowId : string) (sds : list (StepDefinition W)) : list call :=
  match sds with
  | [] => []
  | sd :: sds =>
      let called n := mkCall workflowId (sd_name sd) <$> seqZ 0 n in
      if succeeds sd then called (fails sd + 1)%Z ++ run_calls workflowId sds
      else called (attempts sd)
  end.
End Specification.

Section Runs.
Context {DBW DBS : Type} `{!WorkflowTable DBW, !StepTable DBS, CLK : Clock, RND : Random, CRY : Crypto}.
Local Abbreviation World := (World DBW DBS).
Implicit Types (wf : Workflow) (step : WorkflowStep) (w : World).

(** ** Creating the step rows *)

Definition fresh_row (workflowId : string) (index : Z) (sd : StepDefinition World) (s : WorkflowStep) : Prop :=
  st_workflowId s = workflowId ∧ st_stepIndex s = index ∧ st_stepName s = sd_name sd ∧
  st_state s = StepState.PENDING ∧ st_retryCount s = 0%Z ∧ st_maxRetries s = attempts sd.

Fixpoint created (workflowId : string) (index : Z) (sds : list (StepDefinition World))
    (l : list WorkflowStep) : Prop :=
  match sds, l with
  | [], [] => True
  | sd :: sds, s :: l => fresh_row workflowId index sd s ∧ created workflowId (index + 1) sds l
  | _, _ => False
  end.

Lemma created_index wid k sds l s : created wid k sds l → s ∈ l → (k ≤ st_stepIndex s)%Z.
Proof.
  revert k l. induction sds as [|sd sds IH]; intros k [|s' l] Hc; try done; [set_solver|].
  destruct Hc as [(_&Hi&_) Hc]. intros [->|Hs]%elem_of_cons; [lia|].
  specialize (IH _ _ Hc Hs). lia.
Qed.

Lemma created_sorted wid k sds l :
  created wid k sds l → StronglySorted (λ x y, st_stepIndex x < st_stepIndex y)%Z l.
Proof.
  revert k l. induction sds as [|sd sds IH]; intros k [|s l] Hc; try done; [constructor|].
  destruct Hc as [(_&Hi&_) Hc]. constructor; [by eapply IH|].
  apply Forall_forall. intros s' Hs'. eapply created_index in Hc; [|done]. lia.
Qed.

Lemma createSteps_spec wid sds : ∀ k w, ∃ w' l,
  createSteps wid k sds w = (Return tt, w') ∧ wfs w' = wfs w ∧ calls w' = calls w ∧
  stepsOf wid w' ≡ₚ stepsOf wid w ++ l ∧ created wid k sds l ∧
  (∀ id r, lookup_row id (sts w) = Some r → lookup_row id (sts w') = Some r).
Proof.
  induction sds as [|sd sds IH]; intros k w.
  { exists w, []. by rewrite app_nil_r. }
  cbn [createSteps]. rewrite (bind_run _ _ w w w) by done. cbv beta.
  set (s := new_step _ _ _ _ _). set (w1 := (saveStep s w).2).
  rewrite (bind_run _ _ w tt w1) by done.
  destruct (IH (k + 1)%Z w1) as (w' & l & Hrun & Hwfs & Hcalls & Hsteps & Hl & Hkeep).
  assert (lookup_row (row_id s) (sts w) = None) as Hnew.
  { rewrite step_id. apply lookup_fresh. }
  assert (∃ c u, written (clock_at (ticks w)) None s = merge_step c u None s) as (c & u & Hs)
    by apply step_written.
  exists w', (merge_step c u None s :: l). split; [done|]. split; [done|]. split; [done|].
  split; [|split].
  - rewrite Hsteps. unfold stepsOf. cbn [sts w1 saveStep snd].
    rewrite find_where_insert by done. rewrite Hs. rewrite decide_True by done.
    cbn [app]. by rewrite <-Permutation_middle.
  - by split.
  - intros id r Hr. apply Hkeep. cbn [sts w1 saveStep snd].
    rewrite lookup_write_ne; [done|]. intros ->. congruence.
Qed.

(** ** The loop *)

(** [sd] fails [fails sd] times before it answers, and leaves the tables alone. *)
Definition flaky_as (fails : StepDefinition World → Z) (error : StepDefinition World → exn)
    (sd : StepDefinition World) : Prop :=
  (0 ≤ fails sd)%Z ∧ (0 < attempts sd)%Z ∧ ∃ V, flaky sd (attempts sd) (fails sd) (error sd) V.

(** So do all the steps up to the first one that never succeeds. *)
Fixpoint flaky_run (fails : StepDefinition World → Z) (error : StepDefinition World → exn)
    (sds : list (StepDefinition World)) : Prop :=
  match sds with
  | [] => True
  | sd :: sds => flaky_as fails error sd ∧ (succeeds fails sd = true → flaky_run fails error sds)
  end.

Lemma flaky_run_all fails error sds : Forall (flaky_as fails error) sds → flaky_run fails error sds.
Proof. induction 1 as [|sd sds Hsd Hsds IH]; [done|by split]. Qed.

Lemma created_pending fails wid k sds l :
  created wid k sds l → st_state <$> l = final_states fails false sds.
Proof.
  revert k l. induction sds as [|sd sds IH]; intros k [|s l] Hc; try done.
  destruct Hc as [(_&_&_&Hs&_) Hc]. csimpl. by rewrite Hs, (IH _ _ Hc).
Qed.

(** After the loop the row of [s] is [r]. *)
Definition row_after w' (s r : WorkflowStep) : Prop :=
  same_step s r ∧ lookup_row (st_id s) (sts w') = Some r.

Lemma array_get_app {A} (pre : list A) x l : array_get (pre ++ x :: l) (Z.of_nat (length pre)) = Some x.
Proof.
  unfold array_get. rewrite bool_decide_eq_true_2 by lia. rewrite Nat2Z.id. by apply list_lookup_middle.
Qed.

Lemma executeSteps_from_flaky (fails : StepDefinition World → Z) error d wid sds : ∀ pre l wf w,
  wf_id wf = wid → wd_steps d = pre ++ sds → created wid (Z.of_nat (length pre)) sds l →
  flaky_run fails error sds → NoDup (st_id <$> l) →
  Forall (λ s, lookup_row (st_id s) (sts w) = Some s) l →
  ∃ wf' o w' l', executeSteps_from wf d l w = (Return (wf', o), w') ∧ same_workflow wf wf' ∧
    Forall2 (row_after w') l l' ∧
    (∀ id, id ∉ st_id <$> l → lookup_row id (sts w') = lookup_row id (sts w)) ∧
    st_state <$> l' = final_states fails true sds ∧
    calls w' = calls w ++ run_calls fails wid sds ∧
    o = from_option Throw (Return tt) (run_error fails error sds).
Proof.
  induction sds as [|sd sds IH]; intros pre [|s l] wf w Hid Hd Hc Hfl Hnd Hdb; try done.
  { exists wf, (Return tt), w, []. rewrite app_nil_r. by split_and!. }
  destruct Hc as [(Hwid & Hidx & Hname & Hst & Hrc & Hmax) Hc].
  destruct Hfl as [(Hf0 & Hatt & V & Hsd) Hfl]. set (e := error sd) in *.
  csimpl in Hnd. apply NoDup_cons in Hnd as [Hni Hnd]. apply Forall_cons in Hdb as [_ Hdb].
  cbn [executeSteps_from]. set (wf1 := set_wf_currentStepIndex _ wf).
  set (w1 := (saveWorkflow wf1 w).2). rewrite (bind_run _ _ w tt w1) by done.
  rewrite bind_attempt, Hidx, Hd, array_get_app.
  destruct (executeStep_fuel_flaky (S (Z.to_nat (st_maxRetries s - st_retryCount s))) wf1 sd (attempts sd) (fails sd) e V)
    with (step := s) (w := w1) as (o & w2 & Hrun & Ho & r & Hr & Hsame & Hend);
    [done|by rewrite Hst|done|lia|lia|lia|].
  unfold executeStep at 1. rewrite Hrun.
  rewrite Hmax, Hname, Hrc in Hend. change (wf_id wf1) with (wf_id wf) in Hend. rewrite Hid in Hend.
  assert (Forall (λ s, lookup_row (st_id s) (sts w2) = Some s) l) as Hdb2.
  { apply Forall_forall. intros s' Hs'. rewrite Forall_forall in Hdb.
    destruct Ho as [_ Ho]. rewrite Ho; [by apply Hdb|]. intros Heq. apply Hni. rewrite <-Heq.
    by apply list_elem_of_fmap_2. }
  change (calls w1) with (calls w) in Hend. cbn [final_states run_calls run_error andb].
  change (bool_decide (fails sd < attempts sd)%Z) with (succeeds fails sd) in Hend.
  destruct (succeeds fails sd).
  - destruct Hend as (-> & Hrst & _ & _ & Hcalls).
    destruct (IH (pre ++ [sd]) l wf1 w2) as (wf' & o & w' & l' & -> & Hwf' & Hl' & Hother & Hst' & Hc' & Ho');
      [done|by rewrite <-app_assoc| |by apply Hfl|done|done|].
    { rewrite length_app, Nat2Z.inj_add. exact Hc. }
    exists wf', o, w', (r :: l'). split; [done|]. split; [done|]. split; [|split; [|split; [|split]]].
    + constructor; [split; [done|by rewrite Hother]|done].
    + csimpl. intros id [? ?]%not_elem_of_cons. rewrite Hother by done. by apply Ho.
    + csimpl. by rewrite Hrst, Hst'.
    + rewrite Hc', Hcalls. rewrite Z.sub_0_r. by rewrite <-app_assoc.
    + done.
  - destruct Hend as (-> & Hrst & _ & Hcalls).
    exists wf1, (Throw (retries_error s (attempts sd) e)), w2, (r :: l). split_and!; try done.
    + constructor; [done|]. apply Forall2_same_length_lookup_2; [done|]. intros i x y Hx Hy.
      rewrite Hx in Hy. simplify_eq. rewrite Forall_forall in Hdb2. split; [done|].
      apply Hdb2. by eapply list_elem_of_lookup_2.
    + csimpl. intros id [? ?]%not_elem_of_cons. by apply Ho.
    + csimpl. by rewrite Hrst, (created_pending fails _ _ _ _ Hc).
    + by rewrite Hcalls, Z.sub_0_r.
    + unfold retries_error. by rewrite Hname.
Qed.
(** ** Starting a workflow *)

(** The rows of a workflow after a loop over all of them. *)
Lemma stepsOf_after wid w w' l l' :
  stepsOf wid w ≡ₚ l → Forall (λ s, st_workflowId s = wid) l → Forall2 (row_after w') l l' →
  (∀ id, id ∉ st_id <$> l → lookup_row id (sts w') = lookup_row id (sts w)) → stepsOf wid w' ≡ₚ l'.
Proof.
  intros Hsteps Hwid Hl' Hother.
  assert (Hids : st_id <$> l' = st_id <$> l).
  { clear -Hl'. induction Hl' as [|s r l l' [Hs _] _ IH]; [done|]. csimpl. rewrite IH. f_equal. apply Hs. }
  assert (Hnd : NoDup (st_id <$> l)).
  { rewrite <-Hsteps. unfold stepsOf, find_where. eapply sublist_NoDup; [apply (rows_nodup (sts w))|].
    rewrite (list_fmap_ext _ row_id) by (intros; by rewrite step_id). apply fmap_sublist, sublist_filter. }
  assert (Hrow : ∀ r, r ∈ l' → st_workflowId r = wid ∧ lookup_row (st_id r) (sts w') = Some r).
  { intros r Hr. apply list_elem_of_lookup_1 in Hr as [i Hi].
    destruct (Forall2_lookup_r _ _ _ _ _ Hl' Hi) as (s & Hs & (Heq & Hw & _) & Hlk).
    rewrite Heq, Hw. split; [|done]. rewrite Forall_forall in Hwid. apply Hwid.
    by eapply list_elem_of_lookup_2. }
  apply NoDup_Permutation; [apply NoDup_find_where|eapply NoDup_fmap_1; by rewrite Hids|].
  intros r. unfold stepsOf. rewrite find_where_lookup, step_id. split; [|by apply Hrow].
  intros [Hw Hlk]. destruct (decide (st_id r ∈ st_id <$> l)) as [Hin|Hni].
  - rewrite <-Hids in Hin. apply list_elem_of_fmap in Hin as (r' & Hid & Hr').
    destruct (Hrow r' Hr') as [_ Hlk']. rewrite <-Hid, Hlk in Hlk'. by simplify_eq.
  - exfalso. apply Hni, list_elem_of_fmap_2. rewrite <-Hsteps. unfold stepsOf.
    rewrite find_where_lookup, step_id. by rewrite <-Hother.
Qed.

(** The foreign key of the steps table. *)
Definition foreign_key w : Prop :=
  ∀ s, s ∈ rows (sts w) → is_Some (lookup_row (st_workflowId s) (wfs w)).

Lemma foreign_key_fresh w : foreign_key w → stepsOf (fresh_id (wfs w)) w = [].
Proof.
  intros Hfk. destruct (stepsOf (fresh_id (wfs w)) w) as [|s l] eqn:Hs; [done|].
  assert (s ∈ stepsOf (fresh_id (wfs w)) w) as Hin by (rewrite Hs; left).
  unfold stepsOf in Hin. rewrite elem_of_find_where in Hin. destruct Hin as [Hid Hin].
  destruct (Hfk s Hin) as [r Hr]. rewrite Hid, lookup_fresh in Hr. done.
Qed.

(** How a run ended whose error is [err], and the row it left. *)
Definition run_ended (err : option exn) (o : outcome Workflow) (r : Workflow) : Prop :=
  match err with
  | None => returned o = true ∧ wf_state r = WorkflowState.COMPLETED
  | Some e => o = Throw e ∧ wf_state r = WorkflowState.FAILED ∧ wf_failureReason r = Some (exn_message e)
  end.

(** What is left by a run of the workflow [id] whose steps are [sds]. *)
Definition run_result (fails : StepDefinition World → Z) (error : StepDefinition World → exn) (id : string)
    (sds : list (StepDefinition World)) (o : outcome Workflow) w w' : Prop :=
  (∃ r, lookup_row id (wfs w') = Some r ∧ run_ended (run_error fails error sds) o r) ∧
  st_state <$> sort_on st_stepIndex (stepsOf id w') = final_states fails true sds ∧
  calls w' = calls w ++ run_calls fails id sds.

Lemma executeWorkflow_flaky fails error reg d wf l w :
  getWorkflowDefinition (wf_type wf) reg = Some d →
  wf_state wf = WorkflowState.PENDING →
  flaky_run fails error (wd_steps d) →
  stepsOf (wf_id wf) w ≡ₚ l → created (wf_id wf) 0 (wd_steps d) l →
  ∃ o w', executeWorkflow reg wf w = (o, w') ∧ run_result fails error (wf_id wf) (wd_steps d) o w w'.
Proof.
  intros Hd Hst Hfl Hsteps Hc.
  unfold executeWorkflow. rewrite Hd, transitionWorkflow_success, Hst.
  change (negb (canTransitionWorkflow _ _)) with false. cbv iota.
  rewrite (bind_run _ _ w (clock_at (ticks w)) (advance w)) by done. cbv beta zeta.
  set (wf1 := set_wf_startedAt _ _). set (w1 := (saveWorkflow wf1 (advance w)).2).
  rewrite (bind_run _ _ _ tt w1) by done.
  assert (sort_on st_stepIndex (stepsOf (wf_id wf1) w1) = l) as Hsorted.
  { apply sort_on_unique; [by eapply created_sorted|done]. }
  assert (Forall (λ s, s ∈ find_where (λ s, st_workflowId s = wf_id wf) (sts w1)) l) as Hall.
  { apply Forall_forall. intros s. by rewrite <-Hsteps. }
  destruct (executeSteps_from_flaky fails error d (wf_id wf) (wd_steps d) [] l wf1 w1)
    as (wf2 & o & w2 & l' & Hrun & (Hid2 & _) & Hl' & Hother & Hfin & Hcalls & ->); try done.
  { assert (NoDup (st_id <$> l)) as Hnd; [|done]. rewrite <-Hsteps. unfold stepsOf, find_where.
    eapply sublist_NoDup; [apply (rows_nodup (sts w))|].
    rewrite (list_fmap_ext _ row_id) by (intros; by rewrite step_id). apply fmap_sublist, sublist_filter. }
  { eapply Forall_impl; [exact Hall|]. intros s Hs. cbv beta in Hs.
    rewrite find_where_lookup, step_id in Hs. apply Hs. }
  rewrite (bind_run _ _ w1 (wf2, from_option Throw (Return tt) (run_error fails error (wd_steps d))) w2); cycle 1.
  { unfold executeSteps. rewrite (bind_run _ _ w1 l w1); [done|]. unfold gets. by rewrite Hsorted. }
  assert (stepsOf (wf_id wf) w2 ≡ₚ l') as Hsteps2.
  { eapply (stepsOf_after _ w1); [exact Hsteps| |done|done].
    eapply Forall_impl; [exact Hall|]. intros s Hs. cbv beta in Hs. rewrite elem_of_find_where in Hs. apply Hs. }
  assert (st_state <$> sort_on st_stepIndex (stepsOf (wf_id wf) w2) = final_states fails true (wd_steps d))
    as Hstates.
  { rewrite <-Hfin. f_equal. apply sort_on_unique; [|done].
    apply created_sorted in Hc. clear -Hc Hl'. induction Hl' as [|s r l l' [Hs _] Hl' IH]; [constructor|].
    inversion_clear Hc as [|?? Hc1 Hc2]. constructor; [by apply IH|].
    apply Forall_forall. intros r' Hr'. apply list_elem_of_lookup_1 in Hr' as [i Hi].
    destruct (Forall2_lookup_r _ _ _ _ _ Hl' Hi) as (s' & Hs' & Hsame & _).
    rewrite Forall_forall in Hc2. apply list_elem_of_lookup_2, Hc2 in Hs'.
    unfold same_step in *. naive_solver congruence. }
  cbv beta iota zeta. change (wf_id wf1) with (wf_id wf) in Hid2.
  unfold run_result. destruct (run_error fails error (wd_steps d)) as [e|]; cbn [from_option];
    rewrite (bind_run _ _ w2 (clock_at (ticks w2)) (advance w2)) by done; cbv beta zeta.
  - set (wf3 := set_wf_failureReason _ _). do 2 eexists. split; [done|]. split; [|by split].
    destruct (lookup_workflow_save_eq (clock_at (ticks (advance w2))) wf3 (wfs w2)) as (c & u & Hl).
    change (wf_id wf3) with (wf_id wf2) in Hl. rewrite Hid2 in Hl. eexists. by split; [exact Hl|].
  - set (wf3 := set_wf_completedAt _ _). do 2 eexists. split; [done|]. split; [|by split].
    destruct (lookup_workflow_save_eq (clock_at (ticks (advance w2))) wf3 (wfs w2)) as (c & u & Hl).
    change (wf_id wf3) with (wf_id wf2) in Hl. rewrite Hid2 in Hl. eexists. by split; [exact Hl|].
Qed.

(** The idempotency key [startWorkflow] computes on the given day. *)
Definition start_key (type : string) (input : jsobj) (userId : option string) (context : option jsobj)
    (today : Z) : string :=
  generateWorkflowIdempotencyKey type (or_string userId "anonymous") input context today.

(** A start that is not a duplicate creates the rows and runs the workflow. *)
Lemma startWorkflow_fresh fails error reg d type input userId walletAddress context w :
  getWorkflowDefinition type reg = Some d →
  flaky_run fails error (wd_steps d) →
  foreign_key w →
  findOne_where (λ r, wf_idempotencyKey r = start_key type input userId context (clock_at (ticks w))) (wfs w) = None →
  ∃ o w', startWorkflow reg type input userId walletAddress context w = (o, w') ∧
    run_result fails error (fresh_id (wfs w)) (wd_steps d) o w w'.
Proof.
  intros Hd Hfl Hfk Hnone. unfold startWorkflow. rewrite Hd.
  rewrite (bind_run _ _ w (clock_at (ticks w)) (advance w)) by done. cbv beta zeta.
  rewrite (bind_run _ _ _ None (advance w)); cycle 1.
  { unfold gets. change (wfs (advance w)) with (wfs w). unfold start_key in Hnone. by rewrite Hnone. }
  cbv iota. rewrite (bind_run _ _ _ (advance w) (advance w)) by done. cbv beta zeta.
  set (wf := new_workflow _ _ _ _ _ _ _ _ _ _ _). set (w1 := (saveWorkflow wf (advance w)).2).
  rewrite (bind_run _ _ _ tt w1) by done.
  destruct (createSteps_spec (wf_id wf) (wd_steps d) 0 w1)
    as (w2 & l & Hrun & Hw & Hc & Hsteps & Hl & _).
  rewrite (bind_run _ _ _ tt w2) by done.
  destruct (executeWorkflow_flaky fails error reg d wf l w2) as (o & w' & -> & Hres); try done.
  { rewrite Hsteps. change (stepsOf (wf_id wf) w1) with (stepsOf (fresh_id (wfs w)) w).
    by rewrite foreign_key_fresh. }
  exists o, w'. split; [done|]. unfold run_result in *. by rewrite Hc in Hres.
Qed.

(** C1: a whole run.  When no workflow has the idempotency key yet and every step of the
    definition fails a known number of times before it answers, [startWorkflow] creates one row
    per step and runs them in order: it returns exactly when every step succeeds within its
    [maxRetries] attempts (3 when the definition gives none), and the workflow row is then
    COMPLETED; otherwise it throws the error that names the first step to exhaust its attempts,
    their number and its error, and the row is FAILED for that reason, the steps before that one
    being COMPLETED, that one FAILED and the later ones still PENDING.  The calls of [execute]
    are the ones the step definitions ask for, in order. *)
Theorem startWorkflow_run fails error reg d type input userId walletAddress context w :
  getWorkflowDefinition type reg = Some d →
  Forall (flaky_as fails error) (wd_steps d) →
  foreign_key w →
  findOne_where (λ r, wf_idempotencyKey r = start_key type input userId context (clock_at (ticks w))) (wfs w) = None →
  ∃ o w', startWorkflow reg type input userId walletAddress context w = (o, w') ∧
    run_result fails error (fresh_id (wfs w)) (wd_steps d) o w w'.
Proof. intros Hd Hfl. apply startWorkflow_fresh; [done|by apply flaky_run_all]. Qed.

(** starting is idempotent.  While some row carries the idempotency key of the request,
    [startWorkflow] returns such a row, whatever its state, without creating, running or
    changing anything. *)
Theorem startWorkflow_duplicate reg d type input userId walletAddress context w wf :
  getWorkflowDefinition type reg = Some d →
  wf ∈ rows (wfs w) →
  wf_idempotencyKey wf = start_key type input userId context (clock_at (ticks w)) →
  ∃ existing, startWorkflow reg type input userId walletAddress context w = (Return existing, advance w) ∧
    same_tables w (advance w) ∧ existing ∈ rows (wfs w) ∧
    wf_idempotencyKey existing = wf_idempotencyKey wf.
Proof.
  intros Hd Hwf Hkey.
  destruct (findOne_where (λ r, wf_idempotencyKey r = wf_idempotencyKey wf) (wfs w)) as [r|] eqn:Hf.
  - exists r. unfold findOne_where in Hf. pose proof Hf as [Hr Hk]%array_find_Some.
    split_and!; try done. unfold startWorkflow. rewrite Hd.
    rewrite (bind_run _ _ w (clock_at (ticks w)) (advance w)) by done. cbv beta zeta.
    unfold start_key in Hkey. rewrite <-Hkey.
    rewrite (bind_run _ _ _ (Some r) (advance w)); [done|]. unfold gets, findOne_where. cbn [wfs advance World_ticking].
    by rewrite Hf.
  - rewrite findOne_where_None in Hf. by destruct (Hf wf Hwf).
Qed.
End Runs.
