(* ===== verification/ExampleWorkflows.v ===== *)
(** The workflows that [WorkflowService] registers when it starts
    ([workflow/examples/*.workflow.ts]): the deployment of a contract, a trade and the chain of
    voice jobs.  Their steps simulate what they stand for with timers and chance; a trade computes
    with the binary fractions of IEEE 754 in [SpecFloat].  A date or a number in an output is what
    the JSON column stores, and what only logs is dropped, which leaves nothing of the
    compensations.  No object in an input has a [toString] or a [valueOf] of its own. *)
From S2P Require Import Prelude Json Repository WorkflowTypes Idempotency WorkflowExecution ExecutionFacts ExecutionRuns.
From Stdlib Require SpecFloat.

(** [v?.k] for a name [k] that the prototypes of the language do not have. *)
Definition optional_property (v : jsval) (k : string) : jsval :=
  match v with JObject o => js_undefined (assoc k o) | _ => JUndefined end.

(** [a || b] *)
Definition or_value (v d : jsval) : jsval := if truthy v then v else d.

(** [`${v}`] *)
Fixpoint template_text (v : jsval) : string :=
  match v with
  | JUndefined => "undefined"
  | JNull => "null"
  | JBool b => if b then "true" else "false"
  | JNumber n => pretty n
  | JDecimal d => decimal_text d
  | JString s => s
  | JArray l => join "," (map (λ v, match v with JUndefined | JNull => EmptyString | _ => template_text v end) l)
  | JObject _ => "[object Object]"
  | JPromise _ => "[object Promise]"
  end.

(** ** Numbers *)

Module Number.
(** A number of the language: a binary fraction of 53 digits, with infinities and the NaN. *)
Abbreviation t := SpecFloat.spec_float.
Definition nan : t := SpecFloat.S754_nan.
Definition zero : t := SpecFloat.S754_zero false.
(** [m * 2^e], rounded to what is next to it *)
Definition scaled (m e : Z) : t := SpecFloat.binary_normalize 53 1024 m e false.
Definition times : t → t → t := SpecFloat.SFmul 53 1024.
Definition minus : t → t → t := SpecFloat.SFsub 53 1024.
(** [Math.floor] of a number that is finite *)
Definition floor (x : t) : Z :=
  match x with SpecFloat.S754_finite s m e => Z.shiftl (if s then Z.neg m else Z.pos m) e | _ => 0%Z end.

(** No finite number below zero. *)
Definition unsigned (x : t) : Prop := match x with SpecFloat.S754_finite s _ _ => s = false | _ => True end.
Lemma floor_unsigned x : unsigned x → (0 ≤ floor x)%Z.
Proof. destruct x as [| | |s m e]; try done. cbn. intros ->. by apply Z.shiftl_nonneg. Qed.
Lemma unsigned_round m e l : unsigned (SpecFloat.binary_round_aux 53 1024 false m e l).
Proof.
  unfold SpecFloat.binary_round_aux. destruct (SpecFloat.shr_fexp _ _ m e l) as [mrs e']. destruct (SpecFloat.shr_fexp _ _ _ e' _) as [mrs' e''].
  destruct (SpecFloat.shr_m mrs') as [|m'|m']; [done| |done]. by destruct (Z.leb _ _).
Qed.
Lemma unsigned_scaled m e : (0 ≤ m)%Z → unsigned (scaled m e).
Proof.
  intros Hm. destruct m as [|m|m]; [done| |lia]. cbn. unfold SpecFloat.binary_round.
  destruct (SpecFloat.shl_align _ _ _) as [mz ez]. apply unsigned_round.
Qed.
Lemma unsigned_times x y : unsigned x → unsigned y → unsigned (times x y).
Proof. destruct x as [| | |s m e], y as [| | |s' m' e']; try done. cbn. intros -> ->. apply unsigned_round. Qed.
End Number.

(** How numbers are read from text ([Number(s)]), and what JSON has of them: the shortest decimal
    fraction that is read back as the number, and [null] for what is not finite. *)
Class NumberText := { text_number : string → Number.t; number_value : Number.t → jsval }.

Section Examples.
Context {W : Type} `{!Ticking W, CLK : Clock, RND : Random, RDX : RadixText}.
Implicit Types (input : jsval) (context : WorkflowContext).

(** [context.metadata?.k] *)
Definition metadata_output context (k : string) : jsval :=
  match ctx_metadata context with Some o => js_undefined (assoc k o) | None => JUndefined end.

Definition unless (b : bool) (msg : string) : eff W unit := if b then mret tt else throw (Error msg).

(** [new Date()], as it is stored. *)
Definition new_date : eff W jsval := t ← date_now; mret (JString (iso_time t)).

(** [Math.random().toString(radix).substr(2, n)] *)
Definition random_digits (radix : Z) (n : nat) : eff W string :=
  r ← random; mret (String.substring 2 n (radix_text radix r)).

(** [Number(v)] *)
Definition to_number `{!NumberText} (v : jsval) : Number.t :=
  match v with
  | JUndefined => Number.nan
  | JNull => Number.zero
  | JBool b => Number.scaled (if b then 1 else 0) 0
  | JNumber n => Number.scaled n 0
  | _ => text_number (template_text v)
  end.

(** [Math.random()] *)
Definition random_number : eff W Number.t := r ← random; mret (Number.scaled r (-53)).

(** The compensations only log. *)
Definition logs_only : option (jsval → jsval → WorkflowContext → eff W jsval) := Some (λ _ _ _, mret JUndefined).

Definition example_step (name : string) (maxRetries : Z) (execute : jsval → WorkflowContext → eff W jsval) : StepDefinition W :=
  mkStepDefinition name execute logs_only true (Some maxRetries) None None.

(** ** Deployment of a contract *)

Definition validate_contract_code input context : eff W jsval :=
  contractCode ← of_outcome (property input "contractCode");
  contractName ← of_outcome (property input "contractName");
  unless (truthy contractCode && truthy contractName) "Contract code and name are required" ;;
  delay 1000 ;;
  validatedAt ← new_date;
  mret (JObject [("isValid", JBool true); ("validatedAt", validatedAt); ("contractName", contractName);
                 ("bytecode", JString "0x1234567890abcdef")]).

Definition deploy_contract input context : eff W jsval :=
  of_outcome (property input "contractCode") ;;
  of_outcome (property input "contractName") ;;
  let validationOutput := metadata_output context "validate_contract_code" in
  unless (truthy (optional_property validationOutput "isValid")) "Contract validation failed" ;;
  delay 2000 ;;
  address ← random_digits 16 40;
  hash ← random_digits 16 64;
  deployedAt ← new_date;
  mret (JObject [("contractAddress", JString ("0x" +:+ address)); ("deploymentHash", JString ("0x" +:+ hash));
                 ("deployedAt", deployedAt); ("gasUsed", JNumber 1500000)]).

Definition verify_contract input context : eff W jsval :=
  let deploymentOutput := metadata_output context "deploy_contract" in
  let contractAddress := optional_property deploymentOutput "contractAddress" in
  unless (truthy contractAddress) "Contract deployment failed" ;;
  delay 1500 ;;
  verifiedAt ← new_date;
  mret (JObject [("contractAddress", contractAddress); ("verificationStatus", JString "verified");
                 ("verifiedAt", verifiedAt);
                 ("explorerUrl", JString ("https://etherscan.io/address/" +:+ template_text contractAddress))]).

Definition index_contract input context : eff W jsval :=
  let verificationOutput := metadata_output context "verify_contract" in
  let contractAddress := optional_property verificationOutput "contractAddress" in
  unless (truthy contractAddress) "Contract verification failed" ;;
  delay 1000 ;;
  indexedAt ← new_date;
  mret (JObject [("contractAddress", contractAddress); ("indexedAt", indexedAt);
                 ("indexingStatus", JString "completed"); ("abiHash", JString "0xabcdef1234567890")]).

Definition contractDeploymentWorkflow : WorkflowDefinition W :=
  mkWorkflowDefinition WorkflowType.CONTRACT_DEPLOYMENT "Smart Contract Deployment"
    "Deploy a smart contract and verify it on the blockchain"
    [example_step "validate_contract_code" 2 validate_contract_code; example_step "deploy_contract" 3 deploy_contract;
     example_step "verify_contract" 3 verify_contract; example_step "index_contract" 2 index_contract]
    (Some 3%Z) None (Some true) None.

(** ** A trade *)

Section Trade.
Context `{NUM : !NumberText}.

(** The literals [0.99], [0.98] and [0.01]. *)
Definition n0_99 : Number.t := Number.scaled 8917127262193582 (-53).
Definition n0_98 : Number.t := Number.scaled 8827055269646172 (-53).
Definition n0_01 : Number.t := Number.scaled 5764607523034235 (-59).

Definition validate_trade_params input context : eff W jsval :=
  tokenA ← of_outcome (property input "tokenA");
  tokenB ← of_outcome (property input "tokenB");
  amount ← of_outcome (property input "amount");
  of_outcome (property input "slippage") ;;
  unless (truthy tokenA && truthy tokenB && truthy amount) "Missing required trade parameters" ;;
  unless (negb (SpecFloat.SFleb (to_number amount) Number.zero)) "Trade amount must be positive" ;;
  delay 500 ;;
  validatedAt ← new_date;
  mret (JObject [("isValid", JBool true); ("validatedAt", validatedAt);
                 ("expectedOutput", number_value (Number.times (to_number amount) n0_99)); ("gasEstimate", JNumber 150000)]).

Definition insufficient_balance (amount : jsval) (userBalance : Number.t) : string :=
  "Insufficient balance. Required: " +:+ template_text amount +:+ ", Available: " +:+ template_text (number_value userBalance).

Definition check_balance input context : eff W jsval :=
  of_outcome (property input "tokenA") ;;
  amount ← of_outcome (property input "amount");
  delay 800 ;;
  r ← random_number;
  let userBalance := Number.times r (Number.scaled 1000 0) in
  unless (negb (SpecFloat.SFltb userBalance (to_number amount))) (insufficient_balance amount userBalance) ;;
  checkedAt ← new_date;
  mret (JObject [("balance", number_value userBalance); ("sufficient", JBool true); ("checkedAt", checkedAt)]).

Definition execute_trade input context : eff W jsval :=
  of_outcome (property input "tokenA") ;;
  of_outcome (property input "tokenB") ;;
  amount ← of_outcome (property input "amount");
  slippage ← of_outcome (property input "slippage");
  delay 2000 ;;
  digits ← random_digits 16 64;
  r ← random_number;
  let slipped := if truthy slippage then to_number slippage else n0_01 in
  let executedAmount := Number.times (to_number amount) (Number.minus (Number.scaled 1 0) (Number.times slipped r)) in
  let receivedAmount := Number.times executedAmount n0_98 in
  executedAt ← new_date;
  mret (JObject [("tradeHash", JString ("0x" +:+ digits)); ("executedAmount", number_value executedAmount);
                 ("receivedAmount", number_value receivedAmount); ("executedAt", executedAt);
                 ("gasUsed", JNumber 120000); ("priceImpact", JDecimal (mkDecimal false 0 D0 [D2]))]).

Definition confirm_transaction input context : eff W jsval :=
  let tradeOutput := metadata_output context "execute_trade" in
  unless (truthy (optional_property tradeOutput "tradeHash")) "Trade execution failed" ;;
  delay 1500 ;;
  r ← random_number;
  let blockNumber := (Number.floor (Number.times r (Number.scaled 1000000 0)) + 18000000)%Z in
  digits ← random_digits 16 64;
  confirmedAt ← new_date;
  mret (JObject [("tradeHash", optional_property tradeOutput "tradeHash"); ("blockNumber", JNumber blockNumber);
                 ("blockHash", JString ("0x" +:+ digits)); ("confirmedAt", confirmedAt); ("confirmations", JNumber 1)]).

Definition update_portfolio input context : eff W jsval :=
  of_outcome (property input "tokenA") ;;
  of_outcome (property input "tokenB") ;;
  of_outcome (property input "amount") ;;
  let tradeOutput := metadata_output context "execute_trade" in
  let confirmationOutput := metadata_output context "confirm_transaction" in
  unless (truthy (optional_property tradeOutput "tradeHash") && truthy (optional_property confirmationOutput "blockNumber"))
    "Trade not confirmed" ;;
  delay 1000 ;;
  updatedAt ← new_date;
  mret (JObject [("portfolioId", JString ("portfolio_" +:+ or_string (ctx_userId context) "anonymous")); ("updatedAt", updatedAt);
                 ("tokenABalance", number_value (SpecFloat.SFopp (to_number (optional_property tradeOutput "executedAmount"))));
                 ("tokenBBalance", optional_property tradeOutput "receivedAmount");
                 ("lastTradeHash", optional_property tradeOutput "tradeHash")]).

Definition tradeExecutionWorkflow : WorkflowDefinition W :=
  mkWorkflowDefinition WorkflowType.TRADE_EXECUTION "Trade Execution" "Execute a trade and update portfolio"
    [example_step "validate_trade_params" 2 validate_trade_params; example_step "check_balance" 2 check_balance;
     example_step "execute_trade" 3 execute_trade; example_step "confirm_transaction" 3 confirm_transaction;
     example_step "update_portfolio" 2 update_portfolio]
    (Some 3%Z) None (Some true) None.
End Trade.

(** ** The chain of voice jobs *)

(** The job that a step queues. *)
Definition job_id (prefix : string) : eff W jsval :=
  now ← date_now;
  digits ← random_digits 36 9;
  mret (JString (prefix +:+ pretty now +:+ "_" +:+ digits)).

Definition process_stt input context : eff W jsval :=
  audioUrl ← of_outcome (property input "audioUrl");
  language ← of_outcome (property input "language");
  unless (truthy audioUrl) "Audio URL is required for STT processing" ;;
  delay 2000 ;;
  transcriptionJobId ← job_id "stt_";
  queuedAt ← new_date;
  mret (JObject [("jobId", transcriptionJobId); ("audioUrl", audioUrl);
                 ("language", or_value language (JString "en-US")); ("status", JString "processing");
                 ("queuedAt", queuedAt)]).

(** [while (attempts < maxAttempts)]: waits ten seconds, and returns [done] when
    [Math.random() > n / d]; the quotient is the binary fraction the literal stands for. *)
Fixpoint poll (attempts : nat) (n d : Z) (done : eff W jsval) (timed_out : string) : eff W jsval :=
  match attempts with
  | O => throw (Error timed_out)
  | S attempts =>
      delay 10000 ;;
      r ← random;
      if bool_decide (n * random_scale < r * d)%Z then done else poll attempts n d done timed_out
  end.

Definition await_stt_completion input context : eff W jsval :=
  let sttOutput := metadata_output context "process_stt" in
  unless (truthy (optional_property sttOutput "jobId")) "STT job not found" ;;
  poll 30 5404319552844595 (2 ^ 54)
    (completedAt ← new_date;
     mret (JObject [("jobId", optional_property sttOutput "jobId");
                    ("transcribedText", JString "This is the transcribed text from the audio input.");
                    ("confidence", JDecimal (mkDecimal false 0 D9 [D5])); ("completedAt", completedAt);
                    ("wordCount", JNumber 8)]))
    "STT processing timed out".

Definition process_llm input context : eff W jsval :=
  let sttOutput := metadata_output context "await_stt_completion" in
  promptTemplate ← of_outcome (property input "promptTemplate");
  model ← of_outcome (property input "model");
  unless (truthy (optional_property sttOutput "transcribedText")) "Transcribed text not available" ;;
  delay 3000 ;;
  llmJobId ← job_id "llm_";
  queuedAt ← new_date;
  mret (JObject [("jobId", llmJobId); ("inputText", optional_property sttOutput "transcribedText");
                 ("promptTemplate", or_value promptTemplate (JString "You are a helpful assistant."));
                 ("model", or_value model (JString "gpt-4")); ("status", JString "processing");
                 ("queuedAt", queuedAt)]).

Definition await_llm_completion input context : eff W jsval :=
  let llmOutput := metadata_output context "process_llm" in
  unless (truthy (optional_property llmOutput "jobId")) "LLM job not found" ;;
  poll 60 3602879701896397 (2 ^ 54)
    (completedAt ← new_date;
     mret (JObject [("jobId", optional_property llmOutput "jobId");
                    ("responseText", JString "This is the AI-generated response to your query.");
                    ("tokensUsed", JNumber 42); ("completedAt", completedAt);
                    ("model", optional_property llmOutput "model")]))
    "LLM processing timed out".

Definition process_tts input context : eff W jsval :=
  let llmOutput := metadata_output context "await_llm_completion" in
  voice ← of_outcome (property input "voice");
  speed ← of_outcome (property input "speed");
  unless (truthy (optional_property llmOutput "responseText")) "Response text not available for TTS" ;;
  delay 2500 ;;
  ttsJobId ← job_id "tts_";
  queuedAt ← new_date;
  mret (JObject [("jobId", ttsJobId); ("inputText", optional_property llmOutput "responseText");
                 ("voice", or_value voice (JString "alloy")); ("speed", or_value speed (JNumber 1));
                 ("status", JString "processing"); ("queuedAt", queuedAt)]).

Definition await_tts_completion input context : eff W jsval :=
  let ttsOutput := metadata_output context "process_tts" in
  unless (truthy (optional_property ttsOutput "jobId")) "TTS job not found" ;;
  poll 30 1 4
    (now ← date_now;
     let audioPath := "/uploads/tts/response_" +:+ pretty now +:+ ".mp3" in
     completedAt ← new_date;
     mret (JObject [("jobId", optional_property ttsOutput "jobId"); ("audioUrl", JString audioPath);
                    ("duration", JDecimal (mkDecimal false 3 D5 [])); ("fileSize", JNumber 56789);
                    ("completedAt", completedAt); ("voice", optional_property ttsOutput "voice")]))
    "TTS processing timed out".

Definition deliver_final_result input context : eff W jsval :=
  let ttsOutput := metadata_output context "await_tts_completion" in
  unless (truthy (optional_property ttsOutput "audioUrl")) "Final audio result not available" ;;
  delay 500 ;;
  deliveredAt ← new_date;
  mret (JObject [("audioUrl", optional_property ttsOutput "audioUrl"); ("duration", optional_property ttsOutput "duration");
                 ("deliveredAt", deliveredAt); ("deliveryMethod", JString "websocket");
                 ("userId", from_option JString JUndefined (ctx_userId context))]).

Definition aiJobChainWorkflow : WorkflowDefinition W :=
  mkWorkflowDefinition WorkflowType.AI_JOB_CHAIN "AI Job Chain Pipeline"
    "Execute STT → LLM → TTS pipeline for voice processing"
    [example_step "process_stt" 2 process_stt; example_step "await_stt_completion" 5 await_stt_completion;
     example_step "process_llm" 3 process_llm; example_step "await_llm_completion" 5 await_llm_completion;
     example_step "process_tts" 2 process_tts; example_step "await_tts_completion" 5 await_tts_completion;
     example_step "deliver_final_result" 1 deliver_final_result]
    (Some 3%Z) None (Some true) None.

(** ** The steps as they are meant

    Each step gets the input itself, and the outputs of the steps before it in the metadata of
    its context. *)
Definition with_metadata (outputs : jsobj) context : WorkflowContext :=
  mkContext (ctx_workflowId context) (ctx_idempotencyKey context) (ctx_userId context) (ctx_walletAddress context)
    (ctx_type context) (ctx_retryCount context) (ctx_stepIndex context) (Some outputs).

Fixpoint chained (sds : list (StepDefinition W)) input context (outputs : jsobj) : eff W jsobj :=
  match sds with
  | [] => mret outputs
  | sd :: sds =>
      output ← sd_execute sd input (with_metadata outputs context);
      chained sds input context (assoc_set (sd_name sd) output outputs)
  end.

Lemma poll_run attempts n d done msg w : ∃ rounds,
  rounds ≤ attempts ∧ let w' := Nat.iter (2 * rounds) advance w in
  (poll attempts n d done msg w = done w' ∨
   rounds = attempts ∧ poll attempts n d done msg w = (Throw (Error msg), w')).
Proof.
  revert w. induction attempts as [|attempts IH]; intros w.
  { exists 0. split; [done|]. by right. }
  cbn [poll]. rewrite (bind_run _ _ w tt (advance w)) by done.
  rewrite (bind_run _ _ (advance w) (random_at (tick (advance w))) (advance (advance w))) by done.
  case_bool_decide as Hr.
  - exists 1. split; [lia|]. by left.
  - destruct (IH (advance (advance w))) as (rounds & Hle & Hrun). exists (S rounds). split; [lia|].
    replace (2 * S rounds) with (2 * rounds + 2) by lia. rewrite Nat.iter_add.
    destruct Hrun as [Hrun|[-> Hrun]]; [by left|by right].
Qed.

(** *** One step after the other *)

(** [m] returns a value within [Q]. *)
Definition gives {A} (Q : A → Prop) (m : eff W A) : Prop := ∀ w, ∃ v w', m w = (Return v, w') ∧ Q v.
(** [m] returns a value within [Q], or throws one of the errors [E]. *)
Definition gives_or {A} (Q : A → Prop) (E : exn → Prop) (m : eff W A) : Prop :=
  ∀ w, match (m w).1 with Return v => Q v | Throw e => E e end.

Lemma gives_ret {A} (Q : A → Prop) v : Q v → gives Q (mret v).
Proof. intros HQ w. by exists v, w. Qed.
Lemma gives_bind {A B} (P : A → Prop) (Q : B → Prop) m f :
  gives P m → (∀ v, P v → gives Q (f v)) → gives Q (m ≫= f).
Proof.
  intros Hm Hf w. destruct (Hm w) as (v & w1 & Hrun & Hv). rewrite (bind_run _ _ w v w1) by done. by apply Hf.
Qed.
Lemma gives_delay ms : gives (λ _, True) (delay ms : eff W unit).
Proof. intros w. by eexists _, _. Qed.
Lemma gives_date_now : gives (λ _, True) (date_now : eff W Z).
Proof. intros w. by eexists _, _. Qed.
Lemma gives_new_date : gives (λ _, True) new_date.
Proof. intros w. by eexists _, _. Qed.
Lemma gives_digits radix n : gives (λ _, True) (random_digits radix n).
Proof. intros w. by eexists _, _. Qed.
Lemma gives_job_id prefix : gives (λ v, ∃ t, v = JString (prefix +:+ t)) (job_id prefix).
Proof. intros w. do 2 eexists. split; [reflexivity|]. eexists. reflexivity. Qed.
Lemma gives_unless b msg : b = true → gives (λ _, True) (unless b msg).
Proof. intros -> w. by eexists _, _. Qed.
Lemma gives_property v k k' x : property v k = Return x → gives (λ y, property v k' = Return y) (of_outcome (property v k')).
Proof.
  intros Hv w. assert (∃ y, property v k' = Return y) as [y Hy] by (destruct v; try done; by eexists).
  exists y, w. by rewrite Hy.
Qed.

Lemma gives_gives_or {A} (Q : A → Prop) E m : gives Q m → gives_or Q E m.
Proof. intros Hm w. destruct (Hm w) as (v & w' & -> & HQ). done. Qed.
Lemma gives_or_bind {A B} (P : A → Prop) (Q : B → Prop) E m f :
  gives_or P E m → (∀ v, P v → gives_or Q E (f v)) → gives_or Q E (m ≫= f).
Proof.
  intros Hm Hf w. specialize (Hm w). unfold mbind, eff_bind. destruct (m w) as [[v|e] w']; [by apply Hf|done].
Qed.
Lemma gives_or_poll attempts n d done msg (Q : jsval → Prop) (E : exn → Prop) :
  gives Q done → E (Error msg) → gives_or Q E (poll attempts n d done msg).
Proof.
  intros Hd He w. destruct (poll_run attempts n d done msg w) as (rounds & _ & [->|[_ ->]]); [|done].
  by apply gives_gives_or.
Qed.

#[local] Hint Resolve gives_delay gives_date_now gives_new_date gives_digits gives_job_id gives_unless : gives.
#[local] Hint Extern 2 (gives _ (of_outcome _)) => (eapply gives_property; eassumption) : gives.
#[local] Ltac gives_all := repeat (eapply gives_bind; [by eauto with gives|intros ? ?]); apply gives_ret.

Lemma validate_gives input context code name :
  property input "contractCode" = Return code → truthy code = true →
  property input "contractName" = Return name → truthy name = true →
  gives (λ out, truthy (optional_property out "isValid") = true) (validate_contract_code input context).
Proof.
  intros Hc Htc Hn Htn. unfold validate_contract_code. rewrite Hc, Hn.
  eapply gives_bind; [by apply (gives_ret (eq code))|]. intros ? <-.
  eapply gives_bind; [by apply (gives_ret (eq name))|]. intros ? <-.
  rewrite Htc, Htn. gives_all. done.
Qed.

Lemma deploy_gives input context code :
  property input "contractCode" = Return code →
  truthy (optional_property (metadata_output context "validate_contract_code") "isValid") = true →
  gives (λ out, ∃ a, optional_property out "contractAddress" = JString ("0x" +:+ a)) (deploy_contract input context).
Proof. intros Hc Hv. unfold deploy_contract. gives_all. by eexists. Qed.

Lemma verify_gives input context a :
  optional_property (metadata_output context "deploy_contract") "contractAddress" = JString ("0x" +:+ a) →
  gives (λ out, optional_property out "contractAddress" = JString ("0x" +:+ a)) (verify_contract input context).
Proof. intros Hd. unfold verify_contract. rewrite Hd. gives_all. done. Qed.

Lemma index_gives input context a :
  optional_property (metadata_output context "verify_contract") "contractAddress" = JString ("0x" +:+ a) →
  gives (λ out, optional_property out "contractAddress" = JString ("0x" +:+ a)) (index_contract input context).
Proof. intros Hd. unfold index_contract. rewrite Hd. gives_all. done. Qed.

Lemma stt_gives input context url :
  property input "audioUrl" = Return url → truthy url = true →
  gives (λ out, truthy (optional_property out "jobId") = true) (process_stt input context).
Proof.
  intros Hu Ht. unfold process_stt. rewrite Hu.
  eapply gives_bind; [by apply (gives_ret (eq url))|]. intros ? <-. gives_all. by destruct_and?; naive_solver.
Qed.

Lemma llm_gives input context url :
  property input "audioUrl" = Return url →
  truthy (optional_property (metadata_output context "await_stt_completion") "transcribedText") = true →
  gives (λ out, truthy (optional_property out "jobId") = true) (process_llm input context).
Proof. intros Hu Ht. unfold process_llm. gives_all. naive_solver. Qed.

Lemma tts_gives input context url :
  property input "audioUrl" = Return url →
  truthy (optional_property (metadata_output context "await_llm_completion") "responseText") = true →
  gives (λ out, truthy (optional_property out "jobId") = true) (process_tts input context).
Proof. intros Hu Ht. unfold process_tts. gives_all. naive_solver. Qed.

Section TradeFacts.
Context `{NUM : !NumberText}.

Lemma gives_random_number : gives (λ _, True) random_number.
Proof. intros w. by eexists _, _. Qed.
Lemma gives_random_unsigned `{!RandomRange} : gives Number.unsigned random_number.
Proof. intros w. eexists _, _. split; [reflexivity|]. by apply Number.unsigned_scaled, random_range. Qed.
#[local] Hint Resolve gives_random_number : gives.

(** What [check_balance] throws. *)
Definition insufficient (amount : jsval) (e : exn) : Prop := ∃ balance,
  SpecFloat.SFltb balance (to_number amount) = true ∧ e = Error (insufficient_balance amount balance).

Lemma validate_trade_gives input context tokenA tokenB amount :
  property input "tokenA" = Return tokenA → truthy tokenA = true → property input "tokenB" = Return tokenB → truthy tokenB = true →
  property input "amount" = Return amount → truthy amount = true → SpecFloat.SFleb (to_number amount) Number.zero = false →
  gives (λ out, optional_property out "isValid" = JBool true) (validate_trade_params input context).
Proof.
  intros Ha Hta Hb Htb Hm Htm Hpos. unfold validate_trade_params. rewrite Ha, Hb, Hm.
  eapply gives_bind; [by apply (gives_ret (eq tokenA))|]. intros ? <-.
  eapply gives_bind; [by apply (gives_ret (eq tokenB))|]. intros ? <-.
  eapply gives_bind; [by apply (gives_ret (eq amount))|]. intros ? <-.
  rewrite Hta, Htb, Htm, Hpos. gives_all. done.
Qed.

Lemma check_balance_gives input context amount : property input "amount" = Return amount →
  gives_or (λ out, optional_property out "sufficient" = JBool true) (insufficient amount) (check_balance input context).
Proof.
  intros Hm. unfold check_balance.
  eapply gives_or_bind; [apply gives_gives_or; by eapply gives_property|]. intros ? _. rewrite Hm.
  eapply gives_or_bind; [by apply gives_gives_or, (gives_ret (eq amount))|]. intros ? <-.
  eapply gives_or_bind; [apply gives_gives_or, gives_delay|]. intros _ _.
  eapply gives_or_bind; [apply gives_gives_or, gives_random_number|]. intros r _. cbv zeta.
  destruct (SpecFloat.SFltb _ (to_number amount)) eqn:Hlt; cbn [negb].
  - intros w. cbn. by eexists.
  - apply gives_gives_or. gives_all. done.
Qed.

Lemma execute_trade_gives input context amount : property input "amount" = Return amount →
  gives (λ out, (∃ h, optional_property out "tradeHash" = JString ("0x" +:+ h)) ∧
      (to_number amount = Number.nan → optional_property out "executedAmount" = number_value Number.nan))
    (execute_trade input context).
Proof.
  intros Hm. unfold execute_trade. rewrite Hm. do 2 (eapply gives_bind; [by eapply gives_property|]; intros ? _).
  eapply gives_bind; [by apply (gives_ret (eq amount))|]. intros ? <-. gives_all. split; [by eexists|]. by intros ->.
Qed.

Lemma confirm_gives `{!RandomRange} input context h :
  optional_property (metadata_output context "execute_trade") "tradeHash" = JString ("0x" +:+ h) →
  gives (λ out, truthy (optional_property out "blockNumber") = true) (confirm_transaction input context).
Proof.
  intros Hh. unfold confirm_transaction. rewrite Hh.
  eapply gives_bind; [by apply gives_unless|]. intros _ _. eapply gives_bind; [apply gives_delay|]. intros _ _.
  eapply gives_bind; [apply gives_random_unsigned|]. intros r Hr. cbv zeta.
  assert (0 ≤ Number.floor (Number.times r (Number.scaled 1000000 0)))%Z as Hn
    by (apply Number.floor_unsigned, Number.unsigned_times; [done|by apply Number.unsigned_scaled]).
  revert Hn. generalize (Number.floor (Number.times r (Number.scaled 1000000 0))) as n. intros n Hn. gives_all.
  change (negb (bool_decide (n + 18000000 = 0)%Z) = true). by rewrite bool_decide_eq_false_2 by lia.
Qed.

Lemma portfolio_gives input context amount h :
  property input "amount" = Return amount →
  optional_property (metadata_output context "execute_trade") "tradeHash" = JString ("0x" +:+ h) →
  truthy (optional_property (metadata_output context "confirm_transaction") "blockNumber") = true →
  gives (λ out, optional_property out "lastTradeHash" = JString ("0x" +:+ h) ∧
    optional_property out "tokenBBalance" = optional_property (metadata_output context "execute_trade") "receivedAmount")
    (update_portfolio input context).
Proof. intros Hm Hh Hb. unfold update_portfolio. cbv zeta. rewrite Hh, Hb. gives_all. done. Qed.
End TradeFacts.

(** What the polls throw. *)
Definition times_out (e : exn) : Prop := ∃ what, what ∈ ["STT"; "LLM"; "TTS"] ∧ e = Error (what +:+ " processing timed out").

#[local] Ltac gives_poll H := eapply gives_or_bind; [apply gives_gives_or, gives_unless, H|]; intros ? _;
  apply gives_or_poll; [gives_all; done|].

Lemma await_stt_gives input context :
  truthy (optional_property (metadata_output context "process_stt") "jobId") = true →
  gives_or (λ out, truthy (optional_property out "transcribedText") = true) times_out (await_stt_completion input context).
Proof. intros Hj. unfold await_stt_completion. gives_poll Hj. exists "STT". by repeat constructor. Qed.

Lemma await_llm_gives input context :
  truthy (optional_property (metadata_output context "process_llm") "jobId") = true →
  gives_or (λ out, truthy (optional_property out "responseText") = true) times_out (await_llm_completion input context).
Proof. intros Hj. unfold await_llm_completion. gives_poll Hj. exists "LLM". by repeat constructor. Qed.

Lemma await_tts_gives input context :
  truthy (optional_property (metadata_output context "process_tts") "jobId") = true →
  gives_or (λ out, truthy (optional_property out "audioUrl") = true) times_out (await_tts_completion input context).
Proof. intros Hj. unfold await_tts_completion. gives_poll Hj. exists "TTS". by repeat constructor. Qed.

Lemma deliver_gives input context url :
  optional_property (metadata_output context "await_tts_completion") "audioUrl" = url → truthy url = true →
  gives (λ out, optional_property out "audioUrl" = url) (deliver_final_result input context).
Proof. intros Hu Ht. unfold deliver_final_result. rewrite Hu. gives_all. done. Qed.
End Examples.

Section Registered.
Context {DBW DBS : Type} `{!WorkflowTable DBW, !StepTable DBS, CLK : Clock, RND : Random, CRY : Crypto, RDX : RadixText, NUM : NumberText}.
Local Abbreviation World := (World DBW DBS).

(** [WorkflowService.onModuleInit] *)
Definition service_onModuleInit (reg : gmap string (WorkflowDefinition World)) : gmap string (WorkflowDefinition World) :=
  let reg := registerWorkflowDefinition contractDeploymentWorkflow reg in
  let reg := registerWorkflowDefinition tradeExecutionWorkflow reg in
  registerWorkflowDefinition aiJobChainWorkflow reg.

Lemma registered_examples reg (d : WorkflowDefinition World) :
  d ∈ [contractDeploymentWorkflow; tradeExecutionWorkflow; aiJobChainWorkflow] →
  getWorkflowDefinition (WorkflowType.to_string (wd_type d)) (service_onModuleInit reg) = Some d.
Proof.
  rewrite !elem_of_cons, elem_of_nil. unfold getWorkflowDefinition, service_onModuleInit, registerWorkflowDefinition.
  intros [->|[->|[->|[]]]]; cbn; simplify_map_eq; done.
Qed.

(** A step that fails whenever its input is a promise. *)
Definition always_fails (sd : StepDefinition World) (e : exn) : Prop :=
  ∀ prepared ctx w, sd_execute sd (JPromise (JObject prepared)) ctx w = (Throw e, w).

Lemma always_flaky sd e : always_fails sd e → (0 < attempts sd)%Z →
  flaky_as attempts (λ _, e) sd.
Proof.
  intros He Ha. split; [lia|]. split; [done|]. exists (λ _, False). intros prepared ctx w Hc.
  exists (Throw e), w. rewrite bool_decide_eq_true_2 by lia. by split_and!.
Qed.

Lemma pending_after fails (sds : list (StepDefinition World)) :
  final_states fails false sds = replicate (length sds) StepState.PENDING.
Proof. induction sds as [|sd sds IH]; [done|]. csimpl. by rewrite IH. Qed.

(** A run whose first step always fails both of its attempts. *)
Lemma startWorkflow_doomed reg d sd sds e type input userId walletAddress context w :
  getWorkflowDefinition type reg = Some d →
  wd_steps d = sd :: sds → always_fails sd e → attempts sd = 2%Z →
  foreign_key w →
  findOne_where (λ r, wf_idempotencyKey r = start_key type input userId context (clock_at (ticks w))) (wfs w) = None →
  let id := fresh_id (wfs w) in
  let failure := Error ("Step " +:+ sd_name sd +:+ " failed after 2 retries: " +:+ exn_message e) in
  ∃ w' r, startWorkflow reg type input userId walletAddress context w = (Throw failure, w') ∧
    lookup_row id (wfs w') = Some r ∧ wf_state r = WorkflowState.FAILED ∧
    wf_failureReason r = Some (exn_message failure) ∧
    st_state <$> sort_on st_stepIndex (stepsOf id w') =
      StepState.FAILED :: replicate (length sds) StepState.PENDING ∧
    calls w' = calls w ++ [mkCall id (sd_name sd) 0; mkCall id (sd_name sd) 1].
Proof.
  intros Hd Hsds He Ha Hfk Hnone id failure.
  assert (succeeds attempts sd = false) as Hno by (apply bool_decide_eq_false_2; lia).
  destruct (startWorkflow_fresh attempts (λ _, e) reg d type input userId walletAddress context w)
    as (o & w' & Hrun & (r & Hr & Hend) & Hst & Hcalls); [done| |done|done|].
  { rewrite Hsds. split; [apply always_flaky; [done|lia]|]. by rewrite Hno. }
  rewrite Hsds in Hend, Hst, Hcalls. cbn in Hend, Hst, Hcalls. rewrite Hno in Hend, Hst, Hcalls.
  cbn [andb] in Hst. rewrite pending_after in Hst. rewrite Ha in *. destruct Hend as (-> & ? & ?).
  by exists w', r.
Qed.

(** The first step of each workflow, how many follow it, and what it complains of. *)
Definition first_complaint (type : string) : option (string * nat * string) :=
  if bool_decide (type = "contract_deployment") then
    Some ("validate_contract_code", 3, "Contract code and name are required")
  else if bool_decide (type = "ai_job_chain") then
    Some ("process_stt", 6, "Audio URL is required for STT processing")
  else if bool_decide (type = "trade_execution") then Some ("validate_trade_params", 4, "Missing required trade parameters")
  else None.

(** C4: no contract is deployed, nothing traded and no voice job chained.  Whatever input a request for one of
    these workflows carries, complete ones included, the first step gets the promise of its input
    instead of the input, misses the properties it requires and fails both of its attempts: the
    start throws that complaint, the workflow is FAILED, the other steps stay PENDING and are never
    called. *)
Theorem registered_workflows_fail reg type name later complaint input userId walletAddress context w :
  first_complaint type = Some (name, later, complaint) →
  foreign_key w →
  findOne_where (λ r, wf_idempotencyKey r = start_key type input userId context (clock_at (ticks w))) (wfs w) = None →
  let id := fresh_id (wfs w) in
  let failure := Error ("Step " +:+ name +:+ " failed after 2 retries: " +:+ complaint) in
  ∃ w' r, startWorkflow (service_onModuleInit reg) type input userId walletAddress context w = (Throw failure, w') ∧
    lookup_row id (wfs w') = Some r ∧ wf_state r = WorkflowState.FAILED ∧
    wf_failureReason r = Some (exn_message failure) ∧
    st_state <$> sort_on st_stepIndex (stepsOf id w') =
      StepState.FAILED :: replicate later StepState.PENDING ∧
    calls w' = calls w ++ [mkCall id name 0; mkCall id name 1].
Proof.
  intros Hfirst Hfk Hnone. unfold first_complaint in Hfirst. repeat case_bool_decide; simplify_eq/=.
  - exact (startWorkflow_doomed _ contractDeploymentWorkflow (example_step "validate_contract_code" 2 validate_contract_code) _
      (Error "Contract code and name are required") "contract_deployment" input userId walletAddress context w
      (registered_examples reg contractDeploymentWorkflow ltac:(left)) eq_refl (λ _ _ _, eq_refl) eq_refl Hfk Hnone).
  - exact (startWorkflow_doomed _ aiJobChainWorkflow (example_step "process_stt" 2 process_stt) _
      (Error "Audio URL is required for STT processing") "ai_job_chain" input userId walletAddress context w
      (registered_examples reg aiJobChainWorkflow ltac:(by do 2 right; left)) eq_refl (λ _ _ _, eq_refl) eq_refl Hfk Hnone).
  - exact (startWorkflow_doomed _ tradeExecutionWorkflow (example_step "validate_trade_params" 2 validate_trade_params) _
      (Error "Missing required trade parameters") "trade_execution" input userId walletAddress context w
      (registered_examples reg tradeExecutionWorkflow ltac:(by right; left)) eq_refl (λ _ _ _, eq_refl) eq_refl Hfk Hnone).
Qed.

(** the steps of the two workflows do what they are for when each gets the input itself and
    the outputs of the steps before it in its context.  A deployment with a code and a name then
    always ends, with one address in the outputs of the last three steps; a chain with an audio
    URL ends with the audio of its last but one step delivered, unless one of its three polls times out. *)
Theorem examples_as_meant input context :
  (∀ contractCode contractName,
    property input "contractCode" = Return contractCode → truthy contractCode = true →
    property input "contractName" = Return contractName → truthy contractName = true →
    gives (λ outputs, ∃ address, ∀ name, name ∈ ["deploy_contract"; "verify_contract"; "index_contract"] →
        ∃ output, assoc name outputs = Some output ∧ optional_property output "contractAddress" = JString address)
      (chained (wd_steps contractDeploymentWorkflow) input context [] : eff World jsobj)) ∧
  (∀ audioUrl, property input "audioUrl" = Return audioUrl → truthy audioUrl = true →
    gives_or (λ outputs, ∃ tts delivered,
        assoc "await_tts_completion" outputs = Some tts ∧ assoc "deliver_final_result" outputs = Some delivered ∧
        truthy (optional_property tts "audioUrl") = true ∧ optional_property delivered "audioUrl" = optional_property tts "audioUrl")
      times_out (chained (wd_steps aiJobChainWorkflow) input context [] : eff World jsobj)).
Proof.
  split.
  - intros code name Hcode Hc Hname Hn. cbn [wd_steps contractDeploymentWorkflow chained].
    eapply gives_bind; [by eapply validate_gives|]. intros v1 Hv1.
    eapply gives_bind; [by eapply deploy_gives|]. intros v2 [a Hv2].
    eapply gives_bind; [by apply (verify_gives _ _ a)|]. intros v3 Hv3.
    eapply gives_bind; [by apply (index_gives _ _ a)|]. intros v4 Hv4.
    apply gives_ret. exists ("0x" +:+ a). intros k Hk. rewrite !elem_of_cons, elem_of_nil in Hk.
    destruct Hk as [->|[->|[->|[]]]]; by eexists.
  - intros url Hu Ht. cbn [wd_steps aiJobChainWorkflow chained].
    eapply gives_or_bind; [apply gives_gives_or; by eapply stt_gives|]. intros v1 Hv1.
    eapply gives_or_bind; [by apply await_stt_gives|]. intros v2 Hv2.
    eapply gives_or_bind; [apply gives_gives_or; by eapply llm_gives|]. intros v3 Hv3.
    eapply gives_or_bind; [by apply await_llm_gives|]. intros v4 Hv4.
    eapply gives_or_bind; [apply gives_gives_or; by eapply tts_gives|]. intros v5 Hv5.
    eapply gives_or_bind; [by apply await_tts_gives|]. intros v6 Hv6.
    eapply gives_or_bind; [apply gives_gives_or; by eapply deliver_gives|]. intros v7 Hv7.
    apply gives_gives_or, gives_ret. by exists v6, v7.
Qed.
(** the steps of a trade do what they are for: with two tokens and an amount above zero, when each
    step gets the input itself and the outputs of the steps before it, the trade either ends with a
    portfolio that names the trade and what it received, or is refused because the balance that was
    drawn is below the amount. *)
Theorem trade_as_meant `{RANGE : !RandomRange} input context tokenA tokenB amount
    (HtokenA : property input "tokenA" = Return tokenA ∧ truthy tokenA = true)
    (HtokenB : property input "tokenB" = Return tokenB ∧ truthy tokenB = true)
    (Hamount : property input "amount" = Return amount ∧ truthy amount = true)
    (Hpositive : SpecFloat.SFleb (to_number amount) Number.zero = false) :
  gives_or (λ outputs, ∃ trade portfolio hash,
      assoc "execute_trade" outputs = Some trade ∧ assoc "update_portfolio" outputs = Some portfolio ∧
      optional_property trade "tradeHash" = JString ("0x" +:+ hash) ∧
      optional_property portfolio "lastTradeHash" = optional_property trade "tradeHash" ∧
      optional_property portfolio "tokenBBalance" = optional_property trade "receivedAmount")
    (insufficient amount) (chained (wd_steps tradeExecutionWorkflow) input context [] : eff World jsobj).
Proof.
  destruct HtokenA as [Ha Hta], HtokenB as [Hb Htb], Hamount as [Hm Htm]. cbn [wd_steps tradeExecutionWorkflow chained].
  eapply gives_or_bind; [apply gives_gives_or; by eapply validate_trade_gives|]. intros v1 _.
  eapply gives_or_bind; [by eapply check_balance_gives|]. intros v2 _.
  eapply gives_or_bind; [apply gives_gives_or; by eapply execute_trade_gives|]. intros v3 [[h Hv3] _].
  eapply gives_or_bind; [apply gives_gives_or; by eapply (confirm_gives _ _ h)|]. intros v4 Hv4.
  eapply gives_or_bind; [apply gives_gives_or; by eapply (portfolio_gives _ _ amount h)|]. intros v5 [Hv5 Hr].
  apply gives_gives_or, gives_ret. exists v3, v5, h. by rewrite Hv5.
Qed.

(** an amount that is no number is traded: it is not [<= 0] and no balance is below it, so that the
    parameters are valid and the balance is sufficient, and what was executed is [null]. *)
Theorem unread_amount_trades input context tokenA tokenB amount
    (HtokenA : property input "tokenA" = Return tokenA ∧ truthy tokenA = true)
    (HtokenB : property input "tokenB" = Return tokenB ∧ truthy tokenB = true)
    (Hamount : property input "amount" = Return amount ∧ truthy amount = true)
    (Hnan : to_number amount = Number.nan) :
  gives (λ out, optional_property out "isValid" = JBool true) (validate_trade_params input context : eff World jsval) ∧
  gives (λ out, optional_property out "sufficient" = JBool true) (check_balance input context : eff World jsval) ∧
  gives (λ out, optional_property out "executedAmount" = number_value Number.nan) (execute_trade input context : eff World jsval).
Proof.
  destruct HtokenA as [Ha Hta], HtokenB as [Hb Htb], Hamount as [Hm Htm]. split_and!.
  - eapply validate_trade_gives; try done. by rewrite Hnan.
  - intros w. pose proof (check_balance_gives input context amount Hm w) as Hc.
    destruct (check_balance input context w) as [[v|e] w']; [by exists v, w'|]. destruct Hc as (balance & Hlt & _).
    rewrite Hnan in Hlt. by destruct balance as [| | |? ? ?].
  - intros w. destruct (execute_trade_gives input context amount Hm w) as (v & w' & Hrun & _ & Hv). exists v, w'. auto.
Qed.
End Registered.
