(* ===== verification/Compensation.v ===== *)
(** [workflow/services/compensation.service.ts]: rolling the completed steps of a
    workflow back, by the state machine or by force.  The service only simulates
    the roll-back: it waits, and never calls a step's [compensate]. *)
From S2P Require Import Prelude Json Repository WorkflowTypes StateMachine WorkflowExecution ExecutionFacts.

Section Compensation.
Context {DBW DBS : Type} `{!WorkflowTable DBW, !StepTable DBS, CLK : Clock}.
Local Abbreviation World := (World DBW DBS).
Implicit Types (wf : Workflow) (step s : WorkflowStep) (w : World).

Definition compensateStep wf step : eff World unit :=
  let transition := transitionStep (st_state step) StepState.COMPENSATING in
  if negb (success transition) then
    throw (Error ("Cannot start step compensation: " +:+ error_text transition))
  else
  compensatedAt ← date_now;
  let step := step |> set_st_state StepState.COMPENSATING |> set_st_compensatedAt (Some compensatedAt) in
  saveStep step ;;
  try_catch
    (delay 1000 ;;
     saveStep (step |> set_st_state StepState.COMPENSATED |> set_st_isCompensated true))
    (λ e, saveStep (step |> set_st_state StepState.FAILED
                         |> set_st_failureReason (Some ("Compensation failed: " +:+ exn_message e))) ;;
          throw e).

(** [workflow.steps.filter(...).sort((a, b) => b.stepIndex - a.stepIndex)] *)
Definition to_roll_back step : Prop := st_state step = StepState.COMPLETED ∧ st_requiresCompensation step = true.

Definition completedSteps (steps : list WorkflowStep) : list WorkflowStep :=
  sort_on (λ s, (- st_stepIndex s)%Z) (filter to_roll_back steps).

Definition compensateWorkflow (workflowId : string) : eff World unit :=
  workflow ← findWorkflow workflowId;
  match workflow with
  | None => throw (Error ("Workflow not found: " +:+ workflowId))
  | Some wf =>
      steps ← gets (stepsOf workflowId);
      if negb (canWorkflowCompensate (wf_state wf)) then
        throw (Error ("Workflow " +:+ workflowId +:+ " cannot be compensated in state: " +:+
                      WorkflowState.to_string (wf_state wf)))
      else
      let transition := transitionWorkflow (wf_state wf) WorkflowState.COMPENSATING in
      if negb (success transition) then
        throw (Error ("Cannot start compensation: " +:+ error_text transition))
      else
      let wf := wf |> set_wf_state WorkflowState.COMPENSATING |> set_wf_requiresCompensation true in
      saveWorkflow wf ;;
      try_catch
        (foreach (completedSteps steps) (compensateStep wf) ;;
         completedAt ← date_now;
         saveWorkflow (wf |> set_wf_state WorkflowState.COMPENSATED |> set_wf_isCompensated true
                          |> set_wf_completedAt (Some completedAt)))
        (λ e, saveWorkflow (wf |> set_wf_state WorkflowState.FAILED
                               |> set_wf_failureReason (Some ("Compensation failed: " +:+ exn_message e))) ;;
              throw e)
  end.

(** [find({ where: [...], order: { createdAt: 'DESC' } })] *)
Definition compensatable wf : Prop :=
  (wf_state wf = WorkflowState.FAILED ∨ wf_state wf = WorkflowState.CANCELLED) ∧
  wf_requiresCompensation wf = true ∧ wf_isCompensated wf = false.

Definition getCompensatableWorkflows (w : World) : list Workflow :=
  sort_on (λ r, (- wf_createdAt r)%Z) (find_where compensatable (wfs w)).

Definition requiresCompensation (workflowId : string) : eff World bool :=
  workflow ← findWorkflow workflowId;
  match workflow with
  | None => throw (Error ("Workflow not found: " +:+ workflowId))
  | Some wf => mret (wf_requiresCompensation wf && negb (wf_isCompensated wf))
  end.

Definition forceCompensateStep step : eff World unit :=
  compensatedAt ← date_now;
  let step := step |> set_st_state StepState.COMPENSATING |> set_st_compensatedAt (Some compensatedAt) in
  saveStep step ;;
  delay 500 ;;
  saveStep (step |> set_st_state StepState.COMPENSATED |> set_st_isCompensated true).

Definition forceCompensateWorkflow (workflowId : string) : eff World unit :=
  workflow ← findWorkflow workflowId;
  match workflow with
  | None => throw (Error ("Workflow not found: " +:+ workflowId))
  | Some wf =>
      steps ← gets (stepsOf workflowId);
      let wf := wf |> set_wf_state WorkflowState.COMPENSATING |> set_wf_requiresCompensation true in
      saveWorkflow wf ;;
      foreach (completedSteps steps) forceCompensateStep ;;
      saveWorkflow (wf |> set_wf_state WorkflowState.COMPENSATED |> set_wf_isCompensated true)
  end.

(** * What a compensation promises *)

(** The row [r] of a step rolled back at the [n]-th reading of the clock. *)
Definition rolled_back step (n : nat) r : Prop :=
  same_step step r ∧ st_state r = StepState.COMPENSATED ∧ st_isCompensated r = true ∧
  st_compensatedAt r = Some (clock_at n).

(** A run that rolls the workflow back: its row says so, each step completed and
    in need of it is rolled back, later steps first, every other step row is as it was, and
    no step code runs. *)
Definition compensates (workflowId : string) w w' : Prop :=
  (∃ r, lookup_row workflowId (wfs w') = Some r ∧ wf_state r = WorkflowState.COMPENSATED ∧
     wf_isCompensated r = true ∧ wf_requiresCompensation r = true) ∧
  calls w' = calls w ∧
  ∃ at_ : string → nat,
    (∀ s, s ∈ stepsOf workflowId w → to_roll_back s →
       ∃ r, lookup_row (st_id s) (sts w') = Some r ∧ rolled_back s (at_ (st_id s)) r) ∧
    (∀ s s', s ∈ stepsOf workflowId w → s' ∈ stepsOf workflowId w → to_roll_back s → to_roll_back s' →
       (st_stepIndex s' < st_stepIndex s)%Z → at_ (st_id s) < at_ (st_id s')) ∧
    (∀ id, (∀ s, s ∈ stepsOf workflowId w → to_roll_back s → st_id s ≠ id) →
       lookup_row id (sts w') = lookup_row id (sts w)).

(** ** One step *)

(** A roll-back of the step [s] that waits some time in the middle. *)
Definition rolls_back (f : WorkflowStep → eff World unit) (s : WorkflowStep) : Prop :=
  ∀ w, ∃ w' r, f s w = (Return tt, w') ∧ only_step (st_id s) w w' ∧ calls w' = calls w ∧
    ticks w < ticks w' ∧ lookup_row (st_id s) (sts w') = Some r ∧ rolled_back s (ticks w) r.

Lemma forceCompensateStep_spec s : rolls_back forceCompensateStep s.
Proof.
  intros w. set (s1 := s |> set_st_state StepState.COMPENSATING |> set_st_compensatedAt (Some (clock_at (ticks w)))).
  set (s2 := s1 |> set_st_state StepState.COMPENSATED |> set_st_isCompensated true).
  set (w1 := advance (saveStep s1 (advance w)).2).
  destruct (saved_step s s2 w1) as (r & c & u & Hr & ->); [done|].
  exists (saveStep s2 w1).2. eexists. split; [reflexivity|]. split_and!; [|done|cbn; lia|exact Hr|by repeat split].
  etrans; [|by apply (only_step_save_from _ s2 w1)].
  by apply (only_step_save_from _ s1 (advance w)).
Qed.

Lemma compensateStep_spec wf s : st_state s = StepState.COMPLETED → rolls_back (compensateStep wf) s.
Proof.
  intros Hs w. destruct (forceCompensateStep_spec s w) as (w' & r & Hrun & Hrest).
  exists w', r. split; [|done]. unfold compensateStep. by rewrite Hs.
Qed.

(** ** The loop *)

Lemma foreach_rolls_back f l : Forall (rolls_back f) l → NoDup (st_id <$> l) → ∀ w, ∃ w' (at_ : string → nat),
  foreach l f w = (Return tt, w') ∧ wfs w' = wfs w ∧ calls w' = calls w ∧
  (∀ id, id ∉ st_id <$> l → lookup_row id (sts w') = lookup_row id (sts w)) ∧
  (∀ s, s ∈ l → ticks w ≤ at_ (st_id s) ∧
     ∃ r, lookup_row (st_id s) (sts w') = Some r ∧ rolled_back s (at_ (st_id s)) r) ∧
  StronglySorted (λ s s', at_ (st_id s) < at_ (st_id s')) l.
Proof.
  induction l as [|s l IH]; intros Hf Hnd w.
  { exists w, (λ _, 0). split_and!; try done; [set_solver|constructor]. }
  apply Forall_cons in Hf as [Hs Hf]. csimpl in Hnd. apply NoDup_cons in Hnd as [Hni Hnd].
  destruct (Hs w) as (w1 & r & Hrun & [Hw1 Ho1] & Hc1 & Ht1 & Hr & Hrb).
  destruct (IH Hf Hnd w1) as (w' & at_ & Hrun' & Hw' & Hc' & Ho' & Hrows & Hsorted).
  assert (∀ s', s' ∈ l → st_id s' ≠ st_id s) as Hne.
  { intros s' Hs' Heq. apply Hni. rewrite <-Heq. by apply list_elem_of_fmap_2. }
  exists w', (λ id, if decide (id = st_id s) then ticks w else at_ id).
  cbn [foreach]. rewrite (bind_run _ _ w tt w1) by done.
  split; [done|]. split_and!; [congruence|congruence| | |].
  - csimpl. intros id [? ?]%not_elem_of_cons. rewrite Ho' by done. by apply Ho1.
  - intros s' [->|Hs']%elem_of_cons; [|rewrite decide_False by auto].
    + rewrite decide_True by done. split; [done|]. exists r. by rewrite Ho'.
    + destruct (Hrows s' Hs') as [? ?]. split; [lia|done].
  - constructor.
    + clear -Hsorted Hne. induction Hsorted as [|x l Hl IH Hx]; constructor.
      * apply IH. intros s' Hs'. apply Hne. by right.
      * rewrite Forall_forall in *. intros s' Hs'. rewrite !decide_False by (apply Hne; set_solver). by apply Hx.
    + apply Forall_forall. intros s' Hs'. rewrite decide_True by done. rewrite decide_False by auto.
      destruct (Hrows s' Hs') as [? _]. lia.
Qed.

(** Two orders of one list agree. *)
Lemma sorted_agree {A} (key : A → Z) (n : A → nat) l x y :
  StronglySorted (key_le key) l → StronglySorted (λ x y, n x < n y) l →
  x ∈ l → y ∈ l → (key x < key y)%Z → n x < n y.
Proof.
  intros Hk Hn. induction Hn as [|a l Hn IH Ha]; [set_solver|].
  inversion_clear Hk as [|?? Hk' Hka]. rewrite Forall_forall in Ha, Hka.
  intros [->|Hx]%elem_of_cons [->|Hy]%elem_of_cons Hlt; [lia|by apply Ha| |by apply IH].
  specialize (Hka x Hx). unfold key_le in Hka. lia.
Qed.

Lemma NoDup_steps P `{∀ s, Decision (P s)} workflowId w :
  NoDup (st_id <$> sort_on (λ s, (- st_stepIndex s)%Z) (filter P (stepsOf workflowId w))).
Proof.
  rewrite sort_on_perm. unfold stepsOf, find_where.
  eapply sublist_NoDup; [apply (rows_nodup (sts w))|].
  rewrite (list_fmap_ext st_id row_id) by (intros; by rewrite step_id).
  apply fmap_sublist. etrans; [apply sublist_filter|]. apply sublist_filter.
Qed.

Lemma elem_of_completedSteps s steps : s ∈ completedSteps steps ↔ to_roll_back s ∧ s ∈ steps.
Proof. unfold completedSteps. by rewrite elem_of_sort_on, list_elem_of_filter. Qed.

(** The loop, between the two saves of the workflow. *)
Lemma compensates_intro workflowId f w0 w w1 w' :
  (∀ s, st_state s = StepState.COMPLETED → rolls_back f s) →
  sts w = sts w0 → calls w = calls w0 →
  foreach (completedSteps (stepsOf workflowId w0)) f w = (Return tt, w1) →
  sts w' = sts w1 → calls w' = calls w1 →
  (∃ r, lookup_row workflowId (wfs w') = Some r ∧ wf_state r = WorkflowState.COMPENSATED ∧
     wf_isCompensated r = true ∧ wf_requiresCompensation r = true) →
  compensates workflowId w0 w'.
Proof.
  intros Hf Hs0 Hc0 Hrun Hs1 Hc1 Hrow.
  destruct (foreach_rolls_back f (completedSteps (stepsOf workflowId w0))) with (w := w)
    as (w1' & at_ & Hrun' & _ & Hc & Ho & Hrows & Hsorted).
  { apply Forall_forall. intros s [[Hst _] _]%elem_of_completedSteps. by apply Hf. }
  { apply (NoDup_steps to_roll_back). }
  rewrite Hrun in Hrun'. injection Hrun' as <-.
  split; [done|]. split; [congruence|]. exists at_. rewrite Hs1. split_and!.
  - intros s Hs Hrb. destruct (Hrows s) as [_ ?]; [by apply elem_of_completedSteps|done].
  - intros s s' Hs Hs' Hrb Hrb' Hlt.
    refine (sorted_agree (λ s, (- st_stepIndex s)%Z) (λ s, at_ (st_id s)) _ s s' _ Hsorted _ _ _).
    + apply sort_on_sorted.
    + by apply elem_of_completedSteps.
    + by apply elem_of_completedSteps.
    + lia.
  - intros id Hid. rewrite Ho, Hs0; [done|]. intros (s & -> & [Hrb Hs]%elem_of_completedSteps)%list_elem_of_fmap.
    by apply (Hid s).
Qed.

Lemma foreach_rolls_back_run f workflowId w0 w :
  (∀ s, st_state s = StepState.COMPLETED → rolls_back f s) →
  ∃ w1, foreach (completedSteps (stepsOf workflowId w0)) f w = (Return tt, w1).
Proof.
  intros Hf. destruct (foreach_rolls_back f (completedSteps (stepsOf workflowId w0))) with (w := w)
    as (w1 & _ & Hrun & _); [|apply (NoDup_steps to_roll_back)|by exists w1].
  apply Forall_forall. intros s [[Hst _] _]%elem_of_completedSteps. by apply Hf.
Qed.

Lemma canWorkflowCompensate_transition wf :
  canWorkflowCompensate (wf_state wf) = true →
  success (transitionWorkflow (wf_state wf) WorkflowState.COMPENSATING) = true.
Proof. by destruct (wf_state wf). Qed.

(** The row after the last save of a compensation. *)
Lemma compensated_row workflowId wf wf2 w0 w :
  lookup_row workflowId (wfs w0) = Some wf → wf_id wf2 = wf_id wf →
  wf_state wf2 = WorkflowState.COMPENSATED → wf_isCompensated wf2 = true → wf_requiresCompensation wf2 = true →
  ∃ r, lookup_row workflowId (wfs (saveWorkflow wf2 w).2) = Some r ∧ wf_state r = WorkflowState.COMPENSATED ∧
    wf_isCompensated r = true ∧ wf_requiresCompensation r = true.
Proof.
  intros Hwf Hid Hst Hic Hrc. apply lookup_row_id in Hwf. rewrite workflow_id in Hwf.
  destruct (lookup_workflow_save_eq (clock_at (ticks w)) wf2 (wfs w)) as (c & u & Hl).
  rewrite Hid, Hwf in Hl. eexists. by split; [exact Hl|].
Qed.

Lemma compensateWorkflow_refused workflowId wf w :
  lookup_row workflowId (wfs w) = Some wf → canWorkflowCompensate (wf_state wf) = false →
  ∃ e, compensateWorkflow workflowId w = (Throw e, w).
Proof.
  intros Hwf Hc. eexists. unfold compensateWorkflow, findWorkflow, gets.
  by rewrite (bind_run _ _ w (Some wf) w), (bind_run _ _ w (stepsOf workflowId w) w), Hc by (by rewrite ?Hwf).
Qed.

Lemma compensateWorkflow_run workflowId wf w :
  lookup_row workflowId (wfs w) = Some wf → canWorkflowCompensate (wf_state wf) = true →
  ∃ w', compensateWorkflow workflowId w = (Return tt, w') ∧ compensates workflowId w w'.
Proof.
  intros Hwf Hc.
  unfold compensateWorkflow. rewrite (bind_run _ _ w (Some wf) w) by by rewrite <-Hwf.
  rewrite (bind_run _ _ w (stepsOf workflowId w) w), Hc by done. cbn [negb].
  rewrite canWorkflowCompensate_transition by done. cbn [negb].
  set (wf1 := set_wf_requiresCompensation _ _). set (w1 := (saveWorkflow wf1 w).2).
  rewrite (bind_run _ _ w tt w1) by done.
  assert (∀ s, st_state s = StepState.COMPLETED → rolls_back (compensateStep wf1) s) as Hf
    by (intros; by apply compensateStep_spec).
  destruct (foreach_rolls_back_run (compensateStep wf1) workflowId w w1 Hf) as [w2 Hrun].
  set (wf2 := wf1 |> set_wf_state WorkflowState.COMPENSATED |> set_wf_isCompensated true
                  |> set_wf_completedAt (Some (clock_at (ticks w2)))).
  exists (saveWorkflow wf2 (advance w2)).2. split.
  { unfold try_catch. by rewrite (bind_run _ _ w1 tt w2). }
  eapply (compensates_intro workflowId (compensateStep wf1) w w1 w2); try done.
  by eapply (compensated_row workflowId wf _ w).
Qed.

Lemma forceCompensateWorkflow_run workflowId wf w :
  lookup_row workflowId (wfs w) = Some wf →
  ∃ w', forceCompensateWorkflow workflowId w = (Return tt, w') ∧ compensates workflowId w w'.
Proof.
  intros Hwf. unfold forceCompensateWorkflow. rewrite (bind_run _ _ w (Some wf) w) by by rewrite <-Hwf.
  rewrite (bind_run _ _ w (stepsOf workflowId w) w) by done. cbv zeta.
  set (wf1 := set_wf_requiresCompensation _ _). set (w1 := (saveWorkflow wf1 w).2).
  rewrite (bind_run _ _ w tt w1) by done.
  assert (∀ s, st_state s = StepState.COMPLETED → rolls_back forceCompensateStep s) as Hf
    by (intros; apply forceCompensateStep_spec).
  destruct (foreach_rolls_back_run forceCompensateStep workflowId w w1 Hf) as [w2 Hrun].
  set (wf2 := wf1 |> set_wf_state WorkflowState.COMPENSATED |> set_wf_isCompensated true).
  exists (saveWorkflow wf2 w2).2. split; [by rewrite (bind_run _ _ w1 tt w2)|].
  eapply (compensates_intro workflowId forceCompensateStep w w1 w2); try done.
  by eapply (compensated_row workflowId wf _ w).
Qed.

(** C5: [compensateWorkflow] implements the roll-back specification on every workflow that
    is COMPLETED, FAILED or CANCELLED, and never fails there; on any other workflow, a running
    or already compensated one included, it throws and leaves everything as it was. *)
Theorem compensateWorkflow_refines workflowId w :
  match lookup_row workflowId (wfs w) with
  | Some wf =>
      if canWorkflowCompensate (wf_state wf) then
        ∃ w', compensateWorkflow workflowId w = (Return tt, w') ∧ compensates workflowId w w'
      else ∃ e, compensateWorkflow workflowId w = (Throw e, w)
  | None => compensateWorkflow workflowId w = (Throw (Error ("Workflow not found: " +:+ workflowId)), w)
  end.
Proof.
  destruct (lookup_row workflowId (wfs w)) as [wf|] eqn:Hwf; cycle 1.
  { unfold compensateWorkflow. by rewrite (bind_run _ _ w None w) by by rewrite <-Hwf. }
  destruct (canWorkflowCompensate (wf_state wf)) eqn:Hc;
    [by eapply compensateWorkflow_run|by eapply compensateWorkflow_refused].
Qed.

(** [forceCompensateWorkflow] implements the same specification on every workflow there
    is, whatever its state. *)
Theorem forceCompensateWorkflow_refines workflowId w :
  match lookup_row workflowId (wfs w) with
  | Some _ => ∃ w', forceCompensateWorkflow workflowId w = (Return tt, w') ∧ compensates workflowId w w'
  | None => forceCompensateWorkflow workflowId w = (Throw (Error ("Workflow not found: " +:+ workflowId)), w)
  end.
Proof.
  destruct (lookup_row workflowId (wfs w)) as [wf|] eqn:Hwf; [by eapply forceCompensateWorkflow_run|].
  unfold forceCompensateWorkflow. by rewrite (bind_run _ _ w None w) by by rewrite <-Hwf.
Qed.

(** a compensation is not offered again.  After a run of either that returns, the
    workflow no longer requires compensation, is not among the compensatable ones, and another
    [compensateWorkflow] is refused. *)
Theorem compensates_once workflowId w w' :
  compensateWorkflow workflowId w = (Return tt, w') ∨ forceCompensateWorkflow workflowId w = (Return tt, w') →
  requiresCompensation workflowId w' = (Return false, w') ∧
  workflowId ∉ wf_id <$> getCompensatableWorkflows w' ∧
  ∃ e, compensateWorkflow workflowId w' = (Throw e, w').
Proof.
  intros Hret. assert (compensates workflowId w w') as [(r & Hr & Hst & Hic & Hrc) _].
  { destruct (lookup_row workflowId (wfs w)) as [wf|] eqn:Hwf; cycle 1.
    { unfold compensateWorkflow, forceCompensateWorkflow in Hret.
      rewrite !(bind_run (findWorkflow workflowId) _ w None w) in Hret by by rewrite <-Hwf. by destruct Hret. }
    destruct Hret as [Hret|Hret].
    - destruct (canWorkflowCompensate (wf_state wf)) eqn:Hc.
      + destruct (compensateWorkflow_run workflowId wf w Hwf Hc) as (w1 & Hrun & ?). congruence.
      + destruct (compensateWorkflow_refused workflowId wf w Hwf Hc) as [e Hrun]. congruence.
    - destruct (forceCompensateWorkflow_run workflowId wf w Hwf) as (w1 & Hrun & ?). congruence. }
  split_and!.
  - unfold requiresCompensation. rewrite (bind_run _ _ w' (Some r) w') by (unfold findWorkflow, gets; by rewrite Hr).
    by rewrite Hic, Hrc.
  - intros (r' & Hid & Hr')%list_elem_of_fmap. unfold getCompensatableWorkflows in Hr'.
    rewrite elem_of_sort_on, find_where_lookup, workflow_id, <-Hid in Hr'.
    destruct Hr' as [(_ & _ & Hn) Hr']. congruence.
  - eapply compensateWorkflow_refused; [done|]. by rewrite Hst.
Qed.
End Compensation.
