(* ===== verification/ExecutionControl.v ===== *)
(** Retrying, cancelling, and what a running workflow does with either. *)
From S2P Require Import Prelude Json Repository WorkflowTypes StateMachine Idempotency WorkflowExecution.
From S2P Require Import ExecutionFacts.

Section Control.
Context {DBW DBS : Type} `{!WorkflowTable DBW, !StepTable DBS, CLK : Clock, RND : Random, CRY : Crypto}.
Local Abbreviation World := (World DBW DBS).
Implicit Types (wf : Workflow) (step : WorkflowStep) (w : World).

Lemma findWorkflow_run id w o : lookup_row id (wfs w) = o → findWorkflow id w = (Return o, w).
Proof. intros <-. done. Qed.

(** What [retryWorkflow] leaves behind on a FAILED workflow. *)
Definition left_by_retry workflowId wf w w' : Prop :=
  (∃ r, lookup_row workflowId (wfs w') = Some r ∧ wf_state r = WorkflowState.RUNNING ∧
     wf_retryCount r = (wf_retryCount wf + 1)%Z ∧ wf_failedAt r = wf_failedAt wf ∧
     wf_failureReason r = wf_failureReason wf) ∧
  only_workflow workflowId w w' ∧
  match array_find (λ s, st_state s = StepState.FAILED) (stepsOf workflowId w) with
  | Some step =>
      (∃ r, lookup_row (st_id step) (sts w') = Some r ∧ st_state r = StepState.PENDING ∧
         st_retryCount r = st_retryCount step ∧ st_failureReason r = st_failureReason step) ∧
      ∀ id, id ≠ st_id step → lookup_row id (sts w') = lookup_row id (sts w)
  | None => sts w' = sts w
  end.

(** C31: [retryWorkflow] never resumes a workflow.  It throws on every input and calls no
    [execute].  On a FAILED workflow it first marks the row RUNNING and its failed step PENDING
    (a move the step table does not have), so that [executeWorkflow] refuses the workflow it
    was given; both rows stay that way, with the old failure still recorded in the columns
    that were to be cleared.  On any other workflow nothing changes. *)
Theorem retryWorkflow_never_resumes reg workflowId w :
  ∃ e w', retryWorkflow reg workflowId w = (Throw e, w') ∧ calls w' = calls w ∧
    match lookup_row workflowId (wfs w) with
    | Some wf => if isWorkflowRecoverable (wf_state wf) then left_by_retry workflowId wf w w' else w' = w
    | None => w' = w
    end.
Proof.
  unfold retryWorkflow. destruct (lookup_row workflowId (wfs w)) as [wf|] eqn:Hwf;
    rewrite (bind_run _ _ w _ w (findWorkflow_run _ _ _ Hwf)); [|by do 2 eexists].
  rewrite (bind_run _ _ w (stepsOf workflowId w) w) by done.
  destruct (isWorkflowRecoverable (wf_state wf)) eqn:Hrec; cbn [negb]; [|by do 2 eexists].
  rewrite (bind_run _ _ w (clock_at (ticks w)) (advance w)) by done. cbv beta zeta.
  set (wf1 := set_wf_failureReason None _). set (w1 := (saveWorkflow wf1 (advance w)).2).
  rewrite (bind_run _ _ (advance w) tt w1) by done.
  destruct (executeWorkflow_running reg wf1) as [e He]; [done|].
  pose proof (lookup_row_id _ _ _ Hwf) as Hid. rewrite workflow_id in Hid.
  assert (∃ r, lookup_row workflowId (wfs w1) = Some r ∧ wf_state r = WorkflowState.RUNNING ∧
     wf_retryCount r = (wf_retryCount wf + 1)%Z ∧ wf_failedAt r = wf_failedAt wf ∧
     wf_failureReason r = wf_failureReason wf) as Hrow.
  { destruct (lookup_workflow_save_eq (clock_at (ticks (advance w))) wf1 (wfs w)) as (c & u & Hl).
    change (wf_id wf1) with (wf_id wf) in Hl. rewrite Hid, Hwf in Hl.
    eexists. split; [exact Hl|]. by repeat split. }
  assert (only_workflow workflowId w w1) as Honly by (rewrite <-Hid; by apply (only_workflow_save wf1)).
  unfold left_by_retry. destruct (array_find _ (stepsOf workflowId w)) as [step|] eqn:Hstep.
  - set (step1 := set_st_failureReason None _). set (w2 := (saveStep step1 w1).2).
    rewrite (bind_run _ _ w1 tt w2) by done.
    exists e, w2. split; [by rewrite (bind_throw _ _ w2 e w2)|]. split_and!; try done.
    + apply array_find_Some in Hstep as [Hin _]. unfold stepsOf in Hin. rewrite find_where_lookup, step_id in Hin.
      destruct Hin as [_ Hin]. destruct (saved_step step step1 w1) as (r & c & u & Hr & ->); [done|].
      eexists. split; [exact Hr|]. change (sts w1) with (sts w). rewrite Hin. by repeat split.
    + intros id Hne. change (lookup_row id (sts w2)) with (lookup_row id (write (clock_at (ticks w1)) step1 (sts w))).
      by apply lookup_step_save_ne.
  - rewrite (bind_run _ _ w1 tt w1) by done. exists e, w1. by rewrite (bind_throw _ _ w1 e w1).
Qed.

(** A cancellation that the table allows. *)
Lemma cancelWorkflow_run workflowId wf w :
  lookup_row workflowId (wfs w) = Some wf →
  canTransitionWorkflow (wf_state wf) WorkflowState.CANCELLED = true →
  ∃ w' r, cancelWorkflow workflowId w = (Return tt, w') ∧ only_workflow workflowId w w' ∧
    sts w' = sts w ∧ calls w' = calls w ∧ lookup_row workflowId (wfs w') = Some r ∧
    wf_state r = WorkflowState.CANCELLED ∧ wf_completedAt r = Some (clock_at (ticks w)) ∧
    wf_startedAt r = wf_startedAt wf.
Proof.
  intros Hwf Htr. unfold cancelWorkflow. rewrite (bind_run _ _ w _ w (findWorkflow_run _ _ _ Hwf)).
  rewrite transitionWorkflow_success, Htr. cbn [negb].
  rewrite (bind_run _ _ w (clock_at (ticks w)) (advance w)) by done. cbv beta.
  set (wf1 := set_wf_completedAt _ _).
  pose proof (lookup_row_id _ _ _ Hwf) as Hid. rewrite workflow_id in Hid.
  destruct (lookup_workflow_save_eq (clock_at (ticks (advance w))) wf1 (wfs w)) as (c & u & Hl).
  change (wf_id wf1) with (wf_id wf) in Hl. rewrite Hid, Hwf in Hl.
  do 2 eexists. split; [reflexivity|]. split_and!; [|done|done|exact Hl|done|done|].
  - rewrite <-Hid. by apply (only_workflow_save wf1 (advance w)).
  - cbn. by destruct (wf_startedAt wf).
Qed.

(** The states from which a workflow can be cancelled. *)
Definition cancellable wf : bool :=
  bool_decide (wf_state wf ∈ [WorkflowState.PENDING; WorkflowState.RUNNING; WorkflowState.FAILED]).

(** [cancelWorkflow] cancels exactly the workflows that are PENDING, RUNNING or
    FAILED: the row becomes CANCELLED with a completion time and no other row changes; in any
    other state, or without such a workflow, it throws and changes nothing.  The step rows are
    never touched. *)
Theorem cancelWorkflow_spec workflowId w :
  match lookup_row workflowId (wfs w) with
  | Some wf =>
      if cancellable wf then
        ∃ w' r, cancelWorkflow workflowId w = (Return tt, w') ∧ only_workflow workflowId w w' ∧
          sts w' = sts w ∧ calls w' = calls w ∧ lookup_row workflowId (wfs w') = Some r ∧
          wf_state r = WorkflowState.CANCELLED ∧ wf_completedAt r = Some (clock_at (ticks w)) ∧
          wf_startedAt r = wf_startedAt wf
      else ∃ e, cancelWorkflow workflowId w = (Throw e, w)
  | None => cancelWorkflow workflowId w = (Throw (Error ("Workflow not found: " +:+ workflowId)), w)
  end.
Proof.
  destruct (lookup_row workflowId (wfs w)) as [wf|] eqn:Hwf; cycle 1.
  { unfold cancelWorkflow. by rewrite (bind_run _ _ w _ w (findWorkflow_run _ _ _ Hwf)). }
  replace (cancellable wf) with (canTransitionWorkflow (wf_state wf) WorkflowState.CANCELLED)
    by by unfold cancellable; destruct (wf_state wf).
  destruct (canTransitionWorkflow _ _) eqn:Htr; [by apply cancelWorkflow_run|].
  eexists. unfold cancelWorkflow. rewrite (bind_run _ _ w _ w (findWorkflow_run _ _ _ Hwf)).
  by rewrite transitionWorkflow_success, Htr.
Qed.
End Control.
