(* ===== verification/Recovery.v ===== *)
(** [workflow/services/recovery.service.ts]: what happens after a crash.  The
    service's own state is the flag [isRecovering]; everything else it does is an
    effect on the engine's world. *)
From S2P Require Import Prelude Json Repository WorkflowTypes StateMachine Idempotency WorkflowExecution.
From S2P Require Import ExecutionFacts.

Record RecoveryState (DBW DBS : Type) := mkRecovery { isRecovering : bool; engine : World DBW DBS }.
Arguments mkRecovery {_ _} _ _.
Arguments isRecovering {_ _} _.
Arguments engine {_ _} _.

Section Recovery.
Context {DBW DBS : Type} `{!WorkflowTable DBW, !StepTable DBS, CLK : Clock, RND : Random}.
Local Abbreviation World := (World DBW DBS).
Local Abbreviation RecoveryState := (RecoveryState DBW DBS).
Local Abbreviation registry := (gmap string (WorkflowDefinition World)).
Context `{CRY : Crypto}.
Implicit Types (wf : Workflow) (step : WorkflowStep) (w : World) (rs : RecoveryState).

Definition on_engine {A} (m : eff World A) : eff RecoveryState A := λ rs,
  let '(o, w) := m (engine rs) in (o, mkRecovery (isRecovering rs) w).

Definition set_isRecovering (b : bool) rs : RecoveryState := mkRecovery b (engine rs).

(** ** Orphaned workflows *)

(** [reduce((latest, step) => !latest || step.stepIndex > latest.stepIndex ? step : latest, null)] *)
Definition lastCompleted (steps : list WorkflowStep) : option WorkflowStep :=
  foldl (λ latest step,
    match latest with
    | Some l => if bool_decide (st_stepIndex step > st_stepIndex l)%Z then Some step else latest
    | None => Some step
    end) None (filter (λ s, st_state s = StepState.COMPLETED) steps).

Definition workflow_staleness : Z := 5 * 60 * 1000.
Definition step_staleness : Z := 10 * 60 * 1000.

Definition recoverWorkflow (reg : registry) wf (steps : list WorkflowStep) : eff World unit :=
  now ← date_now;
  if bool_decide (now - wf_updatedAt wf < workflow_staleness)%Z then mret tt else
  let failedSteps := filter (λ s, st_state s = StepState.FAILED) steps in
  if bool_decide (0 < length failedSteps) then
    failedAt ← date_now;
    saveWorkflow (wf |> set_wf_state WorkflowState.FAILED
                     |> set_wf_failureReason (Some "Workflow failed during service interruption")
                     |> set_wf_failedAt (Some failedAt))
  else
  let wf := match lastCompleted steps with
            | Some lastCompletedStep => set_wf_currentStepIndex (st_stepIndex lastCompletedStep + 1)%Z wf
            | None => set_wf_currentStepIndex 0%Z wf
            end in
  executeWorkflow reg wf ;;
  mret tt.

Definition recoverOrphanedWorkflows (reg : registry) : eff World unit :=
  orphanedWorkflows ← gets (λ w,
    (λ wf, (wf, stepsOf (wf_id wf) w)) <$> find_where (λ wf, wf_state wf = WorkflowState.RUNNING) (wfs w));
  foreach orphanedWorkflows (λ '(wf, steps), try_catch (recoverWorkflow reg wf steps) (λ _, mret tt)).

(** ** Stuck steps *)

(** The [workflow] relation is loaded with the query. *)
Definition recoverStuckStep step (workflow : option Workflow) : eff World unit :=
  match workflow with
  | None => throw (TypeError "Cannot read properties of undefined (reading 'state')")
  | Some wf =>
      if negb (bool_decide (wf_state wf = WorkflowState.RUNNING)) then mret tt else
      failedAt ← date_now;
      let step := step |> set_st_state StepState.FAILED |> set_st_failedAt (Some failedAt)
                       |> set_st_failureReason (Some "Step timed out during service interruption")
                       |> set_st_retryCount (st_retryCount step + 1)%Z in
      if shouldRetry (inr StepState.FAILED) (st_retryCount step) (st_maxRetries step) then
        nextRetryAt ← calculateNextRetryTime (st_retryCount step) default_base_delay;
        saveStep (set_st_nextRetryAt (Some nextRetryAt) step)
      else
        failedAt ← date_now;
        saveWorkflow (wf |> set_wf_state WorkflowState.FAILED |> set_wf_failedAt (Some failedAt)
          |> set_wf_failureReason (Some ("Step " +:+ st_stepName step +:+ " failed after max retries"))) ;;
        saveStep step
  end.

Definition recoverStuckSteps : eff World unit :=
  now ← date_now;
  let cutoffTime := (now - step_staleness)%Z in
  stuckSteps ← gets (λ w,
    (λ step, (step, lookup_row (st_workflowId step) (wfs w))) <$>
      find_where (λ s, st_state s = StepState.RUNNING ∧ (st_updatedAt s < cutoffTime)%Z) (sts w));
  foreach stuckSteps (λ '(step, workflow), try_catch (recoverStuckStep step workflow) (λ _, mret tt)).

(** ** Clean-up and triggers *)

(** The expired workflows are only logged. *)
Definition cleanupExpiredWorkflows : eff World unit :=
  now ← date_now;
  let cutoffDate := days_before 30 now in
  expiredWorkflows ← gets (λ w,
    find_where (λ wf, (wf_createdAt wf < cutoffDate)%Z ∧ wf_state wf = WorkflowState.COMPLETED) (wfs w));
  foreach expiredWorkflows (λ _, mret tt).

Definition performStartupRecovery (reg : registry) : eff RecoveryState unit :=
  locked ← gets (λ rs : RecoveryState, isRecovering rs);
  if (locked : bool) then mret tt else
  modify (set_isRecovering true) ;;
  try_finally
    (try_catch
      (on_engine (recoverOrphanedWorkflows reg) ;;
       on_engine recoverStuckSteps ;;
       on_engine cleanupExpiredWorkflows)
      (λ _, mret tt))
    (set_isRecovering false).

Definition scheduledRecovery (reg : registry) : eff RecoveryState unit :=
  locked ← gets (λ rs : RecoveryState, isRecovering rs);
  if (locked : bool) then mret tt else
  modify (set_isRecovering true) ;;
  try_finally
    (try_catch
      (on_engine (recoverOrphanedWorkflows reg) ;;
       on_engine recoverStuckSteps)
      (λ _, mret tt))
    (set_isRecovering false).

Record RecoveryResults := mkResults {
  res_orphanedWorkflows : Z; res_stuckSteps : Z; res_expiredWorkflows : Z }.

(** Neither looks at the flag nor sets it; the [catch] block rethrows. *)
Definition triggerManualRecovery (reg : registry) : eff RecoveryState RecoveryResults :=
  on_engine (
    recoverOrphanedWorkflows reg ;;
    orphanedWorkflows ← gets (λ w, count_where (λ wf, wf_state wf = WorkflowState.RUNNING) (wfs w));
    recoverStuckSteps ;;
    stuckSteps ← gets (λ w, find_where (λ s, st_state s = StepState.RUNNING) (sts w));
    cleanupExpiredWorkflows ;;
    mret (mkResults orphanedWorkflows (Z.of_nat (length stuckSteps)) 0)).

Record RecoveryStats := mkStats {
  stat_totalWorkflows : Z; stat_runningWorkflows : Z; stat_stuckSteps : Z;
  stat_failedWorkflows : Z; stat_lastRecoveryRun : option Z }.

Definition getRecoveryStats (w : World) : RecoveryStats :=
  mkStats (Z.of_nat (length (rows (wfs w))))
    (count_where (λ wf, wf_state wf = WorkflowState.RUNNING) (wfs w))
    (count_where (λ s, st_state s = StepState.RUNNING) (sts w))
    (count_where (λ wf, wf_state wf = WorkflowState.FAILED) (wfs w))
    None.

(** * Orphans *)

Definition has_failed_step wf w : bool :=
  bool_decide (0 < length (filter (λ s, st_state s = StepState.FAILED) (stepsOf (wf_id wf) w))).

Definition orphan_frame w w' : Prop := sts w' = sts w ∧ calls w' = calls w ∧ ticks w ≤ ticks w'.
#[export] Instance orphan_frame_preorder : PreOrder orphan_frame.
Proof.
  split; [intros w; by split_and!|]. intros w1 w2 w3 (?&?&?) (?&?&?). split_and!; [congruence..|lia].
Qed.

Lemma orphan_frame_advance w : orphan_frame w (advance w).
Proof. split_and!; [done|done|cbn; lia]. Qed.

(** The row of the orphan [wf] after it was looked at when the clock showed [now]. *)
Definition orphan_row wf (failed : bool) (now : Z) (row : option Workflow) : Prop :=
  if failed && bool_decide (workflow_staleness ≤ now - wf_updatedAt wf)%Z then
    ∃ r, row = Some r ∧ wf_state r = WorkflowState.FAILED ∧
      wf_failureReason r = Some "Workflow failed during service interruption"
  else row = Some wf.

Lemma recoverWorkflow_spec reg wf w0 : wf_state wf = WorkflowState.RUNNING →
  own_row (λ p : Workflow * list WorkflowStep, wf_id p.1) (λ id w, lookup_row id (wfs w)) orphan_frame
    (λ p row, row = Some p.1)
    (λ p wx _ row, orphan_row p.1 (has_failed_step p.1 w0) (clock_at (ticks wx)) row)
    (λ '(wf, steps), try_catch (recoverWorkflow reg wf steps) (λ _, mret tt))
    (wf, stepsOf (wf_id wf) w0).
Proof.
  intros Hst w. cbn [fst]. intros Hrow. unfold try_catch, recoverWorkflow, orphan_row.
  rewrite (bind_run _ _ w (clock_at (ticks w)) (advance w)) by done. cbv beta zeta.
  destruct (decide (clock_at (ticks w) - wf_updatedAt wf < workflow_staleness)%Z) as [Hlt|Hge].
  - rewrite bool_decide_eq_true_2 by done. rewrite (bool_decide_eq_false_2 (_ ≤ _)%Z) by lia.
    rewrite andb_false_r. exists (advance w). split; [done|]. split; [apply orphan_frame_advance|by split].
  - rewrite bool_decide_eq_false_2 by done. rewrite (bool_decide_eq_true_2 (_ ≤ _)%Z) by lia.
    rewrite andb_true_r. unfold has_failed_step. destruct (bool_decide (0 < _)) eqn:Hf.
    + rewrite (bind_run _ _ _ (clock_at (ticks (advance w))) (advance (advance w))) by done. cbv beta.
      set (wf1 := set_wf_failedAt _ _). set (w1 := advance (advance w)).
      exists (saveWorkflow wf1 w1).2. split; [done|]. split; [split_and!; [done|done|cbn; lia]|]. split.
      * intros id Hne. by apply (lookup_workflow_save_ne (clock_at (ticks w1)) wf1 (wfs w)).
      * destruct (lookup_workflow_save_eq (clock_at (ticks w1)) wf1 (wfs w)) as (c & u & Hl).
        change (wf_id wf1) with (wf_id wf) in Hl. eexists. by split; [exact Hl|].
    + destruct (executeWorkflow_running reg (match lastCompleted (stepsOf (wf_id wf) w0) with
        | Some l => set_wf_currentStepIndex (st_stepIndex l + 1)%Z wf
        | None => set_wf_currentStepIndex 0%Z wf end)) as [e He]; [by destruct (lastCompleted _)|].
      rewrite (bind_throw _ _ _ e (advance w)) by done.
      exists (advance w). split; [done|]. split; [apply orphan_frame_advance|by split].
Qed.

(** C32: recovery never resumes an orphan.  [recoverOrphanedWorkflows] returns whatever the
    tables hold, calls no [execute] and touches no step row.  A RUNNING workflow that has a
    FAILED step and was last updated five minutes or more before the clock reading made for
    it becomes FAILED; every other row, in particular that of a stale RUNNING workflow without
    a failed step, which the code means to restart, is left exactly as it was. *)
Theorem recoverOrphanedWorkflows_spec reg w :
  ∃ w', recoverOrphanedWorkflows reg w = (Return tt, w') ∧ orphan_frame w w' ∧
    ∀ id, match lookup_row id (wfs w) with
      | Some wf =>
          if bool_decide (wf_state wf = WorkflowState.RUNNING) then
            ∃ n, ticks w ≤ n ∧ orphan_row wf (has_failed_step wf w) (clock_at n) (lookup_row id (wfs w'))
          else lookup_row id (wfs w') = Some wf
      | None => lookup_row id (wfs w') = None
      end.
Proof.
  unfold recoverOrphanedWorkflows. rewrite bind_gets.
  set (l := (λ wf, (wf, stepsOf (wf_id wf) w)) <$> find_where _ (wfs w)).
  assert (Hl : ∀ p, p ∈ l → p.2 = stepsOf (wf_id p.1) w ∧ wf_state p.1 = WorkflowState.RUNNING ∧
    lookup_row (wf_id p.1) (wfs w) = Some p.1).
  { intros p (wf & -> & Hwf)%list_elem_of_fmap. rewrite find_where_lookup, workflow_id in Hwf. naive_solver. }
  destruct (foreach_rows (λ p, wf_id p.1) (λ id w, lookup_row id (wfs w)) orphan_frame (λ p row, row = Some p.1)
    (λ p wx _ row, orphan_row p.1 (has_failed_step p.1 w) (clock_at (ticks wx)) row)
    (λ '(wf, steps), try_catch (recoverWorkflow reg wf steps) (λ _, mret tt)) l) with (w := w)
    as (w' & Hrun & Hframe & Hother & Hrows).
  - apply Forall_forall. intros [wf steps] Hin. destruct (Hl _ Hin) as (Hs & Hst & _). cbn in Hs, Hst. subst steps.
    by apply recoverWorkflow_spec.
  - subst l. rewrite <-list_fmap_compose.
    rewrite (list_fmap_ext _ row_id) by (intros; cbn; by rewrite workflow_id).
    eapply sublist_NoDup; [apply (rows_nodup (wfs w))|]. apply fmap_sublist, sublist_filter.
  - intros p Hp. by apply Hl.
  - exists w'. split; [done|]. split; [done|]. intros id.
    destruct (decide (id ∈ (λ p, wf_id p.1) <$> l)) as [Hin|Hni].
    + apply list_elem_of_fmap in Hin as (p & -> & Hp). destruct (Hl p Hp) as (_ & Hst & ->).
      rewrite bool_decide_eq_true_2 by done.
      destruct (Hrows p Hp) as (wx & wy & (_ & _ & Ht) & _ & _ & HQ). eauto.
    + rewrite Hother by done. destruct (lookup_row id (wfs w)) as [wf|] eqn:Hwf; [|done].
      rewrite bool_decide_eq_false_2; [done|]. intros Hst. apply Hni.
      apply list_elem_of_fmap. exists (wf, stepsOf (wf_id wf) w). split.
      { apply lookup_row_id in Hwf. by rewrite workflow_id in Hwf. }
      apply list_elem_of_fmap. exists wf. split; [done|]. rewrite find_where_lookup, workflow_id. split; [done|].
      pose proof (lookup_row_id _ _ _ Hwf) as Hid. rewrite workflow_id in Hid. by rewrite Hid.
Qed.
(** * Stuck steps *)

Definition stuck_frame w w' : Prop := calls w' = calls w ∧ ticks w ≤ ticks w' ∧
  ∀ id, lookup_row id (wfs w') = lookup_row id (wfs w) ∨
        ∃ r, lookup_row id (wfs w') = Some r ∧ wf_state r = WorkflowState.FAILED.
#[export] Instance stuck_frame_preorder : PreOrder stuck_frame.
Proof.
  split; [intros w; split_and!; auto|].
  intros w1 w2 w3 (?&?&H1) (?&?&H2). split_and!; [congruence|lia|].
  intros id. destruct (H2 id) as [->|?]; auto.
Qed.

Lemma stuck_frame_tables w w' :
  wfs w' = wfs w → calls w' = calls w → ticks w ≤ ticks w' → stuck_frame w w'.
Proof. intros Hw ??. split_and!; [done..|]. intros id. left. by rewrite Hw. Qed.

Lemma stuck_frame_failed wf w w' :
  stuck_frame w w' → (∃ r, lookup_row (wf_id wf) (wfs w) = Some r ∧ wf_state r = WorkflowState.FAILED) →
  ∃ r, lookup_row (wf_id wf) (wfs w') = Some r ∧ wf_state r = WorkflowState.FAILED.
Proof. intros (_ & _ & H) Hr. destruct (H (wf_id wf)) as [->|?]; done. Qed.

(** The row of a stuck step of the workflow [wf] after it was looked at. *)
Definition stuck_row step wf w' (row : option WorkflowStep) : Prop :=
  ∃ r, row = Some r ∧ same_step step r ∧ st_state r = StepState.FAILED ∧
    st_retryCount r = (st_retryCount step + 1)%Z ∧
    st_failureReason r = Some "Step timed out during service interruption" ∧
    if bool_decide (st_retryCount step + 1 < st_maxRetries step)%Z then is_Some (st_nextRetryAt r)
    else ∃ rw, lookup_row (wf_id wf) (wfs w') = Some rw ∧ wf_state rw = WorkflowState.FAILED.

Definition stuck_outcome (p : WorkflowStep * option Workflow) w' (row : option WorkflowStep) : Prop :=
  match p.2 with
  | Some wf => if bool_decide (wf_state wf = WorkflowState.RUNNING) then stuck_row p.1 wf w' row
               else row = Some p.1
  | None => row = Some p.1
  end.

Lemma stuck_outcome_stable p row w w' : stuck_frame w w' → stuck_outcome p w row → stuck_outcome p w' row.
Proof.
  intros HG. unfold stuck_outcome, stuck_row. destruct p.2 as [wf|]; [|done]. case_bool_decide; [|done].
  intros (r & ? & ? & ? & ? & ? & Hend). exists r. split_and!; try done. case_bool_decide; [done|].
  by eapply stuck_frame_failed.
Qed.

Lemma recoverStuckStep_spec p :
  own_row (λ p : WorkflowStep * option Workflow, st_id p.1) (λ id w, lookup_row id (sts w)) stuck_frame
    (λ p row, row = Some p.1) (λ p _ wy row, stuck_outcome p wy row)
    (λ '(step, workflow), try_catch (recoverStuckStep step workflow) (λ _, mret tt)) p.
Proof.
  destruct p as [step [wf|]]; intros w Hrow; unfold stuck_outcome, stuck_row; cbn [fst snd] in *; cycle 1.
  { exists w. by split_and!. }
  unfold try_catch, recoverStuckStep. destruct (bool_decide (wf_state wf = _)) eqn:Hrun; cbn [negb]; cycle 1.
  { exists w. by split_and!. }
  rewrite (bind_run _ _ w (clock_at (ticks w)) (advance w)) by done. cbv beta zeta. rewrite shouldRetry_step.
  set (step1 := set_st_retryCount _ _).
  change (st_retryCount step1) with (st_retryCount step + 1)%Z.
  change (st_maxRetries step1) with (st_maxRetries step).
  destruct (bool_decide (st_retryCount step + 1 < st_maxRetries step)%Z).
  - set (w1 := advance (advance (advance w))).
    assert (∃ t, calculateNextRetryTime (st_retryCount step + 1) default_base_delay (advance w) = (Return t, w1))
      as [t Ht] by by eexists.
    rewrite (bind_run _ _ (advance w) t w1) by done.
    set (step2 := set_st_nextRetryAt (Some t) step1). exists (saveStep step2 w1).2.
    split; [done|]. split; [apply stuck_frame_tables; cbn; [done|done|lia]|]. split.
    + intros id Hne. by apply (lookup_step_save_ne (clock_at (ticks w1)) step2 (sts w)).
    + destruct (saved_step step step2 w1) as (r & c & u & Hr & ->); [done|].
      eexists. split; [exact Hr|]. by repeat split.
  - rewrite (bind_run _ _ _ (clock_at (ticks (advance w))) (advance (advance w))) by done. cbv beta.
    set (wf1 := set_wf_failureReason _ _). set (w1 := advance (advance w)).
    set (w2 := (saveWorkflow wf1 w1).2). rewrite (bind_run _ _ w1 tt w2) by done.
    destruct (lookup_workflow_save_eq (clock_at (ticks w1)) wf1 (wfs w)) as (c & u & Hl).
    exists (saveStep step1 w2).2. split; [done|]. split; [split_and!; [done|cbn; lia|]|split].
    + intros id. destruct (decide (id = wf_id wf)) as [->|Hne].
      * right. eexists. split; [exact Hl|done].
      * left. by apply (lookup_workflow_save_ne (clock_at (ticks w1)) wf1 (wfs w)).
    + intros id Hne. by apply (lookup_step_save_ne (clock_at (ticks w2)) step1 (sts w)).
    + destruct (saved_step step step1 w2) as (r & c' & u' & Hr & ->); [done|].
      eexists. split; [exact Hr|]. split_and!; try done. eexists. split; [exact Hl|done].
Qed.

Definition stuck (cutoff : Z) step w : bool :=
  bool_decide (st_state step = StepState.RUNNING) && bool_decide (st_updatedAt step < cutoff)%Z.

Lemma foreach_noop {W A} (l : list A) (w : W) : foreach l (λ _, mret tt : eff W unit) w = (Return tt, w).
Proof. induction l as [|x l IH]; [done|]. cbn [foreach]. by rewrite (bind_run _ _ w tt w). Qed.

Lemma cleanupExpiredWorkflows_run w : cleanupExpiredWorkflows w = (Return tt, advance w).
Proof.
  unfold cleanupExpiredWorkflows. rewrite (bind_run _ _ w (clock_at (ticks w)) (advance w)) by done.
  cbv beta zeta. rewrite bind_gets. apply foreach_noop.
Qed.

Lemma on_engine_bind {A B} (m : eff World A) (f : A → eff World B) rs :
  (on_engine m ≫= λ a, on_engine (f a)) rs = on_engine (m ≫= f) rs.
Proof. unfold mbind, eff_bind, on_engine. by destruct (m (engine rs)) as [[a|e] w]. Qed.

Lemma on_engine_flag {A} (m : eff World A) rs : isRecovering (on_engine m rs).2 = isRecovering rs.
Proof. unfold on_engine. by destruct (m (engine rs)). Qed.

(** What a guarded recovery does: nothing when one is under way, and otherwise all of
    [m], after which the flag is down again, whether [m] threw or not. *)
Definition locked {A} (m : eff World A) rs : RecoveryState :=
  if isRecovering rs then rs else mkRecovery false (m (engine rs)).2.

Lemma guarded_run (m : eff World unit) rs :
  (locked ← gets (λ rs : RecoveryState, isRecovering rs);
   if (locked : bool) then mret tt else
   modify (set_isRecovering true) ;;
   try_finally (try_catch (on_engine m) (λ _, mret tt)) (set_isRecovering false)) rs
  = (Return tt, locked m rs).
Proof.
  rewrite bind_gets. unfold locked. destruct (isRecovering rs) eqn:Hl; [done|].
  rewrite (bind_run _ _ rs tt (set_isRecovering true rs)) by done.
  unfold try_finally, try_catch, on_engine, set_isRecovering. cbn [engine isRecovering].
  by destruct (m (engine rs)) as [[[]|e] w].
Qed.

Lemma try_catch_ext {A} (m m' : eff RecoveryState A) h rs :
  m rs = m' rs → try_catch m h rs = try_catch m' h rs.
Proof. intros H. unfold try_catch. by rewrite H. Qed.

(** the recovery flag.  Start-up and scheduled recovery do nothing while a recovery is
    under way; otherwise they run their phases one after the other up to the first that throws,
    never throw themselves, and put the flag down on every path.  The manual trigger neither
    looks at the flag nor moves it. *)
Theorem recovery_lock reg rs :
  performStartupRecovery reg rs =
    (Return tt, locked (recoverOrphanedWorkflows reg ;; recoverStuckSteps ;; cleanupExpiredWorkflows) rs) ∧
  scheduledRecovery reg rs =
    (Return tt, locked (recoverOrphanedWorkflows reg ;; recoverStuckSteps) rs) ∧
  isRecovering (triggerManualRecovery reg rs).2 = isRecovering rs.
Proof.
  split_and!.
  - rewrite <-guarded_run. unfold performStartupRecovery. rewrite !bind_gets.
    destruct (isRecovering rs); [done|]. rewrite !(bind_run _ _ rs tt (set_isRecovering true rs)) by done.
    unfold try_finally. erewrite try_catch_ext; [done|]. rewrite <-on_engine_bind.
    unfold mbind at 1 3, eff_bind at 1 3. destruct (on_engine _ _) as [[[]|e] w]; [|done].
    by rewrite <-on_engine_bind.
  - rewrite <-guarded_run. unfold scheduledRecovery. rewrite !bind_gets.
    destruct (isRecovering rs); [done|]. rewrite !(bind_run _ _ rs tt (set_isRecovering true rs)) by done.
    unfold try_finally. erewrite try_catch_ext; [done|]. by rewrite <-on_engine_bind.
  - apply on_engine_flag.
Qed.

(** the recovery of stuck steps.  [recoverStuckSteps] always returns and calls no
    [execute].  A step that is RUNNING since more than ten minutes in a RUNNING workflow becomes
    FAILED with one retry more; when that was the last, its workflow is FAILED as well, and
    otherwise the step gets a time for its next retry.  Every other step row stays as it was,
    and a workflow row changes only by becoming FAILED. *)
Theorem recoverStuckSteps_spec w :
  ∃ w', recoverStuckSteps w = (Return tt, w') ∧ stuck_frame w w' ∧
    ∀ id, match lookup_row id (sts w) with
      | Some step =>
          if stuck (clock_at (ticks w) - step_staleness) step w
          then stuck_outcome (step, lookup_row (st_workflowId step) (wfs w)) w' (lookup_row id (sts w'))
          else lookup_row id (sts w') = Some step
      | None => lookup_row id (sts w') = None
      end.
Proof.
  unfold recoverStuckSteps. rewrite (bind_run _ _ w (clock_at (ticks w)) (advance w)) by done. cbv beta zeta.
  rewrite bind_gets. change (sts (advance w)) with (sts w). change (wfs (advance w)) with (wfs w).
  set (cutoff := (_ - _)%Z). set (P := λ s, st_state s = StepState.RUNNING ∧ (st_updatedAt s < cutoff)%Z).
  set (l := (λ step, (step, lookup_row (st_workflowId step) (wfs w))) <$> find_where P (sts w)).
  assert (Hl : ∀ p, p ∈ l ↔ p.2 = lookup_row (st_workflowId p.1) (wfs w) ∧ P p.1 ∧
    lookup_row (st_id p.1) (sts w) = Some p.1).
  { intros p. rewrite <-(step_id p.1), <-find_where_lookup. subst l. rewrite list_elem_of_fmap. split.
    - by intros (step & -> & Hs).
    - intros [H2 Hp]. exists p.1. split; [|done]. destruct p; cbn in *. by subst. }
  destruct (foreach_rows _ _ _ _ _ _ l (proj2 (Forall_forall _ _) (λ p _, recoverStuckStep_spec p)))
    with (w := advance w) as (w' & Hrun & Hframe & Hother & Hrows).
  - subst l. rewrite <-list_fmap_compose.
    rewrite (list_fmap_ext _ row_id) by (intros; cbn; by rewrite step_id).
    eapply sublist_NoDup; [apply (rows_nodup (sts w))|]. apply fmap_sublist, sublist_filter.
  - intros p Hp. by apply Hl.
  - exists w'. split; [done|]. split; [etrans; [|done]; apply stuck_frame_tables; cbn; [done|done|lia]|].
    intros id. destruct (lookup_row id (sts w)) as [step|] eqn:Hstep.
    + pose proof (lookup_row_id _ _ _ Hstep) as Hid. rewrite step_id in Hid. subst id.
      assert (Hin : (step, lookup_row (st_workflowId step) (wfs w)) ∈ l ↔ stuck cutoff step w = true).
      { rewrite Hl. unfold stuck, P. cbn. rewrite andb_true_iff, !bool_decide_eq_true. naive_solver. }
      destruct (stuck cutoff step w).
      * destruct (Hrows _ (proj2 Hin eq_refl)) as (wx & wy & _ & _ & HG & HQ).
        by eapply stuck_outcome_stable.
      * rewrite Hother; [done|]. intros ([s o] & Heq & Hp)%list_elem_of_fmap. cbn in Heq.
        pose proof (proj1 (Hl _) Hp) as (Ho & _ & Hlk). cbn in *. rewrite <-Heq, Hstep in Hlk.
        simplify_eq. by apply proj1 in Hin; specialize (Hin Hp).
    + rewrite Hother; [done|]. intros ([s o] & -> & Hp)%list_elem_of_fmap.
      apply Hl in Hp as (_ & _ & Hlk). cbn in *. congruence.
Qed.
End Recovery.
