(* ===== verification/Monitoring.v ===== *)
(** [workflow/services/monitoring.service.ts]: metrics, the timeline of a
    workflow and the health of the engine.  Quotients of counts and durations are
    exact rationals: the rounding of floating point is not modelled. *)
From Stdlib Require Import QArith.
From S2P Require Import Prelude Json Repository WorkflowTypes StateMachine WorkflowExecution ExecutionFacts.
From S2P Require Import ExecutionControl.
Open Scope nat_scope.

(** ** Quotients *)

(** [n > 0 ? a / n : 0], and the same in percent. *)
Definition ratio (a n : Z) : Q := if bool_decide (0 < n)%Z then (a # Z.to_pos n) else 0%Q.
Definition percentage (a n : Z) : Q :=
  if bool_decide (0 < n)%Z then ((a # Z.to_pos n) * 100)%Q else 0%Q.

Lemma percentage_bounds a n : (0 ≤ a ≤ n)%Z → (0 <= percentage a n <= 100)%Q.
Proof.
  intros Ha. unfold percentage. case_bool_decide as Hn; [|by split].
  unfold Qle. cbn. lia.
Qed.

Lemma percentage_sum a b n : (percentage a n + percentage b n == percentage (a + b) n)%Q.
Proof.
  unfold percentage. case_bool_decide; [|done]. unfold Qeq. cbn. nia.
Qed.

Section Monitoring.
Context {DBW DBS : Type} `{!WorkflowTable DBW, !StepTable DBS, CLK : Clock}.
Local Abbreviation World := (World DBW DBS).
Implicit Types (wf : Workflow) (step : WorkflowStep) (w : World).

Definition ms_per_hour : Z := 3600000.

(** A [Record] over an enumeration: what [{[A]: 0, [B]: 0, ...}] starts. *)
Definition bump {K} `{EqDecision K} (k : K) (counts : K → Z) : K → Z :=
  λ k', if decide (k' = k) then (counts k' + 1)%Z else counts k'.

(** ** Workflow metrics *)

Record WorkflowMetrics := mkWorkflowMetrics {
  wm_totalWorkflows : Z;
  wm_workflowsByState : WorkflowState.t → Z;
  wm_averageDuration : Q;
  wm_successRate : Q;
  wm_failureRate : Q;
  wm_retryRate : Q;
}.

(** The local variables of the [forEach]. *)
Record WorkflowTally := mkWorkflowTally {
  wt_byState : WorkflowState.t → Z; wt_duration : Z; wt_completed : Z; wt_failed : Z; wt_retries : Z }.

Definition tally_workflow (t : WorkflowTally) wf : WorkflowTally :=
  let '(mkWorkflowTally byState duration completed failed retries) := t in
  let byState := bump (wf_state wf) byState in
  let '(duration, completed) :=
    match wf_startedAt wf, wf_completedAt wf with
    | Some startedAt, Some completedAt =>
        if bool_decide (wf_state wf = WorkflowState.COMPLETED)
        then ((duration + (completedAt - startedAt))%Z, (completed + 1)%Z)
        else (duration, completed)
    | _, _ => (duration, completed)
    end in
  let failed := if bool_decide (wf_state wf = WorkflowState.FAILED) then (failed + 1)%Z else failed in
  mkWorkflowTally byState duration completed failed (retries + wf_retryCount wf)%Z.

Definition tally_workflows (workflows : list Workflow) : WorkflowTally :=
  foldl tally_workflow (mkWorkflowTally (λ _, 0%Z) 0 0 0 0) workflows.

(** [find({ where: { createdAt: Between(since, new Date()) } })] *)
Definition workflows_since (timeRangeHours : Z) : eff World (list Workflow) :=
  t ← date_now;
  now ← date_now;
  gets (λ w, find_where (λ wf, (t - timeRangeHours * ms_per_hour ≤ wf_createdAt wf ≤ now)%Z) (wfs w)).

Definition getWorkflowMetrics (timeRangeHours : Z) : eff World WorkflowMetrics :=
  workflows ← workflows_since timeRangeHours;
  let totalWorkflows := Z.of_nat (length workflows) in
  let t := tally_workflows workflows in
  mret (mkWorkflowMetrics totalWorkflows (wt_byState t) (ratio (wt_duration t) (wt_completed t))
    (percentage (wt_completed t) totalWorkflows) (percentage (wt_failed t) totalWorkflows)
    (ratio (wt_retries t) totalWorkflows)).

(** ** Step metrics *)

Record StepMetrics := mkStepMetrics {
  sm_totalSteps : Z;
  sm_stepsByState : StepState.t → Z;
  sm_averageStepDuration : Q;
  sm_stepSuccessRate : Q;
  sm_stepFailureRate : Q;
  sm_mostFailedSteps : list (string * Z);
}.

Record StepTally := mkStepTally {
  tl_byState : StepState.t → Z; tl_duration : Z; tl_completed : Z; tl_failed : Z;
  tl_failures : list (string * Z) }.

(** [counts[name] = (counts[name] || 0) + 1] *)
Definition count_failure (name : string) (counts : list (string * Z)) : list (string * Z) :=
  assoc_set name (default 0 (assoc name counts) + 1)%Z counts.

Definition tally_step (t : StepTally) step : StepTally :=
  let '(mkStepTally byState duration completed failed failures) := t in
  let byState := bump (st_state step) byState in
  let '(duration, completed) :=
    match st_startedAt step, st_completedAt step with
    | Some startedAt, Some completedAt =>
        if bool_decide (st_state step = StepState.COMPLETED)
        then ((duration + (completedAt - startedAt))%Z, (completed + 1)%Z)
        else (duration, completed)
    | _, _ => (duration, completed)
    end in
  if bool_decide (st_state step = StepState.FAILED) then
    mkStepTally byState duration completed (failed + 1) (count_failure (st_stepName step) failures)
  else mkStepTally byState duration completed failed failures.

Definition tally_steps (steps : list WorkflowStep) : StepTally :=
  foldl tally_step (mkStepTally (λ _, 0%Z) 0 0 0 []) steps.

Definition getStepMetrics (timeRangeHours : Z) : eff World StepMetrics :=
  t ← date_now;
  now ← date_now;
  steps ← gets (λ w, find_where (λ s, (t - timeRangeHours * ms_per_hour ≤ st_createdAt s ≤ now)%Z) (sts w));
  let totalSteps := Z.of_nat (length steps) in
  let t := tally_steps steps in
  let mostFailedSteps := take 5 (sort_on (λ p : string * Z, (- p.2)%Z) (tl_failures t)) in
  mret (mkStepMetrics totalSteps (tl_byState t) (ratio (tl_duration t) (tl_completed t))
    (percentage (tl_completed t) totalSteps) (percentage (tl_failed t) totalSteps) mostFailedSteps).

(** ** Timeline *)

Record TimelineEvent := mkEvent {
  te_timestamp : Z; te_eventType : string; te_description : string; te_metadata : option jsobj }.

(** A nullable column as a value. *)
Definition js_string (o : option string) : jsval := match o with Some s => JString s | None => JNull end.

(** [if (t) timeline.push(...)] *)
Definition event_at (t : option Z) (f : Z → TimelineEvent) : list TimelineEvent :=
  match t with Some t => [f t] | None => [] end.

Definition step_events step : list TimelineEvent :=
  event_at (st_startedAt step) (λ t, mkEvent t "STEP_STARTED" ("Step '" +:+ st_stepName step +:+ "' started")
    (Some [("stepIndex", JNumber (st_stepIndex step)); ("retryCount", JNumber (st_retryCount step))])) ++
  event_at (st_completedAt step) (λ t, mkEvent t "STEP_COMPLETED" ("Step '" +:+ st_stepName step +:+ "' completed")
    (Some [("duration", JNumber (t - or_number (st_startedAt step) t));
           ("outputKeys", JArray (match st_output step with
              | Some o => if truthy o then JString <$> object_keys o else []
              | None => [] end))])) ++
  event_at (st_failedAt step) (λ t, mkEvent t "STEP_FAILED" ("Step '" +:+ st_stepName step +:+ "' failed")
    (Some [("failureReason", js_string (st_failureReason step)); ("retryCount", JNumber (st_retryCount step))])) ++
  event_at (st_compensatedAt step) (λ t, mkEvent t "STEP_COMPENSATED" ("Step '" +:+ st_stepName step +:+ "' compensated")
    None).

Definition getWorkflowTimeline (workflowId : string) : eff World (list TimelineEvent) :=
  workflow ← findWorkflow workflowId;
  match workflow with
  | None => throw (Error ("Workflow not found: " +:+ workflowId))
  | Some wf =>
      steps ← gets (stepsOf workflowId);
      let timeline :=
        [mkEvent (wf_createdAt wf) "WORKFLOW_CREATED" ("Workflow " +:+ wf_type wf +:+ " created")
           (Some [("idempotencyKey", JString (wf_idempotencyKey wf)); ("userId", js_string (wf_userId wf));
                  ("walletAddress", js_string (wf_walletAddress wf))])] ++
        event_at (wf_startedAt wf) (λ t, mkEvent t "WORKFLOW_STARTED" "Workflow execution started" None) ++
        (sort_on st_stepIndex steps ≫= step_events) in
      completion ← match wf_completedAt wf, wf_startedAt wf with
                   | Some completedAt, Some startedAt =>
                       mret [mkEvent completedAt "WORKFLOW_COMPLETED" "Workflow completed successfully"
                         (Some [("totalDuration", JNumber (completedAt - startedAt));
                                ("totalSteps", JNumber (wf_totalSteps wf));
                                ("retryCount", JNumber (wf_retryCount wf))])]
                   | Some _, None => throw (TypeError "Cannot read properties of null (reading 'getTime')")
                   | None, _ => mret []
                   end;
      let timeline := timeline ++ completion ++
        event_at (wf_failedAt wf) (λ t, mkEvent t "WORKFLOW_FAILED" "Workflow failed"
          (Some [("failureReason", js_string (wf_failureReason wf)); ("currentStep", JNumber (wf_currentStepIndex wf));
                 ("retryCount", JNumber (wf_retryCount wf))])) ++
        (if wf_isCompensated wf then
           [mkEvent (default (wf_updatedAt wf) (wf_completedAt wf)) "WORKFLOW_COMPENSATED"
              "Workflow compensation completed" None]
         else []) in
      mret (sort_on te_timestamp timeline)
  end.

(** ** Health *)

Inductive EngineStatus : Set := healthy | degraded | unhealthy.

Record SystemHealth := mkHealth {
  sh_databaseConnection : bool;
  sh_workflowEngineStatus : EngineStatus;
  sh_pendingWorkflows : Z;
  sh_runningWorkflows : Z;
  sh_recentFailures : Z;
  sh_averageResponseTime : Q;
}.

(** [databaseConnection] says whether [query('SELECT 1')] came back. *)
Definition getSystemHealth (databaseConnection : bool) : eff World SystemHealth :=
  pendingWorkflows ← gets (λ w, count_where (λ wf, wf_state wf = WorkflowState.PENDING) (wfs w));
  runningWorkflows ← gets (λ w, count_where (λ wf, wf_state wf = WorkflowState.RUNNING) (wfs w));
  t1 ← date_now;
  t2 ← date_now;
  recentFailures ← gets (λ w, count_where
    (λ wf, wf_state wf = WorkflowState.FAILED ∧ between (t1 - ms_per_hour)%Z t2 (wf_failedAt wf)) (wfs w));
  t3 ← date_now;
  t4 ← date_now;
  recentCompleted ← gets (λ w, find_where
    (λ wf, wf_state wf = WorkflowState.COMPLETED ∧ between (t3 - ms_per_hour)%Z t4 (wf_completedAt wf)) (wfs w));
  let totalDuration := foldl (λ sum wf,
    match wf_startedAt wf, wf_completedAt wf with
    | Some startedAt, Some completedAt => (sum + (completedAt - startedAt))%Z
    | _, _ => sum
    end) 0%Z recentCompleted in
  let averageResponseTime := ratio totalDuration (Z.of_nat (length recentCompleted)) in
  let workflowEngineStatus :=
    if negb databaseConnection then unhealthy
    else if bool_decide (recentFailures > 10)%Z || bool_decide (runningWorkflows > 1000)%Z then degraded
    else healthy in
  mret (mkHealth databaseConnection workflowEngineStatus pendingWorkflows runningWorkflows
          recentFailures averageResponseTime).

(** ** Types *)

Record TypeStats := mkTypeStats { ts_total : Z; ts_completed : Z }.

Definition tally_type (stats : list (string * TypeStats)) wf : list (string * TypeStats) :=
  let s := default (mkTypeStats 0 0) (assoc (wf_type wf) stats) in
  assoc_set (wf_type wf)
    (mkTypeStats (ts_total s + 1)
       (if bool_decide (wf_state wf = WorkflowState.COMPLETED) then ts_completed s + 1 else ts_completed s)) stats.

Definition getWorkflowTypeDistribution (timeRangeHours : Z) : eff World (list (string * Z * Q)) :=
  workflows ← workflows_since timeRangeHours;
  mret ((λ '(type, stats), (type, ts_total stats, percentage (ts_completed stats) (ts_total stats))) <$>
        foldl tally_type [] workflows).

(** * The counts *)

Definition count {A} (P : A → Prop) `{∀ x, Decision (P x)} (l : list A) : Z := Z.of_nat (length (filter P l)).

Lemma count_snoc {A} (P : A → Prop) `{∀ x, Decision (P x)} l x :
  count P (l ++ [x]) = (count P l + if decide (P x) then 1 else 0)%Z.
Proof.
  unfold count. rewrite filter_app, length_app, filter_cons, filter_nil. case_decide; cbn; lia.
Qed.

Lemma count_nonneg {A} (P : A → Prop) `{∀ x, Decision (P x)} l : (0 ≤ count P l)%Z.
Proof. unfold count. lia. Qed.

Definition workflow_tally_ok (t : WorkflowTally) (l : list Workflow) : Prop :=
  (∀ s, wt_byState t s = count (λ wf, wf_state wf = s) l) ∧
  (0 ≤ wt_completed t ≤ wt_byState t WorkflowState.COMPLETED)%Z ∧
  wt_failed t = wt_byState t WorkflowState.FAILED.

Lemma tally_workflows_ok l : workflow_tally_ok (tally_workflows l) l.
Proof.
  induction l as [|wf l IH] using rev_ind; [by repeat split|].
  unfold tally_workflows. rewrite foldl_app. fold (tally_workflows l). cbn [foldl].
  destruct (tally_workflows l) as [by_ dur com fai ret]. destruct IH as (Hby & Hcom & Hfai). cbn in *.
  unfold workflow_tally_ok, tally_workflow.
  assert (∀ s, bump (wf_state wf) by_ s = count (λ wf, wf_state wf = s) (l ++ [wf])) as Hs.
  { intros s. rewrite count_snoc, <-Hby. unfold bump. repeat case_decide; try congruence; lia. }
  destruct (wf_startedAt wf), (wf_completedAt wf); repeat case_bool_decide; cbn; split_and!; try done;
    unfold bump; repeat case_decide; try congruence; lia.
Qed.

Lemma sum_by_state l :
  foldr Z.add 0%Z ((λ s, count (λ wf, wf_state wf = s) l) <$> WorkflowState.all) = Z.of_nat (length l).
Proof.
  induction l as [|wf l IH] using rev_ind; [done|]. rewrite length_app. cbn [length].
  rewrite Nat2Z.inj_add, <-IH. cbn -[count]. rewrite !count_snoc. destruct (wf_state wf);
    repeat (case_decide; try congruence); lia.
Qed.

Lemma workflows_since_run h w :
  workflows_since h w = (Return (find_where (λ wf, (clock_at (ticks w) - h * ms_per_hour ≤ wf_createdAt wf
    ≤ clock_at (ticks (advance w)))%Z) (wfs w)), advance (advance w)).
Proof. done. Qed.

(** the workflow metrics are consistent.  They count the workflows created in the time
    window: [workflowsByState] gives the number in each state, these add up to
    [totalWorkflows], and the success and failure rates are percentages that together do not
    exceed 100, the failure rate being exactly the share of FAILED workflows. *)
Theorem getWorkflowMetrics_consistent timeRangeHours w :
  let window := find_where (λ wf, (clock_at (ticks w) - timeRangeHours * ms_per_hour ≤ wf_createdAt wf
    ≤ clock_at (ticks (advance w)))%Z) (wfs w) in
  ∃ m, getWorkflowMetrics timeRangeHours w = (Return m, advance (advance w)) ∧
    (∀ s, wm_workflowsByState m s = count (λ wf, wf_state wf = s) window) ∧
    wm_totalWorkflows m = foldr Z.add 0%Z (wm_workflowsByState m <$> WorkflowState.all) ∧
    (0 <= wm_successRate m <= 100)%Q ∧
    wm_failureRate m = percentage (wm_workflowsByState m WorkflowState.FAILED) (wm_totalWorkflows m) ∧
    (wm_successRate m + wm_failureRate m <= 100)%Q.
Proof.
  cbv zeta. set (l := find_where _ (wfs w)). unfold getWorkflowMetrics.
  rewrite (bind_run _ _ w l (advance (advance w))) by apply workflows_since_run.
  destruct (tally_workflows_ok l) as (Hby & Hcom & Hfai). set (t := tally_workflows l) in *.
  pose proof (sum_by_state l) as Hsum. cbn in Hsum. rewrite <-!Hby in Hsum.
  assert (∀ s, 0 ≤ wt_byState t s)%Z as Hnn by (intros s; rewrite Hby; apply count_nonneg).
  pose proof (Hnn WorkflowState.PENDING). pose proof (Hnn WorkflowState.RUNNING).
  pose proof (Hnn WorkflowState.FAILED). pose proof (Hnn WorkflowState.CANCELLED).
  pose proof (Hnn WorkflowState.COMPENSATING). pose proof (Hnn WorkflowState.COMPENSATED).
  eexists. split; [reflexivity|]. cbn -[percentage]. split_and!.
  - done.
  - cbn in Hsum. lia.
  - apply percentage_bounds. lia.
  - apply percentage_bounds. lia.
  - by rewrite Hfai.
  - rewrite percentage_sum. apply percentage_bounds. lia.
Qed.

(** ** Steps *)

Definition failures_of (name : string) (l : list WorkflowStep) : Z :=
  count (λ s, st_state s = StepState.FAILED ∧ st_stepName s = name) l.

Lemma assoc_set_keys {A} k k' (v : A) l : k' ∈ (assoc_set k v l).*1 ↔ k' = k ∨ k' ∈ l.*1.
Proof.
  induction l as [|[k0 v0] l IH]; csimpl; [by rewrite list_elem_of_singleton, elem_of_nil; naive_solver|].
  case_bool_decide as Hd; csimpl; rewrite !elem_of_cons, ?IH; naive_solver.
Qed.

Lemma assoc_set_NoDup {A} k (v : A) l : NoDup l.*1 → NoDup (assoc_set k v l).*1.
Proof.
  induction l as [|[k0 v0] l IH]; csimpl; intros Hnd; [apply NoDup_singleton|].
  apply NoDup_cons in Hnd as [Hk Hnd]. case_bool_decide as Hd; csimpl; [subst; by constructor|].
  constructor; [|by apply IH]. rewrite assoc_set_keys. naive_solver.
Qed.

(** The table of failures: each name that failed, with its number of failures. *)
Definition failure_table (failures : list (string * Z)) (l : list WorkflowStep) : Prop :=
  NoDup failures.*1 ∧ ∀ name n, (name, n) ∈ failures ↔ n = failures_of name l ∧ (0 < n)%Z.

Lemma failure_table_snoc failures l step : st_state step = StepState.FAILED →
  failure_table failures l → failure_table (count_failure (st_stepName step) failures) (l ++ [step]).
Proof.
  intros Hst [Hnd Hf]. unfold count_failure. set (n0 := st_stepName step).
  assert (default 0 (assoc n0 failures) = failures_of n0 l)%Z as Hcur.
  { destruct (assoc n0 failures) as [n|] eqn:E1; cbn.
    - apply assoc_elem in E1; [|done]. by apply Hf in E1 as [-> _].
    - assert (¬ (0 < failures_of n0 l)%Z).
      { intros Hpos. assert ((n0, failures_of n0 l) ∈ failures) as Hin by by apply Hf.
        apply assoc_elem in Hin; [congruence|done]. }
      pose proof (count_nonneg (λ s, st_state s = StepState.FAILED ∧ st_stepName s = n0) l).
      unfold failures_of in *. lia. }
  rewrite Hcur. pose proof (assoc_set_NoDup n0 (failures_of n0 l + 1)%Z failures Hnd) as Hnd'.
  split; [done|]. intros name n. rewrite assoc_elem by done. unfold failures_of at 2. rewrite count_snoc.
  fold (failures_of name l).
  destruct (decide (n0 = name)) as [<-|Hne].
  - rewrite assoc_set_eq, decide_True by done.
    pose proof (count_nonneg (λ s, st_state s = StepState.FAILED ∧ st_stepName s = n0) l) as Hn.
    fold (failures_of n0 l) in Hn. split; [intros [=]; lia|]. intros [-> _]. done.
  - rewrite assoc_set_ne, <-assoc_elem, Hf by done. rewrite decide_False by (intros [_ ?]; done).
    rewrite Z.add_0_r. done.
Qed.

Definition step_tally_ok (t : StepTally) (l : list WorkflowStep) : Prop :=
  (∀ s, tl_byState t s = count (λ r, st_state r = s) l) ∧
  (0 ≤ tl_completed t ≤ tl_byState t StepState.COMPLETED)%Z ∧
  tl_failed t = tl_byState t StepState.FAILED ∧ failure_table (tl_failures t) l.

Lemma tally_steps_ok l : step_tally_ok (tally_steps l) l.
Proof.
  induction l as [|step l IH] using rev_ind.
  { repeat split; cbn; try done; [apply NoDup_nil_2|set_solver|set_solver|]. intros [-> ?]. done. }
  unfold tally_steps. rewrite foldl_app. fold (tally_steps l). cbn [foldl].
  destruct (tally_steps l) as [by_ dur com fai fls]. destruct IH as (Hby & Hcom & Hfai & Hfls). cbn in *.
  unfold step_tally_ok, tally_step.
  assert (∀ s, bump (st_state step) by_ s = count (λ r, st_state r = s) (l ++ [step])) as Hs.
  { intros s. rewrite count_snoc, <-Hby. unfold bump. repeat case_decide; try congruence; lia. }
  assert (failure_table (if bool_decide (st_state step = StepState.FAILED)
    then count_failure (st_stepName step) fls else fls) (l ++ [step])) as Hft.
  { case_bool_decide as Hst; [by apply failure_table_snoc|]. destruct Hfls as [Hnd Hf]. split; [done|].
    intros name n. rewrite Hf. unfold failures_of. rewrite count_snoc, decide_False by naive_solver.
    by rewrite Z.add_0_r. }
  revert Hft. destruct (st_startedAt step), (st_completedAt step); repeat case_bool_decide; cbn;
    intros Hft; split_and!; try done; unfold bump; repeat case_decide; try congruence; lia.
Qed.

(** [mostFailedSteps] is the top five.  The list is sorted by failures, descending; each
    entry is a step name with its number of FAILED steps in the window, which is positive; no
    name occurs twice, at most five are listed, and a name that is left out while it has
    failures has no more of them than any that is listed, the list then being full. *)
Theorem getStepMetrics_most_failed timeRangeHours w :
  let window := find_where (λ s, (clock_at (ticks w) - timeRangeHours * ms_per_hour ≤ st_createdAt s
    ≤ clock_at (ticks (advance w)))%Z) (sts w) in
  ∃ m, getStepMetrics timeRangeHours w = (Return m, advance (advance w)) ∧
    let top := sm_mostFailedSteps m in
    length top ≤ 5 ∧ NoDup top.*1 ∧ StronglySorted (λ p q, q.2 ≤ p.2)%Z top ∧
    (∀ name n, (name, n) ∈ top → n = failures_of name window ∧ (0 < n)%Z) ∧
    (∀ name, (0 < failures_of name window)%Z → name ∉ top.*1 →
       length top = 5 ∧ ∀ p, p ∈ top → (failures_of name window ≤ p.2)%Z).
Proof.
  cbv zeta. set (l := find_where _ (sts w)).
  destruct (tally_steps_ok l) as (_ & _ & _ & Hnd & Hf).
  set (full := sort_on (λ p : string * Z, (- p.2)%Z) (tl_failures (tally_steps l))).
  assert (full ≡ₚ tl_failures (tally_steps l)) as Hp by apply sort_on_perm.
  assert (StronglySorted (λ p q : string * Z, q.2 ≤ p.2)%Z full) as Hsort.
  { pose proof (sort_on_sorted (λ p : string * Z, (- p.2)%Z) (tl_failures (tally_steps l))) as Hs.
    fold full in Hs. clear -Hs. induction Hs as [|x k Hs IH Hall]; constructor; [done|].
    eapply Forall_impl; [done|]. intros y. unfold key_le. lia. }
  assert (NoDup full.*1) as Hnd' by by rewrite Hp.
  rewrite <-(take_drop 5 full) in Hnd', Hsort. rewrite fmap_app in Hnd'.
  assert (∀ p, p ∈ full ↔ p ∈ take 5 full ∨ p ∈ list.drop 5 full) as Happ
    by (intros p; rewrite <-elem_of_app, take_drop; done).
  eexists. split; [reflexivity|]. cbv zeta. change (sm_mostFailedSteps _) with (take 5 full). split_and!.
  - rewrite length_take. lia.
  - by apply NoDup_app in Hnd' as [? _].
  - by apply StronglySorted_app in Hsort as (_ & ? & _).
  - intros name n Hin. apply Hf. rewrite <-Hp. apply Happ. by left.
  - intros name Hpos Hni. assert ((name, failures_of name l) ∈ list.drop 5 full) as Hdrop.
    { assert ((name, failures_of name l) ∈ full) as [Hin|?]%Happ by (rewrite Hp; by apply Hf); [|done].
      destruct Hni. by apply (list_elem_of_fmap_2 fst) in Hin. }
    split.
    + rewrite length_take. assert (list.drop 5 full ≠ []) by (intros E1; by rewrite E1, elem_of_nil in Hdrop).
      destruct (decide (5 ≤ length full)); [lia|]. rewrite drop_ge in H by lia. done.
    + intros p Hin. apply StronglySorted_app in Hsort as (Hsep & _). by apply (Hsep p (name, failures_of name l)).
Qed.

(** ** The timeline *)

Definition completed_message : string := "Workflow completed successfully".

Lemma getWorkflowTimeline_run workflowId wf w :
  lookup_row workflowId (wfs w) = Some wf →
  if bool_decide (is_Some (wf_completedAt wf) ∧ wf_startedAt wf = None) then
    getWorkflowTimeline workflowId w = (Throw (TypeError "Cannot read properties of null (reading 'getTime')"), w)
  else ∃ l, getWorkflowTimeline workflowId w = (Return (sort_on te_timestamp l), w) ∧
    (∀ s e, s ∈ stepsOf workflowId w → e ∈ step_events s → e ∈ l) ∧
    (is_Some (wf_completedAt wf) → ∃ e, e ∈ l ∧ te_description e = completed_message).
Proof.
  intros Hwf. unfold getWorkflowTimeline. rewrite (bind_run _ _ w _ w (findWorkflow_run _ _ _ Hwf)).
  rewrite bind_gets. cbv zeta. case_bool_decide as Hb.
  - destruct Hb as [[t Ht] Hs]. by rewrite Ht, Hs.
  - destruct (wf_completedAt wf) as [t|] eqn:Ht; [destruct (wf_startedAt wf) as [t0|] eqn:Hs|].
    + rewrite bind_mret. eexists. split; [reflexivity|]. split.
      * intros s e Hin He. rewrite !elem_of_app. left. right. right.
        apply list_elem_of_bind. exists s. by rewrite elem_of_sort_on.
      * intros _. eexists. split; [rewrite !elem_of_app; right; left; left|done].
    + destruct Hb. eauto.
    + destruct (wf_startedAt wf); rewrite bind_mret; (eexists; split; [reflexivity|]; split; [|by intros [? ?]]);
        intros s e Hin He; rewrite !elem_of_app; left; right; right; apply list_elem_of_bind; exists s; by rewrite elem_of_sort_on.
Qed.

(** the timeline of a workflow.  [getWorkflowTimeline] throws a TypeError exactly on a
    workflow that has a completion time but never started; on any other it returns its events,
    every event of every step among them, sorted by time.  It changes nothing. *)
Theorem getWorkflowTimeline_sorted workflowId wf w :
  lookup_row workflowId (wfs w) = Some wf →
  if bool_decide (is_Some (wf_completedAt wf) ∧ wf_startedAt wf = None) then
    ∃ msg, getWorkflowTimeline workflowId w = (Throw (TypeError msg), w)
  else ∃ timeline, getWorkflowTimeline workflowId w = (Return timeline, w) ∧
    StronglySorted (λ e e', te_timestamp e ≤ te_timestamp e')%Z timeline ∧
    ∀ s e, s ∈ stepsOf workflowId w → e ∈ step_events s → e ∈ timeline.
Proof.
  intros Hwf. pose proof (getWorkflowTimeline_run workflowId wf w Hwf) as H. case_bool_decide; [by eexists|].
  destruct H as (l & -> & Hsteps & _). eexists. split; [reflexivity|]. split; [apply (sort_on_sorted te_timestamp)|].
  intros s e Hs He. rewrite elem_of_sort_on. eauto.
Qed.

(** what a cancellation looks like afterwards.  Once [cancelWorkflow] has cancelled a
    workflow, its timeline cannot be shown if it had not started (the request fails with a
    TypeError), and otherwise reports that the workflow completed successfully. *)
Theorem cancelled_timeline workflowId wf w :
  lookup_row workflowId (wfs w) = Some wf →
  canTransitionWorkflow (wf_state wf) WorkflowState.CANCELLED = true →
  ∃ w', cancelWorkflow workflowId w = (Return tt, w') ∧
    match wf_startedAt wf with
    | None => ∃ msg, getWorkflowTimeline workflowId w' = (Throw (TypeError msg), w')
    | Some _ => ∃ timeline e, getWorkflowTimeline workflowId w' = (Return timeline, w') ∧
        e ∈ timeline ∧ te_description e = completed_message
    end.
Proof.
  intros Hwf Htr. destruct (cancelWorkflow_run workflowId wf w Hwf Htr)
    as (w' & r & Hrun & _ & _ & _ & Hr & _ & Hc & Hs).
  exists w'. split; [done|]. pose proof (getWorkflowTimeline_run workflowId r w' Hr) as H. rewrite Hc, Hs in H.
  destruct (wf_startedAt wf) as [t|].
  - rewrite bool_decide_eq_false_2 in H by (intros [_ ?]; done).
    destruct H as (l & -> & _ & (e & He & Hd)); [done|]. do 2 eexists. split; [reflexivity|].
    by rewrite elem_of_sort_on.
  - rewrite bool_decide_eq_true_2 in H by eauto. by eexists.
Qed.

(** ** Types *)

Definition type_table (stats : list (string * TypeStats)) (l : list Workflow) : Prop :=
  NoDup stats.*1 ∧ ∀ type s, (type, s) ∈ stats ↔
    s = mkTypeStats (count (λ wf, wf_type wf = type) l)
          (count (λ wf, wf_type wf = type ∧ wf_state wf = WorkflowState.COMPLETED) l) ∧ (0 < ts_total s)%Z.

Lemma type_table_snoc stats l wf : type_table stats l → type_table (tally_type stats wf) (l ++ [wf]).
Proof.
  intros [Hnd Hf]. unfold tally_type. set (k := wf_type wf).
  set (cur type l := mkTypeStats (count (λ wf, wf_type wf = type) l)
          (count (λ wf, wf_type wf = type ∧ wf_state wf = WorkflowState.COMPLETED) l)).
  assert (default (mkTypeStats 0 0) (assoc k stats) = cur k l) as ->.
  { destruct (assoc k stats) as [s|] eqn:E1; cbn.
    - apply assoc_elem in E1; [|done]. by apply Hf in E1 as [-> _].
    - assert (¬ (0 < count (λ wf, wf_type wf = k) l)%Z) as Hz.
      { intros Hpos. assert ((k, cur k l) ∈ stats) as Hin by by apply Hf.
        apply assoc_elem in Hin; [congruence|done]. }
      pose proof (count_nonneg (λ wf, wf_type wf = k) l).
      assert (filter (λ wf, wf_type wf = k ∧ wf_state wf = WorkflowState.COMPLETED) l = []) as Hnil.
      { destruct (filter _ l) as [|x l'] eqn:E2; [done|exfalso].
        assert (x ∈ x :: l') as Hx by left. rewrite <-E2 in Hx. apply list_elem_of_filter in Hx as [[Hk _] Hx].
        apply Hz. unfold count. assert (x ∈ filter (λ wf, wf_type wf = k) l) as Hin by by apply list_elem_of_filter.
        destruct (filter (λ wf, wf_type wf = k) l); [by apply elem_of_nil in Hin|cbn; lia]. }
      unfold cur. f_equal; [lia|]. unfold count. by rewrite Hnil. }
  split; [by apply assoc_set_NoDup|]. intros type s.
  rewrite assoc_elem by by apply assoc_set_NoDup. rewrite !count_snoc. fold k.
  destruct (decide (k = type)) as [<-|Hne].
  - rewrite assoc_set_eq. unfold cur. cbn -[count].
    pose proof (count_nonneg (λ wf, wf_type wf = k) l) as Hn.
    assert ((if bool_decide (wf_state wf = WorkflowState.COMPLETED)
       then count (λ wf, wf_type wf = k ∧ wf_state wf = WorkflowState.COMPLETED) l + 1
       else count (λ wf, wf_type wf = k ∧ wf_state wf = WorkflowState.COMPLETED) l) =
      count (λ wf, wf_type wf = k ∧ wf_state wf = WorkflowState.COMPLETED) l +
      (if decide (k = k ∧ wf_state wf = WorkflowState.COMPLETED) then 1 else 0))%Z as ->.
    { case_bool_decide; case_decide; naive_solver lia. }
    split; [intros [=]; subst; cbn -[count]; split; [done|lia]|]. intros [-> _]. done.
  - rewrite assoc_set_ne, <-assoc_elem, Hf by done.
    rewrite (decide_False (P := k = type ∧ _)) by naive_solver. rewrite !Z.add_0_r. done.
Qed.

(** the distribution over types.  [getWorkflowTypeDistribution] has one entry for each
    type of which the window holds a workflow, with their number and the percentage of them
    that are COMPLETED. *)
Theorem getWorkflowTypeDistribution_spec timeRangeHours w :
  let window := find_where (λ wf, (clock_at (ticks w) - timeRangeHours * ms_per_hour ≤ wf_createdAt wf
    ≤ clock_at (ticks (advance w)))%Z) (wfs w) in
  ∃ l, getWorkflowTypeDistribution timeRangeHours w = (Return l, advance (advance w)) ∧
    NoDup (l.*1).*1 ∧
    ∀ type n rate, (type, n, rate) ∈ l ↔
      n = count (λ wf, wf_type wf = type) window ∧ (0 < n)%Z ∧
      rate = percentage (count (λ wf, wf_type wf = type ∧ wf_state wf = WorkflowState.COMPLETED) window) n.
Proof.
  cbv zeta. set (window := find_where _ _).
  assert (type_table (foldl tally_type [] window) window) as [Hnd Hf].
  { generalize window. clear. intros l. induction l as [|wf l IH] using rev_ind.
    - split; [apply NoDup_nil_2|]. intros type s. rewrite elem_of_nil. split; [done|]. intros [-> H]. done.
    - rewrite foldl_app. by apply type_table_snoc. }
  exists ((λ '(type, stats), (type, ts_total stats, percentage (ts_completed stats) (ts_total stats))) <$>
        foldl tally_type [] window). split; [done|]. split.
  - rewrite <-!list_fmap_compose. by rewrite (list_fmap_ext _ fst) by by intros i [??].
  - intros type n rate. rewrite list_elem_of_fmap. split.
    + intros ([k s] & Heq & Hin). apply Hf in Hin as [-> Hpos]. cbn -[count percentage] in *. by simplify_eq.
    + intros (-> & Hpos & ->). eexists (type, _). split; [|apply Hf; split; [reflexivity|done]]. done.
Qed.
End Monitoring.
