(* ===== verification/WorkflowService.v ===== *)
(** [workflow/services/workflow.service.ts], the face of the engine towards the
    other modules, and [workflow/controllers/workflow-admin.controller.ts]: queries,
    pages, clean-up, the retry queue and the admin requests. *)
From S2P Require Import Prelude Json Repository WorkflowTypes StateMachine Idempotency WorkflowExecution.
From S2P Require Import ExecutionFacts ExecutionControl Compensation Recovery Monitoring.

(** ** Pages

    A page request is 1-based and asks for at least one row. *)
Definition skip_of (page limit : positive) : nat := (Pos.to_nat page - 1) * Pos.to_nat limit.

(** [Math.ceil(total / limit)] *)
Definition totalPages (total : nat) (limit : positive) : nat :=
  (total + Pos.to_nat limit - 1) / Pos.to_nat limit.

(** ** [LIKE]: [%] matches any characters, [_] any one, a backslash makes the
    character after it literal *)
Fixpoint like (pattern : string) : string → bool :=
  match pattern with
  | EmptyString => λ s, match s with EmptyString => true | _ => false end
  | String c pattern' =>
      if bool_decide (c = Ascii.ascii_of_nat 37) then
        fix any (s : string) : bool :=
          like pattern' s || match s with EmptyString => false | String _ s' => any s' end
      else if bool_decide (c = Ascii.ascii_of_nat 95) then
        λ s, match s with EmptyString => false | String _ s' => like pattern' s' end
      else if bool_decide (c = Ascii.ascii_of_nat 92) then
        match pattern' with
        | EmptyString => λ _, false
        | String c' pattern'' =>
            λ s, match s with EmptyString => false | String d s' => bool_decide (c' = d) && like pattern'' s' end
        end
      else
        λ s, match s with EmptyString => false | String d s' => bool_decide (c = d) && like pattern' s' end
  end.

(** [try { m } catch (error) { throw new HttpException(error.message, status) }] *)
Definition http {W A} (status : Z) (m : eff W A) : eff W A :=
  try_catch m (λ e, throw (HttpException (exn_message e) status)).

Section WorkflowService.
Context {DBW DBS : Type} `{!WorkflowTable DBW, !StepTable DBS, CLK : Clock, RND : Random}.
Local Abbreviation World := (World DBW DBS).
Local Abbreviation RecoveryState := (RecoveryState DBW DBS).
Local Abbreviation registry := (gmap string (WorkflowDefinition World)).
Context `{CRY : Crypto}.
Implicit Types (wf : Workflow) (step : WorkflowStep) (w : World).

(** ** Queries *)

(** [order: { createdAt: 'DESC' }] *)
Definition newest_first : list Workflow → list Workflow := sort_on (λ r, (- wf_createdAt r)%Z).

(** [findAndCount({ where, order: { createdAt: 'DESC' }, skip, take })] *)
Definition findAndCount (P : Workflow → Prop) `{∀ r, Decision (P r)} (page limit : positive) (w : World) :
    list Workflow * nat :=
  let all := newest_first (find_where P (wfs w)) in
  (page_of (skip_of page limit) (Pos.to_nat limit) all, length all).

Definition getWorkflow (id : string) (w : World) : option (Workflow * list WorkflowStep) :=
  (λ wf, (wf, stepsOf id w)) <$> lookup_row id (wfs w).

Definition getUserWorkflows (userId : string) (page limit : positive) (w : World) : list Workflow * nat :=
  findAndCount (λ r, wf_userId r = Some userId) page limit w.
Definition getWalletWorkflows (walletAddress : string) (page limit : positive) (w : World) : list Workflow * nat :=
  findAndCount (λ r, wf_walletAddress r = Some walletAddress) page limit w.
Definition getWorkflowsByState (state : WorkflowState.t) (page limit : positive) (w : World) : list Workflow * nat :=
  findAndCount (λ r, wf_state r = state) page limit w.

(** [order: { failedAt: 'DESC' }]; PostgreSQL puts NULL first when descending. *)
Definition getRetryableWorkflows (w : World) : list Workflow :=
  let found := find_where (λ r, wf_state r = WorkflowState.FAILED ∧ wf_retryCount r = 0%Z) (wfs w) in
  filter (λ r, wf_failedAt r = None) found ++
  sort_on (λ r, (- default 0 (wf_failedAt r))%Z) (filter (λ r, wf_failedAt r ≠ None) found).

Definition getCompensableWorkflows (w : World) : list Workflow :=
  newest_first (find_where (λ r, wf_requiresCompensation r = true ∧ wf_isCompensated r = false ∧
    wf_state r ∈ [WorkflowState.COMPLETED; WorkflowState.FAILED; WorkflowState.CANCELLED]) (wfs w)).

(** ** Clean-up *)

(** [delete({ state: In([...]), completedAt: LessThan(cutoffDate) })] *)
Definition expired (cutoff : Z) wf : Prop :=
  wf_state wf ∈ [WorkflowState.COMPLETED; WorkflowState.COMPENSATED] ∧ before (wf_completedAt wf) cutoff.
#[export] Instance expired_dec cutoff wf : Decision (expired cutoff wf).
Proof. unfold expired. apply _. Defined.

(** The foreign key of [workflow_steps] is [onDelete: 'CASCADE']. *)
Definition delete_workflows (P : Workflow → Prop) `{∀ r, Decision (P r)} (w : World) : World :=
  let doomed := find_where P (wfs w) in
  mkWorld (drop_where P (wfs w)) (drop_where (λ s, st_workflowId s ∈ wf_id <$> doomed) (sts w))
    (ticks w) (calls w).

Definition cleanupOldWorkflows (daysOld : Z) : eff World Z :=
  now ← date_now;
  let cutoffDate := days_before daysOld now in
  affected ← gets (λ w, count_where (expired cutoffDate) (wfs w));
  modify (delete_workflows (expired cutoffDate)) ;;
  mret affected.

(** ** The retry queue *)

(** [order: { nextRetryAt: 'ASC' }] *)
Definition getWorkflowsNeedingRetry : eff World (list Workflow) :=
  now ← date_now;
  gets (λ w, sort_on (λ r, default 0%Z (wf_nextRetryAt r))
    (find_where (λ r, wf_state r = WorkflowState.FAILED ∧ wf_retryCount r = 0%Z ∧ before (wf_nextRetryAt r) now)
       (wfs w))).

Definition processRetryQueue (reg : registry) : eff World Z :=
  workflowsToRetry ← getWorkflowsNeedingRetry;
  foreach workflowsToRetry (λ wf, try_catch (retryWorkflow reg (wf_id wf)) (λ _, mret tt)) ;;
  mret (Z.of_nat (length workflowsToRetry)).

(** ** The admin controller *)

(** [if (x) where.x = x] *)
Definition filter_by (o : option string) (column : option string) : Prop :=
  match o with Some x => x = EmptyString ∨ column = Some x | None => True end.
#[export] Instance filter_by_dec o column : Decision (filter_by o column).
Proof. destruct o; cbn; apply _. Defined.

Definition admin_where (state : option WorkflowState.t) (type userId walletAddress : option string) wf : Prop :=
  (default (wf_state wf) state = wf_state wf) ∧ filter_by type (Some (wf_type wf)) ∧
  filter_by userId (wf_userId wf) ∧ filter_by walletAddress (wf_walletAddress wf).
#[export] Instance admin_where_dec s t u a wf : Decision (admin_where s t u a wf).
Proof. unfold admin_where. apply _. Defined.

Definition admin_getWorkflows (page limit : positive) (state : option WorkflowState.t)
    (type userId walletAddress : option string) (w : World) : list Workflow * (nat * nat) :=
  let '(workflows, total) := findAndCount (admin_where state type userId walletAddress) page limit w in
  (workflows, (total, totalPages total limit)).

(** [Like(`%${query}%`)] on either column. *)
Definition search_where (query : string) wf : Prop :=
  let pattern := "%" +:+ query +:+ "%" in
  like pattern (wf_idempotencyKey wf) = true ∨ like pattern <$> wf_walletAddress wf = Some true.
#[export] Instance search_where_dec query wf : Decision (search_where query wf).
Proof. unfold search_where. apply _. Defined.

Definition admin_searchWorkflows (query : string) (page limit : positive) (w : World) :
    list Workflow * (nat * nat) :=
  let '(workflows, total) := findAndCount (search_where query) page limit w in
  (workflows, (total, totalPages total limit)).

Definition admin_getWorkflow (id : string) : eff World (Workflow * list WorkflowStep) :=
  workflow ← gets (getWorkflow id);
  match workflow with
  | None => throw (HttpException "Workflow not found" 404)
  | Some r => mret r
  end.

Definition findStep (stepId workflowId : string) (w : World) : option WorkflowStep :=
  findOne_where (λ s, st_id s = stepId ∧ st_workflowId s = workflowId) (sts w).

Definition admin_getWorkflowStep (workflowId stepId : string) : eff World WorkflowStep :=
  step ← gets (findStep stepId workflowId);
  match step with
  | None => throw (HttpException "Step not found" 404)
  | Some step => mret step
  end.

(** [{ message, workflowId }], with the [stepId] where there is one. *)
Record Ack := mkAck { ack_message : string; ack_workflowId : string; ack_stepId : option string }.

Definition admin_retryWorkflow (reg : registry) (id : string) : eff World Ack :=
  http 400 (retryWorkflow reg id ;; mret (mkAck "Workflow retry initiated" id None)).
Definition admin_cancelWorkflow (id : string) : eff World Ack :=
  http 400 (cancelWorkflow id ;; mret (mkAck "Workflow cancelled" id None)).
Definition admin_compensateWorkflow (id : string) : eff World Ack :=
  http 400 (compensateWorkflow id ;; mret (mkAck "Workflow compensation initiated" id None)).
Definition admin_forceCompensateWorkflow (id : string) : eff World Ack :=
  http 400 (forceCompensateWorkflow id ;; mret (mkAck "Force compensation completed" id None)).

Definition admin_triggerRecovery (reg : registry) : eff RecoveryState (string * RecoveryResults) :=
  http 500 (results ← triggerManualRecovery reg; mret ("Recovery process completed", results)).

Record AdminMetrics := mkAdminMetrics {
  am_workflowMetrics : WorkflowMetrics; am_stepMetrics : StepMetrics; am_systemHealth : SystemHealth }.

Definition admin_getMetrics (databaseConnection : bool) (hours : Z) : eff World AdminMetrics :=
  http 500 (
    workflowMetrics ← getWorkflowMetrics hours;
    stepMetrics ← getStepMetrics hours;
    systemHealth ← getSystemHealth databaseConnection;
    mret (mkAdminMetrics workflowMetrics stepMetrics systemHealth)).

Definition admin_getHealth (databaseConnection : bool) : eff World SystemHealth :=
  http 500 (getSystemHealth databaseConnection).

Definition admin_getCompensatableWorkflows : eff World (list Workflow) :=
  http 500 (gets getCompensatableWorkflows).

Definition admin_retryWorkflowStep (reg : registry) (workflowId stepId : string) : eff World Ack :=
  step ← gets (findStep stepId workflowId);
  match step with
  | None => throw (HttpException "Step not found" 404)
  | Some step =>
      if negb (bool_decide (st_state step = StepState.FAILED)) then
        throw (HttpException "Step is not in a failed state" 400)
      else
      saveStep (step |> set_st_state StepState.PENDING |> set_st_failedAt None
                     |> set_st_failureReason None |> set_st_retryCount (st_retryCount step + 1)%Z) ;;
      retryWorkflow reg workflowId ;;
      mret (mkAck "Step retry initiated" workflowId (Some stepId))
  end.

(** [SELECT state, COUNT( * ) ... GROUP BY state], then the sum and the record of the groups. *)
Definition group_count {E S} `{EqDecision S} (state : E → S) (all : list S) (l : list E) : list (S * Z) :=
  filter (λ p, p.2 ≠ 0%Z) ((λ s, (s, Z.of_nat (length (filter (λ e, state e = s) l)))) <$> all).

Record WorkflowStats := mkWorkflowStats {
  ws_workflows : Z; ws_workflowsByState : list (WorkflowState.t * Z);
  ws_steps : Z; ws_stepsByState : list (StepState.t * Z) }.

Definition sum_counts {S} (l : list (S * Z)) : Z := foldl (λ sum p, (sum + p.2)%Z) 0%Z l.

Definition admin_getWorkflowStats (w : World) : WorkflowStats :=
  let stats := group_count wf_state WorkflowState.all (rows (wfs w)) in
  let stepStats := group_count st_state StepState.all (rows (sts w)) in
  mkWorkflowStats (sum_counts stats) stats (sum_counts stepStats) stepStats.

(** The controller's own timeline; an entry has the fields its kind of event has. *)
Record AdminEvent := mkAdminEvent {
  ae_type : string;
  ae_timestamp : Z;
  ae_step : option (string * Z);
  ae_state : string;
  ae_failure : option (option string * Z);
  ae_message : string;
}.

(** [`${value}`] of a nullable column. *)
Definition template (o : option string) : string := default "null" o.

Definition admin_event (t : option Z) (f : Z → AdminEvent) : list AdminEvent :=
  match t with Some t => [f t] | None => [] end.

Definition admin_step_events step : list AdminEvent :=
  let name := chr 34 +:+ st_stepName step +:+ chr 34 in
  let info := Some (st_stepName step, st_stepIndex step) in
  let state := StepState.to_string (st_state step) in
  admin_event (st_startedAt step) (λ t,
    mkAdminEvent "step_started" t info state None ("Step " +:+ name +:+ " started")) ++
  admin_event (st_completedAt step) (λ t,
    mkAdminEvent "step_completed" t info state None ("Step " +:+ name +:+ " completed")) ++
  admin_event (st_failedAt step) (λ t,
    mkAdminEvent "step_failed" t info state (Some (st_failureReason step, st_retryCount step))
      ("Step " +:+ name +:+ " failed: " +:+ template (st_failureReason step))) ++
  admin_event (st_compensatedAt step) (λ t,
    mkAdminEvent "step_compensated" t info state None ("Step " +:+ name +:+ " compensated")).

Definition admin_getWorkflowTimeline (id : string) : eff World (string * list AdminEvent) :=
  workflow ← gets (getWorkflow id);
  match workflow with
  | None => throw (HttpException "Workflow not found" 404)
  | Some (wf, steps) =>
      let state := WorkflowState.to_string (wf_state wf) in
      mret (wf_id wf, sort_on ae_timestamp
        ([mkAdminEvent "workflow_created" (wf_createdAt wf) None state None "Workflow created"] ++
         admin_event (wf_startedAt wf) (λ t,
           mkAdminEvent "workflow_started" t None state None "Workflow execution started") ++
         (steps ≫= admin_step_events) ++
         admin_event (wf_completedAt wf) (λ t,
           mkAdminEvent "workflow_completed" t None state None "Workflow completed successfully") ++
         admin_event (wf_failedAt wf) (λ t,
           mkAdminEvent "workflow_failed" t None state (Some (wf_failureReason wf, wf_retryCount wf))
             ("Workflow failed: " +:+ template (wf_failureReason wf)))))
  end.

(** ** The face of the engine

    What [WorkflowService] hands on to the services behind it. *)
Definition service_startWorkflow (reg : registry) (type : string) (input : jsobj)
    (userId walletAddress : option string) (context : option jsobj) : eff World Workflow :=
  startWorkflow reg type input userId walletAddress context.
Definition service_retryWorkflow (reg : registry) (workflowId : string) : eff World unit :=
  retryWorkflow reg workflowId.
Definition service_compensateWorkflow (workflowId : string) : eff World unit := compensateWorkflow workflowId.
Definition service_getCompensatableWorkflows (w : World) : list Workflow := getCompensatableWorkflows w.
Definition service_triggerRecovery (reg : registry) : eff RecoveryState RecoveryResults := triggerManualRecovery reg.
Definition service_getWorkflowMetrics (timeRangeHours : Z) : eff World WorkflowMetrics :=
  getWorkflowMetrics timeRangeHours.
Definition service_getStepMetrics (timeRangeHours : Z) : eff World StepMetrics := getStepMetrics timeRangeHours.
Definition service_getWorkflowTimeline (workflowId : string) : eff World (list TimelineEvent) :=
  getWorkflowTimeline workflowId.
Definition service_getSystemHealth (databaseConnection : bool) : eff World SystemHealth :=
  getSystemHealth databaseConnection.
Definition service_cancelWorkflow (id : string) : eff World unit := cancelWorkflow id.

(** * Pages *)

Lemma chunks {A} (k n : nat) (l : list A) :
  concat ((λ i, page_of (i * k) k l) <$> seq 0 n) = take (n * k) l.
Proof.
  unfold page_of. induction n as [|n IH]; [done|].
  rewrite seq_S, fmap_app, concat_app, IH. cbn -[take skipn]. rewrite app_nil_r.
  rewrite take_drop_commute. replace (take (n * k) l) with (take (n * k) (take (n * k + k) l))
    by (rewrite take_take; f_equal; lia).
  rewrite take_drop. f_equal. lia.
Qed.

Lemma totalPages_enough total limit : total ≤ totalPages total limit * Pos.to_nat limit.
Proof.
  unfold totalPages. pose proof (Pos2Nat.is_pos limit). set (k := Pos.to_nat limit) in *.
  pose proof (Nat.div_mod (total + k - 1) k ltac:(lia)). pose proof (Nat.mod_upper_bound (total + k - 1) k ltac:(lia)).
  nia.
Qed.

(** pagination.  Every page holds at most [limit] rows; the pages 1 to [totalPages], one
    after the other, are exactly the matching rows, newest first, and the count that comes
    with each is their number; the last of these pages is not empty. *)
Theorem pages_cover (P : Workflow → Prop) `{∀ r, Decision (P r)} limit w :
  let all := newest_first (find_where P (wfs w)) in
  let pages := totalPages (length all) limit in
  (∀ page, length (findAndCount P page limit w).1 ≤ Pos.to_nat limit ∧
           (findAndCount P page limit w).2 = length (find_where P (wfs w))) ∧
  concat ((λ i, (findAndCount P (Pos.of_succ_nat i) limit w).1) <$> seq 0 pages) = all ∧
  StronglySorted (λ r r', wf_createdAt r' ≤ wf_createdAt r)%Z all ∧
  (0 < pages → (findAndCount P (Pos.of_nat pages) limit w).1 ≠ []).
Proof.
  cbv zeta. set (all := newest_first _). pose proof (Pos2Nat.is_pos limit) as Hk. split_and!.
  - intros page. unfold findAndCount, page_of. cbn [fst snd]. split.
    + rewrite length_take. lia.
    + unfold newest_first. by rewrite length_sort_on.
  - rewrite (list_fmap_ext _ (λ i, page_of (i * Pos.to_nat limit) (Pos.to_nat limit) all)).
    + rewrite chunks, take_ge; [done|]. apply totalPages_enough.
    + intros i x _. unfold findAndCount, skip_of. cbn [fst]. fold all. by rewrite SuccNat2Pos.id_succ, Nat.sub_1_r.
  - pose proof (sort_on_sorted (λ r, (- wf_createdAt r)%Z) (find_where P (wfs w))) as Hs.
    unfold all, newest_first. induction Hs as [|x l Hs IH Hx]; constructor; [done|].
    eapply Forall_impl; [done|]. intros y. unfold key_le. lia.
  - intros Hpos Hnil. apply (f_equal length) in Hnil. revert Hnil. unfold findAndCount, page_of, skip_of. cbn [fst].
    fold all. rewrite length_take, length_skipn, Nat2Pos.id by lia. cbn.
    unfold totalPages in *. set (k := Pos.to_nat limit) in *.
    pose proof (Nat.div_mod (length all + k - 1) k ltac:(lia)).
    pose proof (Nat.mod_upper_bound (length all + k - 1) k ltac:(lia)). nia.
Qed.

(** * Clean-up *)

(** the clean-up.  [cleanupOldWorkflows] removes exactly the workflows that are COMPLETED
    or COMPENSATED with a completion time before the cut-off, together with all their steps,
    returns their number, and leaves every other row of both tables as it was. *)
Theorem cleanupOldWorkflows_spec daysOld w :
  let cutoff := (clock_at (ticks w) - daysOld * ms_per_day)%Z in
  ∃ w', cleanupOldWorkflows daysOld w = (Return (count_where (expired cutoff) (wfs w)), w') ∧
    (∀ id, lookup_row id (wfs w') = match lookup_row id (wfs w) with
       | Some wf => if decide (expired cutoff wf) then None else Some wf
       | None => None end) ∧
    (∀ s, s ∈ rows (sts w') ↔ s ∈ rows (sts w) ∧
       ¬ ∃ wf, lookup_row (st_workflowId s) (wfs w) = Some wf ∧ expired cutoff wf) ∧
    calls w' = calls w.
Proof.
  cbv zeta. set (cutoff := (_ - _)%Z). exists (delete_workflows (expired cutoff) (advance w)).
  split; [done|]. split; [|split; [|done]].
  - intros id. apply lookup_drop_where.
  - intros s. unfold delete_workflows. cbn [sts]. rewrite elem_of_drop_where.
    assert (st_workflowId s ∈ wf_id <$> find_where (expired cutoff) (wfs w) ↔
      ∃ wf, lookup_row (st_workflowId s) (wfs w) = Some wf ∧ expired cutoff wf) as Hiff; [|by rewrite <-Hiff].
    rewrite list_elem_of_fmap. split.
    + intros (wf & -> & Hin). rewrite find_where_lookup, workflow_id in Hin. naive_solver.
    + intros (wf & Hl & He). exists wf. rewrite find_where_lookup, workflow_id.
      pose proof (lookup_row_id _ _ _ Hl) as Hid. rewrite workflow_id in Hid. by rewrite Hid.
Qed.

(** * Search *)

(** No character of the text is special to [LIKE]. *)
Fixpoint plain (s : string) : bool :=
  match s with
  | EmptyString => true
  | String c s' => negb (bool_decide (c = Ascii.ascii_of_nat 37)) && negb (bool_decide (c = Ascii.ascii_of_nat 95)) &&
                   negb (bool_decide (c = Ascii.ascii_of_nat 92)) && plain s'
  end.

Lemma like_percent p s :
  like ("%" +:+ p) s = like p s || match s with EmptyString => false | String _ s' => like ("%" +:+ p) s' end.
Proof. by destruct s. Qed.

Lemma like_any s : like "%" s = true.
Proof.
  change "%" with ("%" +:+ EmptyString). induction s as [|d s IH]; [done|].
  by rewrite like_percent, IH, orb_true_r.
Qed.

Lemma like_prefix q : plain q = true → ∀ s,
  like (q +:+ "%") s = true ↔ ∃ t, s = q +:+ t.
Proof.
  induction q as [|c q IH]; intros Hq s.
  - split; [by exists s|]. intros _. apply like_any.
  - cbn in Hq. apply andb_true_iff in Hq as [[[H1 H2]%andb_true_iff H3]%andb_true_iff Hq].
    apply negb_true_iff in H1, H2, H3.
    assert (like (String c (q +:+ "%")) s =
      match s with EmptyString => false | String d s' => bool_decide (c = d) && like (q +:+ "%") s' end) as Hs.
    { cbn [like]. by rewrite H1, H2, H3. }
    change (String c q +:+ "%") with (String c (q +:+ "%")). rewrite Hs. clear Hs. destruct s as [|d s].
    + split; [done|]. by intros (t & ?).
    + rewrite andb_true_iff, bool_decide_eq_true, IH by done. split.
      * intros [<- (t & ->)]. by exists t.
      * intros (t & [= -> ->]). eauto.
Qed.

(** the admin search.  For a query without the characters percent, underscore and backslash
    it finds exactly the workflows whose idempotency key or wallet address contains the query. *)
Theorem search_contains query wf : plain query = true →
  search_where query wf ↔
    (∃ a b, wf_idempotencyKey wf = a +:+ query +:+ b) ∨
    (∃ a b, wf_walletAddress wf = Some (a +:+ query +:+ b)).
Proof.
  intros Hq.
  assert (∀ s, like ("%" +:+ query +:+ "%") s = true ↔ ∃ a b, s = a +:+ query +:+ b) as Hlike.
  { induction s as [|d s IH].
    - rewrite like_percent, orb_false_r, like_prefix by done. split; [by intros [t Ht]; exists EmptyString, t|].
      intros (a & b & Hab). destruct a; [|done]. by exists b.
    - rewrite like_percent, orb_true_iff, IH, like_prefix by done. split.
      + intros [(t & ->)|(a & b & ->)]; [by exists EmptyString, t|by exists (String d a), b].
      + intros ([|d' a] & b & Hab); [left; by exists b|right]. exists a, b. by injection Hab. }
  unfold search_where. cbv zeta. rewrite Hlike. f_equiv. destruct (wf_walletAddress wf) as [a|].
  - cbn. split; [intros [= (x & y & ->)%Hlike]; by exists x, y|]. intros (x & y & [= ->]). f_equal. apply Hlike. eauto.
  - cbn. split; [done|]. by intros (? & ? & ?).
Qed.
End WorkflowService.
