(* ===== verification/Engine.v ===== *)
(** The engine as a whole: every request the workflow module accepts, as one step
    of a transition system, and what holds of the tables in every state it can reach. *)
From S2P Require Import Prelude Json Repository WorkflowTypes StateMachine Idempotency WorkflowExecution.
From S2P Require Import ExecutionFacts ExecutionControl Compensation Recovery WorkflowService.

Section Engine.
Context {DBW DBS : Type} `{!WorkflowTable DBW, !StepTable DBS, CLK : Clock, RND : Random, CRY : Crypto}.
Local Abbreviation World := (World DBW DBS).
Local Abbreviation registry := (gmap string (WorkflowDefinition World)).
Implicit Types (wf : Workflow) (step : WorkflowStep) (w : World).

(** ** Requests *)

Inductive request :=
| StartWorkflow (type : string) (input : jsobj) (userId walletAddress : option string) (context : option jsobj)
| RetryWorkflow (workflowId : string)
| RetryStep (workflowId stepId : string)
| CancelWorkflow (workflowId : string)
| CompensateWorkflow (workflowId : string)
| ForceCompensateWorkflow (workflowId : string)
| RecoverOrphans
| RecoverSteps
| CleanupOld (daysOld : Z)
| ProcessRetryQueue.

Definition handle (reg : registry) (r : request) (w : World) : World :=
  match r with
  | StartWorkflow type input userId walletAddress context =>
      (service_startWorkflow reg type input userId walletAddress context w).2
  | RetryWorkflow workflowId => (admin_retryWorkflow reg workflowId w).2
  | RetryStep workflowId stepId => (admin_retryWorkflowStep reg workflowId stepId w).2
  | CancelWorkflow workflowId => (admin_cancelWorkflow workflowId w).2
  | CompensateWorkflow workflowId => (admin_compensateWorkflow workflowId w).2
  | ForceCompensateWorkflow workflowId => (admin_forceCompensateWorkflow workflowId w).2
  | RecoverOrphans => (recoverOrphanedWorkflows reg w).2
  | RecoverSteps => (recoverStuckSteps w).2
  | CleanupOld daysOld => (cleanupOldWorkflows daysOld w).2
  | ProcessRetryQueue => (processRetryQueue reg w).2
  end.

Inductive engine_step (reg : registry) : relation World :=
| engine_request r w : engine_step reg w (handle reg r w).

(** ** Well-formed rows *)

Definition workflow_ok wf : Prop :=
  (wf_state wf = WorkflowState.RUNNING ∨ wf_state wf = WorkflowState.COMPLETED → is_Some (wf_startedAt wf)) ∧
  (wf_state wf = WorkflowState.COMPLETED ∨ wf_state wf = WorkflowState.CANCELLED → is_Some (wf_completedAt wf)) ∧
  (wf_state wf = WorkflowState.FAILED → is_Some (wf_failureReason wf)) ∧
  (wf_isCompensated wf = true → wf_state wf = WorkflowState.COMPENSATING ∨ wf_state wf = WorkflowState.COMPENSATED) ∧
  (wf_state wf = WorkflowState.COMPENSATED → wf_isCompensated wf = true ∧ wf_requiresCompensation wf = true) ∧
  wf_nextRetryAt wf = None ∧ (0 ≤ wf_retryCount wf)%Z.

Definition step_ok step : Prop :=
  (st_state step = StepState.RUNNING ∨ st_state step = StepState.COMPLETED → is_Some (st_startedAt step)) ∧
  (st_state step = StepState.COMPLETED → is_Some (st_completedAt step)) ∧
  (st_state step = StepState.FAILED → is_Some (st_failureReason step)) ∧
  (st_isCompensated step = true ↔ st_state step = StepState.COMPENSATED) ∧
  (st_state step = StepState.COMPENSATED → is_Some (st_compensatedAt step)) ∧
  (0 ≤ st_retryCount step)%Z.

Definition tables_ok w : Prop :=
  (∀ wf, wf ∈ rows (wfs w) → workflow_ok wf) ∧ (∀ step, step ∈ rows (sts w) → step_ok step).

Lemma merge_column_is_Some {A} (o o' : option A) : is_Some o' → is_Some (merge_column o o').
Proof. by intros [x ->]. Qed.

(** Decides the conditions on a row whose columns are known. *)
Ltac ok_tac :=
  unfold workflow_ok, step_ok in *; cbn in *; destruct_and?; split_and?;
  try solve [intros; destruct_or?; first [congruence|split; congruence|eauto 3]|split; intros; congruence|lia].

Lemma not_compensated wf : workflow_ok wf →
  wf_state wf ≠ WorkflowState.COMPENSATING → wf_state wf ≠ WorkflowState.COMPENSATED → wf_isCompensated wf = false.
Proof. intros (_&_&_&Hc&_) ??. destruct (wf_isCompensated wf); [|done]. by destruct (Hc eq_refl). Qed.

Lemma step_not_compensated step :
  step_ok step → st_state step ≠ StepState.COMPENSATED → st_isCompensated step = false.
Proof. intros (_&_&_&Hc&_) ?. destruct (st_isCompensated step); [|done]. by destruct Hc as [Hc _]; rewrite Hc in *. Qed.

Lemma workflow_ok_merge c u o wf :
  (∀ r, o = Some r → workflow_ok r) → workflow_ok wf → workflow_ok (merge_workflow c u o wf).
Proof.
  intros Ho (H1 & H2 & H3 & H4 & H5 & H6 & H7). unfold workflow_ok. cbn.
  split_and!; auto using merge_column_is_Some. rewrite H6. destruct o as [r|]; [|done]. by destruct (Ho r) as (_&_&_&_&_&?&_).
Qed.

Lemma step_ok_merge c u o step : step_ok step → step_ok (merge_step c u o step).
Proof.
  intros (H1 & H2 & H3 & H4 & H5 & H6). unfold step_ok. cbn.
  split_and!; auto using merge_column_is_Some.
Qed.

Lemma keeps_saveWorkflow wf : workflow_ok wf → keeps tables_ok (saveWorkflow wf) anything.
Proof.
  intros Hwf w [Hw Hs]. split; [|done]. split; [|done]. cbn. intros r.
  rewrite elem_of_write. intros [->|[? _]]; [|auto].
  destruct (workflow_written (clock_at (ticks w)) (lookup_row (row_id wf) (wfs w)) wf) as (c & u & ->).
  apply workflow_ok_merge; [|done]. intros r [Hr _]%lookup_row_elem. auto.
Qed.

Lemma keeps_saveStep step : step_ok step → keeps tables_ok (saveStep step) anything.
Proof.
  intros Hs w [Hw Hss]. split; [|done]. split; [done|]. cbn. intros r.
  rewrite elem_of_write. intros [->|[? _]]; [|auto].
  destruct (step_written (clock_at (ticks w)) (lookup_row (row_id step) (sts w)) step) as (c & u & ->).
  by apply step_ok_merge.
Qed.

(** An effect that leaves both tables alone. *)
Lemma keeps_untouched {A} (m : eff World A) :
  (∀ w, wfs (m w).2 = wfs w ∧ sts (m w).2 = sts w) → keeps tables_ok m anything.
Proof.
  intros Hm w Hw. split; [|by intros]. destruct (Hm w) as [H1 H2]. unfold tables_ok. by rewrite H1, H2.
Qed.
Lemma keeps_date_now : keeps tables_ok (date_now : eff World Z) anything.
Proof. apply keeps_untouched. by split. Qed.
Lemma keeps_delay ms : keeps tables_ok (delay ms : eff World unit) anything.
Proof. apply keeps_untouched. by split. Qed.
Lemma keeps_retryTime c d : keeps tables_ok (calculateNextRetryTime c d : eff World Z) anything.
Proof. apply keeps_untouched. by split. Qed.
Lemma keeps_log c : keeps tables_ok (log_call c : eff World unit) anything.
Proof. apply keeps_untouched. by split. Qed.
Lemma keeps_find id : keeps tables_ok (findWorkflow id : eff World _) (λ o, ∀ wf, o = Some wf → workflow_ok wf).
Proof.
  apply keeps_gets. intros w [Hw _] wf [Hr _]%lookup_row_elem. auto.
Qed.
Lemma keeps_steps id (f : list WorkflowStep → list WorkflowStep) :
  (∀ l s, s ∈ f l → s ∈ l) →
  keeps tables_ok (gets (λ w, f (stepsOf id w)) : eff World _) (λ l, ∀ s, s ∈ l → step_ok s).
Proof.
  intros Hf. apply keeps_gets. intros w [_ Hs] s Hin. apply Hs. apply Hf in Hin. unfold stepsOf in Hin.
  rewrite elem_of_find_where in Hin. apply Hin.
Qed.
Lemma keeps_stepsOf id : keeps tables_ok (gets (stepsOf id) : eff World _) (λ l, ∀ s, s ∈ l → step_ok s).
Proof. by apply (keeps_steps id (λ l, l)). Qed.

Hint Resolve keeps_saveWorkflow keeps_saveStep keeps_date_now keeps_delay keeps_retryTime keeps_log keeps_find
  keeps_stepsOf : keeps.

(** ** Running *)

(** The registered step code leaves the tables well-formed, whatever else it does. *)
Definition executes_ok (d : WorkflowDefinition World) : Prop :=
  ∀ sd, sd ∈ wd_steps d → ∀ input ctx, keeps tables_ok (sd_execute sd input ctx) anything.

Lemma keeps_execute name sdo input ctx key :
  (∀ sd, sdo = Some sd → ∀ input ctx, keeps tables_ok (sd_execute sd input ctx) anything) →
  keeps tables_ok (executeWithIdempotency name sdo input ctx key) anything.
Proof.
  intros Hsd. unfold executeWithIdempotency. destruct sdo as [sd|]; [|apply keeps_throw].
  case_match; (eapply keeps_bind; [apply keeps_log|intros _ _; by apply Hsd]).
Qed.

Lemma keeps_settle retry step o :
  step_ok step → is_Some (st_startedAt step) → st_isCompensated step = false →
  (∀ s, step_ok s → keeps tables_ok (retry s) anything) →
  keeps tables_ok (settleStep retry step o) anything.
Proof.
  intros Hs Hst Hic Hretry. unfold settleStep. destruct o as [v|e].
  - eapply keeps_bind; [apply keeps_date_now|]. intros t _. apply keeps_saveStep. ok_tac.
  - eapply keeps_bind; [apply keeps_date_now|]. intros t _. cbv beta zeta. case_match.
    + eapply keeps_bind; [apply keeps_retryTime|]. intros t' _. cbv beta zeta.
      set (step1 := set_st_nextRetryAt _ _). assert (step_ok step1) as H1 by (subst step1; ok_tac).
      eapply keeps_bind; [by apply keeps_saveStep|]. intros _ _.
      eapply keeps_bind; [apply keeps_date_now|]. intros now _.
      eapply keeps_bind; [apply keeps_delay|]. intros _ _. by apply Hretry.
    + eapply keeps_bind; [|intros; apply keeps_throw]. apply keeps_saveStep. ok_tac.
Qed.

Lemma keeps_executeStep fuel wf sdo :
  (∀ sd, sdo = Some sd → ∀ input ctx, keeps tables_ok (sd_execute sd input ctx) anything) →
  ∀ step, step_ok step → keeps tables_ok (executeStep_fuel fuel wf step sdo) anything.
Proof.
  intros Hsd. induction fuel as [|fuel IH]; intros step Hs; [apply keeps_throw|].
  cbn [executeStep_fuel]. rewrite transitionStep_success.
  destruct (canTransitionStep (st_state step) StepState.RUNNING) eqn:Htr; [|apply keeps_throw]. cbn [negb].
  assert (st_isCompensated step = false) as Hic.
  { apply step_not_compensated; [done|]. intros E1. by rewrite E1 in Htr. }
  eapply keeps_bind; [apply keeps_date_now|]. intros t _. cbv beta zeta.
  set (step1 := set_st_startedAt _ _).
  assert (step_ok step1 ∧ is_Some (st_startedAt step1) ∧ st_isCompensated step1 = false) as H1.
  { split; [subst step1; ok_tac|split; [by eexists|exact Hic]]. }
  eapply keeps_bind; [apply keeps_saveStep, H1|]. intros _ _.
  eapply keeps_bind; [by apply (keeps_gets _ _ anything)|]. intros prepared _.
  eapply (keeps_bind _ _ _ (λ s, step_ok s ∧ is_Some (st_startedAt s) ∧ st_isCompensated s = false)).
  - case_match; [|by apply keeps_ret]. set (step2 := set_st_idempotencyKey _ _).
    assert (step_ok step2) by (subst step2; destruct H1; ok_tac).
    eapply keeps_bind; [by apply keeps_saveStep|]. intros _ _. by apply keeps_ret.
  - intros s (Hs1 & Hs2 & Hs3). eapply keeps_bind; [eapply keeps_attempt; by apply keeps_execute|].
    intros o _. by apply keeps_settle.
Qed.

Lemma array_get_elem {A} (l : list A) i x : array_get l i = Some x → x ∈ l.
Proof. unfold array_get. case_bool_decide; [|done]. apply list_elem_of_lookup_2. Qed.

(** A workflow in the middle of its run. *)
Definition running_ok wf : Prop := workflow_ok wf ∧ wf_state wf = WorkflowState.RUNNING.

Lemma keeps_executeSteps d steps : executes_ok d → (∀ s, s ∈ steps → step_ok s) → ∀ wf, running_ok wf →
  keeps tables_ok (executeSteps_from wf d steps) (λ p, running_ok p.1).
Proof.
  intros Hd. induction steps as [|step steps IH]; intros Hs wf Hwf; [by apply keeps_ret|].
  cbn [executeSteps_from]. set (wf1 := set_wf_currentStepIndex _ wf).
  assert (running_ok wf1) as H1 by (subst wf1; destruct Hwf; split; [ok_tac|done]).
  eapply keeps_bind; [apply keeps_saveWorkflow; apply H1|]. intros _ _.
  eapply keeps_bind; [eapply keeps_attempt; apply keeps_executeStep|].
  - intros sd Hsd. apply Hd. by eapply array_get_elem.
  - apply Hs. left.
  - intros [_|e] _; [|by apply keeps_ret]. apply IH; [|done]. intros s Hin. apply Hs. by right.
Qed.

Lemma keeps_executeWorkflow (reg : registry) wf :
  (∀ type d, reg !! type = Some d → executes_ok d) → workflow_ok wf →
  keeps tables_ok (executeWorkflow reg wf) anything.
Proof.
  intros Hreg Hwf. unfold executeWorkflow, getWorkflowDefinition.
  destruct (reg !! wf_type wf) as [d|] eqn:Hd; [|apply keeps_throw].
  rewrite transitionWorkflow_success.
  destruct (canTransitionWorkflow (wf_state wf) WorkflowState.RUNNING) eqn:Htr; [|apply keeps_throw]. cbn [negb].
  assert (wf_isCompensated wf = false) as Hic.
  { apply not_compensated; [done|intros E1; by rewrite E1 in Htr..]. }
  eapply keeps_bind; [apply keeps_date_now|]. intros t _. cbv beta zeta.
  set (wf1 := set_wf_startedAt _ _). assert (running_ok wf1) as H1 by (split; [subst wf1; ok_tac|done]).
  eapply keeps_bind; [apply keeps_saveWorkflow; apply H1|]. intros _ _.
  eapply keeps_bind.
  { unfold executeSteps. eapply keeps_bind; [apply (keeps_steps _ (sort_on st_stepIndex))|].
    - intros l s. by rewrite elem_of_sort_on.
    - intros l Hl. apply keeps_executeSteps; [by eapply Hreg|done|done]. }
  intros [wf2 o] [H2 Hr2]. cbn in H2, Hr2. cbv beta iota.
  assert (wf_isCompensated wf2 = false) as Hic2 by (apply not_compensated; congruence).
  destruct o as [?|e]; (eapply keeps_bind; [apply keeps_date_now|]); intros t' _; cbv beta zeta;
    (eapply keeps_bind; [apply keeps_saveWorkflow; ok_tac|]); intros _ _; [by apply keeps_ret|apply keeps_throw].
Qed.

(** ** The other requests *)

Lemma keeps_new_steps wid defs : ∀ k, keeps tables_ok (createSteps wid k defs : eff World unit) anything.
Proof.
  induction defs as [|sd defs IH]; intros k; [by apply keeps_ret|]. cbn [createSteps].
  eapply keeps_bind; [by apply (keeps_gets _ _ anything)|]. intros w _.
  eapply keeps_bind; [apply keeps_saveStep; unfold new_step; ok_tac|]. intros _ _. apply IH.
Qed.

Lemma keeps_startWorkflow (reg : registry) type input userId walletAddress context :
  (∀ type d, reg !! type = Some d → executes_ok d) →
  keeps tables_ok (startWorkflow reg type input userId walletAddress context) anything.
Proof.
  intros Hreg. unfold startWorkflow, getWorkflowDefinition.
  destruct (reg !! type) as [d|]; [|apply keeps_throw].
  eapply keeps_bind; [apply keeps_date_now|]. intros t _. cbv beta zeta.
  eapply keeps_bind; [by apply (keeps_gets _ _ anything)|]. intros [r|] _; [by apply keeps_ret|].
  eapply keeps_bind; [by apply (keeps_gets _ _ anything)|]. intros w _. cbv beta zeta.
  set (wf := new_workflow _ _ _ _ _ _ _ _ _ _ _). assert (workflow_ok wf) by (subst wf; unfold new_workflow; ok_tac).
  eapply keeps_bind; [by apply keeps_saveWorkflow|]. intros _ _.
  eapply keeps_bind; [apply keeps_new_steps|]. intros _ _. by apply keeps_executeWorkflow.
Qed.

Lemma keeps_retryWorkflow (reg : registry) id :
  (∀ type d, reg !! type = Some d → executes_ok d) → keeps tables_ok (retryWorkflow reg id) anything.
Proof.
  intros Hreg. unfold retryWorkflow. eapply keeps_bind; [apply keeps_find|].
  intros [wf|] Hwf; [|apply keeps_throw]. specialize (Hwf wf eq_refl).
  eapply keeps_bind; [apply keeps_stepsOf|]. intros steps Hsteps.
  destruct (isWorkflowRecoverable (wf_state wf)) eqn:Hrec; [|apply keeps_throw]. cbn [negb].
  apply bool_decide_eq_true in Hrec.
  assert (wf_isCompensated wf = false) as Hic by (apply not_compensated; congruence).
  eapply keeps_bind; [apply keeps_date_now|]. intros t _. cbv beta zeta.
  set (wf1 := set_wf_failureReason _ _). assert (workflow_ok wf1) by (subst wf1; ok_tac).
  eapply keeps_bind; [by apply keeps_saveWorkflow|]. intros _ _.
  eapply (keeps_bind _ _ _ anything).
  - destruct (array_find _ steps) as [s|] eqn:Hs; [|by apply keeps_ret].
    apply array_find_Some in Hs as [Hin Hst]. apply Hsteps in Hin.
    assert (st_isCompensated s = false) as Hics by (apply step_not_compensated; congruence).
    apply keeps_saveStep. ok_tac.
  - intros _ _. eapply keeps_bind; [by apply keeps_executeWorkflow|]. intros _ _. by apply keeps_ret.
Qed.

Lemma keeps_cancelWorkflow id : keeps tables_ok (cancelWorkflow id : eff World unit) anything.
Proof.
  unfold cancelWorkflow. eapply keeps_bind; [apply keeps_find|].
  intros [wf|] Hwf; [|apply keeps_throw]. specialize (Hwf wf eq_refl).
  rewrite transitionWorkflow_success.
  destruct (canTransitionWorkflow (wf_state wf) WorkflowState.CANCELLED) eqn:Htr; [|apply keeps_throw]. cbn [negb].
  assert (wf_isCompensated wf = false) as Hic
    by (apply not_compensated; [done|intros E1; by rewrite E1 in Htr..]).
  eapply keeps_bind; [apply keeps_date_now|]. intros t _. apply keeps_saveWorkflow. ok_tac.
Qed.

Lemma keeps_rollback (wf : Workflow) step : step_ok step → st_state step = StepState.COMPLETED →
  keeps tables_ok (compensateStep wf step : eff World unit) anything ∧
  keeps tables_ok (forceCompensateStep step : eff World unit) anything.
Proof.
  intros Hs Hst. assert (st_isCompensated step = false) as Hic.
  { apply step_not_compensated; congruence. }
  set (step1 t := step |> set_st_state StepState.COMPENSATING |> set_st_compensatedAt (Some t)).
  assert (∀ t, step_ok (step1 t)) as H1 by (intros; subst step1; ok_tac).
  assert (∀ t, step_ok (step1 t |> set_st_state StepState.COMPENSATED |> set_st_isCompensated true)) as H2
    by (intros; subst step1; ok_tac).
  split.
  - unfold compensateStep. rewrite Hst. cbn [negb success transitionStep canTransitionStep].
    change (negb (success _)) with false. cbv iota.
    eapply keeps_bind; [apply keeps_date_now|]. intros t _. cbv beta zeta.
    eapply keeps_bind; [apply keeps_saveStep, H1|]. intros _ _. apply keeps_try.
    + eapply keeps_bind; [apply keeps_delay|]. intros _ _. apply keeps_saveStep, H2.
    + intros e. eapply keeps_bind; [|intros; apply keeps_throw]. apply keeps_saveStep. subst step1. ok_tac.
  - unfold forceCompensateStep. eapply keeps_bind; [apply keeps_date_now|]. intros t _. cbv beta zeta.
    eapply keeps_bind; [apply keeps_saveStep, H1|]. intros _ _.
    eapply keeps_bind; [apply keeps_delay|]. intros _ _. apply keeps_saveStep, H2.
Qed.

Lemma keeps_compensateWorkflow id : keeps tables_ok (compensateWorkflow id : eff World unit) anything.
Proof.
  unfold compensateWorkflow. eapply keeps_bind; [apply keeps_find|].
  intros [wf|] Hwf; [|apply keeps_throw]. specialize (Hwf wf eq_refl).
  eapply keeps_bind; [apply keeps_stepsOf|]. intros steps Hsteps.
  destruct (canWorkflowCompensate (wf_state wf)) eqn:Hc; [|apply keeps_throw]. cbn [negb].
  rewrite canWorkflowCompensate_transition by done. cbn [negb].
  assert (wf_isCompensated wf = false) as Hic
    by (apply not_compensated; [done|intros E1; by rewrite E1 in Hc..]).
  set (wf1 := set_wf_requiresCompensation _ _). assert (workflow_ok wf1) by (subst wf1; ok_tac).
  cbv zeta. eapply keeps_bind; [by apply keeps_saveWorkflow|]. intros _ _. apply keeps_try.
  - eapply keeps_bind.
    + apply keeps_foreach. intros s [[Hst _] Hin]%elem_of_completedSteps. by apply keeps_rollback; [apply Hsteps|].
    + intros _ _. eapply keeps_bind; [apply keeps_date_now|]. intros t _. apply keeps_saveWorkflow. subst wf1. ok_tac.
  - intros e. eapply keeps_bind; [|intros; apply keeps_throw]. apply keeps_saveWorkflow. subst wf1. ok_tac.
Qed.

Lemma keeps_forceCompensateWorkflow id : keeps tables_ok (forceCompensateWorkflow id : eff World unit) anything.
Proof.
  unfold forceCompensateWorkflow. eapply keeps_bind; [apply keeps_find|].
  intros [wf|] Hwf; [|apply keeps_throw]. specialize (Hwf wf eq_refl).
  eapply keeps_bind; [apply keeps_stepsOf|]. intros steps Hsteps. cbv zeta.
  set (wf1 := set_wf_requiresCompensation _ _). assert (workflow_ok wf1) by (subst wf1; ok_tac).
  eapply keeps_bind; [by apply keeps_saveWorkflow|]. intros _ _.
  eapply keeps_bind.
  - apply keeps_foreach. intros s [[Hst _] Hin]%elem_of_completedSteps. by apply (keeps_rollback wf); [apply Hsteps|].
  - intros _ _. apply keeps_saveWorkflow. subst wf1. ok_tac.
Qed.

Lemma keeps_recoverOrphans (reg : registry) :
  (∀ type d, reg !! type = Some d → executes_ok d) → keeps tables_ok (recoverOrphanedWorkflows reg) anything.
Proof.
  intros Hreg. unfold recoverOrphanedWorkflows.
  eapply (keeps_bind _ _ _ (λ l, ∀ p, p ∈ l → workflow_ok p.1 ∧ wf_state p.1 = WorkflowState.RUNNING)).
  { apply keeps_gets. intros w [Hw _] p (wf & -> & Hin)%list_elem_of_fmap.
    apply elem_of_find_where in Hin as [Hst Hin]. cbn. auto. }
  intros l Hl. apply keeps_foreach. intros [wf steps] Hin. destruct (Hl _ Hin) as [Hwf Hst]. cbn in Hwf, Hst.
  apply keeps_try; [|intros; by apply keeps_ret].
  assert (wf_isCompensated wf = false) as Hic by (apply not_compensated; congruence).
  unfold recoverWorkflow. eapply keeps_bind; [apply keeps_date_now|]. intros now _. cbv beta zeta.
  case_match; [by apply keeps_ret|]. case_match.
  - eapply keeps_bind; [apply keeps_date_now|]. intros t _. apply keeps_saveWorkflow. ok_tac.
  - eapply keeps_bind; [apply keeps_executeWorkflow; [done|]|intros _ _; by apply keeps_ret].
    destruct (lastCompleted steps); ok_tac.
Qed.

Lemma keeps_recoverSteps : keeps tables_ok (recoverStuckSteps : eff World unit) anything.
Proof.
  unfold recoverStuckSteps. eapply keeps_bind; [apply keeps_date_now|]. intros now _. cbv beta zeta.
  eapply (keeps_bind _ _ _ (λ l, ∀ p, p ∈ l →
    step_ok p.1 ∧ st_state p.1 = StepState.RUNNING ∧ ∀ wf, p.2 = Some wf → workflow_ok wf)).
  { apply keeps_gets. intros w [Hw Hs] p (s & -> & Hin)%list_elem_of_fmap.
    apply elem_of_find_where in Hin as [[Hst _] Hin]. cbn. split_and!; [by apply Hs|done|].
    intros wf [Hr _]%lookup_row_elem. auto. }
  intros l Hl. apply keeps_foreach. intros [step [wf|]] Hin; destruct (Hl _ Hin) as (Hs & Hst & Hwf); cbn in Hs, Hst, Hwf;
    (apply keeps_try; [|intros; by apply keeps_ret]); cbn [recoverStuckStep]; [|apply keeps_throw].
  specialize (Hwf wf eq_refl).
  assert (st_isCompensated step = false) as Hics.
  { apply step_not_compensated; congruence. }
  destruct (decide (wf_state wf = WorkflowState.RUNNING)) as [Hr|Hr];
    [rewrite bool_decide_eq_true_2 by done|rewrite bool_decide_eq_false_2 by done; by apply keeps_ret].
  assert (wf_isCompensated wf = false) as Hic by (apply not_compensated; congruence). cbn [negb].
  eapply keeps_bind; [apply keeps_date_now|]. intros t _. cbv beta zeta. case_match.
  - eapply keeps_bind; [apply keeps_retryTime|]. intros t' _. apply keeps_saveStep. ok_tac.
  - eapply keeps_bind; [apply keeps_date_now|]. intros t' _.
    eapply keeps_bind; [apply keeps_saveWorkflow; ok_tac|]. intros _ _. apply keeps_saveStep. ok_tac.
Qed.

Lemma keeps_cleanup days : keeps tables_ok (cleanupOldWorkflows days : eff World Z) anything.
Proof.
  unfold cleanupOldWorkflows. eapply keeps_bind; [apply keeps_date_now|]. intros now _. cbv beta zeta.
  eapply keeps_bind; [by apply (keeps_gets _ _ anything)|]. intros n _.
  eapply keeps_bind; [|intros _ _; by apply keeps_ret]. apply (keeps_modify _ _ anything); [|done].
  intros w [Hw Hs]. split; unfold delete_workflows; cbn; intros r; rewrite elem_of_drop_where; naive_solver.
Qed.

Lemma keeps_then {A B} (m : eff World A) (b : B) :
  keeps tables_ok m anything → keeps tables_ok (m ;; mret b) anything.
Proof. intros Hm. eapply keeps_bind; [exact Hm|]. intros _ _. by apply keeps_ret. Qed.

Lemma keeps_http {A B} status (m : eff World A) (b : B) :
  keeps tables_ok m anything → keeps tables_ok (http status (m ;; mret b)) anything.
Proof. intros Hm. apply keeps_try; [by apply keeps_then|]. intros e. apply keeps_throw. Qed.

Lemma keeps_retryStep (reg : registry) workflowId stepId :
  (∀ type d, reg !! type = Some d → executes_ok d) →
  keeps tables_ok (admin_retryWorkflowStep reg workflowId stepId) anything.
Proof.
  intros Hreg. unfold admin_retryWorkflowStep.
  eapply (keeps_bind _ _ _ (λ o, ∀ s, o = Some s → step_ok s)).
  { apply keeps_gets. intros w [_ Hs] s Hf. unfold findStep, findOne_where in Hf.
    apply array_find_Some in Hf as [Hin _]. auto. }
  intros [step|] Hstep; [|apply keeps_throw]. specialize (Hstep step eq_refl).
  destruct (decide (st_state step = StepState.FAILED)) as [Hst|Hst];
    [rewrite bool_decide_eq_true_2 by done|rewrite bool_decide_eq_false_2 by done; apply keeps_throw].
  assert (st_isCompensated step = false) as Hics by (apply step_not_compensated; congruence).
  cbn [negb]. eapply keeps_bind; [apply keeps_saveStep; ok_tac|]. intros _ _. by apply keeps_then, keeps_retryWorkflow.
Qed.

Lemma keeps_retryQueue (reg : registry) :
  (∀ type d, reg !! type = Some d → executes_ok d) → keeps tables_ok (processRetryQueue reg) anything.
Proof.
  intros Hreg. unfold processRetryQueue, getWorkflowsNeedingRetry. eapply (keeps_bind _ _ _ anything).
  { eapply keeps_bind; [apply keeps_date_now|]. intros now _. by apply keeps_gets. }
  intros l _. eapply keeps_bind; [|intros _ _; by apply keeps_ret]. apply keeps_foreach. intros wf _.
  apply keeps_try; [by apply keeps_retryWorkflow|]. intros; by apply keeps_ret.
Qed.

(** ** Reachable states *)

Lemma engine_step_ok (reg : registry) w w' :
  (∀ type d, reg !! type = Some d → executes_ok d) → engine_step reg w w' → tables_ok w → tables_ok w'.
Proof.
  intros Hreg [r w1] Hw. destruct r; cbn [handle].
  - by apply keeps_startWorkflow.
  - by apply keeps_http; [apply keeps_retryWorkflow|].
  - by apply keeps_retryStep.
  - by apply keeps_http; [apply keeps_cancelWorkflow|].
  - by apply keeps_http; [apply keeps_compensateWorkflow|].
  - by apply keeps_http; [apply keeps_forceCompensateWorkflow|].
  - by apply keeps_recoverOrphans.
  - by apply keeps_recoverSteps.
  - by apply keeps_cleanup.
  - by apply keeps_retryQueue.
Qed.

Lemma reachable_ok (reg : registry) w w' :
  (∀ type d, reg !! type = Some d → executes_ok d) → rtc (engine_step reg) w w' → tables_ok w → tables_ok w'.
Proof. intros Hreg Hrtc. induction Hrtc as [w|w1 w2 w3 H1 _ IH]; [done|]. intros Hw. by eapply IH, engine_step_ok. Qed.

(** C2: the tables stay well-formed.  In every state the engine can reach by any sequence of
    requests (starts, retries, cancellations, compensations, forced or not, recoveries,
    clean-ups), provided only that the registered step code keeps the rows well-formed: a
    RUNNING or COMPLETED workflow has a start time, a COMPLETED or CANCELLED one a completion
    time, a FAILED one a reason; a workflow marked compensated is COMPENSATED or being
    compensated again, and a COMPENSATED one is marked; likewise for steps. *)
Theorem engine_tables_ok (reg : registry) w w' :
  (∀ type d, reg !! type = Some d → executes_ok d) →
  rows (wfs w) = [] → rows (sts w) = [] → rtc (engine_step reg) w w' → tables_ok w'.
Proof.
  intros Hreg Hw Hs Hrtc. eapply reachable_ok; [done|done|]. unfold tables_ok. rewrite Hw, Hs.
  split; intros ? []%elem_of_nil.
Qed.

(** the retry queue is always empty.  In every reachable state no workflow has a time for
    its next retry, so [processRetryQueue] finds nothing, retries nothing and returns 0. *)
Theorem retry_queue_empty (reg : registry) w w' :
  (∀ type d, reg !! type = Some d → executes_ok d) →
  rows (wfs w) = [] → rows (sts w) = [] → rtc (engine_step reg) w w' →
  processRetryQueue reg w' = (Return 0%Z, advance w').
Proof.
  intros Hreg Hw Hs Hrtc.
  assert (tables_ok w') as [Hok _].
  { eapply reachable_ok; [done|done|]. unfold tables_ok. rewrite Hw, Hs. split; intros ? []%elem_of_nil. }
  unfold processRetryQueue.
  rewrite (bind_run _ _ w' [] (advance w')); [done|].
  unfold getWorkflowsNeedingRetry. rewrite (bind_run _ _ w' (clock_at (ticks w')) (advance w')) by done.
  unfold gets. f_equal. f_equal. destruct (find_where _ _) as [|wf l] eqn:Hf; [done|exfalso].
  assert (wf ∈ wf :: l) as Hin by left. rewrite <-Hf in Hin. apply elem_of_find_where in Hin as [(_ & _ & Hb) Hin].
  destruct (Hok wf Hin) as (_&_&_&_&_&Hn&_). by rewrite Hn in Hb.
Qed.
End Engine.
