(* ===== verification/StellarTypes.v ===== *)
(** The Stellar monitor's data ([stellar-monitor/types/stellar.types.ts],
    [entities/*.ts], [dto/*.ts]): the enumerations, the two tables, and the world the
    delivery service works in. *)
From S2P Require Import Prelude Json Repository.

Module EventType.
Inductive t : Set := PAYMENT | OFFER | CONTRACT | ACCOUNT | TRUSTLINE.
#[global] Instance t_eq_dec : EqDecision t.
Proof. solve_decision. Defined.
Definition all : list t := [PAYMENT; OFFER; CONTRACT; ACCOUNT; TRUSTLINE].
Definition to_string (x : t) : string :=
  match x with PAYMENT => "payment" | OFFER => "offer" | CONTRACT => "contract" | ACCOUNT => "account" | TRUSTLINE => "trustline" end.
End EventType.

Module DeliveryStatus.
Inductive t : Set := PENDING | DELIVERED | FAILED | RETRYING.
#[global] Instance t_eq_dec : EqDecision t.
Proof. solve_decision. Defined.
Definition all : list t := [PENDING; DELIVERED; FAILED; RETRYING].
Definition to_string (x : t) : string :=
  match x with PENDING => "pending" | DELIVERED => "delivered" | FAILED => "failed" | RETRYING => "retrying" end.
End DeliveryStatus.

Module ConsumerStatus.
Inductive t : Set := ACTIVE | INACTIVE | SUSPENDED.
#[global] Instance t_eq_dec : EqDecision t.
Proof. solve_decision. Defined.
Definition all : list t := [ACTIVE; INACTIVE; SUSPENDED].
Definition to_string (x : t) : string :=
  match x with ACTIVE => "active" | INACTIVE => "inactive" | SUSPENDED => "suspended" end.
End ConsumerStatus.

(** A row of [stellar_events]. *)
Record StellarEvent := mkStellarEvent {
  ev_id : string;
  ev_eventType : EventType.t;
  ev_ledgerSequence : Z;
  ev_timestamp : Z;
  ev_transactionHash : string;
  ev_sourceAccount : string;
  ev_payload : jsobj;
  ev_deliveryStatus : DeliveryStatus.t;
  ev_deliveryAttempts : Z;
  ev_lastAttemptAt : option Z;
  ev_deliveredAt : option Z;
  ev_deliveredTo : option (list string);
  ev_failedDeliveries : option (list string);
  ev_createdAt : Z;
  ev_updatedAt : Z;
  ev_errorMessage : option string;
  ev_isProcessed : bool;
}.

Definition set_ev_deliveryStatus (v : DeliveryStatus.t) (e : StellarEvent) : StellarEvent := {|
  ev_id := ev_id e; ev_eventType := ev_eventType e; ev_ledgerSequence := ev_ledgerSequence e;
  ev_timestamp := ev_timestamp e; ev_transactionHash := ev_transactionHash e; ev_sourceAccount
  := ev_sourceAccount e; ev_payload := ev_payload e; ev_deliveryStatus := v; ev_deliveryAttempts
  := ev_deliveryAttempts e; ev_lastAttemptAt := ev_lastAttemptAt e; ev_deliveredAt :=
  ev_deliveredAt e; ev_deliveredTo := ev_deliveredTo e; ev_failedDeliveries :=
  ev_failedDeliveries e; ev_createdAt := ev_createdAt e; ev_updatedAt := ev_updatedAt e;
  ev_errorMessage := ev_errorMessage e; ev_isProcessed := ev_isProcessed e |}.
Definition set_ev_deliveryAttempts (v : Z) (e : StellarEvent) : StellarEvent := {|
  ev_id := ev_id e; ev_eventType := ev_eventType e; ev_ledgerSequence := ev_ledgerSequence e;
  ev_timestamp := ev_timestamp e; ev_transactionHash := ev_transactionHash e; ev_sourceAccount
  := ev_sourceAccount e; ev_payload := ev_payload e; ev_deliveryStatus := ev_deliveryStatus e;
  ev_deliveryAttempts := v; ev_lastAttemptAt := ev_lastAttemptAt e; ev_deliveredAt :=
  ev_deliveredAt e; ev_deliveredTo := ev_deliveredTo e; ev_failedDeliveries :=
  ev_failedDeliveries e; ev_createdAt := ev_createdAt e; ev_updatedAt := ev_updatedAt e;
  ev_errorMessage := ev_errorMessage e; ev_isProcessed := ev_isProcessed e |}.
Definition set_ev_lastAttemptAt (v : option Z) (e : StellarEvent) : StellarEvent := {|
  ev_id := ev_id e; ev_eventType := ev_eventType e; ev_ledgerSequence := ev_ledgerSequence e;
  ev_timestamp := ev_timestamp e; ev_transactionHash := ev_transactionHash e; ev_sourceAccount
  := ev_sourceAccount e; ev_payload := ev_payload e; ev_deliveryStatus := ev_deliveryStatus e;
  ev_deliveryAttempts := ev_deliveryAttempts e; ev_lastAttemptAt := v; ev_deliveredAt :=
  ev_deliveredAt e; ev_deliveredTo := ev_deliveredTo e; ev_failedDeliveries :=
  ev_failedDeliveries e; ev_createdAt := ev_createdAt e; ev_updatedAt := ev_updatedAt e;
  ev_errorMessage := ev_errorMessage e; ev_isProcessed := ev_isProcessed e |}.
Definition set_ev_deliveredAt (v : option Z) (e : StellarEvent) : StellarEvent := {|
  ev_id := ev_id e; ev_eventType := ev_eventType e; ev_ledgerSequence := ev_ledgerSequence e;
  ev_timestamp := ev_timestamp e; ev_transactionHash := ev_transactionHash e; ev_sourceAccount
  := ev_sourceAccount e; ev_payload := ev_payload e; ev_deliveryStatus := ev_deliveryStatus e;
  ev_deliveryAttempts := ev_deliveryAttempts e; ev_lastAttemptAt := ev_lastAttemptAt e;
  ev_deliveredAt := v; ev_deliveredTo := ev_deliveredTo e; ev_failedDeliveries :=
  ev_failedDeliveries e; ev_createdAt := ev_createdAt e; ev_updatedAt := ev_updatedAt e;
  ev_errorMessage := ev_errorMessage e; ev_isProcessed := ev_isProcessed e |}.
Definition set_ev_deliveredTo (v : option (list string)) (e : StellarEvent) : StellarEvent := {|
  ev_id := ev_id e; ev_eventType := ev_eventType e; ev_ledgerSequence := ev_ledgerSequence e;
  ev_timestamp := ev_timestamp e; ev_transactionHash := ev_transactionHash e; ev_sourceAccount
  := ev_sourceAccount e; ev_payload := ev_payload e; ev_deliveryStatus := ev_deliveryStatus e;
  ev_deliveryAttempts := ev_deliveryAttempts e; ev_lastAttemptAt := ev_lastAttemptAt e;
  ev_deliveredAt := ev_deliveredAt e; ev_deliveredTo := v; ev_failedDeliveries :=
  ev_failedDeliveries e; ev_createdAt := ev_createdAt e; ev_updatedAt := ev_updatedAt e;
  ev_errorMessage := ev_errorMessage e; ev_isProcessed := ev_isProcessed e |}.
Definition set_ev_failedDeliveries (v : option (list string)) (e : StellarEvent) : StellarEvent := {|
  ev_id := ev_id e; ev_eventType := ev_eventType e; ev_ledgerSequence := ev_ledgerSequence e;
  ev_timestamp := ev_timestamp e; ev_transactionHash := ev_transactionHash e; ev_sourceAccount
  := ev_sourceAccount e; ev_payload := ev_payload e; ev_deliveryStatus := ev_deliveryStatus e;
  ev_deliveryAttempts := ev_deliveryAttempts e; ev_lastAttemptAt := ev_lastAttemptAt e;
  ev_deliveredAt := ev_deliveredAt e; ev_deliveredTo := ev_deliveredTo e; ev_failedDeliveries :=
  v; ev_createdAt := ev_createdAt e; ev_updatedAt := ev_updatedAt e; ev_errorMessage :=
  ev_errorMessage e; ev_isProcessed := ev_isProcessed e |}.
Definition set_ev_createdAt (v : Z) (e : StellarEvent) : StellarEvent := {|
  ev_id := ev_id e; ev_eventType := ev_eventType e; ev_ledgerSequence := ev_ledgerSequence e;
  ev_timestamp := ev_timestamp e; ev_transactionHash := ev_transactionHash e; ev_sourceAccount
  := ev_sourceAccount e; ev_payload := ev_payload e; ev_deliveryStatus := ev_deliveryStatus e;
  ev_deliveryAttempts := ev_deliveryAttempts e; ev_lastAttemptAt := ev_lastAttemptAt e;
  ev_deliveredAt := ev_deliveredAt e; ev_deliveredTo := ev_deliveredTo e; ev_failedDeliveries :=
  ev_failedDeliveries e; ev_createdAt := v; ev_updatedAt := ev_updatedAt e; ev_errorMessage :=
  ev_errorMessage e; ev_isProcessed := ev_isProcessed e |}.
Definition set_ev_updatedAt (v : Z) (e : StellarEvent) : StellarEvent := {|
  ev_id := ev_id e; ev_eventType := ev_eventType e; ev_ledgerSequence := ev_ledgerSequence e;
  ev_timestamp := ev_timestamp e; ev_transactionHash := ev_transactionHash e; ev_sourceAccount
  := ev_sourceAccount e; ev_payload := ev_payload e; ev_deliveryStatus := ev_deliveryStatus e;
  ev_deliveryAttempts := ev_deliveryAttempts e; ev_lastAttemptAt := ev_lastAttemptAt e;
  ev_deliveredAt := ev_deliveredAt e; ev_deliveredTo := ev_deliveredTo e; ev_failedDeliveries :=
  ev_failedDeliveries e; ev_createdAt := ev_createdAt e; ev_updatedAt := v; ev_errorMessage :=
  ev_errorMessage e; ev_isProcessed := ev_isProcessed e |}.
Definition set_ev_errorMessage (v : option string) (e : StellarEvent) : StellarEvent := {|
  ev_id := ev_id e; ev_eventType := ev_eventType e; ev_ledgerSequence := ev_ledgerSequence e;
  ev_timestamp := ev_timestamp e; ev_transactionHash := ev_transactionHash e; ev_sourceAccount
  := ev_sourceAccount e; ev_payload := ev_payload e; ev_deliveryStatus := ev_deliveryStatus e;
  ev_deliveryAttempts := ev_deliveryAttempts e; ev_lastAttemptAt := ev_lastAttemptAt e;
  ev_deliveredAt := ev_deliveredAt e; ev_deliveredTo := ev_deliveredTo e; ev_failedDeliveries :=
  ev_failedDeliveries e; ev_createdAt := ev_createdAt e; ev_updatedAt := ev_updatedAt e;
  ev_errorMessage := v; ev_isProcessed := ev_isProcessed e |}.
Definition set_ev_isProcessed (v : bool) (e : StellarEvent) : StellarEvent := {|
  ev_id := ev_id e; ev_eventType := ev_eventType e; ev_ledgerSequence := ev_ledgerSequence e;
  ev_timestamp := ev_timestamp e; ev_transactionHash := ev_transactionHash e; ev_sourceAccount
  := ev_sourceAccount e; ev_payload := ev_payload e; ev_deliveryStatus := ev_deliveryStatus e;
  ev_deliveryAttempts := ev_deliveryAttempts e; ev_lastAttemptAt := ev_lastAttemptAt e;
  ev_deliveredAt := ev_deliveredAt e; ev_deliveredTo := ev_deliveredTo e; ev_failedDeliveries :=
  ev_failedDeliveries e; ev_createdAt := ev_createdAt e; ev_updatedAt := ev_updatedAt e;
  ev_errorMessage := ev_errorMessage e; ev_isProcessed := v |}.

Definition merge_event (created updated : Z) (o : option StellarEvent) (e : StellarEvent) : StellarEvent :=
  e |> set_ev_lastAttemptAt (merge_column (o ≫= ev_lastAttemptAt) (ev_lastAttemptAt e))
    |> set_ev_deliveredAt (merge_column (o ≫= ev_deliveredAt) (ev_deliveredAt e))
    |> set_ev_deliveredTo (merge_column (o ≫= ev_deliveredTo) (ev_deliveredTo e))
    |> set_ev_failedDeliveries (merge_column (o ≫= ev_failedDeliveries) (ev_failedDeliveries e))
    |> set_ev_errorMessage (merge_column (o ≫= ev_errorMessage) (ev_errorMessage e))
    |> set_ev_createdAt created
    |> set_ev_updatedAt updated.

(** A row of [webhook_consumers]. *)
Record WebhookConsumer := mkWebhookConsumer {
  co_id : string;
  co_name : string;
  co_url : string;
  co_secret : option string;
  co_status : ConsumerStatus.t;
  co_maxRetries : Z;
  co_timeoutMs : Z;
  co_isActive : bool;
  co_createdAt : Z;
  co_updatedAt : Z;
  co_metadata : option jsobj;
  co_lastDeliveryAttempt : option Z;
  co_lastDeliverySuccess : option Z;
  co_totalDeliveries : Z;
  co_failedDeliveries : Z;
}.

Definition set_co_name (v : string) (c : WebhookConsumer) : WebhookConsumer := {|
  co_id := co_id c; co_name := v; co_url := co_url c; co_secret := co_secret c; co_status :=
  co_status c; co_maxRetries := co_maxRetries c; co_timeoutMs := co_timeoutMs c; co_isActive :=
  co_isActive c; co_createdAt := co_createdAt c; co_updatedAt := co_updatedAt c; co_metadata :=
  co_metadata c; co_lastDeliveryAttempt := co_lastDeliveryAttempt c; co_lastDeliverySuccess :=
  co_lastDeliverySuccess c; co_totalDeliveries := co_totalDeliveries c; co_failedDeliveries :=
  co_failedDeliveries c |}.
Definition set_co_url (v : string) (c : WebhookConsumer) : WebhookConsumer := {|
  co_id := co_id c; co_name := co_name c; co_url := v; co_secret := co_secret c; co_status :=
  co_status c; co_maxRetries := co_maxRetries c; co_timeoutMs := co_timeoutMs c; co_isActive :=
  co_isActive c; co_createdAt := co_createdAt c; co_updatedAt := co_updatedAt c; co_metadata :=
  co_metadata c; co_lastDeliveryAttempt := co_lastDeliveryAttempt c; co_lastDeliverySuccess :=
  co_lastDeliverySuccess c; co_totalDeliveries := co_totalDeliveries c; co_failedDeliveries :=
  co_failedDeliveries c |}.
Definition set_co_secret (v : option string) (c : WebhookConsumer) : WebhookConsumer := {|
  co_id := co_id c; co_name := co_name c; co_url := co_url c; co_secret := v; co_status :=
  co_status c; co_maxRetries := co_maxRetries c; co_timeoutMs := co_timeoutMs c; co_isActive :=
  co_isActive c; co_createdAt := co_createdAt c; co_updatedAt := co_updatedAt c; co_metadata :=
  co_metadata c; co_lastDeliveryAttempt := co_lastDeliveryAttempt c; co_lastDeliverySuccess :=
  co_lastDeliverySuccess c; co_totalDeliveries := co_totalDeliveries c; co_failedDeliveries :=
  co_failedDeliveries c |}.
Definition set_co_status (v : ConsumerStatus.t) (c : WebhookConsumer) : WebhookConsumer := {|
  co_id := co_id c; co_name := co_name c; co_url := co_url c; co_secret := co_secret c;
  co_status := v; co_maxRetries := co_maxRetries c; co_timeoutMs := co_timeoutMs c; co_isActive
  := co_isActive c; co_createdAt := co_createdAt c; co_updatedAt := co_updatedAt c; co_metadata
  := co_metadata c; co_lastDeliveryAttempt := co_lastDeliveryAttempt c; co_lastDeliverySuccess
  := co_lastDeliverySuccess c; co_totalDeliveries := co_totalDeliveries c; co_failedDeliveries
  := co_failedDeliveries c |}.
Definition set_co_maxRetries (v : Z) (c : WebhookConsumer) : WebhookConsumer := {|
  co_id := co_id c; co_name := co_name c; co_url := co_url c; co_secret := co_secret c;
  co_status := co_status c; co_maxRetries := v; co_timeoutMs := co_timeoutMs c; co_isActive :=
  co_isActive c; co_createdAt := co_createdAt c; co_updatedAt := co_updatedAt c; co_metadata :=
  co_metadata c; co_lastDeliveryAttempt := co_lastDeliveryAttempt c; co_lastDeliverySuccess :=
  co_lastDeliverySuccess c; co_totalDeliveries := co_totalDeliveries c; co_failedDeliveries :=
  co_failedDeliveries c |}.
Definition set_co_timeoutMs (v : Z) (c : WebhookConsumer) : WebhookConsumer := {|
  co_id := co_id c; co_name := co_name c; co_url := co_url c; co_secret := co_secret c;
  co_status := co_status c; co_maxRetries := co_maxRetries c; co_timeoutMs := v; co_isActive :=
  co_isActive c; co_createdAt := co_createdAt c; co_updatedAt := co_updatedAt c; co_metadata :=
  co_metadata c; co_lastDeliveryAttempt := co_lastDeliveryAttempt c; co_lastDeliverySuccess :=
  co_lastDeliverySuccess c; co_totalDeliveries := co_totalDeliveries c; co_failedDeliveries :=
  co_failedDeliveries c |}.
Definition set_co_isActive (v : bool) (c : WebhookConsumer) : WebhookConsumer := {|
  co_id := co_id c; co_name := co_name c; co_url := co_url c; co_secret := co_secret c;
  co_status := co_status c; co_maxRetries := co_maxRetries c; co_timeoutMs := co_timeoutMs c;
  co_isActive := v; co_createdAt := co_createdAt c; co_updatedAt := co_updatedAt c; co_metadata
  := co_metadata c; co_lastDeliveryAttempt := co_lastDeliveryAttempt c; co_lastDeliverySuccess
  := co_lastDeliverySuccess c; co_totalDeliveries := co_totalDeliveries c; co_failedDeliveries
  := co_failedDeliveries c |}.
Definition set_co_createdAt (v : Z) (c : WebhookConsumer) : WebhookConsumer := {|
  co_id := co_id c; co_name := co_name c; co_url := co_url c; co_secret := co_secret c;
  co_status := co_status c; co_maxRetries := co_maxRetries c; co_timeoutMs := co_timeoutMs c;
  co_isActive := co_isActive c; co_createdAt := v; co_updatedAt := co_updatedAt c; co_metadata
  := co_metadata c; co_lastDeliveryAttempt := co_lastDeliveryAttempt c; co_lastDeliverySuccess
  := co_lastDeliverySuccess c; co_totalDeliveries := co_totalDeliveries c; co_failedDeliveries
  := co_failedDeliveries c |}.
Definition set_co_updatedAt (v : Z) (c : WebhookConsumer) : WebhookConsumer := {|
  co_id := co_id c; co_name := co_name c; co_url := co_url c; co_secret := co_secret c;
  co_status := co_status c; co_maxRetries := co_maxRetries c; co_timeoutMs := co_timeoutMs c;
  co_isActive := co_isActive c; co_createdAt := co_createdAt c; co_updatedAt := v; co_metadata
  := co_metadata c; co_lastDeliveryAttempt := co_lastDeliveryAttempt c; co_lastDeliverySuccess
  := co_lastDeliverySuccess c; co_totalDeliveries := co_totalDeliveries c; co_failedDeliveries
  := co_failedDeliveries c |}.
Definition set_co_metadata (v : option jsobj) (c : WebhookConsumer) : WebhookConsumer := {|
  co_id := co_id c; co_name := co_name c; co_url := co_url c; co_secret := co_secret c;
  co_status := co_status c; co_maxRetries := co_maxRetries c; co_timeoutMs := co_timeoutMs c;
  co_isActive := co_isActive c; co_createdAt := co_createdAt c; co_updatedAt := co_updatedAt c;
  co_metadata := v; co_lastDeliveryAttempt := co_lastDeliveryAttempt c; co_lastDeliverySuccess
  := co_lastDeliverySuccess c; co_totalDeliveries := co_totalDeliveries c; co_failedDeliveries
  := co_failedDeliveries c |}.
Definition set_co_lastDeliveryAttempt (v : option Z) (c : WebhookConsumer) : WebhookConsumer := {|
  co_id := co_id c; co_name := co_name c; co_url := co_url c; co_secret := co_secret c;
  co_status := co_status c; co_maxRetries := co_maxRetries c; co_timeoutMs := co_timeoutMs c;
  co_isActive := co_isActive c; co_createdAt := co_createdAt c; co_updatedAt := co_updatedAt c;
  co_metadata := co_metadata c; co_lastDeliveryAttempt := v; co_lastDeliverySuccess :=
  co_lastDeliverySuccess c; co_totalDeliveries := co_totalDeliveries c; co_failedDeliveries :=
  co_failedDeliveries c |}.
Definition set_co_lastDeliverySuccess (v : option Z) (c : WebhookConsumer) : WebhookConsumer := {|
  co_id := co_id c; co_name := co_name c; co_url := co_url c; co_secret := co_secret c;
  co_status := co_status c; co_maxRetries := co_maxRetries c; co_timeoutMs := co_timeoutMs c;
  co_isActive := co_isActive c; co_createdAt := co_createdAt c; co_updatedAt := co_updatedAt c;
  co_metadata := co_metadata c; co_lastDeliveryAttempt := co_lastDeliveryAttempt c;
  co_lastDeliverySuccess := v; co_totalDeliveries := co_totalDeliveries c; co_failedDeliveries
  := co_failedDeliveries c |}.
Definition set_co_totalDeliveries (v : Z) (c : WebhookConsumer) : WebhookConsumer := {|
  co_id := co_id c; co_name := co_name c; co_url := co_url c; co_secret := co_secret c;
  co_status := co_status c; co_maxRetries := co_maxRetries c; co_timeoutMs := co_timeoutMs c;
  co_isActive := co_isActive c; co_createdAt := co_createdAt c; co_updatedAt := co_updatedAt c;
  co_metadata := co_metadata c; co_lastDeliveryAttempt := co_lastDeliveryAttempt c;
  co_lastDeliverySuccess := co_lastDeliverySuccess c; co_totalDeliveries := v;
  co_failedDeliveries := co_failedDeliveries c |}.
Definition set_co_failedDeliveries (v : Z) (c : WebhookConsumer) : WebhookConsumer := {|
  co_id := co_id c; co_name := co_name c; co_url := co_url c; co_secret := co_secret c;
  co_status := co_status c; co_maxRetries := co_maxRetries c; co_timeoutMs := co_timeoutMs c;
  co_isActive := co_isActive c; co_createdAt := co_createdAt c; co_updatedAt := co_updatedAt c;
  co_metadata := co_metadata c; co_lastDeliveryAttempt := co_lastDeliveryAttempt c;
  co_lastDeliverySuccess := co_lastDeliverySuccess c; co_totalDeliveries := co_totalDeliveries
  c; co_failedDeliveries := v |}.

Definition merge_consumer (created updated : Z) (o : option WebhookConsumer) (c : WebhookConsumer) : WebhookConsumer :=
  c |> set_co_secret (merge_column (o ≫= co_secret) (co_secret c))
    |> set_co_metadata (merge_column (o ≫= co_metadata) (co_metadata c))
    |> set_co_lastDeliveryAttempt (merge_column (o ≫= co_lastDeliveryAttempt) (co_lastDeliveryAttempt c))
    |> set_co_lastDeliverySuccess (merge_column (o ≫= co_lastDeliverySuccess) (co_lastDeliverySuccess c))
    |> set_co_createdAt created
    |> set_co_updatedAt updated.

(** ** The tables

    The creation time of a row is stamped when it is inserted and kept afterwards. *)
Class EventTable (DB : Type) := {
  event_repo :: Repository DB StellarEvent;
  event_laws :: RepositoryLaws DB StellarEvent;
  event_id e : row_id e = ev_id e;
  event_written t o e : ∃ u, written t o e =
    merge_event (match o with Some r => ev_createdAt r | None => t end) u o e;
}.

Class ConsumerTable (DB : Type) := {
  consumer_repo :: Repository DB WebhookConsumer;
  consumer_laws :: RepositoryLaws DB WebhookConsumer;
  consumer_id c : row_id c = co_id c;
  consumer_written t o c : ∃ u, written t o c =
    merge_consumer (match o with Some r => co_createdAt r | None => t end) u o c;
}.

Definition mem_event_written (t : Z) (o : option StellarEvent) (e : StellarEvent) : StellarEvent :=
  merge_event (match o with Some r => ev_createdAt r | None => t end) t o e.
Definition mem_consumer_written (t : Z) (o : option WebhookConsumer) (c : WebhookConsumer) : WebhookConsumer :=
  merge_consumer (match o with Some r => co_createdAt r | None => t end) t o c.

Definition mem_event_table : EventTable (gmap string StellarEvent) := {|
  event_repo := mem_repository ev_id mem_event_written;
  event_laws := mem_repository_laws ev_id mem_event_written (λ _ _ _, eq_refl);
  event_id _ := eq_refl;
  event_written t _ _ := ex_intro _ t eq_refl;
|}.

Definition mem_consumer_table : ConsumerTable (gmap string WebhookConsumer) := {|
  consumer_repo := mem_repository co_id mem_consumer_written;
  consumer_laws := mem_repository_laws co_id mem_consumer_written (λ _ _ _, eq_refl);
  consumer_id _ := eq_refl;
  consumer_written t _ _ := ex_intro _ t eq_refl;
|}.

(** ** Requests to the consumers' endpoints *)

Record post := mkPost {
  post_url : string;
  post_timeout : Z;
  post_eventId : string;          (* X-Stellar-Event-ID *)
  post_eventType : string;        (* X-Stellar-Event-Type *)
  post_attempt : string;          (* X-Delivery-Attempt *)
  post_signature : option string; (* X-Signature *)
  post_payload : jsobj;
}.

Inductive http_result : Type :=
| HttpOk (status : Z)
| HttpError (status : option Z) (message : string).

(** What the network answers to the [n]-th request, and Node's HMAC. *)
Class Network := { http_post : nat → post → http_result; hmac_sha256 : string → string → string }.

(** ** The world of the delivery service

    [deliveryQueue] and the timers hold the objects that were queued, which nobody
    mutates: the services load their own copies from the tables. *)
Record item := mkItem { it_event : StellarEvent; it_consumer : WebhookConsumer }.

Record Monitor (DBE DBC : Type) := mkMonitor {
  events : DBE;
  consumers : DBC;
  mticks : nat;
  deliveryQueue : list item;
  timers : list (Z * item);
  isProcessingQueue : bool;
  posts : list post;            (* requests sent, oldest first *)
}.
Arguments mkMonitor {_ _} _ _ _ _ _ _ _.
Arguments events {_ _} _.
Arguments consumers {_ _} _.
Arguments mticks {_ _} _.
Arguments deliveryQueue {_ _} _.
Arguments timers {_ _} _.
Arguments isProcessingQueue {_ _} _.
Arguments posts {_ _} _.

Section Monitor.
Context {DBE DBC : Type}.
Implicit Types (w : Monitor DBE DBC).

Definition set_events (v : DBE) w : Monitor DBE DBC :=
  mkMonitor v (consumers w) (mticks w) (deliveryQueue w) (timers w) (isProcessingQueue w) (posts w).
Definition set_consumers (v : DBC) w : Monitor DBE DBC :=
  mkMonitor (events w) v (mticks w) (deliveryQueue w) (timers w) (isProcessingQueue w) (posts w).
Definition set_mticks (v : nat) w : Monitor DBE DBC :=
  mkMonitor (events w) (consumers w) v (deliveryQueue w) (timers w) (isProcessingQueue w) (posts w).
Definition set_queue (v : list item) w : Monitor DBE DBC :=
  mkMonitor (events w) (consumers w) (mticks w) v (timers w) (isProcessingQueue w) (posts w).
Definition set_timers (v : list (Z * item)) w : Monitor DBE DBC :=
  mkMonitor (events w) (consumers w) (mticks w) (deliveryQueue w) v (isProcessingQueue w) (posts w).
Definition set_processing (v : bool) w : Monitor DBE DBC :=
  mkMonitor (events w) (consumers w) (mticks w) (deliveryQueue w) (timers w) v (posts w).
Definition set_posts (v : list post) w : Monitor DBE DBC :=
  mkMonitor (events w) (consumers w) (mticks w) (deliveryQueue w) (timers w) (isProcessingQueue w) v.
End Monitor.

#[export] Instance Monitor_ticking DBE DBC : Ticking (Monitor DBE DBC) := {|
  tick := mticks;
  advance w := set_mticks (S (mticks w)) w;
|}.

(** ** DTOs, as they come out of validation *)

Record CreateConsumerDto := mkCreateConsumerDto {
  cc_name : string; cc_url : string; cc_secret : option string;
  cc_maxRetries : option Z; cc_timeoutMs : option Z; cc_isActive : option bool }.

Record UpdateConsumerDto := mkUpdateConsumerDto {
  uc_name : option string; uc_url : option string; uc_secret : option string;
  uc_maxRetries : option Z; uc_timeoutMs : option Z; uc_isActive : option bool }.

Record StellarEventDto := mkStellarEventDto {
  ed_id : string; ed_eventType : EventType.t; ed_ledgerSequence : Z; ed_timestamp : Z;
  ed_transactionHash : string; ed_sourceAccount : string; ed_payload : jsobj }.
