(* ===== verification/StellarConsumers.v ===== *)
(** [stellar-monitor/services/consumer-management.service.ts]: the webhook
    consumers, their delivery statistics and the automatic suspension. *)
From S2P Require Import Prelude Json Repository StellarTypes.

Section Consumers.
Context {DBE DBC : Type} `{!EventTable DBE, !ConsumerTable DBC, CLK : Clock}.
Local Abbreviation Monitor := (Monitor DBE DBC).
Implicit Types (c : WebhookConsumer) (w : Monitor).

(** [save] returns the object it was given, with the generated columns filled in. *)
Definition saveConsumer c : eff Monitor WebhookConsumer := λ w,
  let t := clock_at (mticks w) in
  let created := match lookup_row (co_id c) (consumers w) with Some r => co_createdAt r | None => t end in
  (Return (c |> set_co_createdAt created |> set_co_updatedAt t),
   set_mticks (S (mticks w)) (set_consumers (write t c (consumers w)) w)).

Definition findByUrl (url : string) (w : Monitor) : option WebhookConsumer :=
  findOne_where (λ c, co_url c = url) (consumers w).

(** [create({ ...createDto, status: ACTIVE })], with the column defaults. *)
Definition new_consumer (id : string) (dto : CreateConsumerDto) (now : Z) : WebhookConsumer :=
  mkWebhookConsumer id (cc_name dto) (cc_url dto) (cc_secret dto) ConsumerStatus.ACTIVE
    (default 5%Z (cc_maxRetries dto)) (default 5000%Z (cc_timeoutMs dto)) (default true (cc_isActive dto))
    now now None None None 0 0.

(** The [catch] block logs and rethrows. *)
Definition createConsumer (createDto : CreateConsumerDto) : eff Monitor WebhookConsumer :=
  existingConsumer ← gets (findByUrl (cc_url createDto));
  match existingConsumer with
  | Some _ => throw (BadRequestException "Consumer with this URL already exists")
  | None =>
      w ← gets id;
      saveConsumer (new_consumer (fresh_id (consumers w)) createDto (clock_at (mticks w)))
  end.

Definition getAllConsumers (activeOnly : bool) (w : Monitor) : list WebhookConsumer :=
  sort_on (λ c, (- co_createdAt c)%Z)
    (find_where (λ c, implb activeOnly (co_isActive c) = true) (consumers w)).

Definition getConsumerById (id : string) : eff Monitor WebhookConsumer :=
  consumer ← gets (λ w, lookup_row id (consumers w));
  match consumer with
  | None => throw (NotFoundException ("Consumer with ID " +:+ id +:+ " not found"))
  | Some c => mret c
  end.

(** [Object.assign(consumer, updateDto)] *)
Definition assign_update (updateDto : UpdateConsumerDto) c : WebhookConsumer :=
  c |> set_co_name (default (co_name c) (uc_name updateDto))
    |> set_co_url (default (co_url c) (uc_url updateDto))
    |> set_co_secret (match uc_secret updateDto with Some s => Some s | None => co_secret c end)
    |> set_co_maxRetries (default (co_maxRetries c) (uc_maxRetries updateDto))
    |> set_co_timeoutMs (default (co_timeoutMs c) (uc_timeoutMs updateDto))
    |> set_co_isActive (default (co_isActive c) (uc_isActive updateDto)).

Definition updateConsumer (id : string) (updateDto : UpdateConsumerDto) : eff Monitor WebhookConsumer :=
  consumer ← getConsumerById id;
  conflict ← gets (λ w,
    match uc_url updateDto with
    | Some url =>
        if negb (bool_decide (url = EmptyString)) && negb (bool_decide (url = co_url consumer)) then
          match findByUrl url w with
          | Some existing => negb (bool_decide (co_id existing = id))
          | None => false
          end
        else false
    | None => false
    end);
  if (conflict : bool) then throw (BadRequestException "Another consumer with this URL already exists")
  else saveConsumer (assign_update updateDto consumer).

Definition deleteConsumer (id : string) : eff Monitor unit :=
  consumer ← getConsumerById id;
  modify (λ w, set_consumers (drop (co_id consumer) (consumers w)) w).

Definition activateConsumer (id : string) : eff Monitor WebhookConsumer :=
  consumer ← getConsumerById id;
  saveConsumer (consumer |> set_co_isActive true |> set_co_status ConsumerStatus.ACTIVE).

Definition deactivateConsumer (id : string) : eff Monitor WebhookConsumer :=
  consumer ← getConsumerById id;
  saveConsumer (consumer |> set_co_isActive false |> set_co_status ConsumerStatus.INACTIVE).

(** [{ ...metadata, k: v, ... }] *)
Definition spread (metadata : option jsobj) (fields : jsobj) : jsobj :=
  foldl (λ o '(k, v), assoc_set k v o) (default [] metadata) fields.

Definition suspendConsumer (id : string) (reason : option string) : eff Monitor WebhookConsumer :=
  consumer ← getConsumerById id;
  let consumer := consumer |> set_co_isActive false |> set_co_status ConsumerStatus.SUSPENDED in
  consumer ← (if bool_decide (default EmptyString reason ≠ EmptyString) then
                now ← date_now;
                mret (set_co_metadata (Some (spread (co_metadata consumer)
                  [("suspensionReason", JString (default EmptyString reason));
                   ("suspendedAt", JString (iso_time now))])) consumer)
              else mret consumer);
  saveConsumer consumer.

Definition getActiveConsumers (w : Monitor) : list WebhookConsumer :=
  sort_on co_createdAt
    (find_where (λ c, co_isActive c = true ∧ co_status c = ConsumerStatus.ACTIVE) (consumers w)).

(** What [updateDeliveryStats] does with the consumer it has loaded. *)
Definition recordDelivery (isSuccess : bool) (deliveryTime : option Z) (consumer : WebhookConsumer) :
    eff Monitor WebhookConsumer :=
  now ← date_now;
  let consumer := consumer |> set_co_totalDeliveries (co_totalDeliveries consumer + 1)%Z
                           |> set_co_lastDeliveryAttempt (Some now) in
  if isSuccess then
    now ← date_now;
    saveConsumer (consumer |> set_co_lastDeliverySuccess (Some (default now deliveryTime))
                           |> set_co_failedDeliveries (Z.max 0 (co_failedDeliveries consumer - 1)))
  else
    let consumer := set_co_failedDeliveries (co_failedDeliveries consumer + 1)%Z consumer in
    if bool_decide (co_failedDeliveries consumer > 10)%Z then
      now ← date_now;
      saveConsumer (consumer |> set_co_isActive false |> set_co_status ConsumerStatus.SUSPENDED
        |> set_co_metadata (Some (spread (co_metadata consumer)
             [("autoSuspended", JBool true);
              ("autoSuspensionReason", JString "Too many consecutive failures");
              ("autoSuspendedAt", JString (iso_time now))])))
    else saveConsumer consumer.

Definition updateDeliveryStats (consumerId : string) (isSuccess : bool) (deliveryTime : option Z) :
    eff Monitor WebhookConsumer :=
  consumer ← getConsumerById consumerId;
  recordDelivery isSuccess deliveryTime consumer.

(** The success rate is in hundredths of a percent: [toFixed(2)]. *)
Record HealthStats := mkHealthStats {
  hs_successRate : Z; hs_recentFailures : Z; hs_avgResponseTime : Z; hs_lastDelivery : option Z }.

Definition success_rate c : Z :=
  let total := co_totalDeliveries c in
  if bool_decide (total > 0)%Z
  then ((20000 * (total - co_failedDeliveries c) + total) `div` (2 * total))%Z
  else 10000%Z.

Definition getConsumerHealthStats (consumerId : string) : eff Monitor HealthStats :=
  consumer ← getConsumerById consumerId;
  mret (mkHealthStats (success_rate consumer) (co_failedDeliveries consumer) 0 (co_lastDeliveryAttempt consumer)).

Record ConsumerStats := mkConsumerStats {
  cs_totalConsumers : Z; cs_activeConsumers : Z; cs_inactiveConsumers : Z; cs_suspendedConsumers : Z;
  cs_consumersByStatus : list (ConsumerStatus.t * Z) }.

Definition consumers_getStats (w : Monitor) : ConsumerStats :=
  mkConsumerStats (Z.of_nat (length (rows (consumers w))))
    (count_where (λ c, co_isActive c = true) (consumers w))
    (count_where (λ c, co_status c = ConsumerStatus.INACTIVE) (consumers w))
    (count_where (λ c, co_status c = ConsumerStatus.SUSPENDED) (consumers w))
    ((λ s, (s, count_where (λ c, co_status c = s) (consumers w))) <$> ConsumerStatus.all).

(** * Reading the tables after a save *)

Lemma lookup_consumer_save_eq t c (db : DBC) :
  ∃ u, lookup_row (co_id c) (write t c db) =
    Some (merge_consumer (match lookup_row (co_id c) db with Some r => co_createdAt r | None => t end)
            u (lookup_row (co_id c) db) c).
Proof.
  rewrite <-consumer_id, lookup_write_eq.
  destruct (consumer_written t (lookup_row (row_id c) db) c) as (u & ->). eauto.
Qed.

Lemma lookup_consumer_save_ne t c (db : DBC) id :
  id ≠ co_id c → lookup_row id (write t c db) = lookup_row id db.
Proof. rewrite <-consumer_id. apply lookup_write_ne. Qed.

Lemma lookup_consumer_id id (db : DBC) c : lookup_row id db = Some c → co_id c = id.
Proof. intros H. apply lookup_row_id in H. by rewrite consumer_id in H. Qed.

Lemma getConsumerById_run id c w : lookup_row id (consumers w) = Some c → getConsumerById id w = (Return c, w).
Proof. intros H. unfold getConsumerById. rewrite bind_gets. by rewrite H. Qed.

Lemma getConsumerById_none id w : lookup_row id (consumers w) = None →
  getConsumerById id w = (Throw (NotFoundException ("Consumer with ID " +:+ id +:+ " not found")), w).
Proof. intros H. unfold getConsumerById. rewrite bind_gets. by rewrite H. Qed.

(** * Statistics *)

(** Nothing but one consumer's row and the clock has changed. *)
Definition only_consumer (id : string) w w' : Prop :=
  events w' = events w ∧ deliveryQueue w' = deliveryQueue w ∧ timers w' = timers w ∧
  isProcessingQueue w' = isProcessingQueue w ∧ posts w' = posts w ∧ mticks w ≤ mticks w' ∧
  ∀ id', id' ≠ id → lookup_row id' (consumers w') = lookup_row id' (consumers w).

#[export] Instance only_consumer_preorder id : PreOrder (only_consumer id).
Proof.
  split; [intros w; by split_and!|].
  intros w1 w2 w3 (?&?&?&?&?&?&Ho1) (?&?&?&?&?&?&Ho2). split_and!; try congruence; [lia|].
  intros id' Hne. by rewrite Ho2, Ho1.
Qed.

Lemma saveConsumer_run c w : ∃ r w', saveConsumer c w = (Return r, w') ∧ only_consumer (co_id c) w w' ∧
  ∃ cr u, lookup_row (co_id c) (consumers w') = Some (merge_consumer cr u (lookup_row (co_id c) (consumers w)) c) ∧
    ∀ old, lookup_row (co_id c) (consumers w) = Some old → cr = co_createdAt old.
Proof.
  do 2 eexists. split; [reflexivity|]. split.
  - split_and!; try done; [cbn; lia|]. intros id Hne. cbn. by apply lookup_consumer_save_ne.
  - destruct (lookup_consumer_save_eq (clock_at (mticks w)) c (consumers w)) as (u & Hl).
    exists (match lookup_row (co_id c) (consumers w) with Some r => co_createdAt r | None => clock_at (mticks w) end), u.
    split; [exact Hl|]. by intros old ->.
Qed.

(** One step of the failure counter. *)
Definition bump_failures (f : Z) (isSuccess : bool) : Z :=
  if isSuccess then Z.max 0 (f - 1) else (f + 1)%Z.

(** The columns that say who a consumer is and where its events go. *)
Definition same_consumer c c' : Prop :=
  co_id c' = co_id c ∧ co_name c' = co_name c ∧ co_url c' = co_url c ∧ co_maxRetries c' = co_maxRetries c ∧
  co_timeoutMs c' = co_timeoutMs c ∧ co_createdAt c' = co_createdAt c.

(** The row after a delivery to the consumer whose row was [c]. *)
Definition delivered_to c (isSuccess : bool) r : Prop :=
  same_consumer c r ∧ co_totalDeliveries r = (co_totalDeliveries c + 1)%Z ∧
  co_failedDeliveries r = bump_failures (co_failedDeliveries c) isSuccess ∧
  if negb isSuccess && bool_decide (co_failedDeliveries c + 1 > 10)%Z
  then co_isActive r = false ∧ co_status r = ConsumerStatus.SUSPENDED
  else co_isActive r = co_isActive c ∧ co_status r = co_status c.

Lemma updateDeliveryStats_run id b t c w : lookup_row id (consumers w) = Some c →
  ∃ r w', updateDeliveryStats id b t w = (Return r, w') ∧ only_consumer id w w' ∧
    ∃ row, lookup_row id (consumers w') = Some row ∧ delivered_to c b row.
Proof.
  intros Hc. pose proof (lookup_consumer_id _ _ _ Hc) as Hid. unfold updateDeliveryStats, recordDelivery.
  rewrite (bind_run _ _ w c w) by by apply getConsumerById_run.
  rewrite (bind_run _ _ w (clock_at (mticks w)) (advance w)) by done. cbv beta zeta.
  assert (∀ c' w0, co_id c' = id → consumers w0 = consumers w → only_consumer id w w0 →
    (∀ cr u, cr = co_createdAt c → delivered_to c b (merge_consumer cr u (Some c) c')) →
    ∃ r w', saveConsumer c' w0 = (Return r, w') ∧ only_consumer id w w' ∧
      ∃ row, lookup_row id (consumers w') = Some row ∧ delivered_to c b row) as Hsave.
  { intros c' w0 Hid' Hcons Honly Hrow. destruct (saveConsumer_run c' w0) as (r & w' & Hr & Ho & cr & u & Hl & Hcr).
    exists r, w'. rewrite Hid', Hcons, Hc in *. split; [done|]. split; [by etrans|].
    eexists. split; [exact Hl|]. apply Hrow. by apply Hcr. }
  assert (∀ n, only_consumer id w (set_mticks (n + mticks w) w)) as Hadv
    by (intros n; split_and!; try done; cbn; lia).
  destruct b.
  - rewrite (bind_run _ _ _ (clock_at (mticks (advance w))) (advance (advance w))) by done. cbv beta.
    apply Hsave; [done|done|apply (Hadv 2)|]. intros cr u ->. by repeat split.
  - change (co_failedDeliveries (set_co_failedDeliveries ?x _)) with x.
    destruct (decide (co_failedDeliveries c + 1 > 10)%Z) as [Hs|Hs].
    + rewrite bool_decide_eq_true_2 by done.
      rewrite (bind_run _ _ _ (clock_at (mticks (advance w))) (advance (advance w))) by done. cbv beta.
      apply Hsave; [done|done|apply (Hadv 2)|]. intros cr u ->.
      unfold delivered_to. rewrite bool_decide_eq_true_2 by done. by repeat split.
    + rewrite bool_decide_eq_false_2 by done.
      apply Hsave; [done|done|apply (Hadv 1)|]. intros cr u ->.
      unfold delivered_to. rewrite bool_decide_eq_false_2 by done. by repeat split.
Qed.

(** ** A series of deliveries *)

Definition deliveries (id : string) (results : list bool) : eff Monitor unit :=
  foreach results (λ b, updateDeliveryStats id b None ;; mret tt).

(** Some failure of the series finds the counter at ten or more. *)
Fixpoint trips (f : Z) (results : list bool) : bool :=
  match results with
  | [] => false
  | b :: results => (negb b && bool_decide (f + 1 > 10)%Z) || trips (bump_failures f b) results
  end.

(** The row after a series of deliveries. *)
Definition delivered_series c (results : list bool) r : Prop :=
  same_consumer c r ∧
  co_totalDeliveries r = (co_totalDeliveries c + Z.of_nat (length results))%Z ∧
  co_failedDeliveries r = foldl bump_failures (co_failedDeliveries c) results ∧
  (co_isActive r, co_status r) =
    if trips (co_failedDeliveries c) results then (false, ConsumerStatus.SUSPENDED)
    else (co_isActive c, co_status c).

Lemma same_consumer_trans c1 c2 c3 : same_consumer c1 c2 → same_consumer c2 c3 → same_consumer c1 c3.
Proof. unfold same_consumer. intros (?&?&?&?&?&?) (?&?&?&?&?&?). split_and!; congruence. Qed.

Lemma deliveries_run id results : ∀ c w, lookup_row id (consumers w) = Some c →
  ∃ w' r, deliveries id results w = (Return tt, w') ∧ only_consumer id w w' ∧
    lookup_row id (consumers w') = Some r ∧ delivered_series c results r.
Proof.
  induction results as [|b results IH]; intros c w Hc.
  { exists w, c. split_and!; try done. split_and!; [by repeat split|cbn; lia|done|done]. }
  destruct (updateDeliveryStats_run id b None c w Hc) as (x & w1 & Hrun & Ho1 & r1 & Hr1 & Hs1 & Ht1 & Hf1 & Hst1).
  destruct (IH r1 w1 Hr1) as (w' & r & Hrun' & Ho' & Hr & Hs & Ht & Hf & Hst).
  exists w', r. split_and!; [|by etrans|done|].
  - unfold deliveries. cbn [foreach]. rewrite (bind_run _ _ w tt w1); [done|]. by rewrite (bind_run _ _ w x w1).
  - split_and!; [by eapply same_consumer_trans| | |].
    + rewrite Ht, Ht1. cbn [length]. lia.
    + by rewrite Hf, Hf1.
    + rewrite Hst, Hf1. cbn [trips]. destruct (negb b && bool_decide (co_failedDeliveries c + 1 > 10)%Z).
      * destruct Hst1 as [-> ->]. cbn [orb]. by destruct (trips (bump_failures _ _) _).
      * by destruct Hst1 as [-> ->].
Qed.

(** the delivery statistics of a consumer.  After any series of deliveries the row counts
    all of them, its failure counter is one up for each failure and one down, not below zero, for
    each success, and the consumer is SUSPENDED and inactive exactly if some failure found the
    counter at ten or more; nothing else of the world has changed. *)
Theorem delivery_statistics id results c w : lookup_row id (consumers w) = Some c →
  ∃ w' r, deliveries id results w = (Return tt, w') ∧ only_consumer id w w' ∧
    lookup_row id (consumers w') = Some r ∧ delivered_series c results r.
Proof. apply deliveries_run. Qed.

(** Two failures and a success, over and over. *)
Definition two_of_three (n : nat) : list bool := concat (replicate n [false; false; true]).

(** the suspension for "too many consecutive failures" does not need them: two failures
    followed by a success, ten times over, suspend a consumer whose counter stood at zero. *)
Theorem suspension_without_consecutive_failures id c w :
  lookup_row id (consumers w) = Some c → co_failedDeliveries c = 0%Z →
  ∃ w' r, deliveries id (two_of_three 10) w = (Return tt, w') ∧ lookup_row id (consumers w') = Some r ∧
    co_status r = ConsumerStatus.SUSPENDED ∧ co_isActive r = false.
Proof.
  intros Hc Hf. destruct (deliveries_run id (two_of_three 10) c w Hc) as (w' & r & Hrun & _ & Hr & _ & _ & _ & Hst).
  rewrite Hf in Hst. replace (trips 0 (two_of_three 10)) with true in Hst by (vm_compute; reflexivity).
  injection Hst as Ha Hs. by exists w', r.
Qed.

(** * The table of consumers *)

(** Counters in range, and no two consumers with one URL. *)
Definition consumers_ok w : Prop :=
  (∀ c, c ∈ rows (consumers w) → (0 ≤ co_failedDeliveries c ≤ co_totalDeliveries c)%Z) ∧
  (∀ c c', c ∈ rows (consumers w) → c' ∈ rows (consumers w) → co_url c = co_url c' → c = c').

Lemma saveConsumer_ok c w : consumers_ok w → (0 ≤ co_failedDeliveries c ≤ co_totalDeliveries c)%Z →
  (∀ r, r ∈ rows (consumers w) → co_url r = co_url c → co_id r = co_id c) →
  consumers_ok (saveConsumer c w).2.
Proof.
  intros [Hcnt Hurl] Hc Hnew. unfold consumers_ok, saveConsumer. cbn [snd set_mticks set_consumers consumers].
  destruct (consumer_written (clock_at (mticks w)) (lookup_row (row_id c) (consumers w)) c) as (u & Hw).
  assert (∀ r, r ∈ rows (write (clock_at (mticks w)) c (consumers w)) →
    (r = written (clock_at (mticks w)) (lookup_row (row_id c) (consumers w)) c) ∨
    (r ∈ rows (consumers w) ∧ co_id r ≠ co_id c)) as Hrows.
  { intros r. rewrite elem_of_write, !consumer_id. done. }
  rewrite Hw in Hrows. split.
  - intros r [->|[Hr _]]%Hrows; [done|by apply Hcnt].
  - intros r r' [->|[Hr Hne]]%Hrows [->|[Hr' Hne']]%Hrows Heq; [done| | |by apply Hurl].
    + destruct Hne'. by apply Hnew.
    + destruct Hne. by apply Hnew.
Qed.

(** Saving a changed copy of a row under the same URL. *)
Lemma resave_ok c c' w : consumers_ok w → lookup_row (co_id c) (consumers w) = Some c →
  co_id c' = co_id c → co_url c' = co_url c → (0 ≤ co_failedDeliveries c' ≤ co_totalDeliveries c')%Z →
  ∀ w', consumers w' = consumers w → consumers_ok (saveConsumer c' w').2.
Proof.
  intros Hok Hc Hid Hu Hcnt w' Hw'. apply saveConsumer_ok; [unfold consumers_ok; by rewrite Hw'|done|].
  rewrite Hw', Hid, Hu. intros r Hr Heq. f_equal. apply lookup_row_elem in Hc as [Hc _].
  by apply (proj2 Hok).
Qed.

Inductive consumer_op :=
| CreateOp (dto : CreateConsumerDto)
| UpdateOp (id : string) (dto : UpdateConsumerDto)
| DeleteOp (id : string)
| ActivateOp (id : string)
| DeactivateOp (id : string)
| SuspendOp (id : string) (reason : option string)
| DeliveryOp (id : string) (isSuccess : bool) (deliveryTime : option Z).

Definition run_op (op : consumer_op) (w : Monitor) : Monitor :=
  match op with
  | CreateOp dto => (createConsumer dto w).2
  | UpdateOp id dto => (updateConsumer id dto w).2
  | DeleteOp id => (deleteConsumer id w).2
  | ActivateOp id => (activateConsumer id w).2
  | DeactivateOp id => (deactivateConsumer id w).2
  | SuspendOp id reason => (suspendConsumer id reason w).2
  | DeliveryOp id isSuccess t => (updateDeliveryStats id isSuccess t w).2
  end.

(** The DTO validation refuses an empty URL. *)
Definition valid_op (op : consumer_op) : Prop :=
  match op with UpdateOp _ dto => uc_url dto ≠ Some EmptyString | _ => True end.

Lemma findByUrl_None url w : findByUrl url w = None → ∀ r, r ∈ rows (consumers w) → co_url r ≠ url.
Proof. intros H r Hr. unfold findByUrl in H. rewrite findOne_where_None in H. by apply H. Qed.

Lemma createConsumer_ok dto w : consumers_ok w → consumers_ok (createConsumer dto w).2.
Proof.
  intros Hok. unfold createConsumer. rewrite bind_gets. destruct (findByUrl (cc_url dto) w) eqn:Hu; [done|].
  rewrite bind_gets. apply saveConsumer_ok; [done|cbn; lia|]. intros r Hr Heq.
  by destruct (findByUrl_None _ _ Hu r Hr).
Qed.

(** An operation on the consumer with a given id, if there is one. *)
Lemma found_ok {A} id (f : WebhookConsumer → eff Monitor A) w :
  consumers_ok w → (∀ c, lookup_row id (consumers w) = Some c → consumers_ok (f c w).2) →
  consumers_ok ((getConsumerById id ≫= f) w).2.
Proof.
  intros Hok Hf. destruct (lookup_row id (consumers w)) as [c|] eqn:Hc.
  - rewrite (bind_run _ _ w c w) by by apply getConsumerById_run. by apply Hf.
  - by rewrite (bind_throw _ _ w _ w (getConsumerById_none _ _ Hc)).
Qed.

Lemma updateConsumer_ok id dto w : uc_url dto ≠ Some EmptyString →
  consumers_ok w → consumers_ok (updateConsumer id dto w).2.
Proof.
  intros Hv Hok. unfold updateConsumer. apply found_ok; [done|]. intros c Hc. rewrite bind_gets.
  pose proof (lookup_consumer_id _ _ _ Hc) as Hid. pose proof Hc as [Hin _]%lookup_row_elem.
  destruct Hok as [Hcnt Hurl]. case_match eqn:Hconf; [done|]. apply saveConsumer_ok; [done|exact (Hcnt c Hin)|].
  intros r Hr Heq. change (co_id (assign_update dto c)) with (co_id c). rewrite Hid. cbn in Heq.
  destruct (uc_url dto) as [url|]; cbn in Heq; [|by rewrite (Hurl r c)].
  destruct (decide (url = co_url c)) as [->|Hne]; [by rewrite (Hurl r c)|].
  rewrite (bool_decide_eq_false_2 (url = EmptyString)), (bool_decide_eq_false_2 (url = co_url c)) in Hconf by congruence.
  cbn in Hconf. destruct (findByUrl url w) as [e|] eqn:He.
  - apply negb_false_iff, bool_decide_eq_true in Hconf. unfold findByUrl, findOne_where in He.
    apply array_find_Some in He as [He1 He2]. by rewrite (Hurl r e) by congruence.
  - by destruct (findByUrl_None _ _ He r Hr).
Qed.

Lemma updateDeliveryStats_ok id b t w : consumers_ok w → consumers_ok (updateDeliveryStats id b t w).2.
Proof.
  intros Hok. unfold updateDeliveryStats, recordDelivery. apply found_ok; [done|]. intros c Hc.
  rewrite (bind_run _ _ w (clock_at (mticks w)) (advance w)) by done. cbv beta zeta.
  pose proof (lookup_consumer_id _ _ _ Hc) as Hid. subst id. pose proof Hc as [Hin _]%lookup_row_elem.
  pose proof (proj1 Hok c Hin) as Hcnt. destruct b.
  - rewrite (bind_run _ _ _ (clock_at (mticks (advance w))) (advance (advance w))) by done. cbv beta.
    by eapply (resave_ok c); try done; cbn; lia.
  - destruct (bool_decide _).
    + rewrite (bind_run _ _ _ (clock_at (mticks (advance w))) (advance (advance w))) by done. cbv beta.
      by eapply (resave_ok c); try done; cbn; lia.
    + by eapply (resave_ok c); try done; cbn; lia.
Qed.

(** A change of state: the consumer found is saved with other flags. *)
Lemma reflag_ok id (f : WebhookConsumer → WebhookConsumer) w :
  (∀ c, co_id (f c) = co_id c ∧ co_url (f c) = co_url c ∧ co_failedDeliveries (f c) = co_failedDeliveries c ∧
        co_totalDeliveries (f c) = co_totalDeliveries c) →
  consumers_ok w → ∀ g : WebhookConsumer → Monitor → Monitor, (∀ c w, consumers (g c w) = consumers w) →
  ∀ c, lookup_row id (consumers w) = Some c → consumers_ok (saveConsumer (f c) (g c w)).2.
Proof.
  intros Hf Hok g Hg c Hc. pose proof (lookup_consumer_id _ _ _ Hc) as Hid. subst id.
  pose proof Hc as [Hin _]%lookup_row_elem. pose proof (proj1 Hok c Hin) as Hcnt.
  destruct (Hf c) as (H1 & H2 & H3 & H4). apply (resave_ok c (f c) w); [done|done|done|done|by rewrite H3, H4|apply Hg].
Qed.

(** the consumers table.  Every operation on consumers, deliveries included, keeps the
    failure counter of each row between 0 and its number of deliveries, and keeps URLs unique:
    a creation or an update that would give two consumers one URL is refused. *)
Theorem consumers_invariant op w : valid_op op → consumers_ok w → consumers_ok (run_op op w).
Proof.
  intros Hv Hok. destruct op as [dto|id dto|id|id|id|id reason|id b t]; cbn [run_op].
  - by apply createConsumer_ok.
  - by apply updateConsumer_ok.
  - unfold deleteConsumer. apply found_ok; [done|]. intros c Hc. destruct Hok as [Hcnt Hurl].
    split; cbn; [intros r [Hr _]%elem_of_drop; by apply Hcnt|].
    intros r r' [Hr _]%elem_of_drop [Hr' _]%elem_of_drop. by apply Hurl.
  - unfold activateConsumer. apply found_ok; [done|]. intros c Hc.
    by apply (reflag_ok id (λ c, c |> set_co_isActive true |> set_co_status ConsumerStatus.ACTIVE) w
      ltac:(intros; by split_and!) Hok (λ _ w, w)).
  - unfold deactivateConsumer. apply found_ok; [done|]. intros c Hc.
    by apply (reflag_ok id (λ c, c |> set_co_isActive false |> set_co_status ConsumerStatus.INACTIVE) w
      ltac:(intros; by split_and!) Hok (λ _ w, w)).
  - unfold suspendConsumer. apply found_ok; [done|]. intros c Hc. cbv zeta. destruct (bool_decide _).
    + by apply (reflag_ok id (λ c, set_co_metadata (Some (spread (co_metadata (c |> set_co_isActive false |> set_co_status ConsumerStatus.SUSPENDED))
        [("suspensionReason", JString (default EmptyString reason));
         ("suspendedAt", JString (iso_time (clock_at (mticks w))))]))
        (c |> set_co_isActive false |> set_co_status ConsumerStatus.SUSPENDED)) w
        ltac:(intros; by split_and!) Hok (λ _ w, advance w)).
    + by apply (reflag_ok id (λ c, c |> set_co_isActive false |> set_co_status ConsumerStatus.SUSPENDED) w
        ltac:(intros; by split_and!) Hok (λ _ w, w)).
  - by apply updateDeliveryStats_ok.
Qed.
End Consumers.
