(* ===== verification/StellarEvents.v ===== *)
(** [stellar-monitor/services/event-storage.service.ts]: the table of events seen on
    the ledger and the state of their delivery. *)
From S2P Require Import Prelude Json Repository StellarTypes.

Section Events.
Context {DBE DBC : Type} `{!EventTable DBE, !ConsumerTable DBC, CLK : Clock}.
Local Abbreviation Monitor := (Monitor DBE DBC).
Implicit Types (e : StellarEvent) (w : Monitor).

(** [save] returns the object it was given, with the generated columns filled in. *)
Definition storeEvent e : eff Monitor StellarEvent := λ w,
  let t := clock_at (mticks w) in
  let created := match lookup_row (ev_id e) (events w) with Some r => ev_createdAt r | None => t end in
  (Return (e |> set_ev_createdAt created |> set_ev_updatedAt t),
   set_mticks (S (mticks w)) (set_events (write t e (events w)) w)).

Definition new_event (eventData : StellarEventDto) (now : Z) : StellarEvent :=
  mkStellarEvent (ed_id eventData) (ed_eventType eventData) (ed_ledgerSequence eventData) (ed_timestamp eventData)
    (ed_transactionHash eventData) (ed_sourceAccount eventData) (ed_payload eventData)
    DeliveryStatus.PENDING 0 None None None None now now None false.

Definition saveEvent (eventData : StellarEventDto) : eff Monitor StellarEvent :=
  w ← gets id;
  storeEvent (new_event eventData (clock_at (mticks w))).

Definition getEventById (id : string) (w : Monitor) : option StellarEvent := lookup_row id (events w).

(** [getManyAndCount] of the query builder; [page] and [limit] at least one. *)
Definition getEvents (page limit : positive) (eventType : option EventType.t) (startDate endDate : option Z)
    (deliveryStatus : option DeliveryStatus.t) (w : Monitor) : list StellarEvent * nat :=
  let found := sort_on (λ e, (- ev_timestamp e)%Z) (find_where (λ e,
    default (ev_eventType e) eventType = ev_eventType e ∧
    (default (ev_timestamp e) startDate ≤ ev_timestamp e)%Z ∧
    (ev_timestamp e ≤ default (ev_timestamp e) endDate)%Z ∧
    default (ev_deliveryStatus e) deliveryStatus = ev_deliveryStatus e) (events w)) in
  (page_of ((Pos.to_nat page - 1) * Pos.to_nat limit) (Pos.to_nat limit) found, length found).

Definition getRecentEvents (limit : positive) (w : Monitor) : list StellarEvent :=
  firstn (Pos.to_nat limit) (sort_on (λ e, (- ev_timestamp e)%Z) (rows (events w))).

Definition getPendingEvents (limit : positive) (w : Monitor) : list StellarEvent :=
  firstn (Pos.to_nat limit) (sort_on ev_createdAt
    (find_where (λ e, ev_deliveryStatus e = DeliveryStatus.PENDING ∧ ev_isProcessed e = false) (events w))).

(** [a = a || []; if (!a.includes(id)) a.push(id)] *)
Definition push_new (id : string) (a : option (list string)) : option (list string) :=
  let a := default [] a in
  Some (if bool_decide (id ∈ a) then a else a ++ [id]).

(** An id that is given and not empty. *)
Definition given (o : option string) : bool := bool_decide (default EmptyString o ≠ EmptyString).

(** [getEventById], where an event that is not there is an error. *)
Definition findEvent (eventId : string) : eff Monitor StellarEvent :=
  event ← gets (getEventById eventId);
  match event with
  | None => throw (Error ("Event " +:+ eventId +:+ " not found"))
  | Some event => mret event
  end.

(** What [updateEventStatus] does with the event it has loaded. *)
Definition recordAttempt (status : DeliveryStatus.t) (consumerId errorMessage : option string) (event : StellarEvent) :
    eff Monitor StellarEvent :=
  now ← date_now;
  let event := event |> set_ev_deliveryStatus status
                     |> set_ev_deliveryAttempts (ev_deliveryAttempts event + 1)%Z
                     |> set_ev_lastAttemptAt (Some now) in
  event ← (if bool_decide (status = DeliveryStatus.DELIVERED) then
             now ← date_now;
             let event := set_ev_deliveredAt (Some now) event in
             mret (if given consumerId
                   then set_ev_deliveredTo (push_new (default EmptyString consumerId) (ev_deliveredTo event)) event
                   else event)
           else if bool_decide (status = DeliveryStatus.FAILED) && given consumerId then
             mret (set_ev_failedDeliveries
                     (push_new (default EmptyString consumerId) (ev_failedDeliveries event)) event)
           else mret event);
  storeEvent (if given errorMessage then set_ev_errorMessage errorMessage event else event).

Definition updateEventStatus (eventId : string) (status : DeliveryStatus.t) (consumerId errorMessage : option string) :
    eff Monitor StellarEvent :=
  event ← findEvent eventId;
  recordAttempt status consumerId errorMessage event.

Definition markEventAsProcessed (eventId : string) : eff Monitor StellarEvent :=
  event ← findEvent eventId;
  storeEvent (set_ev_isProcessed true event).

Record EventStats := mkEventStats {
  es_totalEvents : Z; es_pendingEvents : Z; es_deliveredEvents : Z; es_failedEvents : Z;
  es_eventsByType : list (EventType.t * Z); es_eventsByDay : list (string * Z) }.

(** [GROUP BY DATE(timestamp) ORDER BY date]: the days that occur, each once, in order. *)
Definition group_by_day (l : list StellarEvent) : list (string * Z) :=
  (λ day, (day, Z.of_nat (length (filter (λ e, iso_day (ev_timestamp e) = day) l)))) <$>
    sort_strings (remove_dups ((λ e, iso_day (ev_timestamp e)) <$> l)).

Definition events_getStats : eff Monitor EventStats :=
  totalEvents ← gets (λ w, Z.of_nat (length (rows (events w))));
  pendingEvents ← gets (λ w, count_where (λ e, ev_deliveryStatus e = DeliveryStatus.PENDING) (events w));
  deliveredEvents ← gets (λ w, count_where (λ e, ev_deliveryStatus e = DeliveryStatus.DELIVERED) (events w));
  failedEvents ← gets (λ w, count_where (λ e, ev_deliveryStatus e = DeliveryStatus.FAILED) (events w));
  eventsByType ← gets (λ w, (λ t, (t, count_where (λ e, ev_eventType e = t) (events w))) <$> EventType.all);
  now ← date_now;
  eventsByDay ← gets (λ w, group_by_day (find_where (λ e, (days_before 30 now ≤ ev_timestamp e)%Z) (events w)));
  mret (mkEventStats totalEvents pendingEvents deliveredEvents failedEvents eventsByType eventsByDay).

Definition cleanupOldEvents (daysToKeep : Z) : eff Monitor Z :=
  now ← date_now;
  let cutoffDate := days_before daysToKeep now in
  affected ← gets (λ w, count_where (λ e, (ev_createdAt e < cutoffDate)%Z) (events w));
  modify (λ w, set_events (drop_where (λ e, (ev_createdAt e < cutoffDate)%Z) (events w)) w) ;;
  mret affected.

(** * Reading the table after a save *)

(** Only the row of one event, and the clock, have changed. *)
Definition only_event (id : string) w w' : Prop :=
  consumers w' = consumers w ∧ deliveryQueue w' = deliveryQueue w ∧ timers w' = timers w ∧
  isProcessingQueue w' = isProcessingQueue w ∧ posts w' = posts w ∧
  ∀ id', id' ≠ id → lookup_row id' (events w') = lookup_row id' (events w).

#[export] Instance only_event_preorder id : PreOrder (only_event id).
Proof.
  split; [intros w; by split_and!|].
  intros w1 w2 w3 (?&?&?&?&?&Ho1) (?&?&?&?&?&Ho2). split_and!; try congruence.
  intros id' Hne. by rewrite Ho2, Ho1.
Qed.

Lemma lookup_event_id id (db : DBE) e : lookup_row id db = Some e → ev_id e = id.
Proof. intros H. apply lookup_row_id in H. by rewrite event_id in H. Qed.

Lemma findEvent_run id e w : lookup_row id (events w) = Some e → findEvent id w = (Return e, w).
Proof. intros H. unfold findEvent, getEventById. rewrite bind_gets. by rewrite H. Qed.

Lemma storeEvent_run e old w : lookup_row (ev_id e) (events w) = Some old →
  ∃ r w', storeEvent e w = (Return r, w') ∧ only_event (ev_id e) w w' ∧
    ∃ u, lookup_row (ev_id e) (events w') = Some (merge_event (ev_createdAt old) u (Some old) e).
Proof.
  intros Hold. do 2 eexists. split; [reflexivity|]. split.
  - split_and!; try done. intros id Hne. cbn. rewrite <-event_id in Hne. by apply lookup_write_ne.
  - cbn. rewrite <-event_id, lookup_write_eq, event_id, Hold.
    destruct (event_written (clock_at (mticks w)) (Some old) e) as (u & ->). eauto.
Qed.

(** The row of an event after one more attempt was recorded. *)
Definition attempted e (status : DeliveryStatus.t) (deliveredTo : option (list string)) r : Prop :=
  ev_id r = ev_id e ∧ ev_deliveryStatus r = status ∧ ev_deliveryAttempts r = (ev_deliveryAttempts e + 1)%Z ∧
  ev_deliveredTo r = deliveredTo ∧ ev_isProcessed r = ev_isProcessed e.

Lemma merge_column_same {A} (o : option A) : merge_column o o = o.
Proof. by destruct o. Qed.

(** The event that is recorded may have been loaded some time ago: [old] is its row by now. *)
Lemma recordAttempt_delivered consumerId e old w :
  lookup_row (ev_id e) (events w) = Some old → consumerId ≠ EmptyString →
  ∃ r w' row, recordAttempt DeliveryStatus.DELIVERED (Some consumerId) None e w = (Return r, w') ∧
    only_event (ev_id e) w w' ∧ lookup_row (ev_id e) (events w') = Some row ∧
    attempted e DeliveryStatus.DELIVERED (push_new consumerId (ev_deliveredTo e)) row.
Proof.
  intros Hold Hc. unfold recordAttempt.
  rewrite (bind_run _ _ w (clock_at (mticks w)) (advance w)) by done. cbv beta zeta.
  set (e1 := set_ev_lastAttemptAt _ _). rewrite (bool_decide_eq_true_2 (DeliveryStatus.DELIVERED = _)) by done. cbv iota.
  assert (given (Some consumerId) = true) as Hg by by apply bool_decide_eq_true_2.
  set (e2 := set_ev_deliveredTo (push_new consumerId (ev_deliveredTo e))
    (set_ev_deliveredAt (Some (clock_at (mticks (advance w)))) e1)).
  rewrite (bind_run _ _ (advance w) e2 (advance (advance w))); cycle 1.
  { rewrite (bind_run _ _ _ (clock_at (mticks (advance w))) (advance (advance w))) by done. cbv beta zeta. by rewrite Hg. }
  change (given None) with false. cbv iota.
  destruct (storeEvent_run e2 old (advance (advance w))) as (r & w' & Hr & Ho & u & Hl); [done|].
  change (ev_id e2) with (ev_id e) in *.
  exists r, w'. eexists. split; [done|]. split; [by etrans; [|exact Ho]|]. split; [exact Hl|]. by repeat split.
Qed.

Lemma recordAttempt_failed consumerId message e old w :
  lookup_row (ev_id e) (events w) = Some old →
  ∃ r w' row, recordAttempt DeliveryStatus.FAILED (Some consumerId) message e w = (Return r, w') ∧
    only_event (ev_id e) w w' ∧ lookup_row (ev_id e) (events w') = Some row ∧
    ev_deliveryStatus row = DeliveryStatus.FAILED ∧ ev_deliveryAttempts row = (ev_deliveryAttempts e + 1)%Z ∧ ev_isProcessed row = ev_isProcessed e.
Proof.
  intros Hold. unfold recordAttempt.
  rewrite (bind_run _ _ w (clock_at (mticks w)) (advance w)) by done. cbv beta zeta.
  set (e1 := set_ev_lastAttemptAt _ _). rewrite (bool_decide_eq_false_2 (DeliveryStatus.FAILED = DeliveryStatus.DELIVERED)) by done. cbv iota.
  rewrite (bool_decide_eq_true_2 (DeliveryStatus.FAILED = DeliveryStatus.FAILED)) by done. cbn [andb].
  set (e2 := if given (Some consumerId) then set_ev_failedDeliveries (push_new (default EmptyString (Some consumerId)) (ev_failedDeliveries e1)) e1 else e1).
  rewrite (bind_run _ _ (advance w) e2 (advance w)) by (unfold e2; by destruct (given _)).
  set (e3 := if given message then _ else e2).
  assert (ev_id e3 = ev_id e ∧ ev_deliveryStatus e3 = DeliveryStatus.FAILED ∧ ev_deliveryAttempts e3 = (ev_deliveryAttempts e + 1)%Z ∧
    ev_isProcessed e3 = ev_isProcessed e) as (Hid & Hst & Hat & Hpr) by (unfold e3, e2; by destruct (given message), (given (Some consumerId))).
  destruct (storeEvent_run e3 old (advance w)) as (r & w' & Hr & Ho & u & Hl); [by rewrite Hid|]. rewrite Hid in Ho, Hl.
  exists r, w'. eexists. split; [exact Hr|]. split; [exact Ho|]. split; [exact Hl|]. cbn. by rewrite Hst, Hat, Hpr.
Qed.

Lemma updateEventStatus_delivered eventId consumerId e w :
  lookup_row eventId (events w) = Some e → consumerId ≠ EmptyString →
  ∃ r w' row, updateEventStatus eventId DeliveryStatus.DELIVERED (Some consumerId) None w = (Return r, w') ∧
    only_event eventId w w' ∧ lookup_row eventId (events w') = Some row ∧
    attempted e DeliveryStatus.DELIVERED (push_new consumerId (ev_deliveredTo e)) row.
Proof.
  intros He Hc. pose proof (lookup_event_id _ _ _ He) as <-. unfold updateEventStatus.
  rewrite (bind_run _ _ w e w) by by apply findEvent_run. by eapply recordAttempt_delivered.
Qed.

Lemma markEventAsProcessed_run eventId e w : lookup_row eventId (events w) = Some e →
  ∃ r w' row, markEventAsProcessed eventId w = (Return r, w') ∧ only_event eventId w w' ∧
    lookup_row eventId (events w') = Some row ∧ ev_isProcessed row = true ∧
    ev_deliveryStatus row = ev_deliveryStatus e ∧ ev_deliveryAttempts row = ev_deliveryAttempts e ∧
    ev_deliveredTo row = ev_deliveredTo e.
Proof.
  intros He. pose proof (lookup_event_id _ _ _ He) as Hid. unfold markEventAsProcessed.
  rewrite (bind_run _ _ w e w) by by apply findEvent_run. destruct (storeEvent_run (set_ev_isProcessed true e) e w) as (r & w' & Hr & Ho & u & Hl).
  { change (ev_id (set_ev_isProcessed true e)) with (ev_id e). by rewrite Hid. }
  change (ev_id (set_ev_isProcessed true e)) with (ev_id e) in *. rewrite Hid in *.
  exists r, w'. eexists. split; [done|]. split; [done|]. split; [exact Hl|].
  split_and!; [done|done|done|]. cbn. apply merge_column_same.
Qed.
End Events.
