(* ===== verification/WebhookDelivery.v ===== *)
(** [stellar-monitor/services/webhook-delivery.service.ts]: the delivery queue, the
    requests to the consumers and their retries.

    Here the deliveries of a batch ([Promise.all]) are run one after the other, in the order
    of the queue, and [processQueue], which is called without being awaited, is run to
    its end where it is called.  [retries_until_suspension] is about one delivery, for which
    there is no other order; batches of several deliveries, in every order, are the subject of
    [DeliveryRaces]. *)
From S2P Require Import Prelude Json Repository StellarTypes StellarConsumers StellarEvents.

Section Delivery.
Context {DBE DBC : Type} `{!EventTable DBE, !ConsumerTable DBC, CLK : Clock, NET : Network}.
Local Abbreviation Monitor := (Monitor DBE DBC).
Implicit Types (e : StellarEvent) (c : WebhookConsumer) (w : Monitor).

(** ** One request *)

Record DeliveryResult := mkDeliveryResult {
  dr_success : bool; dr_statusCode : option Z; dr_errorMessage : option string }.

Definition delivery_payload e (now : Z) : jsobj :=
  [("id", JString (ev_id e)); ("eventType", JString (EventType.to_string (ev_eventType e)));
   ("ledgerSequence", JNumber (ev_ledgerSequence e)); ("timestamp", JString (iso_time (ev_timestamp e)));
   ("transactionHash", JString (ev_transactionHash e)); ("sourceAccount", JString (ev_sourceAccount e));
   ("payload", JObject (ev_payload e)); ("deliveredAt", JString (iso_time now))].

Definition generateSignature (payload secret : string) : string := hmac_sha256 secret payload.

Definition send (p : post) : eff Monitor http_result := λ w,
  (Return (http_post (length (posts w)) p), set_posts (posts w ++ [p]) w).

(** [attempt] is the text of [event.deliveryAttempts + 1]. *)
Definition attemptDelivery_as (attempt : string) e c : eff Monitor DeliveryResult :=
  now ← date_now;
  let payload := delivery_payload e now in
  let signature :=
    match co_secret c with
    | Some secret => if bool_decide (secret = EmptyString) then None
                     else Some (generateSignature (default EmptyString (json_text (JObject payload))) secret)
    | None => None
    end in
  response ← send (mkPost (co_url c) (co_timeoutMs c) (ev_id e) (EventType.to_string (ev_eventType e))
                     attempt signature payload);
  mret match response with
       | HttpOk status => mkDeliveryResult true (Some status) None
       | HttpError status message => mkDeliveryResult false status (Some message)
       end.

Definition attemptDelivery e c : eff Monitor DeliveryResult :=
  attemptDelivery_as (pretty (ev_deliveryAttempts e + 1)%Z) e c.

(** ** What follows a request *)

Definition handleSuccessfulDelivery e c : eff Monitor unit :=
  updateEventStatus (ev_id e) DeliveryStatus.DELIVERED (Some (co_id c)) None ;;
  updateDeliveryStats (co_id c) true None ;;
  activeConsumers ← gets getActiveConsumers;
  let deliveredCount := length (default [] (ev_deliveredTo e)) + 1 in
  if bool_decide (length (activeConsumers : list WebhookConsumer) ≤ deliveredCount)
  then markEventAsProcessed (ev_id e) ;; mret tt
  else mret tt.

Definition calculateBackoffDelay (attempt : Z) : Z := Z.min (1000 * 2 ^ (attempt - 1)) 300000.

Definition handleFailedDelivery e c (result : DeliveryResult) : eff Monitor unit :=
  updateDeliveryStats (co_id c) false None ;;
  let attemptNumber := (ev_deliveryAttempts e + 1)%Z in
  if bool_decide (co_maxRetries c ≤ attemptNumber)%Z then
    updateEventStatus (ev_id e) DeliveryStatus.FAILED (Some (co_id c)) (dr_errorMessage result) ;;
    mret tt
  else
    let delay := calculateBackoffDelay attemptNumber in
    modify (λ w, set_timers (timers w ++ [(delay, mkItem e c)]) w).

Definition deliverEventToConsumer e c : eff Monitor unit :=
  startTime ← date_now;
  try_catch
    (freshConsumer ← getConsumerById (co_id c);
     if negb (co_isActive freshConsumer) then mret tt else
     result ← attemptDelivery e freshConsumer;
     now ← date_now;
     if dr_success result then handleSuccessfulDelivery e c
     else handleFailedDelivery e c result)
    (λ error,
     now ← date_now;
     handleFailedDelivery e c (mkDeliveryResult false None (Some (exn_message error)))).

(** ** The queue *)

Definition batchSize : nat := 10.

(** [Promise.all] lets every delivery of the batch run, and rejects when one did; the
    rejection is logged. *)
Definition deliverBatch (batch : list item) : eff Monitor unit :=
  foreach batch (λ i, attempt (deliverEventToConsumer (it_event i) (it_consumer i)) ;; mret tt).

Definition processQueue : eff Monitor unit :=
  w ← gets id;
  if isProcessingQueue w || bool_decide (length (deliveryQueue w) = 0) then mret tt else
  let batch := firstn batchSize (deliveryQueue w) in
  modify (λ w, set_queue (skipn batchSize (deliveryQueue w)) (set_processing true w)) ;;
  try_finally (deliverBatch batch) (set_processing false).

Definition enqueue (items : list item) : eff Monitor unit :=
  modify (λ w, set_queue (deliveryQueue w ++ items) w).

Definition queueEventForDelivery e : eff Monitor unit :=
  activeConsumers ← gets getActiveConsumers;
  if bool_decide (length (activeConsumers : list WebhookConsumer) = 0) then
    markEventAsProcessed (ev_id e) ;; mret tt
  else
    enqueue (mkItem e <$> activeConsumers) ;;
    processing ← gets (λ w : Monitor, isProcessingQueue w);
    if (processing : bool) then mret tt else processQueue.

(** The callback of the [k]-th pending timer.  Which timer is due next depends on when each
    was set and for how long; any of them may be the one. *)
Definition timerFires (k : nat) : eff Monitor unit :=
  w ← gets id;
  match timers w !! k with
  | None => mret tt
  | Some (_, i) =>
      modify (set_timers (delete k (timers w))) ;;
      enqueue [i] ;;
      processing ← gets (λ w : Monitor, isProcessingQueue w);
      if (processing : bool) then mret tt else processQueue
  end.

(** ** The rest of the service *)

Definition deliverTestEvent (consumerId : string) : eff Monitor DeliveryResult :=
  consumer ← getConsumerById consumerId;
  if negb (co_isActive consumer) then mret (mkDeliveryResult false None (Some "Consumer is not active"))
  else
    now ← date_now;
    timestamp ← date_now;
    attemptDelivery_as "NaN"     (* the test event has no deliveryAttempts *)
      (mkStellarEvent ("test-" +:+ pretty now) EventType.PAYMENT 123456 timestamp "test-transaction-hash"
         "test-source-account" [("test", JBool true); ("message", JString "This is a test event")]
         DeliveryStatus.PENDING 0 None None None None 0 0 None false) consumer.

Definition getQueueSize (w : Monitor) : nat := length (deliveryQueue w).

Record QueueStats := mkQueueStats { qs_queueSize : nat; qs_activeConsumers : nat; qs_pendingEvents : nat }.

Definition getDeliveryStats (w : Monitor) : QueueStats :=
  mkQueueStats (length (deliveryQueue w)) (length (getActiveConsumers w))
    (length (getPendingEvents 50 w)).

(** * A consumer that never answers *)

Definition never_answers (url : string) : Prop :=
  ∀ n p, post_url p = url → ∃ status msg, http_post n p = HttpError status msg.

(** A request for event [e] to [url], bearing the attempt number of the object [e]. *)
Definition request_for e (url : string) (p : post) : Prop :=
  post_eventId p = ev_id e ∧ post_url p = url ∧ post_attempt p = pretty (ev_deliveryAttempts e + 1)%Z.

Lemma attemptDelivery_run e c w : ∃ p, request_for e (co_url c) p ∧
  attemptDelivery e c w = (Return match http_post (length (posts w)) p with
      | HttpOk status => mkDeliveryResult true (Some status) None
      | HttpError status msg => mkDeliveryResult false status (Some msg)
      end, set_posts (posts w ++ [p]) (advance w)).
Proof.
  unfold attemptDelivery, attemptDelivery_as. rewrite (bind_run _ _ w (clock_at (mticks w)) (advance w)) by done.
  cbv beta zeta. set (sg := match co_secret c with Some _ => _ | None => _ end).
  set (p := mkPost _ _ _ _ _ _ _). exists p. split; [done|].
  by rewrite (bind_run _ _ (advance w) (http_post (length (posts w)) p) (set_posts (posts w ++ [p]) (advance w))).
Qed.

(** The world after a failed attempt that is to be repeated. *)
Definition retried e c c0 w w' : Prop :=
  events w' = events w ∧ deliveryQueue w' = deliveryQueue w ∧ isProcessingQueue w' = isProcessingQueue w ∧
  timers w' = timers w ++ [(calculateBackoffDelay (ev_deliveryAttempts e + 1), mkItem e c)] ∧
  (∃ p, posts w' = posts w ++ [p] ∧ request_for e (co_url c0) p) ∧
  ∃ row, lookup_row (co_id c) (consumers w') = Some row ∧ delivered_to c0 false row.

Lemma deliver_retried e c c0 w :
  lookup_row (co_id c) (consumers w) = Some c0 → co_isActive c0 = true → never_answers (co_url c0) →
  (ev_deliveryAttempts e + 1 < co_maxRetries c)%Z →
  ∃ w', deliverEventToConsumer e c w = (Return tt, w') ∧ retried e c c0 w w'.
Proof.
  intros Hc Hact Hnever Hmax. unfold deliverEventToConsumer.
  rewrite (bind_run _ _ w (clock_at (mticks w)) (advance w)) by done. cbv beta. unfold try_catch.
  rewrite (bind_run (getConsumerById _) _ (advance w) c0 (advance w)) by by apply getConsumerById_run.
  rewrite Hact. cbn [negb]. destruct (attemptDelivery_run e c0 (advance w)) as (p & Hp & Hrun).
  destruct (Hnever (length (posts (advance w))) p) as (status & msg & Hpost); [apply Hp|]. rewrite Hpost in Hrun.
  rewrite (bind_run _ _ _ _ _ Hrun). set (w2 := set_posts _ _).
  rewrite (bind_run _ _ w2 (clock_at (mticks w2)) (advance w2)) by done. cbv beta. cbn [dr_success].
  unfold handleFailedDelivery.
  destruct (updateDeliveryStats_run (co_id c) false None c0 (advance w2)) as (x & w3 & Hst & Ho & row & Hrow & Hd); [done|].
  rewrite (bind_run _ _ _ x w3) by done. cbv zeta. rewrite bool_decide_eq_false_2 by lia.
  destruct Ho as (He & Hq & Ht & Hpr & Hps & _ & _).
  eexists. split; [reflexivity|]. unfold retried. cbn [set_timers events deliveryQueue isProcessingQueue timers posts consumers].
  split_and!; [by rewrite He|by rewrite Hq|by rewrite Hpr|by rewrite Ht| |by exists row].
  exists p. by rewrite Hps.
Qed.

(** The attempt after which nothing is left to try: the event is marked FAILED. *)
Lemma deliver_given_up e c c0 r w :
  lookup_row (co_id c) (consumers w) = Some c0 → co_isActive c0 = true → never_answers (co_url c0) →
  (co_maxRetries c ≤ ev_deliveryAttempts e + 1)%Z → lookup_row (ev_id e) (events w) = Some r →
  ∃ w' p r', deliverEventToConsumer e c w = (Return tt, w') ∧ deliveryQueue w' = deliveryQueue w ∧ timers w' = timers w ∧
    posts w' = posts w ++ [p] ∧ request_for e (co_url c0) p ∧
    lookup_row (ev_id e) (events w') = Some r' ∧ ev_deliveryStatus r' = DeliveryStatus.FAILED.
Proof.
  intros Hc Hact Hnever Hmax Hr. unfold deliverEventToConsumer.
  rewrite (bind_run _ _ w (clock_at (mticks w)) (advance w)) by done. cbv beta. unfold try_catch.
  rewrite (bind_run (getConsumerById _) _ (advance w) c0 (advance w)) by by apply getConsumerById_run.
  rewrite Hact. cbn [negb]. destruct (attemptDelivery_run e c0 (advance w)) as (p & Hp & Hrun).
  destruct (Hnever (length (posts (advance w))) p) as (status & msg & Hpost); [apply Hp|]. rewrite Hpost in Hrun.
  rewrite (bind_run _ _ _ _ _ Hrun). set (w2 := set_posts _ _).
  rewrite (bind_run _ _ w2 (clock_at (mticks w2)) (advance w2)) by done. cbv beta. cbn [dr_success].
  unfold handleFailedDelivery.
  destruct (updateDeliveryStats_run (co_id c) false None c0 (advance w2)) as (x & w3 & Hst & Ho & _); [done|].
  rewrite (bind_run _ _ _ x w3) by done. cbv zeta. rewrite bool_decide_eq_true_2 by lia.
  destruct Ho as (He & Hq & Ht & _ & Hps & _ & _). pose proof (lookup_event_id _ _ _ Hr) as Hid.
  assert (lookup_row (ev_id e) (events w3) = Some r) as Hr3 by by rewrite He. unfold updateEventStatus.
  destruct (recordAttempt_failed (co_id c) (Some msg) r r w3) as (y & w4 & r' & Hrec & (Hc4 & Hq4 & Ht4 & Hb4 & Hp4 & _) & Hr' & Hs' & _);
    [by rewrite Hid|]. rewrite Hid in Hr'. exists w4, p, r'. cbn [dr_errorMessage].
  assert (updateEventStatus (ev_id e) DeliveryStatus.FAILED (Some (co_id c)) (Some msg) w3 = (Return y, w4)) as Hup
    by (unfold updateEventStatus; rewrite (bind_run _ _ w3 r w3) by (by apply findEvent_run); exact Hrec).
  unfold updateEventStatus in Hup. rewrite (bind_run _ _ w3 y w4 Hup).
  split; [done|]. by rewrite Hq4, Hq, Ht4, Ht, Hp4, Hps.
Qed.

Lemma deliver_inactive e c c0 w :
  lookup_row (co_id c) (consumers w) = Some c0 → co_isActive c0 = false →
  deliverEventToConsumer e c w = (Return tt, advance w).
Proof.
  intros Hc Hact. unfold deliverEventToConsumer.
  rewrite (bind_run _ _ w (clock_at (mticks w)) (advance w)) by done. cbv beta. unfold try_catch.
  rewrite (bind_run (getConsumerById _) _ (advance w) c0 (advance w)) by by apply getConsumerById_run.
  by rewrite Hact.
Qed.

(** A queue with one item is emptied by one delivery. *)
Lemma processQueue_single e c w w1 :
  deliveryQueue w = [mkItem e c] → isProcessingQueue w = false →
  deliverEventToConsumer e c (set_queue [] (set_processing true w)) = (Return tt, w1) →
  processQueue w = (Return tt, set_processing false w1).
Proof.
  intros Hq Hp Hrun. unfold processQueue. rewrite (bind_run _ _ w w w) by done. cbv beta. rewrite Hp, Hq. cbn [orb length firstn].
  rewrite bool_decide_eq_false_2 by done.
  rewrite (bind_run _ _ w tt (set_queue [] (set_processing true w))); cycle 1.
  { unfold modify. by rewrite Hq. }
  unfold try_finally, deliverBatch. cbn [batchSize firstn foreach it_event it_consumer].
  by rewrite (bind_run _ _ (set_queue [] (set_processing true w)) tt w1) by
    (rewrite (bind_run _ _ (set_queue [] (set_processing true w)) (Return tt) w1); [done|by apply attempt_run]).
Qed.

Fixpoint repeatedly (n : nat) (m : eff Monitor unit) : eff Monitor unit :=
  match n with O => mret tt | S n => m ;; repeatedly n m end.

(** Between two attempts: the item waits for its timer. *)
Definition waiting e c c0 w : Prop :=
  deliveryQueue w = [] ∧ isProcessingQueue w = false ∧
  (∃ d, timers w = [(d, mkItem e c)]) ∧ lookup_row (co_id c) (consumers w) = Some c0.

Lemma timerFires_active e c c0 w : waiting e c c0 w → co_isActive c0 = true → never_answers (co_url c0) →
  (ev_deliveryAttempts e + 1 < co_maxRetries c)%Z →
  ∃ w' row p, timerFires 0 w = (Return tt, w') ∧ waiting e c row w' ∧ delivered_to c0 false row ∧
    events w' = events w ∧ posts w' = posts w ++ [p] ∧ request_for e (co_url c0) p.
Proof.
  intros (Hq & Hp & (d & Ht) & Hc) Hact Hnever Hmax.
  set (w1 := set_queue [mkItem e c] (set_timers [] w)).
  destruct (deliver_retried e c c0 (set_queue [] (set_processing true w1)))
    as (w2 & Hrun & He & Hq2 & Hp2 & Ht2 & (p & Hps & Hreq) & row & Hrow & Hd); try done.
  exists (set_processing false w2), row, p. split.
  - unfold timerFires. rewrite (bind_run _ _ w w w) by done. cbv beta. rewrite Ht. cbn [lookup list_lookup].
    rewrite (bind_run _ _ w tt (set_timers [] w)) by done.
    rewrite (bind_run _ _ _ tt w1) by (unfold enqueue, modify; change (deliveryQueue (set_timers [] w)) with (deliveryQueue w); by rewrite Hq).
    rewrite (bind_run _ _ w1 false w1) by (unfold gets; by rewrite <-Hp).
    by apply processQueue_single with (e := e) (c := c).
  - split_and!; try done. split; [done|]. split; [done|]. split; [eexists; exact Ht2|done].
Qed.

Lemma timerFires_inactive e c c0 w : waiting e c c0 w → co_isActive c0 = false →
  ∃ w', timerFires 0 w = (Return tt, w') ∧ deliveryQueue w' = [] ∧ timers w' = [] ∧ events w' = events w ∧
    posts w' = posts w ∧ consumers w' = consumers w.
Proof.
  intros (Hq & Hp & (d & Ht) & Hc) Hact.
  set (w1 := set_queue [mkItem e c] (set_timers [] w)).
  eexists. split.
  - unfold timerFires. rewrite (bind_run _ _ w w w) by done. cbv beta. rewrite Ht. cbn [lookup list_lookup].
    rewrite (bind_run _ _ w tt (set_timers [] w)) by done.
    rewrite (bind_run _ _ _ tt w1) by (unfold enqueue, modify; change (deliveryQueue (set_timers [] w)) with (deliveryQueue w); by rewrite Hq).
    rewrite (bind_run _ _ w1 false w1) by (unfold gets; by rewrite <-Hp).
    apply processQueue_single with (e := e) (c := c); [done|done|]. by eapply deliver_inactive.
  - by split_and!.
Qed.

(** The requests of a run of attempts, and what is left after them. *)
Lemma attempts_until_suspension e c : (ev_deliveryAttempts e + 1 < co_maxRetries c)%Z → ∀ n c0 w,
  waiting e c c0 w → never_answers (co_url c0) → co_failedDeliveries c0 = (11 - Z.of_nat n)%Z →
  (co_isActive c0, co_status c0) =
    (if bool_decide (n = 0) then (false, ConsumerStatus.SUSPENDED) else (true, ConsumerStatus.ACTIVE)) →
  ∃ w' ps row, repeatedly (S n) (timerFires 0) w = (Return tt, w') ∧ posts w' = posts w ++ ps ∧ length ps = n ∧
    Forall (request_for e (co_url c0)) ps ∧ deliveryQueue w' = [] ∧ timers w' = [] ∧ events w' = events w ∧
    lookup_row (co_id c) (consumers w') = Some row ∧ co_isActive row = false ∧ co_status row = ConsumerStatus.SUSPENDED.
Proof.
  intros Hmax. induction n as [|n IH]; intros c0 w Hw Hnever Hf Hact.
  - injection Hact as Ha Hs. destruct (timerFires_inactive e c c0 w Hw Ha) as (w' & Hrun & ? & ? & ? & Hp & Hc).
    exists w', [], c0. rewrite app_nil_r. cbn [repeatedly]. rewrite (bind_run _ _ w tt w') by done.
    split_and!; try done. rewrite Hc. apply Hw.
  - injection Hact as Ha Hs.
    destruct (timerFires_active e c c0 w Hw Ha Hnever Hmax) as (w1 & c1 & p & Hrun & Hw1 & Hd & He & Hp & Hreq).
    destruct Hd as ((_ & _ & Hurl & _) & _ & Hf1 & Hact1). cbn [bump_failures negb andb] in Hf1, Hact1.
    destruct (IH c1 w1) as (w' & ps & row & Hrun' & Hps & Hlen & Hall & Hrest); [done|by rewrite Hurl|lia| |].
    { destruct (decide (n = 0)) as [Hn|Hn].
      - rewrite bool_decide_eq_true_2 in Hact1 by lia. destruct Hact1 as [-> ->]. by rewrite bool_decide_eq_true_2 by done.
      - rewrite bool_decide_eq_false_2 in Hact1 by lia. destruct Hact1 as [-> ->].
        by rewrite (bool_decide_eq_false_2 (n = 0)), Ha, Hs by done. }
    destruct Hrest as (? & ? & He' & ? & ? & ?). rewrite Hurl in Hall.
    exists w', (p :: ps), row. cbn [repeatedly]. rewrite (bind_run _ _ w tt w1) by done.
    split_and!; try done; [by rewrite Hps, Hp, <-app_assoc|cbn; congruence|by constructor|congruence].
Qed.

(** A delivery with retries left, from the queue to its end. *)
Lemma queued_until_suspension e c c0 w :
  deliveryQueue w = [mkItem e c] → timers w = [] → isProcessingQueue w = false →
  lookup_row (co_id c) (consumers w) = Some c0 → co_isActive c0 = true → co_status c0 = ConsumerStatus.ACTIVE →
  never_answers (co_url c0) → (0 ≤ co_failedDeliveries c0 ≤ 10)%Z → (ev_deliveryAttempts e + 1 < co_maxRetries c)%Z →
  let n := Z.to_nat (11 - co_failedDeliveries c0) in
  ∃ w' ps row, (processQueue ;; repeatedly n (timerFires 0)) w = (Return tt, w') ∧
    posts w' = posts w ++ ps ∧ length ps = n ∧ Forall (request_for e (co_url c0)) ps ∧
    deliveryQueue w' = [] ∧ timers w' = [] ∧ events w' = events w ∧
    lookup_row (co_id c) (consumers w') = Some row ∧ co_isActive row = false ∧ co_status row = ConsumerStatus.SUSPENDED.
Proof.
  intros Hq Ht Hp Hc Hact Hst Hnever Hf Hmax. cbv zeta.
  destruct (deliver_retried e c c0 (set_queue [] (set_processing true w)))
    as (w2 & Hrun & He1 & Hq2 & Hp2 & Ht2 & (p & Hp1 & Hreq) & c1 & Hc1 & Hd); try done.
  set (w1 := set_processing false w2).
  assert (processQueue w = (Return tt, w1)) as Hrun1 by by apply processQueue_single with (e := e) (c := c).
  assert (waiting e c c1 w1) as Hw1.
  { split; [done|]. split; [done|]. split; [|done]. change (timers w1) with (timers w2). rewrite Ht2.
    cbn [timers set_queue set_processing]. rewrite Ht. by eexists. }
  destruct Hd as ((_ & _ & Hurl & _) & _ & Hf1 & Hact1). cbn [bump_failures negb andb] in Hf1, Hact1.
  set (n := Z.to_nat (10 - co_failedDeliveries c0)). replace (Z.to_nat (11 - _)) with (S n) by lia.
  destruct (attempts_until_suspension e c Hmax n c1 w1) as (w' & ps & row & Hrun' & Hps & Hlen & Hall & Hq' & Ht' & He' & Hrest);
    [done|by rewrite Hurl|lia| |].
  { destruct (decide (n = 0)) as [Hn|Hn].
    - rewrite bool_decide_eq_true_2 in Hact1 by lia. destruct Hact1 as [-> ->]. by rewrite bool_decide_eq_true_2 by done.
    - rewrite bool_decide_eq_false_2 in Hact1 by lia. destruct Hact1 as [-> ->].
      by rewrite (bool_decide_eq_false_2 (n = 0)), Hact, Hst by done. }
  rewrite Hurl in Hall. exists w', (p :: ps), row. rewrite (bind_run _ _ w tt w1) by done.
  split_and!; try done; [|cbn; congruence|by constructor|by rewrite He'|apply Hrest..].
  rewrite Hps. change (posts w1) with (posts w2). by rewrite Hp1, <-app_assoc.
Qed.

(** C36: a consumer that never answers.  If its [maxRetries] allows a retry after the first attempt, an event
    whose delivery is queued for it is requested again and again, every time as the same attempt, until the
    consumer's failure counter passes ten, however large or small [maxRetries] is: the consumer
    ends SUSPENDED, the delivery is dropped without a trace, and the event row is as it was before
    the first attempt, neither FAILED nor processed.  If it allows none, there is one request, and the event is
    FAILED. *)
Theorem retries_until_suspension e c c0 w :
  deliveryQueue w = [mkItem e c] → timers w = [] → isProcessingQueue w = false →
  lookup_row (co_id c) (consumers w) = Some c0 → co_isActive c0 = true → co_status c0 = ConsumerStatus.ACTIVE →
  never_answers (co_url c0) → (0 ≤ co_failedDeliveries c0 ≤ 10)%Z →
  if bool_decide (ev_deliveryAttempts e + 1 < co_maxRetries c)%Z then
    let n := Z.to_nat (11 - co_failedDeliveries c0) in
    ∃ w' ps row, (processQueue ;; repeatedly n (timerFires 0)) w = (Return tt, w') ∧
      posts w' = posts w ++ ps ∧ length ps = n ∧ Forall (request_for e (co_url c0)) ps ∧
      deliveryQueue w' = [] ∧ timers w' = [] ∧ events w' = events w ∧
      lookup_row (co_id c) (consumers w') = Some row ∧ co_isActive row = false ∧ co_status row = ConsumerStatus.SUSPENDED
  else ∀ r, lookup_row (ev_id e) (events w) = Some r →
    ∃ w' p r', processQueue w = (Return tt, w') ∧ posts w' = posts w ++ [p] ∧ request_for e (co_url c0) p ∧
      deliveryQueue w' = [] ∧ timers w' = [] ∧ lookup_row (ev_id e) (events w') = Some r' ∧ ev_deliveryStatus r' = DeliveryStatus.FAILED.
Proof.
  intros Hq Ht Hp Hc Hact Hst Hnever Hf. case_bool_decide as Hmax; [by apply queued_until_suspension|]. intros r Hr.
  destruct (deliver_given_up e c c0 r (set_queue [] (set_processing true w)))
    as (w1 & p & r' & Hrun & Hq1 & Ht1 & Hps & Hreq & Hr' & Hst'); try done; [lia|].
  exists (set_processing false w1), p, r'. split; [by apply processQueue_single with (e := e) (c := c)|]. split_and!; try done.
  change (timers (set_processing false w1)) with (timers w1). by rewrite Ht1.
Qed.

(** * Consumers that all answer *)

Definition all_answer : Prop := ∀ n p, ∃ status, http_post n p = HttpOk status.

(** Every consumer is as active as it was. *)
Definition activity c : bool * ConsumerStatus.t := (co_isActive c, co_status c).
Definition active_same w w' : Prop :=
  ∀ id, activity <$> lookup_row id (consumers w') = activity <$> lookup_row id (consumers w).

#[export] Instance active_same_preorder : PreOrder active_same.
Proof. split; [by intros w id|]. intros w1 w2 w3 Ho1 Ho2 id. by rewrite Ho2, Ho1. Qed.

Lemma elem_of_active id w :
  id ∈ co_id <$> getActiveConsumers w ↔ activity <$> lookup_row id (consumers w) = Some (true, ConsumerStatus.ACTIVE).
Proof.
  rewrite list_elem_of_fmap. split.
  - intros (c & -> & Hc). unfold getActiveConsumers in Hc.
    rewrite elem_of_sort_on, find_where_lookup, consumer_id in Hc. destruct Hc as [[H1 H2] ->].
    cbn. unfold activity. by rewrite H1, H2.
  - intros (c & Hc & Ha)%fmap_Some. pose proof (lookup_consumer_id _ _ _ Hc) as Hid. exists c. split; [done|].
    unfold getActiveConsumers. rewrite elem_of_sort_on, find_where_lookup, consumer_id, Hid.
    split; [|done]. unfold activity in Ha. by injection Ha.
Qed.

Lemma NoDup_active w : NoDup (co_id <$> getActiveConsumers w).
Proof.
  unfold getActiveConsumers. rewrite sort_on_perm.
  rewrite (list_fmap_ext co_id row_id) by (intros; by rewrite consumer_id).
  eapply sublist_NoDup; [apply (rows_nodup (consumers w))|]. apply fmap_sublist, sublist_filter.
Qed.

Lemma active_same_length w w' : active_same w w' → length (getActiveConsumers w') = length (getActiveConsumers w).
Proof.
  intros Hsame. rewrite <-(length_fmap co_id (getActiveConsumers w')), <-(length_fmap co_id (getActiveConsumers w)).
  apply Permutation_length, NoDup_Permutation; [apply NoDup_active..|].
  intros id. by rewrite !elem_of_active, Hsame.
Qed.

End Delivery.
