(* ===== verification/DeliveryRaces.v ===== *)
(** The deliveries of a batch side by side, as [Promise.all] in
    [stellar-monitor/services/webhook-delivery.service.ts] runs them.  The methods of the
    delivery are written once more, cut at their awaits: a query, a save and a request are
    pieces of their own, and what another delivery does may come in between. *)
From S2P Require Import Prelude Async Json Repository StellarTypes StellarConsumers StellarEvents.
From S2P Require Import WebhookDelivery.

Section Races.
Context {DBE DBC : Type} `{!EventTable DBE, !ConsumerTable DBC, CLK : Clock, NET : Network}.
Local Abbreviation Monitor := (Monitor DBE DBC).
Local Abbreviation task := (task Monitor).
Implicit Types (e r : StellarEvent) (c : WebhookConsumer) (w : Monitor).

(** ** The methods as tasks *)

Definition updateEventStatus_task (eventId : string) (status : DeliveryStatus.t)
    (consumerId errorMessage : option string) : task StellarEvent :=
  event ← atomic (findEvent eventId);
  atomic (recordAttempt status consumerId errorMessage event).

Definition markEventAsProcessed_task (eventId : string) : task StellarEvent :=
  event ← atomic (findEvent eventId);
  atomic (storeEvent (set_ev_isProcessed true event)).

Definition updateDeliveryStats_task (consumerId : string) (isSuccess : bool) (deliveryTime : option Z) :
    task WebhookConsumer :=
  consumer ← atomic (getConsumerById consumerId);
  atomic (recordDelivery isSuccess deliveryTime consumer).

Definition handleSuccessfulDelivery_task e c : task unit :=
  updateEventStatus_task (ev_id e) DeliveryStatus.DELIVERED (Some (co_id c)) None ;;
  updateDeliveryStats_task (co_id c) true None ;;
  activeConsumers ← atomic (gets getActiveConsumers);
  let deliveredCount := length (default [] (ev_deliveredTo e)) + 1 in
  if bool_decide (length (activeConsumers : list WebhookConsumer) ≤ deliveredCount)
  then markEventAsProcessed_task (ev_id e) ;; mret tt
  else mret tt.

Definition handleFailedDelivery_task e c (result : DeliveryResult) : task unit :=
  updateDeliveryStats_task (co_id c) false None ;;
  let attemptNumber := (ev_deliveryAttempts e + 1)%Z in
  if bool_decide (co_maxRetries c ≤ attemptNumber)%Z then
    updateEventStatus_task (ev_id e) DeliveryStatus.FAILED (Some (co_id c)) (dr_errorMessage result) ;;
    mret tt
  else
    let delay := calculateBackoffDelay attemptNumber in
    atomic (modify (λ w, set_timers (timers w ++ [(delay, mkItem e c)]) w)).

Definition deliverEventToConsumer_task e c : task unit :=
  startTime ← atomic date_now;
  task_try
    (freshConsumer ← atomic (getConsumerById (co_id c));
     if negb (co_isActive freshConsumer) then mret tt else
     result ← atomic (attemptDelivery e freshConsumer);
     now ← atomic date_now;
     if dr_success result then handleSuccessfulDelivery_task e c
     else handleFailedDelivery_task e c result)
    (λ error,
     now ← atomic date_now;
     handleFailedDelivery_task e c (mkDeliveryResult false None (Some (exn_message error)))).

(** [batch.map(async ({ event, consumer }) => ...)] *)
Definition batch_tasks (batch : list item) : list (task unit) :=
  (λ i, deliverEventToConsumer_task (it_event i) (it_consumer i)) <$> batch.

(** ** A task on its own does what the method does *)

Lemma run_handleSuccessful e c w :
  run_task (handleSuccessfulDelivery_task e c) w = handleSuccessfulDelivery e c w.
Proof.
  unfold handleSuccessfulDelivery_task, handleSuccessfulDelivery, updateEventStatus_task, updateDeliveryStats_task,
    markEventAsProcessed_task, updateEventStatus, updateDeliveryStats, markEventAsProcessed. run_tac.
Qed.

Lemma run_handleFailed e c result w :
  run_task (handleFailedDelivery_task e c result) w = handleFailedDelivery e c result w.
Proof.
  unfold handleFailedDelivery_task, handleFailedDelivery, updateEventStatus_task, updateDeliveryStats_task,
    updateEventStatus, updateDeliveryStats. run_tac.
Qed.

Lemma run_deliver e c w : run_task (deliverEventToConsumer_task e c) w = deliverEventToConsumer e c w.
Proof.
  unfold deliverEventToConsumer_task, deliverEventToConsumer. run_tac; [apply run_handleSuccessful|apply run_handleFailed..].
Qed.
Lemma foreach_fmap {A B} (g : A → B) (f : B → eff Monitor unit) (f' : A → eff Monitor unit) l w :
  (∀ x w, f (g x) w = f' x w) → foreach (g <$> l) f w = foreach l f' w.
Proof.
  intros Hf. revert w. induction l as [|x l IH]; intros w; [done|]. csimpl. cbn [foreach].
  apply bind_ext; [apply Hf|]. intros _ w'. apply IH.
Qed.

(** the interleavings of a batch.  Whatever the batch and the answers, every order in which the
    pieces of its deliveries can run comes to an end, and one of these orders does what
    [deliverBatch] of the queue does, which runs the deliveries one after the other. *)
Theorem batch_interleavings batch w :
  Acc (flip pool_step) (batch_tasks batch, w) ∧
  ∃ ts, rtc pool_step (batch_tasks batch, w) (ts, (deliverBatch batch w).2) ∧
    Forall (λ t, task_done t = true) ts.
Proof.
  split; [apply pool_acc|]. destruct (run_in_order (batch_tasks batch) [] w) as (ts & Hrtc & Hd & _).
  exists ts. split; [|done]. cbn in Hrtc. unfold deliverBatch, batch_tasks in *. erewrite foreach_fmap in Hrtc; [exact Hrtc|].
  intros i w'. cbv beta. apply bind_ext; [|done]. unfold attempt. by rewrite run_deliver.
Qed.

(** ** The table of consumers under every interleaving *)

(** The table is well-formed, and the consumers have the URLs they had at the start. *)
Definition table_inv (urls : string → option string) w : Prop :=
  consumers_ok w ∧ ∀ id, co_url <$> lookup_row id (consumers w) = urls id.

(** What a copy of a row, loaded some time ago, still says of the table. *)
Definition copy_ok (urls : string → option string) c : Prop :=
  (0 ≤ co_failedDeliveries c ≤ co_totalDeliveries c)%Z ∧ urls (co_id c) = Some (co_url c).

Lemma table_inv_load urls id : keeps (table_inv urls) (getConsumerById id) (copy_ok urls).
Proof.
  intros w [Hok Hu]. unfold getConsumerById. rewrite bind_gets.
  destruct (lookup_row id (consumers w)) as [c|] eqn:Hc; [|done]. split; [done|]. intros ? [= <-].
  pose proof Hc as [Hin _]%lookup_row_elem. split; [by apply Hok|].
  rewrite <-Hu, (lookup_consumer_id _ _ _ Hc). by rewrite Hc.
Qed.

Lemma table_inv_same {A} urls (m : eff Monitor A) :
  (∀ w, consumers (m w).2 = consumers w) → keeps (table_inv urls) m anything.
Proof. intros Hm w [Hok Hu]. split; [|done]. unfold table_inv, consumers_ok. by rewrite Hm. Qed.

Lemma table_inv_save urls c : copy_ok urls c → keeps (table_inv urls) (saveConsumer c) anything.
Proof.
  intros [Hcnt Huc] w [Hok Hu]. split; [|done]. split.
  - apply saveConsumer_ok; [done|done|]. intros r Hr Heq. pose proof Huc as Hrow. rewrite <-Hu in Hrow.
    apply fmap_Some in Hrow as (x & Hx & Hxu). rewrite (proj2 Hok r x); [by eapply lookup_consumer_id|done| |congruence].
    by apply lookup_row_elem in Hx as [? _].
  - intros id. destruct (saveConsumer_run c w) as (r & w' & -> & (_ & _ & _ & _ & _ & _ & Ho) & cr & u & Hl & _).
    destruct (decide (id = co_id c)) as [->|Hne]; cbn; [by rewrite Hl|by rewrite Ho].
Qed.

Lemma table_inv_record urls b t c : copy_ok urls c → keeps (table_inv urls) (recordDelivery b t c) anything.
Proof.
  intros [Hcnt Hu]. unfold recordDelivery. eapply keeps_bind; [by apply table_inv_same|]. intros now _. cbv beta zeta.
  destruct b; [|destruct (bool_decide _)].
  - eapply keeps_bind; [by apply table_inv_same|]. intros now' _. apply table_inv_save. split; cbn; [lia|done].
  - eapply keeps_bind; [by apply table_inv_same|]. intros now' _. apply table_inv_save. split; cbn; [lia|done].
  - apply table_inv_save. split; cbn; [lia|done].
Qed.
(** What the other pieces of a delivery leave alone. *)
Lemma recordAttempt_consumers st cid err r w : consumers (recordAttempt st cid err r w).2 = consumers w.
Proof.
  unfold recordAttempt. rewrite (bind_run _ _ w (clock_at (mticks w)) (advance w)) by done. cbv beta zeta.
  destruct (bool_decide _); [by destruct (given cid)|]. by destruct (_ && _).
Qed.

Lemma findEvent_consumers id w : consumers (findEvent id w).2 = consumers w.
Proof. unfold findEvent. rewrite bind_gets. by destruct (getEventById id w). Qed.

Lemma attemptDelivery_consumers e c w : consumers (attemptDelivery e c w).2 = consumers w.
Proof.
  unfold attemptDelivery, attemptDelivery_as.
  by rewrite (bind_run _ _ w (clock_at (mticks w)) (advance w)) by done.
Qed.

Definition whatever {A} (_ : outcome A) : Prop := True.

Lemma within_then {A B} (I : Monitor → Prop) (t : task A) (f : A → task B) P :
  within I (if_returned P) t → (∀ a, P a → within I whatever (f a)) → within I whatever (t ≫= f).
Proof. intros Ht Hf. eapply within_bind; [exact Ht|exact Hf|done]. Qed.

Section Table.
Context (urls : string → option string).
Local Abbreviation safe := (within (table_inv urls) whatever).

Lemma safe_piece {A B} (m : eff Monitor A) (f : A → task B) :
  (∀ w, consumers (m w).2 = consumers w) → (∀ a, safe (f a)) → safe (atomic m ≫= f).
Proof.
  intros Hm Hf. eapply (within_then _ _ _ anything); [|auto].
  by apply within_keeps, table_inv_same.
Qed.

Lemma safe_atomic {A} (m : eff Monitor A) : keeps (table_inv urls) m anything → safe (atomic m).
Proof. intros Hm w Hw. split; [by apply Hm|done]. Qed.

Lemma safe_updateEventStatus {B} id st cid err (f : StellarEvent → task B) :
  (∀ r, safe (f r)) → safe (updateEventStatus_task id st cid err ≫= f).
Proof.
  intros Hf. eapply (within_then _ _ _ anything); [|auto].
  eapply within_bind; [by apply within_keeps, (table_inv_same urls), findEvent_consumers| |done].
  intros r _. by apply within_keeps, table_inv_same, recordAttempt_consumers.
Qed.

Lemma safe_updateDeliveryStats {B} id b t (f : WebhookConsumer → task B) :
  (∀ c, safe (f c)) → safe (updateDeliveryStats_task id b t ≫= f).
Proof.
  intros Hf. eapply (within_then _ _ _ anything); [|auto].
  eapply within_bind; [by apply within_keeps, table_inv_load| |done].
  intros c Hc. by apply within_keeps, table_inv_record.
Qed.

Lemma safe_handleSuccessful e c : safe (handleSuccessfulDelivery_task e c).
Proof.
  apply safe_updateEventStatus. intros _. apply safe_updateDeliveryStats. intros _.
  apply safe_piece; [done|]. intros l. cbv zeta. destruct (bool_decide _); [|done].
  apply (within_then _ _ _ anything); [|done].
  eapply within_bind; [by apply within_keeps, (table_inv_same urls), findEvent_consumers| |done].
  intros r _. by apply within_keeps, table_inv_same.
Qed.

Lemma safe_handleFailed e c result : safe (handleFailedDelivery_task e c result).
Proof.
  apply safe_updateDeliveryStats. intros _. cbv zeta. destruct (bool_decide _).
  - by apply safe_updateEventStatus.
  - by apply safe_atomic, table_inv_same.
Qed.

Lemma safe_deliver e c : safe (deliverEventToConsumer_task e c).
Proof.
  apply safe_piece; [done|]. intros _. eapply within_try; [|done|].
  - eapply within_then; [by apply within_keeps, table_inv_load|]. intros c' _.
    destruct (negb _); [done|]. apply safe_piece; [apply attemptDelivery_consumers|]. intros result.
    apply safe_piece; [done|]. intros _. destruct (dr_success result); [apply safe_handleSuccessful|apply safe_handleFailed].
  - intros error _. apply safe_piece; [done|]. intros _. apply safe_handleFailed.
Qed.
End Table.

(** the table of consumers survives every interleaving.  Whatever the batch, the answers and the
    order in which the pieces of its deliveries run, the failure counters stay between 0 and the
    numbers of deliveries, the URLs stay unique and no consumer's URL changes, although the
    deliveries save copies of rows that others have written since. *)
Theorem consumers_survive_races batch w ts w' :
  rtc pool_step (batch_tasks batch, w) (ts, w') → consumers_ok w →
  consumers_ok w' ∧ ∀ id, co_url <$> lookup_row id (consumers w') = co_url <$> lookup_row id (consumers w).
Proof.
  intros Hrtc Hok. apply (pool_keeps (table_inv (λ id, co_url <$> lookup_row id (consumers w))) whatever) in Hrtc
    as [[Hok' Hu] _]; [done|done|].
  apply Forall_forall. intros t (i & -> & _)%list_elem_of_fmap. apply safe_deliver.
Qed.
(** ** What every interleaving of answered deliveries shares *)

Lemma attemptDelivery_answered e c w : all_answer →
  ∃ status w', attemptDelivery e c w = (Return (mkDeliveryResult true (Some status) None), w') ∧
    consumers w' = consumers w ∧ events w' = events w ∧ length (posts w') = S (length (posts w)).
Proof.
  intros Hall. destruct (attemptDelivery_run e c w) as (p & _ & Hrun).
  destruct (Hall (length (posts w)) p) as [status Hpost]. rewrite Hpost in Hrun.
  exists status. eexists. split; [exact Hrun|]. split_and!; try done. cbn. rewrite length_app. cbn. lia.
Qed.

(** Saving a copy with the activity its consumer has now. *)
Lemma recordDelivery_active c w : activity <$> lookup_row (co_id c) (consumers w) = Some (activity c) →
  ∃ x w', recordDelivery true None c w = (Return x, w') ∧ active_same w w' ∧ events w' = events w ∧ posts w' = posts w ∧
    deliveryQueue w' = deliveryQueue w ∧ timers w' = timers w ∧
    (co_url <$> lookup_row (co_id c) (consumers w) = Some (co_url c) → ∀ id, co_url <$> lookup_row id (consumers w') = co_url <$> lookup_row id (consumers w)).
Proof.
  intros Hc. unfold recordDelivery. rewrite (bind_run _ _ w (clock_at (mticks w)) (advance w)) by done. cbv beta zeta.
  rewrite (bind_run _ _ _ (clock_at (mticks (advance w))) (advance (advance w))) by done. cbv beta.
  set (c' := set_co_failedDeliveries _ _).
  destruct (saveConsumer_run c' (advance (advance w))) as (x & w' & Hr & (He & Hq & Ht & _ & Hp & _ & Ho) & cr & u & Hl & _).
  change (co_id c') with (co_id c) in Hl. exists x, w'. split; [done|]. split; [|split_and!; [done..|]].
  - intros id. destruct (decide (id = co_id c)) as [->|Hne]; [by rewrite Hl, Hc|by rewrite Ho].
  - intros Hurl id. destruct (decide (id = co_id c)) as [->|Hne]; [by rewrite Hl, Hurl|by rewrite Ho].
Qed.

Section Answered.
Context (e : StellarEvent) (w0 : Monitor) (Hall : all_answer) (Hto : ev_deliveredTo e = None).
Context (Hmany : 2 ≤ length (getActiveConsumers w0)).

(** The consumers are as active as at the start, and the event is not processed. *)
Definition unprocessed_inv w : Prop :=
  active_same w0 w ∧ ∃ r, lookup_row (ev_id e) (events w) = Some r ∧ ev_isProcessed r = false.

Definition copy_unprocessed r : Prop := ev_id r = ev_id e ∧ ev_isProcessed r = false.
Definition copy_active (id : string) c : Prop :=
  co_id c = id ∧ co_isActive c = true ∧ activity <$> lookup_row id (consumers w0) = Some (activity c).

Local Abbreviation safe P := (within unprocessed_inv (returning P)).

Lemma unprocessed_piece {A B} (m : eff Monitor A) (f : A → task B) P Q :
  (∀ w, unprocessed_inv w → ∃ a w', m w = (Return a, w') ∧ unprocessed_inv w' ∧ P a) →
  (∀ a, P a → safe Q (f a)) → safe Q (atomic m ≫= f).
Proof.
  intros Hm Hf. apply (within_bind _ _ _ (returning P)); [|exact Hf|done]. intros w Hw.
  destruct (Hm w Hw) as (a & w' & -> & ? & ?). by split.
Qed.

Lemma unprocessed_find w : unprocessed_inv w → ∃ r, findEvent (ev_id e) w = (Return r, w) ∧ copy_unprocessed r.
Proof.
  intros [_ (r & Hr & Hp)]. exists r. split; [by apply findEvent_run|]. split; [by eapply lookup_event_id|done].
Qed.

Lemma unprocessed_record id r w : id ≠ EmptyString → copy_unprocessed r → unprocessed_inv w →
  ∃ x w', recordAttempt DeliveryStatus.DELIVERED (Some id) None r w = (Return x, w') ∧ unprocessed_inv w'.
Proof.
  intros Hid [Her Hp] [Hact (old & Hold & _)]. rewrite <-Her in Hold.
  destruct (recordAttempt_delivered id r old w Hold Hid) as (x & w' & row & Hrun & (Hc & _) & Hrow & (_ & _ & _ & _ & Hpr)).
  exists x, w'. split; [done|]. split; [intros id'; rewrite Hc; apply Hact|].
  exists row. rewrite <-Her. split; [done|congruence].
Qed.

Lemma unprocessed_load id w : activity <$> lookup_row id (consumers w0) = Some (true, ConsumerStatus.ACTIVE) →
  unprocessed_inv w → ∃ c, getConsumerById id w = (Return c, w) ∧ copy_active id c.
Proof.
  intros H0 [Hact _]. pose proof (Hact id) as Hid. rewrite H0 in Hid. apply fmap_Some in Hid as (c & Hc & Ha).
  exists c. split; [by apply getConsumerById_run|]. split; [by eapply lookup_consumer_id|].
  split; [by injection Ha|congruence].
Qed.

Lemma unprocessed_handle c : co_id c ≠ EmptyString →
  activity <$> lookup_row (co_id c) (consumers w0) = Some (true, ConsumerStatus.ACTIVE) →
  safe anything (handleSuccessfulDelivery_task e c).
Proof.
  intros Hid H0. eapply (within_bind _ _ _ (returning anything)); [|intros _ _|done].
  { apply (unprocessed_piece _ _ copy_unprocessed); [intros w Hw; destruct (unprocessed_find w Hw) as (r & ? & ?); by exists r, w|].
    intros r Hr w Hw. destruct (unprocessed_record (co_id c) r w Hid Hr Hw) as (x & w' & -> & ?). by split. }
  eapply (within_bind _ _ _ (returning anything)); [|intros _ _|done].
  { apply (unprocessed_piece _ _ (copy_active (co_id c)));
      [intros w Hw; destruct (unprocessed_load _ w H0 Hw) as (c' & ? & ?); by exists c', w|].
    intros c' (Hc' & _ & Ha) w Hw. rewrite <-Hc' in Ha. rewrite <-(proj1 Hw) in Ha.
    destruct (recordDelivery_active c' w Ha) as (x & w' & -> & Hs & He & _). split; [cbn|done].
    destruct Hw as [Hact Hr]. split; [by etrans|]. by rewrite He. }
  apply (unprocessed_piece _ _ (λ l, 2 ≤ length l)).
  { intros w Hw. exists (getActiveConsumers w), w. split; [done|]. split; [done|].
    by rewrite (active_same_length _ _ (proj1 Hw)). }
  intros l Hl. cbv zeta. rewrite Hto. by rewrite bool_decide_eq_false_2 by (cbn; lia).
Qed.

Lemma unprocessed_deliver c : co_id c ≠ EmptyString →
  activity <$> lookup_row (co_id c) (consumers w0) = Some (true, ConsumerStatus.ACTIVE) →
  safe anything (deliverEventToConsumer_task e c).
Proof.
  intros Hid H0. apply (unprocessed_piece _ _ anything); [intros w Hw; by do 2 eexists|]. intros _ _.
  eapply (within_try _ _ _ (returning anything)); [|done|done].
  apply (unprocessed_piece _ _ (copy_active (co_id c)));
    [intros w Hw; destruct (unprocessed_load _ w H0 Hw) as (c' & ? & ?); by exists c', w|].
  intros c' (_ & -> & _). cbn [negb].
  apply (unprocessed_piece _ _ (λ result, dr_success result = true)).
  { intros w [Hact Hr]. destruct (attemptDelivery_answered e c' w Hall) as (st & w' & -> & Hc & He & _).
    do 2 eexists. split; [done|]. split; [|done]. split; [intros id; rewrite Hc; apply Hact|by rewrite He]. }
  intros result Hres. apply (unprocessed_piece _ _ anything); [intros w Hw; by do 2 eexists|]. intros _ _.
  rewrite Hres. by apply unprocessed_handle.
Qed.
End Answered.

(** never processed, however the deliveries interleave.  An event queued for at least two active
    consumers that all answer is still unprocessed after any part of any interleaving of its
    deliveries, and no delivery fails. *)
Theorem never_processed e cs w r ts w' :
  all_answer → ev_deliveredTo e = None → 2 ≤ length (getActiveConsumers w) →
  lookup_row (ev_id e) (events w) = Some r → ev_isProcessed r = false →
  Forall (λ c, co_id c ∈ co_id <$> getActiveConsumers w ∧ co_id c ≠ EmptyString) cs →
  rtc pool_step (batch_tasks (mkItem e <$> cs), w) (ts, w') →
  (∃ r', lookup_row (ev_id e) (events w') = Some r' ∧ ev_isProcessed r' = false) ∧
  Forall (λ t, ∀ x, t ≠ Done (Throw x)) ts.
Proof.
  intros Hall Hto Hmany Hr Hp Hcs Hrtc.
  apply (pool_keeps (unprocessed_inv e w) (returning anything)) in Hrtc as [[_ Hrow] Hts].
  - split; [done|]. eapply Forall_impl; [exact Hts|]. intros t Ht x ->. by destruct Ht.
  - split; [done|]. by exists r.
  - apply Forall_forall. intros t (i & -> & (c & -> & Hc)%list_elem_of_fmap)%list_elem_of_fmap. cbn [it_event it_consumer].
    rewrite Forall_forall in Hcs. destruct (Hcs c Hc) as [Hin Hne].
    apply unprocessed_deliver; [done..|]. by apply elem_of_active.
Qed.
(** ** An event delivered to everyone *)

(** [queueEventForDelivery] and the [processQueue] that it starts, up to the deliveries of the batch. *)
Definition claim_batch : eff Monitor (list item) :=
  w ← gets id;
  if isProcessingQueue w || bool_decide (length (deliveryQueue w) = 0) then mret [] else
  modify (λ w, set_queue (skipn batchSize (deliveryQueue w)) (set_processing true w)) ;;
  mret (firstn batchSize (deliveryQueue w)).
Definition queue_and_claim e : eff Monitor (list item) :=
  activeConsumers ← gets getActiveConsumers;
  if bool_decide (length (activeConsumers : list WebhookConsumer) = 0) then
    markEventAsProcessed (ev_id e) ;; mret []
  else
    enqueue (mkItem e <$> activeConsumers) ;;
    processing ← gets (λ w : Monitor, isProcessingQueue w);
    if (processing : bool) then mret [] else claim_batch.
Lemma queue_then_deliver e w : queueEventForDelivery e w =
  (batch ← queue_and_claim e;
   match batch with [] => mret tt | _ => try_finally (deliverBatch batch) (set_processing false) end) w.
Proof.
  unfold queueEventForDelivery, queue_and_claim. rewrite <-bind_assoc, !bind_gets.
  destruct (bool_decide (length (getActiveConsumers w) = 0)); [rewrite <-bind_assoc; by apply bind_ext|].
  rewrite <-bind_assoc. apply bind_ext; [done|]. intros [] w1. rewrite <-bind_assoc, !bind_gets. destruct (isProcessingQueue w1) eqn:Hp; [done|].
  unfold processQueue, claim_batch. rewrite <-bind_assoc. rewrite !(bind_run (gets id) _ w1 w1 w1) by done. cbv beta zeta. rewrite Hp.
  destruct (deliveryQueue w1) as [|x q]; [done|]. rewrite (bool_decide_eq_false_2 (length (x :: q) = 0)) by done. cbn [orb].
  by rewrite <-bind_assoc.
Qed.

(** The phases of a delivery that is answered; in between it holds a copy of the row that names [ids]. *)
Inductive phase := Waiting | Posted | Loaded (ids : list string) | Recorded | Marked.
Definition is_posted (d : phase) : bool := match d with Waiting => false | _ => true end.
Definition is_recorded (d : phase) : bool := match d with Recorded | Marked => true | _ => false end.
Definition is_marked (d : phase) : bool := match d with Marked => true | _ => false end.

(** The consumers whose deliveries are in a phase of a kind. *)
Fixpoint chosen (P : phase → bool) (cs : list WebhookConsumer) (ds : list phase) : list WebhookConsumer :=
  match cs, ds with c :: cs, d :: ds => (if P d then [c] else []) ++ chosen P cs ds | _, _ => [] end.
Lemma chosen_same P cs ds i d d' : ds !! i = Some d → P d = P d' → chosen P cs (<[i := d']> ds) = chosen P cs ds.
Proof.
  intros Hi HP. revert i ds Hi. induction cs as [|c cs IH]; intros i [|x ds] Hi; [done..|].
  destruct i as [|i]; cbn in Hi |- *; [injection Hi as ->; by rewrite HP|]. by rewrite IH.
Qed.
Lemma chosen_more P cs ds i d d' c : ds !! i = Some d → cs !! i = Some c → P d = false → P d' = true →
  chosen P cs (<[i := d']> ds) ≡ₚ c :: chosen P cs ds.
Proof.
  intros Hi Hc Hd Hd'. revert i ds Hi Hc. induction cs as [|x cs IH]; intros i [|y ds] Hi Hc; [done..|].
  destruct i as [|i]; cbn in Hi, Hc |- *; [injection Hi as ->; injection Hc as ->; by rewrite Hd, Hd'|].
  rewrite (IH i ds Hi Hc). symmetry. apply (Permutation_middle (if P y then [x] else [])).
Qed.
Lemma chosen_none P cs ds : Forall (λ d, P d = false) ds → chosen P cs ds = [].
Proof. intros Hds. revert cs. induction Hds as [|d ds Hd _ IH]; intros [|c cs]; [done..|]. cbn. by rewrite Hd, IH. Qed.
Lemma chosen_all P cs ds : length ds = length cs → Forall (λ d, P d = true) ds → chosen P cs ds = cs.
Proof. intros Hl Hds. revert cs Hl. induction Hds as [|d ds Hd _ IH]; intros [|c cs] Hl; [done..|]. cbn in *. rewrite Hd, IH by lia. done. Qed.
Lemma chosen_sublist P cs ds : chosen P cs ds `sublist_of` cs.
Proof.
  revert ds. induction cs as [|c cs IH]; intros [|d ds]; [done|done|apply sublist_nil_l|]. cbn.
  destruct (P d); cbn; [by apply sublist_skip|by apply sublist_cons].
Qed.

Lemma chosen_grows P cs ds i d d' : ds !! i = Some d → (P d = true → P d' = true) → chosen P cs ds ⊆ chosen P cs (<[i := d']> ds).
Proof.
  intros Hi HP. revert i ds Hi. induction cs as [|c cs IH]; intros i [|x ds] Hi; [done..|].
  destruct i as [|i]; cbn in Hi |- *.
  - injection Hi as ->. destruct (P d) eqn:Hd; [by rewrite HP|]. cbn. set_solver.
  - specialize (IH i ds Hi). set_solver.
Qed.

Section Everyone.
Context (e r0 : StellarEvent) (w0 : Monitor) (Hall : all_answer) (Hto : ev_deliveredTo e = None).
Local Abbreviation cs := (getActiveConsumers w0).

(** What the row says: the consumers it names, as many as the attempts it counts. *)
Definition names (ids : list string) r : Prop :=
  ev_id r = ev_id e ∧ default [] (ev_deliveredTo r) = ids ∧ NoDup ids ∧
  ev_deliveryAttempts r = (ev_deliveryAttempts r0 + Z.of_nat (length ids))%Z.
Definition row_ok (ds : list phase) r : Prop := ∃ ids, names ids r ∧
  ids ⊆ co_id <$> chosen is_recorded cs ds ∧ ev_isProcessed r = existsb is_marked ds ∧
  (chosen is_recorded cs ds ≠ [] → ids ≠ [] ∧ ev_deliveryStatus r = DeliveryStatus.DELIVERED).
Definition loaded_ok (ds : list phase) : Prop :=
  ∀ j ids, ds !! j = Some (Loaded ids) → ids ⊆ co_id <$> chosen is_recorded cs ds.
Definition consumers_same w w' : Prop :=
  active_same w w' ∧ ∀ id, co_url <$> lookup_row id (consumers w') = co_url <$> lookup_row id (consumers w).
Definition requested (ds : list phase) w : Prop := ∃ ps sent,
  posts w = posts w0 ++ ps ∧ Forall2 (λ c p, request_for e (co_url c) p) sent ps ∧ sent ≡ₚ chosen is_posted cs ds.
Definition delivering (ds : list phase) w : Prop :=
  length ds = length cs ∧ consumers_same w0 w ∧ (deliveryQueue w = deliveryQueue w0 ∧ timers w = timers w0) ∧ requested ds w ∧
  (∃ r, lookup_row (ev_id e) (events w) = Some r ∧ row_ok ds r) ∧ loaded_ok ds ∧ (existsb is_marked ds = true → length cs = 1).

(** ** The pieces of one delivery *)

Context (i : nat) (c : WebhookConsumer) (Hc : cs !! i = Some c) (Hid : co_id c ≠ EmptyString).
Local Abbreviation phased := (phased delivering).

Lemma recorded_nodup ds : NoDup (co_id <$> chosen is_recorded cs ds).
Proof. eapply sublist_NoDup; [apply (NoDup_active w0)|]. apply fmap_sublist, chosen_sublist. Qed.
Lemma not_recorded ds d : ds !! i = Some d → is_recorded d = false → co_id c ∉ co_id <$> chosen is_recorded cs ds.
Proof.
  intros Hi Hd. pose proof (recorded_nodup (<[i := Recorded]> ds)) as Hnd.
  rewrite (chosen_more _ _ _ i d Recorded c Hi Hc Hd eq_refl) in Hnd. csimpl in Hnd. by apply NoDup_cons in Hnd as [? _].
Qed.
Lemma not_marked ds d : length ds = length cs → (existsb is_marked ds = true → length cs = 1) → ds !! i = Some d → is_marked d = false →
  existsb is_marked ds = false.
Proof.
  intros Hl Hone Hi Hd. destruct (existsb is_marked ds) eqn:Hm; [|done]. rewrite Hone in Hl by done.
  destruct ds as [|x [|y ds]]; [done| |done]. destruct i as [|j]; [|done]. injection Hi as ->. cbn in Hm. by rewrite Hd in Hm.
Qed.
Lemma marked_insert ds d d' : ds !! i = Some d → is_marked d = false → existsb is_marked ds = false →
  existsb is_marked (<[i := d']> ds) = is_marked d'.
Proof.
  intros Hi Hd Hm. assert (i < length ds) as Hlt by by eapply lookup_lt_Some. clear Hc. revert ds Hi Hm Hlt. induction i as [|j IH]; intros [|x ds] Hi Hm Hlt; cbn in *; try (lia || done).
  - apply orb_false_iff in Hm as [_ ->]. by rewrite orb_false_r.
  - apply orb_false_iff in Hm as [-> Hm]. apply IH; [done|done|lia].
Qed.
Lemma loaded_insert ds d d' : loaded_ok ds → ds !! i = Some d → (is_recorded d = true → is_recorded d' = true) →
  (∀ ids, d' = Loaded ids → ids ⊆ co_id <$> chosen is_recorded cs ds) → loaded_ok (<[i := d']> ds).
Proof.
  intros Hl Hi Hr Hd j ids Hj. assert (chosen is_recorded cs ds ⊆ chosen is_recorded cs (<[i := d']> ds)) as Hsub by by eapply chosen_grows.
  assert (ids ⊆ co_id <$> chosen is_recorded cs ds) as Hids; [|intros x (y & -> & Hy)%Hids%list_elem_of_fmap; by apply list_elem_of_fmap_2, Hsub].
  destruct (decide (j = i)) as [->|Hne].
  - rewrite list_lookup_insert_eq in Hj by (by eapply lookup_lt_Some). injection Hj as ->. by apply Hd.
  - rewrite list_lookup_insert_ne in Hj by done. by eapply Hl.
Qed.

(** Pieces that touch neither table and send nothing. *)
Definition untouched w w' : Prop :=
  events w' = events w ∧ consumers w' = consumers w ∧ posts w' = posts w ∧ deliveryQueue w' = deliveryQueue w ∧ timers w' = timers w.
Lemma delivering_untouched ds w w' : untouched w w' → delivering ds w → delivering ds w'.
Proof.
  intros (He & Hcs & Hps & Hq & Ht) (Hl & [Ha Hu] & [Hq0 Ht0] & (ps & sent & Hp & Hrest) & (r & Hr & Hok) & Hlo & Hm).
  split; [done|]. split; [split; intros id; rewrite Hcs; [apply Ha|apply Hu]|]. split; [by rewrite Hq, Ht|].
  split; [exists ps, sent; by rewrite Hps|]. split; [|done]. exists r. by rewrite He.
Qed.
Lemma quiet_piece {A B} (m : eff Monitor A) (f : A → task B) P (Q : outcome B → phase → Prop) d :
  (∀ ds w, delivering ds w → ds !! i = Some d → ∃ a w', m w = (Return a, w') ∧ untouched w w' ∧ P a) →
  (∀ a, P a → phased Q i d (f a)) → phased Q i d (atomic m ≫= f).
Proof.
  intros Hm Hf. eapply (phased_piece delivering); [|exact Hf]. intros ds w Hw Hi. destruct (Hm ds w Hw Hi) as (a & w' & Hrun & Hun & Ha).
  exists a, w'. split; [done|]. rewrite list_insert_id by done. split; [by eapply delivering_untouched|done].
Qed.

Definition fresh_copy c' : Prop := co_id c' = co_id c ∧ co_isActive c' = true ∧ co_url c' = co_url c ∧
  activity <$> lookup_row (co_id c) (consumers w0) = Some (activity c').
Lemma active_row : lookup_row (co_id c) (consumers w0) = Some c ∧ activity c = (true, ConsumerStatus.ACTIVE).
Proof.
  apply list_elem_of_lookup_2 in Hc. pose proof Hc as Hin. unfold getActiveConsumers in Hc.
  rewrite elem_of_sort_on, find_where_lookup, consumer_id in Hc. destruct Hc as [[Ha Hs] Hl]. split; [done|]. unfold activity. by rewrite Ha, Hs.
Qed.
Lemma load_fresh ds w : delivering ds w → ∃ c', getConsumerById (co_id c) w = (Return c', w) ∧ fresh_copy c'.
Proof.
  intros (_ & [Ha Hu] & _). destruct active_row as [Hl Hac]. specialize (Ha (co_id c)). specialize (Hu (co_id c)). rewrite Hl in Ha, Hu.
  apply fmap_Some in Ha as (c' & Hl' & Ha'). rewrite Hl' in Hu. injection Hu as Hu. exists c'. split; [by apply getConsumerById_run|].
  split; [by eapply lookup_consumer_id|]. split; [|split; [done|by rewrite Hl, <-Ha']]. rewrite Hac in Ha'. by injection Ha'.
Qed.

(** The request. *)
Lemma send_piece ds w c' : delivering ds w → ds !! i = Some Waiting → fresh_copy c' → ∃ st w',
  attemptDelivery e c' w = (Return (mkDeliveryResult true (Some st) None), w') ∧ delivering (<[i := Posted]> ds) w'.
Proof.
  intros (Hl & Hcs & Hqt & (ps & sent & Hp & Hf & Hs) & (r & Hr & ids & Hn & Hsub & Hpr & Hrec) & Hlo & Hm) Hi (_ & _ & Hurl & _).
  destruct (attemptDelivery_run e c' w) as (p & Hreq & Hrun). destruct (Hall (length (posts w)) p) as [st Hpost]. rewrite Hpost in Hrun.
  eexists st, _. split; [exact Hrun|]. rewrite Hurl in Hreq.
  pose proof (chosen_same is_recorded cs ds i Waiting Posted Hi eq_refl) as Hsame.
  pose proof (not_marked ds Waiting Hl Hm Hi eq_refl) as Hnm. pose proof (marked_insert ds Waiting Posted Hi eq_refl Hnm) as Hnm'.
  split; [by rewrite length_insert|]. split; [exact Hcs|]. split; [exact Hqt|]. split; [|split; [|split]].
  - exists (ps ++ [p]), (sent ++ [c]). split; [cbn; by rewrite Hp, app_assoc|]. split; [by apply Forall2_app; [|constructor]|].
    rewrite (chosen_more is_posted cs ds i Waiting Posted c Hi Hc eq_refl eq_refl), Hs. symmetry. apply Permutation_cons_append.
  - exists r. split; [exact Hr|]. exists ids. rewrite Hsame, Hnm'. rewrite Hnm in Hpr. done.
  - by eapply loaded_insert.
  - by rewrite Hnm'.
Qed.

(** The row is loaded, and saved later. *)
Definition copy ids r : Prop := names ids r ∧ co_id c ∉ ids ∧ ev_isProcessed r = false.
Lemma find_piece ds w : delivering ds w → ds !! i = Some Posted → ∃ r ids,
  findEvent (ev_id e) w = (Return r, w) ∧ delivering (<[i := Loaded ids]> ds) w ∧ copy ids r.
Proof.
  intros (Hl & Hcs & Hqt & (ps & sent & Hp & Hf & Hs) & (r & Hr & ids & Hn & Hsub & Hpr & Hrec) & Hlo & Hm) Hi.
  exists r, ids. split; [by apply findEvent_run|].
  pose proof (not_marked ds Posted Hl Hm Hi eq_refl) as Hnm. pose proof (marked_insert ds Posted (Loaded ids) Hi eq_refl Hnm) as Hnm'.
  split; [|split; [done|split; [|by rewrite Hpr]]].
  - split; [by rewrite length_insert|]. split; [exact Hcs|]. split; [exact Hqt|]. split; [|split; [|split]].
    + exists ps, sent. by rewrite (chosen_same is_posted cs ds i Posted (Loaded ids) Hi eq_refl).
    + exists r. split; [exact Hr|]. exists ids. rewrite (chosen_same is_recorded cs ds i Posted (Loaded ids) Hi eq_refl), Hnm'.
      rewrite Hnm in Hpr. done.
    + eapply loaded_insert; [done|exact Hi|done|]. by intros ids' [= <-].
    + by rewrite Hnm'.
  - intros Hin. by apply (not_recorded ds Posted Hi eq_refl), Hsub.
Qed.
Lemma record_piece ds w ids r : delivering ds w → ds !! i = Some (Loaded ids) → copy ids r → ∃ x w',
  recordAttempt DeliveryStatus.DELIVERED (Some (co_id c)) None r w = (Return x, w') ∧ delivering (<[i := Recorded]> ds) w'.
Proof.
  intros (Hl & [Ha Hu] & [Hq Ht] & (ps & sent & Hp & Hf & Hs) & (old & Hold & _) & Hlo & Hm) Hi ((Her & Hto' & Hnd & Hat) & Hnin & Hpr).
  rewrite <-Her in Hold. destruct (recordAttempt_delivered (co_id c) r old w Hold Hid)
    as (x & w' & row & Hrun & (Hcs & Hq' & Ht' & _ & Hp' & _) & Hrow & (Hrid & Hst & Hatt & Hdt & Hproc)).
  exists x, w'. split; [done|].
  pose proof (not_marked ds (Loaded ids) Hl Hm Hi eq_refl) as Hnm. pose proof (marked_insert ds (Loaded ids) Recorded Hi eq_refl Hnm) as Hnm'.
  pose proof (chosen_more is_recorded cs ds i (Loaded ids) Recorded c Hi Hc eq_refl eq_refl) as Hmore.
  split; [by rewrite length_insert|]. split; [split; intros id; rewrite Hcs; [apply Ha|apply Hu]|]. split; [by rewrite Hq', Ht'|].
  split; [|split; [|split]].
  - exists ps, sent. rewrite Hp'. by rewrite (chosen_same is_posted cs ds i (Loaded ids) Recorded Hi eq_refl).
  - exists row. rewrite <-Her. split; [done|]. exists (ids ++ [co_id c]). rewrite Hnm'. unfold push_new in Hdt. rewrite Hto', bool_decide_eq_false_2 in Hdt by done.
    split; [|split; [|split; [by rewrite Hproc|]]].
    + split; [congruence|]. rewrite Hdt. split; [done|]. split; [apply NoDup_app; split; [done|]; split; [set_solver|apply NoDup_singleton]|].
      rewrite Hatt, Hat, length_app. cbn. lia.
    + specialize (Hlo i ids Hi). intros y [Hy|Hy]%elem_of_app; rewrite Hmore; csimpl; [right; by apply Hlo|].
      apply list_elem_of_singleton in Hy as ->. left.
    + intros _. split; [by destruct ids|done].
  - by eapply loaded_insert.
  - by rewrite Hnm'.
Qed.
Lemma stats_piece ds w c' : delivering ds w → fresh_copy c' → ∃ x w', recordDelivery true None c' w = (Return x, w') ∧ delivering ds w'.
Proof.
  intros (Hl & [Ha Hu] & [Hq Ht] & (ps & sent & Hp & Hf & Hs) & (r & Hr & Hok) & Hlo & Hm) (Hcid & _ & Hurl & Hact).
  destruct active_row as [Hrow0 _].
  destruct (recordDelivery_active c' w) as (x & w' & Hrun & Hsame & He & Hps & Hq' & Ht' & Hu'); [rewrite Hcid; by rewrite Ha|].
  specialize (Hu' ltac:(rewrite Hcid, Hu, Hrow0; cbn; by rewrite Hurl)).
  exists x, w'. split; [done|]. split; [done|]. split; [split; [by etrans|intros id; by rewrite Hu', Hu]|]. split; [by rewrite Hq', Ht'|].
  split; [exists ps, sent; by rewrite Hps|]. split; [|done]. exists r. by rewrite He.
Qed.
(** The mark, when the consumer is the only one. *)
Definition full_copy r : Prop := ∃ ids, names ids r ∧ ids ≠ [] ∧ ids ⊆ co_id <$> cs ∧ ev_deliveryStatus r = DeliveryStatus.DELIVERED.
Lemma find_recorded ds w : delivering ds w → ds !! i = Some Recorded → ∃ r, findEvent (ev_id e) w = (Return r, w) ∧ full_copy r.
Proof.
  intros (_ & _ & _ & _ & (r & Hr & ids & Hn & Hsub & _ & Hrec) & _ & _) Hi. exists r. split; [by apply findEvent_run|].
  exists ids. split; [done|]. assert (chosen is_recorded cs ds ≠ []) as Hne.
  { pose proof (chosen_more is_recorded cs (<[i := Posted]> ds) i Posted Recorded c) as Hmore.
    rewrite list_insert_insert_eq, (list_insert_id ds i Recorded) in Hmore by done. intros Hnil. rewrite Hnil in Hmore.
    apply (Permutation_nil_cons (l := chosen is_recorded cs (<[i := Posted]> ds)) (x := c)).
    apply Hmore; [apply list_lookup_insert_eq; by eapply lookup_lt_Some|done..]. }
  destruct (Hrec Hne) as [? ?]. split; [done|]. split; [|done]. intros x (y & -> & Hy)%Hsub%list_elem_of_fmap.
  apply list_elem_of_fmap_2. eapply (elem_of_submseteq (chosen is_recorded cs ds)); [exact Hy|apply sublist_submseteq, chosen_sublist].
Qed.
Lemma mark_piece ds w r : delivering ds w → ds !! i = Some Recorded → length cs = 1 → full_copy r → ∃ x w',
  storeEvent (set_ev_isProcessed true r) w = (Return x, w') ∧ delivering (<[i := Marked]> ds) w'.
Proof.
  intros (Hl & [Ha Hu] & [Hq Ht] & (ps & sent & Hp & Hf & Hs) & (old & Hold & _) & Hlo & Hm) Hi Hone (ids & (Her & Hto' & Hnd & Hat) & Hne & Hsub & Hst).
  destruct (storeEvent_run (set_ev_isProcessed true r) old w) as (x & w' & Hrun & (Hcs & Hq' & Ht' & _ & Hp' & _) & u & Hrow);
    [change (ev_id (set_ev_isProcessed true r)) with (ev_id r); by rewrite Her|].
  change (ev_id (set_ev_isProcessed true r)) with (ev_id r) in Hrow. rewrite Her in Hrow. exists x, w'. split; [done|].
  pose proof (not_marked ds Recorded Hl Hm Hi eq_refl) as Hnm. pose proof (marked_insert ds Recorded Marked Hi eq_refl Hnm) as Hnm'.
  assert (chosen is_recorded cs (<[i := Marked]> ds) = cs) as Hall_recorded.
  { apply chosen_all; [by rewrite length_insert|]. rewrite Hone in Hl. destruct ds as [|d [|]]; [done| |done]. destruct i; [|done]. by repeat constructor. }
  split; [by rewrite length_insert|]. split; [split; intros id; rewrite Hcs; [apply Ha|apply Hu]|]. split; [by rewrite Hq', Ht'|].
  split; [|split; [|split; [by eapply loaded_insert|done]]].
  - exists ps, sent. rewrite Hp'. by rewrite (chosen_same is_posted cs ds i Recorded Marked Hi eq_refl).
  - eexists. split; [exact Hrow|]. exists ids. rewrite Hall_recorded, Hnm'. split; [|by split_and!].
    split; [done|]. split; [|by split]. cbn. destruct (ev_deliveredTo r) as [l|]; [done|]. by rewrite <-Hto' in Hne.
Qed.

(** ** One delivery *)

Definition last_phase : phase := if bool_decide (length cs = 1) then Marked else Recorded.
Local Abbreviation in_phase d := (λ (o : outcome _) x, returning anything o ∧ x = d).

Lemma phased_handle : phased (in_phase last_phase) i Posted (handleSuccessfulDelivery_task e c).
Proof.
  eapply (phased_bind delivering _ _ (in_phase Recorded)); [|intros ? ? [_ ->]|by intros ? ? [[] _]].
  { intros ds w Hw Hi. destruct (find_piece ds w Hw Hi) as (r & ids & -> & Hw' & Hr). exists (Loaded ids). split; [done|].
    cbn [task_bind snd fst]. apply (phased_last delivering _ anything Recorded). intros ds1 w1 Hw1 Hi1.
    destruct (record_piece ds1 w1 ids r Hw1 Hi1 Hr) as (x & w2 & ? & ?). by exists x, w2. }
  eapply (phased_bind delivering _ _ (in_phase Recorded)); [|intros ? ? [_ ->]|by intros ? ? [[] _]].
  { apply (quiet_piece _ _ fresh_copy); [intros ds w Hw _; destruct (load_fresh ds w Hw) as (c' & ? & ?); by exists c', w|].
    intros c' Hc'. apply (phased_last delivering _ anything Recorded). intros ds w Hw Hi.
    destruct (stats_piece ds w c' Hw Hc') as (x & w' & ? & ?). exists x, w'. by rewrite list_insert_id. }
  apply (quiet_piece _ _ (λ l, length l = length cs)).
  { intros ds w (_ & [Ha _] & _) _. exists (getActiveConsumers w), w. split; [done|]. split; [done|]. by apply active_same_length. }
  intros l Hlen. cbv zeta. rewrite Hto, Hlen. cbn [default from_option length]. unfold last_phase.
  assert (length cs ≠ 0) as H0 by (intros H0; by rewrite (nil_length_inv _ H0) in Hc).
  rewrite (bool_decide_ext (length cs ≤ 0 + 1) (length cs = 1)) by lia. case_bool_decide as Hone; [|done].
  eapply (phased_bind delivering _ _ (in_phase Marked)); [|by intros ? ? [_ ->]|by intros ? ? [[] _]].
  apply (quiet_piece _ _ full_copy); [intros ds w Hw Hi; destruct (find_recorded ds w Hw Hi) as (r & ? & ?); by exists r, w|].
  intros r Hr. apply (phased_last delivering _ anything Marked). intros ds w Hw Hi.
  destruct (mark_piece ds w r Hw Hi Hone Hr) as (x & w' & ? & ?). by exists x, w'.
Qed.
Lemma phased_deliver : phased (in_phase last_phase) i Waiting (deliverEventToConsumer_task e c).
Proof.
  apply (quiet_piece _ _ anything); [intros ds w _ _; by exists (clock_at (mticks w)), (advance w)|]. intros _ _.
  eapply (phased_try delivering _ _ (in_phase last_phase)); [|done|by intros ? ? [[] _]].
  apply (quiet_piece _ _ fresh_copy); [intros ds w Hw _; destruct (load_fresh ds w Hw) as (c' & ? & ?); by exists c', w|].
  intros c' Hc'. pose proof Hc' as (_ & Hact & _). rewrite Hact. cbn [negb].
  apply (phased_piece delivering _ _ (λ result, dr_success result = true) Posted).
  { intros ds w Hw Hi. destruct (send_piece ds w c' Hw Hi Hc') as (st & w' & ? & ?). by eexists _, w'. }
  intros result Hres. apply (quiet_piece _ _ anything); [intros ds w _ _; by exists (clock_at (mticks w)), (advance w)|]. intros _ _.
  rewrite Hres. apply phased_handle.
Qed.
End Everyone.

Lemma not_marked_replicate n : existsb is_marked (replicate n Waiting) = false.
Proof. by induction n. Qed.
(** Where the deliveries are when all have come to their ends. *)
Lemma delivering_end e r0 w0 : all_answer → ev_deliveredTo e = None → ∀ w1 ts w',
  let cs := getActiveConsumers w0 in Forall (λ c, co_id c ≠ EmptyString) cs → cs ≠ [] →
  delivering e r0 w0 (replicate (length cs) Waiting) w1 →
  rtc pool_step (batch_tasks (mkItem e <$> cs), w1) (ts, w') → Forall (λ t, task_done t = true) ts →
  ∃ ds, delivering e r0 w0 ds w' ∧ length ds = length cs ∧ Forall (λ t, t = Done (Return tt)) ts ∧
    (Forall (λ d, is_recorded d = true) ds ∧ Forall (λ d, is_posted d = true) ds) ∧ existsb is_marked ds = bool_decide (length cs = 1).
Proof.
  intros Hall Hto w1 ts w' cs Hids Hne Hw1 Hrtc Hdone.
  assert (length ts = length cs) as Hlts.
  { transitivity (length (batch_tasks (mkItem e <$> cs))); [|unfold batch_tasks; by rewrite !length_fmap].
    change ts with (ts, w').1. change (batch_tasks (mkItem e <$> cs)) with (batch_tasks (mkItem e <$> cs), w1).1. generalize (ts, w') as p', Hrtc. clear.
    intros p' Hrtc. induction Hrtc as [|p1 p2 p3 Hstep _ IH]; [done|]. rewrite IH. destruct Hstep. cbn. by rewrite length_insert. }
  destruct (pool_phased (delivering e r0 w0) (λ o d, returning anything o ∧ d = last_phase w0) _ _ Hrtc _ Hw1) as (ds & Hw' & Hts).
  { intros i t Hi. cbn [fst] in Hi. unfold batch_tasks in Hi. rewrite !list_lookup_fmap in Hi.
    destruct (cs !! i) as [c|] eqn:Hc; [|done]. injection Hi as <-. exists Waiting.
    split; [apply lookup_replicate_2; by eapply lookup_lt_Some|]. apply (phased_deliver e r0 w0 Hall Hto i c Hc).
    by eapply (Forall_lookup_1 _ _ _ _ Hids). }
  cbn [fst snd] in *. pose proof Hw' as (Hl & _). fold cs in Hl. exists ds. split; [done|]. split; [done|].
  assert (∀ i t, ts !! i = Some t → t = Done (Return tt) ∧ ds !! i = Some (last_phase w0)) as Hend.
  { intros i t Hi. destruct (Hts i t Hi) as (d & Hd & Hp). pose proof (Forall_lookup_1 _ _ _ _ Hdone Hi) as Ht.
    destruct t as [[[]|x]|]; [|by destruct Hp|done]. destruct Hp as [_ ->]. done. }
  assert (ds = replicate (length cs) (last_phase w0)) as ->.
  { symmetry. apply replicate_as_elem_of. split; [done|]. intros d [i Hi]%list_elem_of_lookup.
    destruct (lookup_lt_is_Some_2 ts i) as [t Ht]; [apply lookup_lt_Some in Hi; lia|]. destruct (Hend i t Ht) as [_ Hd]. congruence. }
  assert (length cs ≠ 0) as H0 by (intros H0; by apply nil_length_inv in H0). unfold last_phase. fold cs.
  split; [apply Forall_lookup_2; intros i t Hi; by destruct (Hend i t Hi)|]. case_bool_decide as Hone.
  - rewrite Hone. split; [split; by repeat constructor|done].
  - split; [split; by apply Forall_replicate|]. clear. by induction (length cs).
Qed.

(** C34: an event delivered to everyone.  A stored event that names no consumer yet is queued while the queue is empty and idle, for one to
    ten active consumers that all answer: however the pieces of its deliveries interleave, they come
    to their ends, and then none has failed, each of the consumers was sent one request, no retry
    is waiting, and the event is DELIVERED.  It names at least one of the consumers, and counts as many
    attempts as it names; it counts as processed only if there is a single one. *)
Theorem event_delivered e r w :
  all_answer → lookup_row (ev_id e) (events w) = Some r →
  ev_deliveredTo e = None → ev_deliveredTo r = None → ev_isProcessed r = false →
  deliveryQueue w = [] → isProcessingQueue w = false →
  let cs := getActiveConsumers w in Forall (λ c, co_id c ≠ EmptyString) cs → 1 ≤ length cs ≤ 10 →
  ∃ w1, queue_and_claim e w = (Return (mkItem e <$> cs), w1) ∧
  Acc (flip pool_step) (batch_tasks (mkItem e <$> cs), w1) ∧
  ∀ ts w', rtc pool_step (batch_tasks (mkItem e <$> cs), w1) (ts, w') → Forall (λ t, task_done t = true) ts →
    Forall (λ t, t = Done (Return tt)) ts ∧
    (∃ ps sent, posts w' = posts w ++ ps ∧ sent ≡ₚ cs ∧ Forall2 (λ c p, request_for e (co_url c) p) sent ps) ∧
    deliveryQueue w' = [] ∧ timers w' = timers w ∧
    ∃ r' ids, lookup_row (ev_id e) (events w') = Some r' ∧ ev_deliveryStatus r' = DeliveryStatus.DELIVERED ∧
      ev_deliveredTo r' = Some ids ∧ ids ≠ [] ∧ NoDup ids ∧ ids ⊆ co_id <$> cs ∧
      ev_deliveryAttempts r' = (ev_deliveryAttempts r + Z.of_nat (length ids))%Z ∧ ev_isProcessed r' = bool_decide (length cs = 1).
Proof.
  intros Hall Hr Hto Hrto Hrp Hq Hpq cs Hids Hn. set (w1 := set_queue [] (set_processing true (set_queue (mkItem e <$> cs) w))). exists w1. split.
  { unfold queue_and_claim. rewrite bind_gets. fold cs. rewrite bool_decide_eq_false_2 by lia. set (wq := set_queue (mkItem e <$> cs) w).
    rewrite (bind_run _ _ w tt wq) by (unfold enqueue, modify; by rewrite Hq). rewrite bind_gets. change (isProcessingQueue wq) with (isProcessingQueue w).
    rewrite Hpq. unfold claim_batch. rewrite (bind_run (gets id) _ wq wq wq) by done. cbv beta. change (isProcessingQueue wq) with (isProcessingQueue w).
    change (deliveryQueue wq) with (mkItem e <$> cs). rewrite Hpq, bool_decide_eq_false_2 by (rewrite length_fmap; lia). cbn [orb].
    rewrite (bind_run _ _ wq tt w1); [by rewrite firstn_all2 by (rewrite length_fmap; unfold batchSize; lia)|].
    unfold modify. change (deliveryQueue wq) with (mkItem e <$> cs). rewrite skipn_all2; [done|]. rewrite length_fmap. unfold batchSize. lia. }
  split; [apply pool_acc|]. intros ts w' Hrtc Hdone. assert (cs ≠ []) as Hcs by (intros H0; rewrite H0 in Hn; cbn in Hn; lia).
  destruct (delivering_end e r w Hall Hto w1 ts w') as (ds & Hw' & Hl & Hts & Hds & Hlast); try done.
  { split; [by rewrite length_replicate|]. split; [done|]. split; [done|]. split; [|split; [|split]].
    - exists [], []. rewrite app_nil_r, chosen_none by by apply Forall_replicate. done.
    - exists r. split; [done|]. exists []. rewrite chosen_none by by apply Forall_replicate. rewrite Hrp, not_marked_replicate. split; [|done].
      split; [by eapply lookup_event_id|]. rewrite Hrto. split; [done|]. split; [constructor|cbn; lia].
    - by intros j ids [[=] _]%lookup_replicate.
    - by rewrite not_marked_replicate. }
  split; [done|]. destruct Hw' as (_ & _ & [Hq' Ht'] & (ps & sent & Hp & Hf & Hs) & (r' & Hr' & ids & (_ & Hto' & Hnd & Hat) & Hsub & Hpr & Hrec) & _).
  fold cs in Hs, Hsub, Hrec, Hl, Hlast. destruct Hds as [Hdr Hdp].
  rewrite (chosen_all is_posted cs ds Hl Hdp) in Hs. rewrite (chosen_all is_recorded cs ds Hl Hdr) in Hsub, Hrec.
  destruct (Hrec Hcs) as [Hne Hst].
  split; [by exists ps, sent|]. split; [by rewrite Hq'|]. split; [exact Ht'|]. exists r', ids. split_and!; try done.
  - destruct (ev_deliveredTo r'); [by rewrite <-Hto'|by rewrite <-Hto' in Hne].
  - by rewrite Hpr.
Qed.

(** ** A lost update *)

(** A delivery that was answered, from the moment it has loaded the event. *)
Definition after_load e c r : task unit :=
  task_try
    (atomic (recordAttempt DeliveryStatus.DELIVERED (Some (co_id c)) None r) ;;
     updateDeliveryStats_task (co_id c) true None ;;
     activeConsumers ← atomic (gets getActiveConsumers);
     let deliveredCount := length (default [] (ev_deliveredTo e)) + 1 in
     if bool_decide (length (activeConsumers : list WebhookConsumer) ≤ deliveredCount)
     then markEventAsProcessed_task (ev_id e) ;; mret tt
     else mret tt)
    (λ error,
     now ← atomic date_now;
     handleFailedDelivery_task e c (mkDeliveryResult false None (Some (exn_message error)))).

Lemma play_until_load e c c0 r i ts w :
  all_answer → ts !! i = Some (deliverEventToConsumer_task e c) →
  lookup_row (co_id c) (consumers w) = Some c0 → co_isActive c0 = true → lookup_row (ev_id e) (events w) = Some r →
  ∃ w', play (replicate 5 i) (ts, w) = (<[i := after_load e c r]> ts, w') ∧
    events w' = events w ∧ consumers w' = consumers w ∧ length (posts w') = S (length (posts w)).
Proof.
  intros Hall Hi Hc Hact Hr. assert (i < length ts) as Hlt by by eapply lookup_lt_Some.
  destruct (attemptDelivery_answered e c0 (advance w) Hall) as (st & w1 & Hrun & Hc1 & He1 & Hp1).
  assert (findEvent (ev_id e) (advance w1) = (Return r, advance w1)) as Hf.
  { apply findEvent_run. change (events (advance w1)) with (events w1). by rewrite He1. }
  exists (advance w1). split; [|done]. cbn [replicate].
  rewrite (play_piece i _ _ _ _ _ _ w (advance w) Hi (eq_refl : date_now w = _)).
  erewrite play_piece; [|by apply list_lookup_insert_eq|by apply getConsumerById_run]. rewrite list_insert_insert_eq.
  cbn [task_bind task_try]. rewrite Hact. cbn [negb].
  erewrite play_piece; [|by apply list_lookup_insert_eq|exact Hrun]. rewrite list_insert_insert_eq.
  erewrite play_piece; [|by apply list_lookup_insert_eq|reflexivity]. rewrite list_insert_insert_eq.
  erewrite play_piece; [|by apply list_lookup_insert_eq|exact Hf].
  rewrite list_insert_insert_eq. done.
Qed.

Lemma play_after_load e c r old i ts w :
  ts !! i = Some (after_load e c r) → co_id c ≠ EmptyString → ev_deliveredTo e = None → ev_id r = ev_id e →
  co_id c ∈ co_id <$> getActiveConsumers w → 2 ≤ length (getActiveConsumers w) →
  lookup_row (ev_id e) (events w) = Some old →
  ∃ w' row, play (replicate 4 i) (ts, w) = (<[i := Done (Return tt)]> ts, w') ∧ active_same w w' ∧
    posts w' = posts w ∧ lookup_row (ev_id e) (events w') = Some row ∧
    attempted r DeliveryStatus.DELIVERED (push_new (co_id c) (ev_deliveredTo r)) row.
Proof.
  intros Hi Hid Hto Her Hin Hmany Hold. assert (i < length ts) as Hlt by by eapply lookup_lt_Some.
  rewrite <-Her in Hold. apply elem_of_active, fmap_Some in Hin as (c1 & Hc1 & Ha1).
  destruct (recordAttempt_delivered (co_id c) r old w Hold Hid)
    as (x & w1 & row & Hrun1 & (Hc & _ & _ & _ & Hp1 & _) & Hrow & Hat).
  pose proof (lookup_consumer_id _ _ _ Hc1) as Hid1.
  destruct (recordDelivery_active c1 w1) as (y & w2 & Hrun2 & Hs2 & He2 & Hp2 & _); [by rewrite Hc, Hid1, Hc1|].
  assert (active_same w w2) as Hsame by (intros id; rewrite (Hs2 id); by rewrite Hc).
  exists w2, row. split; [|split_and!; [done|congruence|by rewrite He2, <-Her|done]].
  cbn [replicate]. rewrite (play_piece i _ _ _ _ _ _ w w1 Hi Hrun1).
  erewrite play_piece; [|by apply list_lookup_insert_eq|apply getConsumerById_run; by rewrite Hc, Hc1].
  rewrite list_insert_insert_eq.
  erewrite play_piece; [|by apply list_lookup_insert_eq|exact Hrun2]. rewrite list_insert_insert_eq.
  erewrite play_piece; [|by apply list_lookup_insert_eq|reflexivity]. rewrite list_insert_insert_eq.
  rewrite (active_same_length _ _ Hsame). cbn [task_bind task_try]. rewrite Hto.
  rewrite bool_decide_eq_false_2 by (cbn; lia). done.
Qed.

(** a lost update.  When two active consumers answer, the deliveries of one event to both can
    interleave so that each of them loads the event before the other saves it: both requests are sent
    and both deliveries end well, and yet the event row counts one attempt and names one consumer,
    whichever saved last. *)
Theorem delivery_lost_update e c1 c2 w r :
  all_answer → ev_deliveredTo e = None → co_id c1 ≠ EmptyString → co_id c2 ≠ EmptyString → co_id c1 ≠ co_id c2 →
  co_id c1 ∈ co_id <$> getActiveConsumers w → co_id c2 ∈ co_id <$> getActiveConsumers w →
  lookup_row (ev_id e) (events w) = Some r → ev_deliveredTo r = None →
  ∃ order w' row, play order (batch_tasks [mkItem e c1; mkItem e c2], w) = ([Done (Return tt); Done (Return tt)], w') ∧
    length (posts w') = length (posts w) + 2 ∧ lookup_row (ev_id e) (events w') = Some row ∧
    ev_deliveryAttempts row = (ev_deliveryAttempts r + 1)%Z ∧ ev_deliveredTo row = Some [co_id c2].
Proof.
  intros Hall Hto Hid1 Hid2 Hne Hin1 Hin2 Hr Htor.
  assert (2 ≤ length (getActiveConsumers w)) as Hmany.
  { rewrite <-(length_fmap co_id). change 2 with (length [co_id c1; co_id c2]). apply submseteq_length, NoDup_submseteq.
    - by repeat constructor; set_solver.
    - set_solver. }
  pose proof Hin1 as (a1 & Ha1 & [= Hact1 _])%elem_of_active%fmap_Some.
  pose proof Hin2 as (a2 & Ha2 & [= Hact2 _])%elem_of_active%fmap_Some.
  exists (replicate 5 0 ++ replicate 5 1 ++ replicate 4 0 ++ replicate 4 1). rewrite !play_app.
  destruct (play_until_load e c1 a1 r 0 (batch_tasks [mkItem e c1; mkItem e c2]) w)
    as (w1 & -> & He1 & Hc1 & Hp1); [done..|].
  destruct (play_until_load e c2 a2 r 1 (<[0 := after_load e c1 r]> (batch_tasks [mkItem e c1; mkItem e c2])) w1)
    as (w2 & -> & He2 & Hc2 & Hp2); [done|done|by rewrite Hc1|done|by rewrite He1|].
  assert (active_same w w2) as Hs2 by (intros id; by rewrite Hc2, Hc1).
  destruct (play_after_load e c1 r r 0 (<[1 := after_load e c2 r]> (<[0 := after_load e c1 r]> (batch_tasks [mkItem e c1; mkItem e c2]))) w2)
    as (w3 & row1 & -> & Hs3 & Hp3 & Hrow1 & _); [done|done|done|by eapply lookup_event_id| | |by rewrite He2, He1|].
  { rewrite elem_of_active, Hs2. by apply elem_of_active. }
  { by rewrite (active_same_length _ _ Hs2). }
  assert (active_same w w3) as Hs3' by by etrans.
  destruct (play_after_load e c2 r row1 1
    (<[0 := Done (Return tt)]> (<[1 := after_load e c2 r]> (<[0 := after_load e c1 r]> (batch_tasks [mkItem e c1; mkItem e c2])))) w3)
    as (w4 & row & -> & _ & Hp4 & Hrow & (_ & _ & Hat & Hdt & _)); [done|done|done|by eapply lookup_event_id| | |done|].
  { rewrite elem_of_active, Hs3'. by apply elem_of_active. }
  { by rewrite (active_same_length _ _ Hs3'). }
  exists w4, row. split_and!; [done| |done|done|].
  - rewrite Hp4, Hp3, Hp2, Hp1. lia.
  - rewrite Hdt, Htor. done.
Qed.
End Races.
