(* ===== verification/StellarMonitor.v ===== *)
(** [stellar-monitor/services/stellar-event-monitor.service.ts]: the streams of payments and offers from the
    ledger, and what becomes of their messages; and the requests of
    [stellar-monitor/controllers/stellar-monitor.controller.ts].

    The client of Horizon is a parameter.  A message is handled in one piece here: its row is saved and its
    deliveries run as in [WebhookDelivery] before the next one comes. *)
From S2P Require Import Prelude Async Json JsonParse Repository StellarTypes StellarConsumers StellarEvents WebhookDelivery.
From Stdlib Require Import Ascii.
Open Scope Z_scope.

(** ** The client of Horizon *)

Module StreamKind.
Inductive t := PAYMENTS | OFFERS.
#[global] Instance t_eq_dec : EqDecision t.
Proof. solve_decision. Defined.
End StreamKind.

(** A handle stands for the function that closes the stream. *)
Class Horizon (H : Type) := {
  serverURL : string;
  latest_ledgers : nat → outcome (list Z);                    (* ledgers().order('desc').limit(1).call(): sequences *)
  stream_open : StreamKind.t → H → outcome nat * H;           (* ....cursor('now').stream(...) *)
  stream_close : nat → H → outcome unit * H;
  open_streams : H → list (nat * StreamKind.t);
}.
Class HorizonLaws (H : Type) `{!Horizon H} := {
  stream_open_returns k h : ∃ n h', stream_open k h = (Return n, h') ∧ n ∉ (open_streams h).*1 ∧ open_streams h' = open_streams h ++ [(n, k)];
  stream_close_returns n h : ∃ h', stream_close n h = (Return tt, h') ∧ open_streams h' = filter (λ s, s.1 ≠ n) (open_streams h);
}.

(** What it reports.  The transaction is there when the server was asked to join it. *)
Record TransactionAttr := mkTransactionAttr { tx_ledger : Z; tx_memo : option string; tx_memo_type : option string }.
Record HorizonPaymentOperation := mkHorizonPaymentOperation {
  pay_created_at : string; pay_transaction_hash : string; pay_asset_type : string; pay_asset_code : option string; pay_asset_issuer : option string;
  pay_from : string; pay_to : string; pay_amount : string; pay_transaction_attr : option TransactionAttr }.
Record HorizonManageOfferOperation := mkHorizonManageOfferOperation {
  off_type : string; off_source_account : string; off_created_at : string; off_transaction_hash : string; off_offer_id : option string;
  off_amount : string; off_price : string; off_selling_asset_type : string; off_selling_asset_code : option string; off_selling_asset_issuer : option string;
  off_buying_asset_type : string; off_buying_asset_code : option string; off_buying_asset_issuer : option string; off_transaction_attr : option TransactionAttr }.

(** ** The service and the world it works in *)

Record Watch (DBE DBC H : Type) := mkWatch {
  delivery : Monitor DBE DBC;            (* the tables and the delivery service *)
  horizon : H;
  paymentStream : option nat;
  offerStream : option nat;
  isMonitoring : bool;
  lastLedgerSequence : Z;
  restarts : list StreamKind.t;          (* timers of five seconds that are pending *)
}.
Arguments mkWatch {_ _ _} _ _ _ _ _ _ _.
Arguments delivery {_ _ _} _.
Arguments horizon {_ _ _} _.
Arguments paymentStream {_ _ _} _.
Arguments offerStream {_ _ _} _.
Arguments isMonitoring {_ _ _} _.
Arguments lastLedgerSequence {_ _ _} _.
Arguments restarts {_ _ _} _.

Section Setters.
Context {DBE DBC H : Type}.
Implicit Types (w : Watch DBE DBC H).
Definition set_delivery (v : Monitor DBE DBC) w : Watch DBE DBC H :=
  mkWatch v (horizon w) (paymentStream w) (offerStream w) (isMonitoring w) (lastLedgerSequence w) (restarts w).
Definition set_horizon (v : H) w : Watch DBE DBC H :=
  mkWatch (delivery w) v (paymentStream w) (offerStream w) (isMonitoring w) (lastLedgerSequence w) (restarts w).
Definition set_paymentStream (v : option nat) w : Watch DBE DBC H :=
  mkWatch (delivery w) (horizon w) v (offerStream w) (isMonitoring w) (lastLedgerSequence w) (restarts w).
Definition set_offerStream (v : option nat) w : Watch DBE DBC H :=
  mkWatch (delivery w) (horizon w) (paymentStream w) v (isMonitoring w) (lastLedgerSequence w) (restarts w).
Definition set_isMonitoring (v : bool) w : Watch DBE DBC H :=
  mkWatch (delivery w) (horizon w) (paymentStream w) (offerStream w) v (lastLedgerSequence w) (restarts w).
Definition set_lastLedgerSequence (v : Z) w : Watch DBE DBC H :=
  mkWatch (delivery w) (horizon w) (paymentStream w) (offerStream w) (isMonitoring w) v (restarts w).
Definition set_restarts (v : list StreamKind.t) w : Watch DBE DBC H :=
  mkWatch (delivery w) (horizon w) (paymentStream w) (offerStream w) (isMonitoring w) (lastLedgerSequence w) v.
End Setters.

#[export] Instance Watch_ticking DBE DBC H : Ticking (Watch DBE DBC H) := {|
  tick w := mticks (delivery w); advance w := set_delivery (advance (delivery w)) w |}.

(** ** Texts *)

(** [new Date(text)] for the times of Horizon, which have no milliseconds, and for those of [toISOString]. *)
Definition horizon_time (s : string) : option Z :=
  match date_parse s with
  | Some t => Some t
  | None =>
      '(y, s) ← read_part "-" s; '(mo, s) ← read_part "-" s; '(d, s) ← read_part "T" s;
      '(h, s) ← read_part ":" s; '(mi, s) ← read_part ":" s; '(sec, s) ← read_part "Z" s;
      Some (days_from_civil y mo d * ms_per_day + h * 3600000 + mi * 60000 + sec * 1000)
  end.

(** [parseFloat(s) === 0]: a sign, zeros and a point, one zero at least; what follows does not count. *)
Fixpoint zeros (seen point : bool) (s : string) : bool :=
  match s with
  | EmptyString => seen
  | String a s =>
      if bool_decide (a = "0"%char) then zeros true point s
      else if bool_decide (a = "."%char) && negb point then zeros seen true s
      else if bool_decide (is_Some (digit_of a)) then false else seen
  end.
Definition parses_to_zero (s : string) : bool :=
  match trim_start s with
  | String a s' => if bool_decide (a = "-"%char ∨ a = "+"%char) then zeros false false s' else zeros false false (String a s')
  | EmptyString => false
  end.
Definition js_text (o : option string) : jsval := match o with Some s => JString s | None => JUndefined end.

(** [(parseFloat(a) / parseFloat(b)).toString()]: the quotient of two doubles as a text. *)
Class FloatText := quotient_text : string → string → string.

Section EventMonitor.
Context {DBE DBC H : Type} `{!EventTable DBE, !ConsumerTable DBC, !Horizon H, CLK : Clock, NET : Network, !Crypto, !FloatText}.
Local Abbreviation Monitor := (Monitor DBE DBC).
Local Abbreviation W := (Watch DBE DBC H).

(** ** Messages *)

Definition payment_payload (payment : HorizonPaymentOperation) (attr : TransactionAttr) : jsobj :=
  [("amount", JString (pay_amount payment)); ("assetType", JString (pay_asset_type payment)); ("assetCode", js_text (pay_asset_code payment));
   ("assetIssuer", js_text (pay_asset_issuer payment)); ("from", JString (pay_from payment)); ("to", JString (pay_to payment));
   ("memo", js_text (tx_memo attr)); ("memoType", js_text (tx_memo_type attr))].

(** The parts of a message that may not be there. *)
Definition transaction_of (attr : option TransactionAttr) : eff Monitor TransactionAttr :=
  match attr with Some attr => mret attr | None => throw (TypeError "Cannot read properties of undefined (reading 'ledger')") end.
Definition time_of (created_at : string) : eff Monitor Z :=
  match horizon_time created_at with Some t => mret t | None => throw (Exn "RangeError" "Invalid time value") end.

Definition save_and_queue (eventData : StellarEventDto) : eff Monitor StellarEvent :=
  savedEvent ← saveEvent eventData;
  queueEventForDelivery savedEvent ;;
  mret savedEvent.

Definition handlePaymentEvent (payment : HorizonPaymentOperation) : eff Monitor unit :=
  try_catch
    (id ← randomUUID;
     attr ← transaction_of (pay_transaction_attr payment);
     timestamp ← time_of (pay_created_at payment);
     save_and_queue (mkStellarEventDto id EventType.PAYMENT (tx_ledger attr) timestamp (pay_transaction_hash payment) (pay_from payment)
       (payment_payload payment attr)) ;;
     mret tt)
    (λ error, mret tt).

Definition determineOfferType (offer : HorizonManageOfferOperation) : string :=
  if parses_to_zero (off_amount offer) then "delete"
  else if bool_decide (or_string (off_offer_id offer) EmptyString ≠ EmptyString) then "update" else "create".

Definition offer_payload (offer : HorizonManageOfferOperation) : jsobj :=
  [("offerId", js_text (off_offer_id offer)); ("seller", JString (off_source_account offer));
   ("sellingAssetType", JString (off_selling_asset_type offer)); ("sellingAssetCode", js_text (off_selling_asset_code offer));
   ("sellingAssetIssuer", js_text (off_selling_asset_issuer offer)); ("buyingAssetType", JString (off_buying_asset_type offer));
   ("buyingAssetCode", js_text (off_buying_asset_code offer)); ("buyingAssetIssuer", js_text (off_buying_asset_issuer offer));
   ("amount", JString (off_amount offer)); ("price", JString (off_price offer)); ("type", JString (determineOfferType offer))].

Definition handleOfferEvent (offer : HorizonManageOfferOperation) : eff Monitor unit :=
  try_catch
    (id ← randomUUID;
     attr ← transaction_of (off_transaction_attr offer);
     timestamp ← time_of (off_created_at offer);
     save_and_queue (mkStellarEventDto id EventType.OFFER (tx_ledger attr) timestamp (off_transaction_hash offer) (off_source_account offer)
       (offer_payload offer)) ;;
     mret tt)
    (λ error, mret tt).

(** ** Streams *)

Definition on_delivery {A} (m : eff Monitor A) : eff W A := λ w, let '(o, v) := m (delivery w) in (o, set_delivery v w).
Definition on_horizon {A} (f : H → outcome A * H) : eff W A := λ w, let '(o, h) := f (horizon w) in (o, set_horizon h w).

Definition startPaymentStream : eff W unit :=
  n ← on_horizon (stream_open StreamKind.PAYMENTS); modify (set_paymentStream (Some n)).
Definition startOfferStream : eff W unit :=
  n ← on_horizon (stream_open StreamKind.OFFERS); modify (set_offerStream (Some n)).
Definition startStream (k : StreamKind.t) : eff W unit :=
  match k with StreamKind.PAYMENTS => startPaymentStream | StreamKind.OFFERS => startOfferStream end.

(** [onmessage], of either stream; the handlers do not throw. *)
Definition payment_onmessage (payment : HorizonPaymentOperation) : eff W unit := on_delivery (handlePaymentEvent payment).
Definition offer_onmessage (offer : HorizonManageOfferOperation) : eff W unit :=
  if bool_decide (off_type offer = "manage_sell_offer") || bool_decide (off_type offer = "manage_buy_offer")
  then on_delivery (handleOfferEvent offer) else mret tt.
(** [onerror], and its timer: the [i]-th of those that are pending. *)
Definition stream_onerror (k : StreamKind.t) : eff W unit := modify (λ w, set_restarts (restarts w ++ [k]) w).
Definition restart_fires (i : nat) : eff W unit :=
  w ← gets id;
  match restarts w !! i with
  | None => mret tt
  | Some k => modify (set_restarts (delete i (restarts w))) ;; (if isMonitoring w then startStream k else mret tt)
  end.

(** The sequence of the latest ledger, [records[0].sequence]. *)
Definition fetch_ledger : eff W Z := λ w,
  (match latest_ledgers (tick w) with
   | Return (sequence :: _) => Return sequence
   | Return [] => Throw (TypeError "Cannot read properties of undefined (reading 'sequence')")
   | Throw e => Throw e
   end, advance w).

(** What comes before the answer of the server and what comes after it. *)
Definition claim_monitoring : eff W bool :=
  w ← gets id; if isMonitoring w then mret false else modify (set_isMonitoring true) ;; mret true.
Definition open_both : eff W unit :=
  try_catch
    (sequence ← fetch_ledger;
     modify (set_lastLedgerSequence sequence) ;;
     startPaymentStream ;;
     startOfferStream)
    (λ error, modify (set_isMonitoring false) ;; throw error).
Definition startMonitoring_task : task W unit :=
  claimed ← atomic claim_monitoring;
  if (claimed : bool) then atomic open_both else mret tt.
Definition startMonitoring : eff W unit := run_task startMonitoring_task.

Definition close_field (n : option nat) (clear : W → W) : eff W unit :=
  match n with Some n => on_horizon (stream_close n) ;; modify clear | None => mret tt end.
Definition stopMonitoring : eff W unit :=
  w ← gets id;
  if negb (isMonitoring w) then mret tt else
  try_catch
    (close_field (paymentStream w) (set_paymentStream None) ;;
     close_field (offerStream w) (set_offerStream None) ;;
     modify (set_isMonitoring false))
    (λ error, mret tt).

(** [STELLAR_MONITOR_ENABLED] *)
Definition onModuleInit (enabled : option string) : eff W unit :=
  if bool_decide (enabled = Some "false") then mret tt else startMonitoring.
Definition onModuleDestroy : eff W unit := stopMonitoring.

(** ** Simulation and status *)

Definition ACCOUNT_A : string := "GAIH3ULLFQ4DGSECF2AR555KZ4KNDGEKN4AFI4SU2M7B43MGK3QJZNSR".
Definition ACCOUNT_B : string := "GA5ZSEJYB37JRC5AVCIA5MOP4RHTM335X2KGX3IHOJAPP5RE34K4KZVN".

Definition simulatePaymentEvent (from to amount assetType : option string) : eff W StellarEvent :=
  let from := default ACCOUNT_A from in
  let to := default ACCOUNT_B to in
  let amount := default "100" amount in
  let assetType := default "native" assetType in
  w ← gets id;
  on_delivery
    (id ← randomUUID;
     timestamp ← date_now;
     hash ← randomUUID;
     save_and_queue (mkStellarEventDto id EventType.PAYMENT (lastLedgerSequence w + 1) timestamp ("simulated-" +:+ hash) from
       [("amount", JString amount); ("assetType", JString assetType); ("from", JString from); ("to", JString to); ("simulated", JBool true)])).

Definition simulateOfferEvent (seller sellingAmount buyingAmount : option string) : eff W StellarEvent :=
  let seller := default ACCOUNT_A seller in
  let sellingAmount := default "1000" sellingAmount in
  let price := quotient_text (default "50" buyingAmount) sellingAmount in
  w ← gets id;
  on_delivery
    (id ← randomUUID;
     timestamp ← date_now;
     hash ← randomUUID;
     now ← date_now;
     save_and_queue (mkStellarEventDto id EventType.OFFER (lastLedgerSequence w + 1) timestamp ("simulated-" +:+ hash) seller
       [("offerId", JString ("simulated-" +:+ pretty now)); ("seller", JString seller); ("sellingAssetType", JString "credit_alphanum4");
        ("sellingAssetCode", JString "USD"); ("sellingAssetIssuer", JString ACCOUNT_A); ("buyingAssetType", JString "native");
        ("amount", JString sellingAmount); ("price", JString price); ("type", JString "create"); ("simulated", JBool true)])).

Record MonitorStatus := mkMonitorStatus { ms_isMonitoring : bool; ms_lastLedgerSequence : Z; ms_horizonUrl : string }.
Definition getStatus (w : W) : MonitorStatus := mkMonitorStatus (isMonitoring w) (lastLedgerSequence w) (serverURL (H := H)).
Definition getLatestLedger : eff W Z := try_catch fetch_ledger (λ error, gets lastLedgerSequence).
End EventMonitor.

(** * [StellarMonitorController]

    Requests that only concern consumers and events run in the world of the delivery service. *)

Definition BAD_REQUEST : Z := 400.
Definition NOT_FOUND : Z := 404.

(** [error instanceof HttpException]: the class and those NestJS derives from it. *)
Definition instanceof_HttpException (e : exn) : bool :=
  String.prefix "HttpException " (exn_name e)
  || bool_decide (exn_name e ∈ ["NotFoundException"; "BadRequestException"; "UnauthorizedException"; "ConflictException"]).

Section Controller.
Context {DBE DBC H : Type} `{!EventTable DBE, !ConsumerTable DBC, !Horizon H, CLK : Clock, NET : Network, !Crypto, !FloatText}.
Local Abbreviation Monitor := (Monitor DBE DBC).
Local Abbreviation W := (Watch DBE DBC H).

(** The [catch] blocks. *)
Definition or_status {A} (status : Z) (m : eff Monitor A) : eff Monitor A :=
  try_catch m (λ error, throw (HttpException (exn_message error) status)).

Definition controller_createConsumer (createDto : CreateConsumerDto) : eff Monitor WebhookConsumer := or_status BAD_REQUEST (createConsumer createDto).
Definition controller_getConsumers (activeOnly : option string) : eff Monitor (list WebhookConsumer) :=
  gets (getAllConsumers (bool_decide (activeOnly = Some "true"))).
Definition controller_getConsumer (id : string) : eff Monitor WebhookConsumer := or_status NOT_FOUND (getConsumerById id).
Definition controller_updateConsumer (id : string) (updateDto : UpdateConsumerDto) : eff Monitor WebhookConsumer :=
  try_catch (updateConsumer id updateDto)
    (λ error, if instanceof_HttpException error then throw error else throw (HttpException (exn_message error) BAD_REQUEST)).
Definition controller_deleteConsumer (id : string) : eff Monitor unit := or_status NOT_FOUND (deleteConsumer id).
Definition controller_activateConsumer (id : string) : eff Monitor WebhookConsumer := or_status NOT_FOUND (activateConsumer id).
Definition controller_deactivateConsumer (id : string) : eff Monitor WebhookConsumer := or_status NOT_FOUND (deactivateConsumer id).

Record TestReply := mkTestReply { tr_consumerId : string; tr_result : DeliveryResult }.
Definition controller_testConsumer (id : string) : eff Monitor TestReply :=
  or_status NOT_FOUND (result ← deliverTestEvent id; mret (mkTestReply id result)).

(** The numbers of a page must be positive here: what the query builder makes of others, and of [NaN], is the library's. *)
Record EventsPage := mkEventsPage { ep_events : list StellarEvent; ep_total : nat; ep_page : positive; ep_limit : positive }.
Definition controller_getEvents (page limit : option string) (eventType : option EventType.t) (deliveryStatus : option DeliveryStatus.t) :
    eff Monitor (option EventsPage) :=
  match parseInt (or_string page "1"), parseInt (or_string limit "50") with
  | Some (Z.pos pageNum), Some (Z.pos limitNum) =>
      found ← gets (getEvents pageNum limitNum eventType None None deliveryStatus);
      mret (Some (mkEventsPage found.1 found.2 pageNum limitNum))
  | _, _ => mret None
  end.
Definition controller_getEvent (id : string) : eff Monitor StellarEvent :=
  event ← gets (getEventById id);
  match event with Some event => mret event | None => throw (HttpException "Event not found" NOT_FOUND) end.

Record MonitorReport := mkMonitorReport {
  mr_events : EventStats; mr_consumers : ConsumerStats; mr_delivery : QueueStats; mr_monitor : MonitorStatus }.
Definition controller_getStats : eff W MonitorReport :=
  eventStats ← on_delivery events_getStats;
  w ← gets id;
  mret (mkMonitorReport eventStats (consumers_getStats (delivery w)) (getDeliveryStats (delivery w)) (getStatus w)).

Definition controller_startMonitoring : eff W MonitorStatus := startMonitoring ;; gets getStatus.
Definition controller_stopMonitoring : eff W unit := stopMonitoring.
Definition controller_getMonitoringStatus : eff W MonitorStatus := gets getStatus.

(** A body may be missing, and so may any property of it. *)
Record SimulatePaymentBody := mkSimulatePaymentBody { sp_from : option string; sp_to : option string; sp_amount : option string; sp_assetType : option string }.
Record SimulateOfferBody := mkSimulateOfferBody { so_seller : option string; so_sellingAmount : option string; so_buyingAmount : option string }.
Definition controller_simulatePayment (body : option SimulatePaymentBody) : eff W StellarEvent :=
  simulatePaymentEvent (body ≫= sp_from) (body ≫= sp_to) (Some (or_string (body ≫= sp_amount) "100")) (Some (or_string (body ≫= sp_assetType) "native")).
Definition controller_simulateOffer (body : option SimulateOfferBody) : eff W StellarEvent :=
  simulateOfferEvent (body ≫= so_seller) (Some (or_string (body ≫= so_sellingAmount) "1000")) (Some (or_string (body ≫= so_buyingAmount) "50")).
End Controller.
