(* ===== verification/StellarMonitorFacts.v ===== *)
(** The streams of the Stellar monitor: how many are open, which are never closed, and what becomes of a payment. *)
From S2P Require Import Prelude Async Json JsonParse Repository StellarTypes StellarConsumers StellarEvents WebhookDelivery StellarMonitor.
Open Scope Z_scope.

Section Facts.
Context {DBE DBC H : Type} `{!EventTable DBE, !ConsumerTable DBC, !Horizon H, CLK : Clock, NET : Network, !Crypto, !FloatText}.
Local Abbreviation Monitor := (Monitor DBE DBC).
Local Abbreviation W := (Watch DBE DBC H).
Implicit Types (w : W).

(** What can happen to the monitor, one after the other. *)
Inductive watch_event :=
| Start | Stop
| PaymentMessage (payment : HorizonPaymentOperation) | OfferMessage (offer : HorizonManageOfferOperation)
| SimulatedPayment (from to amount assetType : option string) | SimulatedOffer (seller sellingAmount buyingAmount : option string)
| DeliveryTimer (k : nat)
| StreamError (k : StreamKind.t) | Restart (i : nat).
Definition on_event (e : watch_event) w : W :=
  match e with
  | Start => (startMonitoring w).2
  | Stop => (stopMonitoring w).2
  | PaymentMessage payment => (payment_onmessage payment w).2
  | OfferMessage offer => (offer_onmessage offer w).2
  | SimulatedPayment from to amount assetType => (simulatePaymentEvent from to amount assetType w).2
  | SimulatedOffer seller sellingAmount buyingAmount => (simulateOfferEvent seller sellingAmount buyingAmount w).2
  | DeliveryTimer k => (on_delivery (timerFires k) w).2
  | StreamError k => (stream_onerror k w).2
  | Restart i => (restart_fires i w).2
  end.
Definition on_events (es : list watch_event) w : W := foldl (λ w e, on_event e w) w es.
Definition no_error (e : watch_event) : bool := match e with StreamError _ | Restart _ => false | _ => true end.

(** ** What the operations do to the streams *)

Definition field (k : StreamKind.t) w : option nat := match k with StreamKind.PAYMENTS => paymentStream w | StreamKind.OFFERS => offerStream w end.
Definition streams w : list (nat * StreamKind.t) := open_streams (horizon w).
(** Everything but the tables, the ledger and the timers is as it was. *)
Definition same_streams w w' : Prop := horizon w' = horizon w ∧ (∀ k, field k w' = field k w) ∧ isMonitoring w' = isMonitoring w.
#[local] Instance same_streams_preorder : PreOrder same_streams.
Proof. split; [by intros w|]. intros w1 w2 w3 (Hh1 & F1 & M1) (Hh2 & F2 & M2). split; [congruence|]. split; [intros k; by rewrite F2|congruence]. Qed.

Lemma same_delivery {A} (m : eff Monitor A) w : same_streams w (on_delivery m w).2.
Proof. unfold on_delivery. by destruct (m (delivery w)). Qed.
Lemma same_event e w : match e with Start | Stop | Restart _ => False | _ => True end → same_streams w (on_event e w).
Proof.
  destruct e; intros He; try done; cbn [on_event]; try apply same_delivery.
  unfold offer_onmessage. destruct (_ || _); [apply same_delivery|done].
Qed.

(** What opens a stream of kind [k] in [w] and leaves [w']. *)
Definition opened (k : StreamKind.t) (n : nat) w w' : Prop :=
  n ∉ (streams w).*1 ∧ streams w' = streams w ++ [(n, k)] ∧ field k w' = Some n ∧ (∀ k', k' ≠ k → field k' w' = field k' w) ∧
  isMonitoring w' = isMonitoring w.
Lemma startStream_run `{!HorizonLaws H} k w : ∃ n w', startStream k w = (Return tt, w') ∧ opened k n w w'.
Proof.
  destruct (stream_open_returns k (horizon w)) as (n & h & Hopen & Hn & Hs).
  assert (on_horizon (stream_open k) w = (Return n, set_horizon h w)) as Hrun by (unfold on_horizon; by rewrite Hopen).
  unfold opened, streams. destruct k; cbn [startStream]; unfold startPaymentStream, startOfferStream; rewrite (bind_run _ _ _ _ _ Hrun);
    do 2 eexists; (split; [reflexivity|]); (split; [done|]); (split; [done|]); (split; [done|]); split; try done; by intros [].
Qed.
Lemma restart_run `{!HorizonLaws H} i k w : restarts w !! i = Some k → isMonitoring w = true → ∃ n, opened k n w (on_event (Restart i) w).
Proof.
  intros Hi Hm. cbn [on_event]. unfold restart_fires. rewrite (bind_run _ _ w w w) by done. cbv beta. rewrite Hi, Hm.
  set (w1 := set_restarts (delete i (restarts w)) w). rewrite (bind_run _ _ w tt w1) by done. destruct (startStream_run k w1) as (n & w' & -> & Ho).
  exists n. by destruct k.
Qed.
Lemma restart_idle i w : restarts w !! i = None ∨ isMonitoring w = false → same_streams w (on_event (Restart i) w).
Proof.
  intros Hw. cbn [on_event]. unfold restart_fires. rewrite (bind_run _ _ w w w) by done. cbv beta. destruct (restarts w !! i) as [k|]; [|done].
  destruct Hw as [?|Hm]; [done|]. by rewrite Hm.
Qed.

Lemma start_running w : isMonitoring w = true → on_event Start w = w.
Proof. intros Hm. cbn [on_event]. unfold startMonitoring, startMonitoring_task. rewrite run_piece. unfold claim_monitoring. rewrite (bind_run _ _ w w w) by done. by rewrite Hm. Qed.
(** The second piece of a start. *)
Lemma open_both_answered `{!HorizonLaws H} sequence later w : latest_ledgers (tick w) = Return (sequence :: later) →
  ∃ n m w1 w2 w', open_both w = (Return tt, w') ∧ same_streams w w1 ∧ opened StreamKind.PAYMENTS n w1 w2 ∧ opened StreamKind.OFFERS m w2 w'.
Proof.
  intros Hl. unfold open_both, try_catch. assert (fetch_ledger w = (Return sequence, advance w)) as Hf by (unfold fetch_ledger; by rewrite Hl).
  rewrite (bind_run _ _ _ _ _ Hf). set (w1 := set_lastLedgerSequence sequence (advance w)). rewrite (bind_run _ _ (advance w) tt w1) by done.
  destruct (startStream_run StreamKind.PAYMENTS w1) as (n & w2 & Hn & Hon). destruct (startStream_run StreamKind.OFFERS w2) as (m & w' & Hm & Hom).
  cbn [startStream] in *. rewrite (bind_run _ _ _ _ _ Hn), Hm. by exists n, m, w1, w2, w'.
Qed.
Lemma open_both_run `{!HorizonLaws H} w :
  (∃ e w', open_both w = (Throw e, w') ∧ same_streams (set_isMonitoring false w) w') ∨
  (∃ n m w1 w2 w', open_both w = (Return tt, w') ∧ same_streams w w1 ∧ opened StreamKind.PAYMENTS n w1 w2 ∧ opened StreamKind.OFFERS m w2 w').
Proof.
  destruct (latest_ledgers (tick w)) as [[|sequence later]|e] eqn:Hl; [left|right; by eapply open_both_answered|left];
    unfold open_both, try_catch, fetch_ledger, mbind, eff_bind; rewrite Hl; do 2 eexists; (split; [reflexivity|done]).
Qed.
Lemma claim_idle w : isMonitoring w = false → claim_monitoring w = (Return true, set_isMonitoring true w).
Proof. intros Hm. unfold claim_monitoring. rewrite (bind_run _ _ w w w) by done. cbv beta. by rewrite Hm. Qed.
Lemma start_idle w : isMonitoring w = false → on_event Start w = (open_both (set_isMonitoring true w)).2.
Proof.
  intros Hm. cbn [on_event]. unfold startMonitoring, startMonitoring_task. by rewrite run_piece, (claim_idle w Hm), run_atomic.
Qed.

(** A stop closes the streams that the fields name. *)
Definition not_named (o : option nat) (l : list (nat * StreamKind.t)) : list (nat * StreamKind.t) := filter (λ s, Some s.1 ≠ o) l.
Lemma not_named_none l : not_named None l = l.
Proof. unfold not_named. induction l as [|s l IH]; [done|]. rewrite filter_cons, IH. by rewrite decide_True. Qed.
Lemma close_field_run `{!HorizonLaws H} o clear w : ∃ h, open_streams h = not_named o (streams w) ∧
  close_field o clear w = (Return tt, match o with Some _ => clear (set_horizon h w) | None => w end).
Proof.
  destruct o as [n|].
  - destruct (stream_close_returns n (horizon w)) as (h & Hclose & Hs). exists h. split.
    + rewrite Hs. apply list_filter_iff. intros s. naive_solver.
    + cbn [close_field]. assert (on_horizon (stream_close n) w = (Return tt, set_horizon h w)) as Hrun by (unfold on_horizon; by rewrite Hclose).
      by rewrite (bind_run _ _ _ _ _ Hrun).
  - exists (horizon w). by rewrite not_named_none.
Qed.
Definition stopped w w' : Prop := isMonitoring w' = false ∧ (∀ k, field k w' = None) ∧ streams w' = not_named (offerStream w) (not_named (paymentStream w) (streams w)).
Lemma stop_run `{!HorizonLaws H} w : isMonitoring w = true → ∃ w', stopMonitoring w = (Return tt, w') ∧ stopped w w'.
Proof.
  intros Hm. unfold stopMonitoring. rewrite (bind_run _ _ w w w) by done. cbv beta. rewrite Hm. cbn [negb]. unfold try_catch, stopped.
  destruct (close_field_run (paymentStream w) (set_paymentStream None) w) as (h1 & Hs1 & Hrun1).
  set (w1 := match paymentStream w with Some _ => _ | None => w end) in Hrun1.
  assert (streams w1 = not_named (paymentStream w) (streams w) ∧ paymentStream w1 = None ∧ offerStream w1 = offerStream w) as (Hw1 & Hp1 & Ho1)
    by (unfold w1; destruct (paymentStream w) eqn:Hp; [done|by rewrite not_named_none]).
  rewrite (bind_run _ _ _ _ _ Hrun1).
  destruct (close_field_run (offerStream w) (set_offerStream None) w1) as (h2 & Hs2 & Hrun2).
  set (w2 := match offerStream w with Some _ => _ | None => w1 end) in Hrun2. rewrite (bind_run _ _ _ _ _ Hrun2).
  assert (streams w2 = not_named (offerStream w) (streams w1) ∧ paymentStream w2 = None ∧ offerStream w2 = None) as (Hw2 & Hp2 & Ho2)
    by (unfold w2; destruct (offerStream w) eqn:Ho; [done|by rewrite not_named_none]).
  eexists. split; [reflexivity|]. split; [done|]. split; [by intros []|]. by rewrite <-Hw1.
Qed.
Lemma stop_idle w : isMonitoring w = false → stopMonitoring w = (Return tt, w).
Proof. intros Hm. unfold stopMonitoring. rewrite (bind_run _ _ w w w) by done. by rewrite Hm. Qed.

(** ** The invariant *)

(** While the monitor is off no field names a stream; while it is on both do, and the streams are open. *)
Definition watch_ok w : Prop :=
  (isMonitoring w = false → ∀ k, field k w = None) ∧
  (isMonitoring w = true → ∀ k, ∃ n, field k w = Some n ∧ (n, k) ∈ streams w) ∧
  NoDup (streams w).*1.
(** No other streams are open. *)
Definition once w : Prop :=
  if isMonitoring w
  then ∃ n m, field StreamKind.PAYMENTS w = Some n ∧ field StreamKind.OFFERS w = Some m ∧ streams w = [(n, StreamKind.PAYMENTS); (m, StreamKind.OFFERS)]
  else streams w = [].

Lemma same_ok w w' : same_streams w w' → watch_ok w → watch_ok w'.
Proof.
  intros (Hh & Hf & Hm) (Hoff & Hon & Hnd). unfold watch_ok, streams in *. rewrite Hh, Hm. split; [|split; [|done]].
  - intros Hoff' k. rewrite Hf. by apply Hoff.
  - intros Hon' k. rewrite Hf. by apply Hon.
Qed.
Lemma same_once w w' : same_streams w w' → once w → once w'.
Proof. intros (Hh & Hf & Hm) Hw. unfold once, streams in *. by rewrite Hh, Hm, !Hf. Qed.
Lemma opened_nodup k n w w' : opened k n w w' → NoDup (streams w).*1 → NoDup (streams w').*1.
Proof.
  intros (Hn & -> & _) Hnd. rewrite fmap_app. apply NoDup_app. split; [done|]. split; [|apply NoDup_singleton].
  intros x Hx Hx'. apply list_elem_of_singleton in Hx' as ->. by apply Hn.
Qed.
(** After both were opened. *)
Lemma both_opened n m w1 w2 w' : opened StreamKind.PAYMENTS n w1 w2 → opened StreamKind.OFFERS m w2 w' →
  streams w' = streams w1 ++ [(n, StreamKind.PAYMENTS); (m, StreamKind.OFFERS)] ∧ isMonitoring w' = isMonitoring w1 ∧
  field StreamKind.PAYMENTS w' = Some n ∧ field StreamKind.OFFERS w' = Some m.
Proof.
  intros (_ & Hs2 & Hf2 & _ & Hm2) (_ & Hs' & Hf' & Ho' & Hm'). split; [by rewrite Hs', Hs2, <-app_assoc|]. split; [congruence|].
  split; [|done]. by rewrite Ho'.
Qed.

Lemma ok_event `{!HorizonLaws H} e w : watch_ok w → watch_ok (on_event e w).
Proof.
  intros Hw. pose proof Hw as (Hoff & Hon & Hnd). destruct e; try by (eapply same_ok; [|exact Hw]; by apply same_event).
  - destruct (isMonitoring w) eqn:Hm; [by rewrite start_running|]. rewrite start_idle by done.
    destruct (open_both_run (set_isMonitoring true w)) as [(e & w' & -> & Hs)|(n & m & w1 & w2 & w' & -> & Hs & Hn & Hom)]; cbn [snd].
    { eapply same_ok; [exact Hs|]. split; [intros _ k; by apply (Hoff eq_refl)|done]. }
    destruct (both_opened _ _ _ _ _ Hn Hom) as (Hst & Hmon & Hfn & Hfm). destruct Hs as (Hh & _ & Hm1).
    split; [rewrite Hmon, Hm1; done|]. split.
    + intros _ k. rewrite Hst. destruct k; [exists n|exists m]; (split; [done|]); apply elem_of_app; right; [left|right; left].
    + eapply opened_nodup; [exact Hom|]. eapply opened_nodup; [exact Hn|]. unfold streams. by rewrite Hh.
  - cbn [on_event]. destruct (isMonitoring w) eqn:Hm; [|by rewrite stop_idle]. destruct (stop_run w Hm) as (w' & -> & Hmon & Hf & Hs). cbn [snd].
    split; [done|]. split; [by rewrite Hmon|]. rewrite Hs. unfold not_named.
    eapply sublist_NoDup; [exact Hnd|]. apply fmap_sublist. etrans; apply sublist_filter.
  - destruct (restarts w !! i) as [k|] eqn:Hi; [|eapply same_ok; [|exact Hw]; apply restart_idle; by left].
    destruct (isMonitoring w) eqn:Hm; [|eapply same_ok; [|exact Hw]; apply restart_idle; by right].
    destruct (restart_run i k w Hi Hm) as (n & Ho). pose proof (opened_nodup _ _ _ _ Ho Hnd) as Hnd'. destruct Ho as (_ & Hs & Hf & Hfo & Hmon).
    split; [by rewrite Hmon, Hm|]. split; [|done]. intros _ k'. rewrite Hs. destruct (decide (k' = k)) as [->|Hne].
    + exists n. split; [done|]. apply elem_of_app. right. left.
    + rewrite Hfo by done. destruct (Hon eq_refl k') as (n' & ? & ?). exists n'. split; [done|]. apply elem_of_app. by left.
Qed.
Lemma named_both n m k k' : not_named (Some m) (not_named (Some n) [(n, k); (m, k')]) = [].
Proof.
  unfold not_named. rewrite list_filter_filter, !filter_cons, filter_nil. cbn [fst].
  rewrite (decide_False (P := _ ∧ _)) by naive_solver. by rewrite decide_False by naive_solver.
Qed.
Lemma once_event `{!HorizonLaws H} e w : no_error e = true → watch_ok w → once w → once (on_event e w).
Proof.
  intros He Hw Ho. pose proof Hw as (Hoff & _ & _). destruct e; try done; try by (eapply same_once; [|exact Ho]; by apply same_event).
  - destruct (isMonitoring w) eqn:Hm; [by rewrite start_running|]. rewrite start_idle by done.
    assert (streams w = []) as Hnil by (unfold once in Ho; by rewrite Hm in Ho).
    destruct (open_both_run (set_isMonitoring true w)) as [(e & w' & -> & Hs)|(n & m & w1 & w2 & w' & -> & (Hh & _ & Hm1) & Hn & Hom)]; cbn [snd].
    { by eapply same_once; [exact Hs|]. }
    destruct (both_opened _ _ _ _ _ Hn Hom) as (Hst & Hmon & Hfn & Hfm). unfold once. rewrite Hmon, Hm1. cbn. exists n, m.
    split; [done|]. split; [done|]. rewrite Hst. unfold streams in *. by rewrite Hh; cbn; rewrite Hnil.
  - cbn [on_event]. destruct (isMonitoring w) eqn:Hm; [|by rewrite stop_idle]. unfold once in *. rewrite Hm in Ho.
    destruct Ho as (n & m & Hn & Hom & Hst). destruct (stop_run w Hm) as (w' & -> & Hmon & _ & Hs). cbn [snd field] in *.
    rewrite Hmon, Hs, Hst, Hn, Hom. apply named_both.
Qed.

Lemma ok_events `{!HorizonLaws H} es w : watch_ok w → watch_ok (on_events es w).
Proof. revert w. induction es as [|e es IH]; intros w Hw; [done|]. apply IH. by apply ok_event. Qed.

(** ** A stream that no field names *)

Definition lost (n : nat) (k : StreamKind.t) w : Prop := (n, k) ∈ streams w ∧ ∀ k', field k' w ≠ Some n.
Lemma same_lost n k w w' : same_streams w w' → lost n k w → lost n k w'.
Proof. intros (Hh & Hf & _) [Hin Hno]. unfold lost, streams in *. rewrite Hh. split; [done|]. intros k'. rewrite Hf. apply Hno. Qed.
Lemma opened_lost n k n' k' w w' : opened k' n' w w' → lost n k w → lost n k w'.
Proof.
  intros (Hn' & Hs & Hf & Hfo & _) [Hin Hno]. split; [rewrite Hs; apply elem_of_app; by left|]. intros k''.
  destruct (decide (k'' = k')) as [->|Hne]; [|by rewrite Hfo]. rewrite Hf. intros [= ->]. apply Hn', list_elem_of_fmap. by exists (n, k).
Qed.
Lemma lost_event `{!HorizonLaws H} n k e w : lost n k w → lost n k (on_event e w).
Proof.
  intros Hl. destruct e; try by (eapply same_lost; [|exact Hl]; by apply same_event).
  - destruct (isMonitoring w) eqn:Hm; [by rewrite start_running|]. rewrite start_idle by done.
    destruct (open_both_run (set_isMonitoring true w)) as [(e & w' & -> & Hs)|(n' & m & w1 & w2 & w' & -> & Hs & Hn & Hom)]; cbn [snd].
    { by eapply same_lost; [exact Hs|]. }
    eapply opened_lost; [exact Hom|]. eapply opened_lost; [exact Hn|]. by eapply same_lost; [exact Hs|].
  - cbn [on_event]. destruct (isMonitoring w) eqn:Hm; [|by rewrite stop_idle]. destruct (stop_run w Hm) as (w' & -> & _ & Hf & Hs). cbn [snd].
    destruct Hl as [Hin Hno]. split; [|intros k'; by rewrite Hf]. rewrite Hs. unfold not_named. rewrite !list_elem_of_filter. cbn [fst].
    split; [|split; [|done]]; intros Heq; [by apply (Hno StreamKind.OFFERS)|by apply (Hno StreamKind.PAYMENTS)].
  - destruct (restarts w !! i) as [k'|] eqn:Hi; [|eapply same_lost; [|exact Hl]; apply restart_idle; by left].
    destruct (isMonitoring w) eqn:Hm; [|eapply same_lost; [|exact Hl]; apply restart_idle; by right].
    destruct (restart_run i k' w Hi Hm) as (n' & Ho). by eapply opened_lost.
Qed.
Lemma lost_events `{!HorizonLaws H} n k es w : lost n k w → lost n k (on_events es w).
Proof. revert w. induction es as [|e es IH]; intros w Hw; [done|]. apply IH. by apply lost_event. Qed.

Lemma nodup_kind n k k' w : watch_ok w → (n, k) ∈ streams w → (n, k') ∈ streams w → k = k'.
Proof.
  intros (_ & _ & Hnd) Hk Hk'. apply list_elem_of_lookup in Hk as [i Hi], Hk' as [j Hj].
  assert (i = j) as <- by (eapply (NoDup_lookup _ i j n Hnd); rewrite list_lookup_fmap; [by rewrite Hi|by rewrite Hj]).
  rewrite Hi in Hj. by injection Hj.
Qed.
End Facts.

(** C35: requests, messages and timers one after the other, from a monitor that is off.  While it is off its
    fields name no stream, and while it is on they name an open one of each kind; as long as no stream
    reports an error these are the only open streams, and none is while it is off. *)
Theorem monitor_watches_once {DBE DBC H : Type} `{!EventTable DBE, !ConsumerTable DBC, !Horizon H, !HorizonLaws H, CLK : Clock, NET : Network, !Crypto, !FloatText}
    (w : Watch DBE DBC H) es :
  isMonitoring w = false → (∀ k, field k w = None) → streams w = [] →
  watch_ok (on_events es w) ∧ (forallb no_error es = true → once (on_events es w)).
Proof.
  intros Hm Hf Hs. assert (watch_ok w) as Hw by (split; [done|split; [by rewrite Hm|rewrite Hs; apply NoDup_nil_2]]).
  assert (once w) as Ho by (unfold once; by rewrite Hm). clear Hm Hf Hs. split; [by apply ok_events|].
  revert w Hw Ho. induction es as [|e es IH]; intros w Hw Ho Hes; [done|]. cbn in Hes. apply andb_prop in Hes as [He Hes].
  apply IH; [by apply ok_event|by apply once_event|done].
Qed.

(** a restart forgets a stream.  When the timer of an error fires while the monitor is on, a new stream
    is opened in the place of the one that reported the error, which is still open and stays open whatever
    comes later, stopping the monitor included. *)
Theorem restarted_stream_stays_open {DBE DBC H : Type} `{!EventTable DBE, !ConsumerTable DBC, !Horizon H, !HorizonLaws H, CLK : Clock, NET : Network, !Crypto, !FloatText}
    (w : Watch DBE DBC H) i k :
  watch_ok w → isMonitoring w = true → restarts w !! i = Some k → ∃ n n',
  field k w = Some n ∧ field k (on_event (Restart i) w) = Some n' ∧ n' ≠ n ∧
  ∀ es, (n, k) ∈ streams (on_events es (on_event (Restart i) w)).
Proof.
  intros Hw Hm Hi. pose proof Hw as (_ & Hon & _). destruct (Hon Hm k) as (n & Hn & Hin). destruct (restart_run i k w Hi Hm) as (n' & Ho).
  assert (lost n k (on_event (Restart i) w)) as Hl.
  { destruct Ho as (Hn' & Hs & Hf & Hfo & _). split; [rewrite Hs; apply elem_of_app; by left|]. intros k'.
    destruct (decide (k' = k)) as [->|Hne].
    - rewrite Hf. intros [= ->]. apply Hn', list_elem_of_fmap. by exists (n, k).
    - rewrite Hfo by done. intros Heq. destruct (Hon Hm k') as (m & Hm' & Hin'). rewrite Heq in Hm'. injection Hm' as <-.
      by apply Hne, (nodup_kind n k' k w). }
  exists n, n'. split; [done|]. destruct Ho as (Hn' & _ & Hf & _). split; [done|]. split.
  - intros ->. apply Hn', list_elem_of_fmap. by exists (n, k).
  - intros es. by apply lost_events.
Qed.

(** a stop that comes between the two pieces of a start finds nothing to close; the start then opens
    both streams of a monitor that is off, and no later stop closes them. *)
Theorem stop_during_start {DBE DBC H : Type} `{!EventTable DBE, !ConsumerTable DBC, !Horizon H, !HorizonLaws H, CLK : Clock, NET : Network, !Crypto, !FloatText}
    (w : Watch DBE DBC H) sequence later :
  isMonitoring w = false → (∀ k, field k w = None) → latest_ledgers (tick w) = Return (sequence :: later) → ∃ w' n m,
  rtc pool_step ([startMonitoring_task; atomic stopMonitoring], w) ([Done (Return tt); Done (Return tt)], w') ∧
  isMonitoring w' = false ∧ streams w' = streams w ++ [(n, StreamKind.PAYMENTS); (m, StreamKind.OFFERS)] ∧
  stopMonitoring w' = (Return tt, w').
Proof.
  intros Hm Hf Hl. set (w1 := set_isMonitoring true w). set (w2 := set_isMonitoring false w1).
  assert (stopMonitoring w1 = (Return tt, w2)) as Hstop.
  { unfold stopMonitoring. rewrite (bind_run _ _ w1 w1 w1) by done. cbv beta.
    assert (paymentStream w1 = None ∧ offerStream w1 = None) as [-> ->] by (split; [apply (Hf StreamKind.PAYMENTS)|apply (Hf StreamKind.OFFERS)]). done. }
  destruct (open_both_answered sequence later w2 Hl) as (n & m & w3 & w4 & w' & Hrun & (Hh & _ & Hm3) & Hn & Hom).
  destruct (both_opened _ _ _ _ _ Hn Hom) as (Hs & Hmon & _ & _). exists w', n, m.
  assert (isMonitoring w' = false) as Hoff by (by rewrite Hmon, Hm3).
  split; [|split; [done|split; [rewrite Hs; unfold streams; by rewrite Hh|by apply stop_idle]]].
  eapply rtc_l; [eapply (pool_resume 0); [reflexivity|]; cbn [resume startMonitoring_task mbind task_mbind task_bind atomic]; by rewrite (claim_idle w Hm)|].
  eapply rtc_l; [eapply (pool_resume 1); [reflexivity|]; cbn [resume atomic]; fold w1; by rewrite Hstop|].
  eapply rtc_l; [eapply (pool_resume 0); [reflexivity|]; cbn [resume atomic task_bind]; by rewrite Hrun|]. done.
Qed.

(** ** What becomes of a payment *)

Section Payments.
Context {DBE DBC : Type} `{!EventTable DBE, !ConsumerTable DBC, CLK : Clock, NET : Network, !Crypto}.
Local Abbreviation Monitor := (Monitor DBE DBC).

(** A message without its transaction, or without a time, is dropped. *)
Lemma payment_dropped payment (w : Monitor) : pay_transaction_attr payment = None ∨ horizon_time (pay_created_at payment) = None →
  handlePaymentEvent payment w = (Return tt, advance w).
Proof.
  intros Hp. unfold handlePaymentEvent, try_catch. rewrite (bind_run _ _ w (uuid_at (mticks w)) (advance w)) by done. unfold transaction_of.
  destruct (pay_transaction_attr payment) as [attr|]; [|done]. rewrite bind_mret. unfold time_of. destruct Hp as [?|Hp]; [done|]. by rewrite Hp.
Qed.
End Payments.
