(* ===== verification/AuthTypes.v ===== *)
(** The entities of the authentication module ([auth/entities]) and the audit log
    ([audit/audit.entity.ts]), their tables, the cryptography the services call, and the world
    they share. *)
From S2P Require Import Prelude Json Repository.

(** A row of [login_nonces]. *)
Record LoginNonce := mkLoginNonce {
  ln_id : string;
  ln_nonce : string;
  ln_publicKey : string;
  ln_expiresAt : Z;
  ln_used : bool;
  ln_createdAt : Z;
}.

Definition set_ln_used (v : bool) (n : LoginNonce) : LoginNonce := {|
  ln_id := ln_id n; ln_nonce := ln_nonce n; ln_publicKey := ln_publicKey n; ln_expiresAt :=
  ln_expiresAt n; ln_used := v; ln_createdAt := ln_createdAt n |}.
Definition set_ln_createdAt (v : Z) (n : LoginNonce) : LoginNonce := {|
  ln_id := ln_id n; ln_nonce := ln_nonce n; ln_publicKey := ln_publicKey n; ln_expiresAt :=
  ln_expiresAt n; ln_used := ln_used n; ln_createdAt := v |}.

(** A row of [users]. *)
Record User := mkUser {
  us_id : string;
  us_email : option string;
  us_username : option string;
  us_createdAt : Z;
  us_updatedAt : Z;
  us_isActive : bool;
}.

Definition set_us_email (v : option string) (u : User) : User := {|
  us_id := us_id u; us_email := v; us_username := us_username u; us_createdAt := us_createdAt u;
  us_updatedAt := us_updatedAt u; us_isActive := us_isActive u |}.
Definition set_us_username (v : option string) (u : User) : User := {|
  us_id := us_id u; us_email := us_email u; us_username := v; us_createdAt := us_createdAt u;
  us_updatedAt := us_updatedAt u; us_isActive := us_isActive u |}.
Definition set_us_createdAt (v : Z) (u : User) : User := {|
  us_id := us_id u; us_email := us_email u; us_username := us_username u; us_createdAt := v;
  us_updatedAt := us_updatedAt u; us_isActive := us_isActive u |}.
Definition set_us_updatedAt (v : Z) (u : User) : User := {|
  us_id := us_id u; us_email := us_email u; us_username := us_username u; us_createdAt :=
  us_createdAt u; us_updatedAt := v; us_isActive := us_isActive u |}.

(** A row of [wallet_bindings]. *)
Record WalletBinding := mkWalletBinding {
  wb_id : string;
  wb_publicKey : string;
  wb_userId : string;
  wb_boundAt : Z;
  wb_isPrimary : bool;
  wb_lastUsed : option Z;
}.

Definition set_wb_boundAt (v : Z) (b : WalletBinding) : WalletBinding := {|
  wb_id := wb_id b; wb_publicKey := wb_publicKey b; wb_userId := wb_userId b; wb_boundAt := v;
  wb_isPrimary := wb_isPrimary b; wb_lastUsed := wb_lastUsed b |}.
Definition set_wb_isPrimary (v : bool) (b : WalletBinding) : WalletBinding := {|
  wb_id := wb_id b; wb_publicKey := wb_publicKey b; wb_userId := wb_userId b; wb_boundAt :=
  wb_boundAt b; wb_isPrimary := v; wb_lastUsed := wb_lastUsed b |}.
Definition set_wb_lastUsed (v : option Z) (b : WalletBinding) : WalletBinding := {|
  wb_id := wb_id b; wb_publicKey := wb_publicKey b; wb_userId := wb_userId b; wb_boundAt :=
  wb_boundAt b; wb_isPrimary := wb_isPrimary b; wb_lastUsed := v |}.

(** A row of [refresh_tokens]. *)
Record RefreshToken := mkRefreshToken {
  rt_id : string;
  rt_token : string;
  rt_userId : string;
  rt_expiresAt : Z;
  rt_revoked : bool;
  rt_revokedAt : option Z;
  rt_createdAt : Z;
}.

Definition set_rt_revoked (v : bool) (r : RefreshToken) : RefreshToken := {|
  rt_id := rt_id r; rt_token := rt_token r; rt_userId := rt_userId r; rt_expiresAt :=
  rt_expiresAt r; rt_revoked := v; rt_revokedAt := rt_revokedAt r; rt_createdAt := rt_createdAt
  r |}.
Definition set_rt_revokedAt (v : option Z) (r : RefreshToken) : RefreshToken := {|
  rt_id := rt_id r; rt_token := rt_token r; rt_userId := rt_userId r; rt_expiresAt :=
  rt_expiresAt r; rt_revoked := rt_revoked r; rt_revokedAt := v; rt_createdAt := rt_createdAt r |}.
Definition set_rt_createdAt (v : Z) (r : RefreshToken) : RefreshToken := {|
  rt_id := rt_id r; rt_token := rt_token r; rt_userId := rt_userId r; rt_expiresAt :=
  rt_expiresAt r; rt_revoked := rt_revoked r; rt_revokedAt := rt_revokedAt r; rt_createdAt := v |}.

(** A row of [api_tokens]. *)
Record ApiToken := mkApiToken {
  at_id : string;
  at_token : string;  (* a bcrypt hash *)
  at_name : string;
  at_role : string;
  at_userId : string;
  at_expiresAt : option Z;
  at_revoked : bool;
  at_lastUsedAt : option Z;
  at_createdAt : Z;
}.

Definition set_at_expiresAt (v : option Z) (a : ApiToken) : ApiToken := {|
  at_id := at_id a; at_token := at_token a; at_name := at_name a; at_role := at_role a;
  at_userId := at_userId a; at_expiresAt := v; at_revoked := at_revoked a; at_lastUsedAt :=
  at_lastUsedAt a; at_createdAt := at_createdAt a |}.
Definition set_at_revoked (v : bool) (a : ApiToken) : ApiToken := {|
  at_id := at_id a; at_token := at_token a; at_name := at_name a; at_role := at_role a;
  at_userId := at_userId a; at_expiresAt := at_expiresAt a; at_revoked := v; at_lastUsedAt :=
  at_lastUsedAt a; at_createdAt := at_createdAt a |}.
Definition set_at_lastUsedAt (v : option Z) (a : ApiToken) : ApiToken := {|
  at_id := at_id a; at_token := at_token a; at_name := at_name a; at_role := at_role a;
  at_userId := at_userId a; at_expiresAt := at_expiresAt a; at_revoked := at_revoked a;
  at_lastUsedAt := v; at_createdAt := at_createdAt a |}.
Definition set_at_createdAt (v : Z) (a : ApiToken) : ApiToken := {|
  at_id := at_id a; at_token := at_token a; at_name := at_name a; at_role := at_role a;
  at_userId := at_userId a; at_expiresAt := at_expiresAt a; at_revoked := at_revoked a;
  at_lastUsedAt := at_lastUsedAt a; at_createdAt := v |}.

(** A row of [audit_logs]. *)
Record AuditLog := mkAuditLog {
  al_id : string;
  al_action_type : string;
  al_actor_id : string;
  al_entity_id : option string;
  al_metadata : option jsobj;
  al_timestamp : Z;
}.

Definition set_al_entity_id (v : option string) (l : AuditLog) : AuditLog := {|
  al_id := al_id l; al_action_type := al_action_type l; al_actor_id := al_actor_id l;
  al_entity_id := v; al_metadata := al_metadata l; al_timestamp := al_timestamp l |}.
Definition set_al_metadata (v : option jsobj) (l : AuditLog) : AuditLog := {|
  al_id := al_id l; al_action_type := al_action_type l; al_actor_id := al_actor_id l;
  al_entity_id := al_entity_id l; al_metadata := v; al_timestamp := al_timestamp l |}.
Definition set_al_timestamp (v : Z) (l : AuditLog) : AuditLog := {|
  al_id := al_id l; al_action_type := al_action_type l; al_actor_id := al_actor_id l;
  al_entity_id := al_entity_id l; al_metadata := al_metadata l; al_timestamp := v |}.

(** ** The tables

    The creation time of a row is stamped when it is inserted and kept afterwards. *)
Definition created_at {E} (column : E → Z) (t : Z) (o : option E) : Z :=
  match o with Some r => column r | None => t end.

Definition merge_nonce (t : Z) (o : option LoginNonce) n : LoginNonce :=
  set_ln_createdAt (created_at ln_createdAt t o) n.
Definition merge_user (created updated : Z) (o : option User) u : User :=
  u |> set_us_email (merge_column (o ≫= us_email) (us_email u))
    |> set_us_username (merge_column (o ≫= us_username) (us_username u))
    |> set_us_createdAt created
    |> set_us_updatedAt updated.
Definition merge_binding (t : Z) (o : option WalletBinding) b : WalletBinding :=
  b |> set_wb_lastUsed (merge_column (o ≫= wb_lastUsed) (wb_lastUsed b))
    |> set_wb_boundAt (created_at wb_boundAt t o).
Definition merge_refresh (t : Z) (o : option RefreshToken) r : RefreshToken :=
  r |> set_rt_revokedAt (merge_column (o ≫= rt_revokedAt) (rt_revokedAt r))
    |> set_rt_createdAt (created_at rt_createdAt t o).
Definition merge_api (t : Z) (o : option ApiToken) a : ApiToken :=
  a |> set_at_expiresAt (merge_column (o ≫= at_expiresAt) (at_expiresAt a))
    |> set_at_lastUsedAt (merge_column (o ≫= at_lastUsedAt) (at_lastUsedAt a))
    |> set_at_createdAt (created_at at_createdAt t o).
Definition merge_log (t : Z) (o : option AuditLog) l : AuditLog :=
  l |> set_al_entity_id (merge_column (o ≫= al_entity_id) (al_entity_id l))
    |> set_al_metadata (merge_column (o ≫= al_metadata) (al_metadata l))
    |> set_al_timestamp (created_at al_timestamp t o).

Class NonceTable (DB : Type) := {
  nonce_repo :: Repository DB LoginNonce;
  nonce_laws :: RepositoryLaws DB LoginNonce;
  nonce_row_id e : row_id e = ln_id e;
  nonce_written t o e : written t o e = merge_nonce t o e;
}.
Definition mem_nonce_table : NonceTable (gmap string LoginNonce) := {|
  nonce_repo := mem_repository ln_id merge_nonce;
  nonce_laws := mem_repository_laws ln_id merge_nonce (λ _ _ _, eq_refl);
  nonce_row_id _ := eq_refl;
  nonce_written _ _ _ := eq_refl;
|}.

Class UserTable (DB : Type) := {
  user_repo :: Repository DB User;
  user_laws :: RepositoryLaws DB User;
  user_row_id e : row_id e = us_id e;
  user_written t o e : ∃ u, written t o e = merge_user (created_at us_createdAt t o) u o e;
}.
Definition mem_user_written (t : Z) (o : option User) (e : User) : User :=
  merge_user (created_at us_createdAt t o) t o e.
Definition mem_user_table : UserTable (gmap string User) := {|
  user_repo := mem_repository us_id mem_user_written;
  user_laws := mem_repository_laws us_id mem_user_written (λ _ _ _, eq_refl);
  user_row_id _ := eq_refl;
  user_written t _ _ := ex_intro _ t eq_refl;
|}.

Class BindingTable (DB : Type) := {
  binding_repo :: Repository DB WalletBinding;
  binding_laws :: RepositoryLaws DB WalletBinding;
  binding_row_id e : row_id e = wb_id e;
  binding_written t o e : written t o e = merge_binding t o e;
}.
Definition mem_binding_table : BindingTable (gmap string WalletBinding) := {|
  binding_repo := mem_repository wb_id merge_binding;
  binding_laws := mem_repository_laws wb_id merge_binding (λ _ _ _, eq_refl);
  binding_row_id _ := eq_refl;
  binding_written _ _ _ := eq_refl;
|}.

Class RefreshTable (DB : Type) := {
  refresh_repo :: Repository DB RefreshToken;
  refresh_laws :: RepositoryLaws DB RefreshToken;
  refresh_row_id e : row_id e = rt_id e;
  refresh_written t o e : written t o e = merge_refresh t o e;
}.
Definition mem_refresh_table : RefreshTable (gmap string RefreshToken) := {|
  refresh_repo := mem_repository rt_id merge_refresh;
  refresh_laws := mem_repository_laws rt_id merge_refresh (λ _ _ _, eq_refl);
  refresh_row_id _ := eq_refl;
  refresh_written _ _ _ := eq_refl;
|}.

Class ApiTable (DB : Type) := {
  api_repo :: Repository DB ApiToken;
  api_laws :: RepositoryLaws DB ApiToken;
  api_row_id e : row_id e = at_id e;
  api_written t o e : written t o e = merge_api t o e;
}.
Definition mem_api_table : ApiTable (gmap string ApiToken) := {|
  api_repo := mem_repository at_id merge_api;
  api_laws := mem_repository_laws at_id merge_api (λ _ _ _, eq_refl);
  api_row_id _ := eq_refl;
  api_written _ _ _ := eq_refl;
|}.

Class LogTable (DB : Type) := {
  log_repo :: Repository DB AuditLog;
  log_laws :: RepositoryLaws DB AuditLog;
  log_row_id e : row_id e = al_id e;
  log_written t o e : written t o e = merge_log t o e;
}.
Definition mem_log_table : LogTable (gmap string AuditLog) := {|
  log_repo := mem_repository al_id merge_log;
  log_laws := mem_repository_laws al_id merge_log (λ _ _ _, eq_refl);
  log_row_id _ := eq_refl;
  log_written _ _ _ := eq_refl;
|}.

(** ** Cryptography and settings *)

(** [StrKey.decodeEd25519PublicKey], [Buffer.from] and [nacl.sign.detached.verify]; decoding and
    verifying throw on keys and signatures of the wrong form. *)
Class Signatures := {
  bytes : Type;
  decodeEd25519PublicKey : string → outcome bytes;
  from_base64 : string → bytes;
  from_utf8 : string → bytes;
  verify_detached : bytes → bytes → bytes → outcome bool;   (* message, signature, public key *)
}.

(** The payload of an access token. *)
Record JwtPayload := mkJwtPayload { jp_sub : string; jp_walletId : option string }.

(** [@nestjs/jwt] with the secret of the module: a token signed at a time, with a lifetime in the
    notation of the library, and what it says when it is verified at another time. *)
Class Jwt := {
  jwt_sign : Z → JwtPayload → string → string;
  jwt_verify : Z → string → outcome JwtPayload;
}.

(** A token that was signed at [t] for [life] is good for [lifetime life] milliseconds. *)
Class JwtLaws `{!Jwt} := {
  lifetime : string → Z;
  verify_sign t t' p life : (t ≤ t' < t + lifetime life)%Z → jwt_verify t' (jwt_sign t p life) = Return p;
}.

(** [bcrypt.hash], with the [n]-th salt drawn and a number of rounds, and [bcrypt.compare]. *)
Class Bcrypt := {
  bcrypt_hash : nat → string → Z → string;
  bcrypt_compare : string → string → bool;
}.
Class BcryptLaws `{!Bcrypt} := compare_hash n s rounds : bcrypt_compare s (bcrypt_hash n s rounds) = true.

(** The environment: [ConfigService.get] hands out the text of a variable.  The number of days
    is given by its decimal digits. *)
Class AuthConfig := {
  JWT_ACCESS_EXPIRATION : option string;
  API_TOKEN_DEFAULT_EXPIRY_DAYS : option (list Z);
}.

(** ** The world of the authentication services *)

Record AuthWorld (DBN DBU DBB DBR DBA DBL : Type) := mkAuthWorld {
  nonces : DBN;
  users : DBU;
  bindings : DBB;
  refreshTokens : DBR;
  apiTokens : DBA;
  auditLogs : DBL;
  aticks : nat;
}.

Arguments nonces {_ _ _ _ _ _} _.
Arguments users {_ _ _ _ _ _} _.
Arguments bindings {_ _ _ _ _ _} _.
Arguments refreshTokens {_ _ _ _ _ _} _.
Arguments apiTokens {_ _ _ _ _ _} _.
Arguments auditLogs {_ _ _ _ _ _} _.
Arguments aticks {_ _ _ _ _ _} _.
Arguments mkAuthWorld {_ _ _ _ _ _} _ _ _ _ _ _ _.

Section AuthWorld.
Context {DBN DBU DBB DBR DBA DBL : Type}.
Local Abbreviation W := (AuthWorld DBN DBU DBB DBR DBA DBL).
Implicit Types (w : W).

Definition set_nonces (v : DBN) w : W :=
  mkAuthWorld v (users w) (bindings w) (refreshTokens w) (apiTokens w) (auditLogs w) (aticks w).
Definition set_users (v : DBU) w : W :=
  mkAuthWorld (nonces w) v (bindings w) (refreshTokens w) (apiTokens w) (auditLogs w) (aticks w).
Definition set_bindings (v : DBB) w : W :=
  mkAuthWorld (nonces w) (users w) v (refreshTokens w) (apiTokens w) (auditLogs w) (aticks w).
Definition set_refreshTokens (v : DBR) w : W :=
  mkAuthWorld (nonces w) (users w) (bindings w) v (apiTokens w) (auditLogs w) (aticks w).
Definition set_apiTokens (v : DBA) w : W :=
  mkAuthWorld (nonces w) (users w) (bindings w) (refreshTokens w) v (auditLogs w) (aticks w).
Definition set_auditLogs (v : DBL) w : W :=
  mkAuthWorld (nonces w) (users w) (bindings w) (refreshTokens w) (apiTokens w) v (aticks w).
Definition set_aticks (v : nat) w : W :=
  mkAuthWorld (nonces w) (users w) (bindings w) (refreshTokens w) (apiTokens w) (auditLogs w) v.
End AuthWorld.

#[export] Instance AuthWorld_ticking DBN DBU DBB DBR DBA DBL : Ticking (AuthWorld DBN DBU DBB DBR DBA DBL) := {|
  tick := aticks;
  advance w := set_aticks (S (aticks w)) w;
|}.

(** * [audit/audit.service.ts], [audit/audit.listener.ts] and the roles guard in front of
    [audit/audit.controller.ts]. *)

Record AuditEvent := mkAuditEvent {
  ae_action_type : string; ae_actor_id : string; ae_entity_id : option string; ae_metadata : option jsobj }.

(** The filter of a search: absent and empty strings do not filter.  The two dates are those the
    database reads from the strings. *)
Record LogFilter := mkLogFilter {
  lf_action_type : option string; lf_actor_id : option string; lf_entity_id : option string;
  lf_from : option Z; lf_to : option Z }.

Section Audit.
Context {DBN DBU DBB DBR DBA DBL : Type} `{!LogTable DBL, CLK : Clock}.
Local Abbreviation W := (AuthWorld DBN DBU DBB DBR DBA DBL).
Implicit Types (l : AuditLog) (w : W).

Definition logAction (action_type actor_id : string) (entity_id : option string) (metadata : option jsobj) :
    eff W AuditLog := λ w,
  let log := mkAuditLog (fresh_id (auditLogs w)) action_type actor_id entity_id metadata (clock_at (aticks w)) in
  (Return log, set_aticks (S (aticks w)) (set_auditLogs (write (clock_at (aticks w)) log (auditLogs w)) w)).

Definition handleAudit (event : AuditEvent) : eff W unit :=
  logAction (ae_action_type event) (ae_actor_id event) (ae_entity_id event) (ae_metadata event) ;; mret tt.

Definition given_string (o : option string) : option string :=
  o ≫= λ s, if bool_decide (s = EmptyString) then None else Some s.

Definition log_matches (f : LogFilter) l : bool :=
  match given_string (lf_action_type f) with Some s => bool_decide (al_action_type l = s) | None => true end &&
  match given_string (lf_actor_id f) with Some s => bool_decide (al_actor_id l = s) | None => true end &&
  match given_string (lf_entity_id f) with Some s => bool_decide (al_entity_id l = Some s) | None => true end &&
  match lf_from f with Some t => bool_decide (t ≤ al_timestamp l)%Z | None => true end &&
  match lf_to f with Some t => bool_decide (al_timestamp l ≤ t)%Z | None => true end.

(** Pages and limits count from one. *)
Definition getLogs (page limit : positive) (filter : LogFilter) (w : W) : list AuditLog * Z :=
  let found := find_where (λ l, log_matches filter l = true) (auditLogs w) in
  (page_of ((Pos.to_nat page - 1) * Pos.to_nat limit) (Pos.to_nat limit) (sort_on (λ l, (- al_timestamp l)%Z) found),
   Z.of_nat (length found)).

Lemma elem_of_logAction a i e m w r :
  r ∈ rows (auditLogs w) → r ∈ rows (auditLogs (logAction a i e m w).2).
Proof. intros Hr. cbn. rewrite elem_of_insert; [by right|by rewrite log_row_id]. Qed.
End Audit.
