(* ===== verification/Nonces.v ===== *)
(** [auth/services/nonce.service.ts]: the challenges a wallet signs to log in. *)
From S2P Require Import Prelude Json Repository AuthTypes.

(** What the database says to a second row with the same value in a [unique] column, and to a
    row that refers to a user that is not there. *)
Definition duplicate_key : exn := QueryFailedError "duplicate key value violates unique constraint".
Definition no_such_user : exn := QueryFailedError "insert or update violates foreign key constraint".

Section Nonces.
Context {DBN DBU DBB DBR DBA DBL : Type} `{!NonceTable DBN, CLK : Clock, CRY : Crypto}.
Local Abbreviation W := (AuthWorld DBN DBU DBB DBR DBA DBL).
Implicit Types (n : LoginNonce) (w : W).

Definition NONCE_EXPIRATION_MINUTES : Z := 5.

(** [save] of a new row: the database draws its id and its creation time. *)
Definition insertNonce (new : string → LoginNonce) : eff W LoginNonce := λ w,
  let n := new (fresh_id (nonces w)) in
  if taken ln_nonce n (nonces w) then (Throw duplicate_key, w) else
  let t := clock_at (aticks w) in
  (Return (merge_nonce t None n), set_aticks (S (aticks w)) (set_nonces (write t n (nonces w)) w)).

Definition login_message (nonce : string) : string :=
  "Sign this message to authenticate with Stellara: " +:+ nonce.

Record NonceChallenge := mkNonceChallenge { nc_nonce : string; nc_expiresAt : Z; nc_message : string }.

Definition generateNonce (publicKey : string) : eff W NonceChallenge :=
  nonce ← randomUUID;
  now ← date_now;
  let expiresAt := (now + NONCE_EXPIRATION_MINUTES * 60000)%Z in
  insertNonce (λ id, mkLoginNonce id nonce publicKey expiresAt false now) ;;
  mret (mkNonceChallenge nonce expiresAt (login_message nonce)).

Definition findNonce (nonce publicKey : string) (w : W) : option LoginNonce :=
  findOne_where (λ r, ln_nonce r = nonce ∧ ln_publicKey r = publicKey) (nonces w).

(** The checks on the row that was found. *)
Definition checkNonce (loginNonce : option LoginNonce) : eff W LoginNonce :=
  match loginNonce with
  | None => throw (UnauthorizedException "Invalid nonce")
  | Some r =>
      if ln_used r then throw (UnauthorizedException "Nonce already used") else
      now ← date_now;
      if bool_decide (now > ln_expiresAt r)%Z then throw (UnauthorizedException "Nonce expired")
      else mret r
  end.

Definition validateNonce (nonce publicKey : string) : eff W LoginNonce :=
  loginNonce ← gets (findNonce nonce publicKey);
  checkNonce loginNonce.

Definition markNonceUsed (nonce : string) : eff W unit :=
  modify (λ w, set_nonces (update_where (λ r, ln_nonce r = nonce) (set_ln_used true) (clock_at (aticks w)) (nonces w)) w).

Definition cleanupExpiredNonces : eff W unit :=
  now ← date_now;
  modify (λ w, set_nonces (drop_where (λ r, (ln_expiresAt r < now)%Z) (nonces w)) w).

(** ** What the operations do to the table *)

Lemma findNonce_Some nonce publicKey w r : findNonce nonce publicKey w = Some r →
  r ∈ rows (nonces w) ∧ ln_nonce r = nonce ∧ ln_publicKey r = publicKey.
Proof. unfold findNonce, findOne_where. by intros [Hr [??]]%(array_find_Some (λ r, ln_nonce r = nonce ∧ ln_publicKey r = publicKey)). Qed.

Lemma validateNonce_returned nonce publicKey w r w' : validateNonce nonce publicKey w = (Return r, w') →
  r ∈ rows (nonces w) ∧ ln_nonce r = nonce ∧ ln_publicKey r = publicKey ∧ ln_used r = false ∧
  (clock_at (aticks w) ≤ ln_expiresAt r)%Z ∧ w' = advance w.
Proof.
  unfold validateNonce, checkNonce. rewrite bind_gets. destruct (findNonce _ _ _) as [r0|] eqn:Hf; [|done].
  apply findNonce_Some in Hf as (Hr & Hn & Hp). destruct (ln_used r0) eqn:Hu; [done|].
  rewrite (bind_run _ _ w (clock_at (aticks w)) (advance w)) by done. case_bool_decide as He; [done|].
  intros [= <- <-]. by split_and!.
Qed.

(** A nonce whose rows are all used is refused, whoever presents it. *)
Lemma validateNonce_refused nonce publicKey w :
  (∀ r, r ∈ rows (nonces w) → ln_nonce r = nonce → ln_used r = true) →
  validateNonce nonce publicKey w =
    (Throw (UnauthorizedException (match findNonce nonce publicKey w with
                                   | None => "Invalid nonce"
                                   | Some _ => "Nonce already used"
                                   end)), w).
Proof.
  intros Hused. unfold validateNonce, checkNonce. rewrite bind_gets.
  destruct (findNonce _ _ _) as [r0|] eqn:Hf; [|done]. apply findNonce_Some in Hf as (Hr & Hn & Hp).
  by rewrite (Hused r0).
Qed.

Lemma elem_of_markNonceUsed nonce w r :
  r ∈ rows (nonces (markNonceUsed nonce w).2) ↔
    ∃ r0, r0 ∈ rows (nonces w) ∧ r = (if decide (ln_nonce r0 = nonce) then set_ln_used true r0 else r0).
Proof.
  cbn. rewrite (elem_of_update_where _ (set_ln_used true)) by (intros; by rewrite !nonce_row_id).
  split; intros (r0 & Hr0 & ->); exists r0; (split; [done|]); case_decide; try done; by rewrite nonce_written.
Qed.

Lemma insertNonce_cases new w : (∀ id, ln_id (new id) = id) →
  insertNonce new w = (Throw duplicate_key, w) ∨
  ∃ r db, insertNonce new w = (Return r, set_aticks (S (aticks w)) (set_nonces db w)) ∧
    r = set_ln_createdAt (ln_createdAt r) (new (fresh_id (nonces w))) ∧
    (∀ x, x ∈ rows (nonces w) → ln_nonce x ≠ ln_nonce r) ∧
    ∀ x, x ∈ rows db ↔ x = r ∨ x ∈ rows (nonces w).
Proof.
  intros Hid. unfold insertNonce. set (n := new (fresh_id (nonces w))).
  assert (row_id n = fresh_id (nonces w)) as Hn by by (rewrite nonce_row_id; apply Hid).
  destruct (taken _ _ _) eqn:Ht; [by left|right]. do 2 eexists. split_and!; [reflexivity|done| |].
  - intros x Hx. by apply (taken_fresh _ _ _ _ Ht).
  - intros x. cbn. by rewrite elem_of_insert, nonce_written.
Qed.
End Nonces.
