(* ===== verification/Wallets.v ===== *)
(** [auth/services/wallet.service.ts]: signatures, and the wallets that are bound to users. *)
From S2P Require Import Prelude Json Repository AuthTypes Nonces.

Section Wallets.
Context {DBN DBU DBB DBR DBA DBL : Type} `{!UserTable DBU, !BindingTable DBB, CLK : Clock, SIG : Signatures}.
Local Abbreviation W := (AuthWorld DBN DBU DBB DBR DBA DBL).
Implicit Types (u : User) (b : WalletBinding) (w : W).

(** The [catch] block logs. *)
Definition verifySignature (publicKey signature message : string) : bool :=
  match decodeEd25519PublicKey publicKey with
  | Throw _ => false
  | Return publicKeyBytes =>
      match verify_detached (from_utf8 message) (from_base64 signature) publicKeyBytes with
      | Return isValid => isValid
      | Throw _ => false
      end
  end.

Definition findBinding (publicKey : string) (w : W) : option WalletBinding :=
  findOne_where (λ b, wb_publicKey b = publicKey) (bindings w).

(** [relations: ['user']] *)
Definition findUserByWallet (publicKey : string) (w : W) : option User :=
  binding ← findBinding publicKey w;
  lookup_row (wb_userId binding) (users w).

(** [save]: the public key is unique and the user has to exist. *)
Definition saveBinding b : eff W WalletBinding := λ w,
  if taken wb_publicKey b (bindings w) then (Throw duplicate_key, w) else
  match lookup_row (wb_userId b) (users w) with
  | None => (Throw no_such_user, w)
  | Some _ =>
      let t := clock_at (aticks w) in
      (Return (merge_binding t (lookup_row (wb_id b) (bindings w)) b),
       set_aticks (S (aticks w)) (set_bindings (write t b (bindings w)) w))
  end.
Definition insertBinding (new : string → WalletBinding) : eff W WalletBinding := λ w,
  saveBinding (new (fresh_id (bindings w))) w.

Definition clearPrimary (userId : string) : eff W unit :=
  modify (λ w, set_bindings (update_where (λ b, wb_userId b = userId) (set_wb_isPrimary false)
    (clock_at (aticks w)) (bindings w)) w).

Definition bindWalletToUser (publicKey userId : string) (isPrimary : bool) : eff W WalletBinding :=
  existingBinding ← gets (findBinding publicKey);
  match existingBinding with
  | Some _ => throw (ConflictException "Wallet already bound to an account")
  | None =>
      (if isPrimary then clearPrimary userId else mret tt) ;;
      now ← date_now;
      insertBinding (λ id, mkWalletBinding id publicKey userId now isPrimary (Some now))
  end.

(** What is done with the binding and the number of wallets that were found. *)
Definition checkUnbind (binding : option WalletBinding) : eff W WalletBinding :=
  match binding with
  | None => throw (BadRequestException "Wallet not found or not owned by user")
  | Some b => mret b
  end.
Definition checkWalletCount (userWalletCount : Z) : eff W unit :=
  if bool_decide (userWalletCount = 1%Z)
  then throw (BadRequestException "Cannot unbind the only wallet. Account must have at least one wallet.")
  else mret tt.
Definition removeBinding b : eff W unit := modify (λ w, set_bindings (drop (wb_id b) (bindings w)) w).

Definition findOwned (publicKey userId : string) (w : W) : option WalletBinding :=
  findOne_where (λ b, wb_publicKey b = publicKey ∧ wb_userId b = userId) (bindings w).
Definition userWallets (userId : string) (w : W) : list WalletBinding :=
  find_where (λ b, wb_userId b = userId) (bindings w).

Definition promoteAnother (userId : string) : eff W unit :=
  anotherWallet ← gets (λ w, findOne_where (λ b, wb_userId b = userId) (bindings w));
  match anotherWallet with
  | Some b => saveBinding (set_wb_isPrimary true b) ;; mret tt
  | None => mret tt
  end.

Definition unbindWallet (publicKey userId : string) : eff W unit :=
  found ← gets (findOwned publicKey userId);
  binding ← checkUnbind found;
  userWalletCount ← gets (λ w, count_where (λ b, wb_userId b = userId) (bindings w));
  checkWalletCount userWalletCount ;;
  removeBinding binding ;;
  if wb_isPrimary binding then promoteAnother userId else mret tt.

Definition updateLastUsed (publicKey : string) : eff W unit :=
  now ← date_now;
  modify (λ w, set_bindings (update_where (λ b, wb_publicKey b = publicKey) (set_wb_lastUsed (Some now))
    (clock_at (aticks w)) (bindings w)) w).

(** The database stamps the times of the new user; without an e-mail address it is no duplicate. *)
Definition insertUser (new : string → User) : eff W User := λ w,
  let u := new (fresh_id (users w)) in
  let t := clock_at (aticks w) in
  (Return (merge_user t t None u), set_aticks (S (aticks w)) (set_users (write t u (users w)) w)).

Definition createUserWithWallet (publicKey : string) : eff W User :=
  savedUser ← insertUser (λ id, mkUser id None None 0 0 true);
  bindWalletToUser publicKey (us_id savedUser) true ;;
  mret savedUser.
End Wallets.
