(* ===== verification/JwtAuth.v ===== *)
(** [auth/services/jwt-auth.service.ts] and [auth/strategies/jwt.strategy.ts]: access tokens,
    refresh tokens and their rotation. *)
From S2P Require Import Prelude Json Repository AuthTypes Nonces.

Record RefreshTokenData := mkRefreshTokenData { rd_token : string; rd_id : string; rd_expiresAt : Z }.
Record TokenPair := mkTokenPair { tp_accessToken : string; tp_newRefreshToken : string }.

Section JwtAuth.
Context {DBN DBU DBB DBR DBA DBL : Type}.
Context `{!UserTable DBU, !BindingTable DBB, !RefreshTable DBR, !LogTable DBL}.
Context `{CLK : Clock, CRY : Crypto, JWT : Jwt, CFG : AuthConfig}.
Local Abbreviation W := (AuthWorld DBN DBU DBB DBR DBA DBL).
Implicit Types (r : RefreshToken) (u : User) (w : W).

Definition access_expiration : string := default "15m" JWT_ACCESS_EXPIRATION.

Definition generateAccessToken (userId : string) (walletId : option string) : eff W string :=
  let payload := mkJwtPayload userId walletId in
  now ← date_now;
  mret (jwt_sign now payload access_expiration).

Definition insertRefreshToken (new : string → RefreshToken) : eff W RefreshToken := λ w,
  let r := new (fresh_id (refreshTokens w)) in
  if taken rt_token r (refreshTokens w) then (Throw duplicate_key, w) else
  match lookup_row (rt_userId r) (users w) with
  | None => (Throw no_such_user, w)
  | Some _ =>
      let t := clock_at (aticks w) in
      (Return (merge_refresh t None r), set_aticks (S (aticks w)) (set_refreshTokens (write t r (refreshTokens w)) w))
  end.

Definition refresh_expiration_days : Z := 7.

Definition storeRefreshToken (userId : string) : eff W RefreshToken :=
  token ← randomUUID;
  now ← date_now;
  let expiresAt := (now + refresh_expiration_days * ms_per_day)%Z in
  insertRefreshToken (λ id, mkRefreshToken id token userId expiresAt false None now).

Definition generateRefreshToken (userId : string) : eff W RefreshTokenData :=
  saved ← storeRefreshToken userId;
  user ← gets (λ w, lookup_row userId (users w));
  logAction "REFRESH_TOKEN_CREATED" userId (Some (rt_id saved))
    (Some [("expiresAt", JString (iso_time (rt_expiresAt saved)))]) ;;
  mret (mkRefreshTokenData (rt_token saved) (rt_id saved) (rt_expiresAt saved)).

Definition validateAccessToken (token : string) : eff W JwtPayload :=
  now ← date_now;
  match jwt_verify now token with
  | Return payload => mret payload
  | Throw _ => throw (UnauthorizedException "Invalid or expired access token")
  end.

Definition revokeRow (now : Z) r : RefreshToken := r |> set_rt_revoked true |> set_rt_revokedAt (Some now).

Definition markRevoked (tokenId : string) : eff W unit :=
  now ← date_now;
  modify (λ w, set_refreshTokens (update_where (λ r, rt_id r = tokenId) (revokeRow now)
    (clock_at (aticks w)) (refreshTokens w)) w).

Definition revokeRefreshToken (tokenId : string) : eff W unit :=
  markRevoked tokenId ;;
  logAction "REFRESH_TOKEN_REVOKED" tokenId (Some tokenId) None ;;
  mret tt.

Definition findRefreshToken (token : string) (w : W) : option (RefreshToken * option User) :=
  r ← findOne_where (λ r, rt_token r = token) (refreshTokens w);
  Some (r, lookup_row (rt_userId r) (users w)).

Definition checkRefreshToken (found : option (RefreshToken * option User)) : eff W RefreshToken :=
  match found with
  | None => throw (UnauthorizedException "Invalid refresh token")
  | Some (tokenRecord, user) =>
      if rt_revoked tokenRecord then throw (UnauthorizedException "Refresh token has been revoked") else
      now ← date_now;
      if bool_decide (now > rt_expiresAt tokenRecord)%Z then throw (UnauthorizedException "Refresh token expired") else
      match user with
      | None => throw (TypeError "Cannot read properties of null (reading 'isActive')")
      | Some u =>
          if negb (us_isActive u) then throw (UnauthorizedException "User account is inactive")
          else mret tokenRecord
      end
  end.

Definition refreshAccessToken (refreshToken : string) : eff W TokenPair :=
  found ← gets (findRefreshToken refreshToken);
  tokenRecord ← checkRefreshToken found;
  revokeRefreshToken (rt_id tokenRecord) ;;
  accessToken ← generateAccessToken (rt_userId tokenRecord) None;
  newRefreshTokenData ← generateRefreshToken (rt_userId tokenRecord);
  logAction "ACCESS_TOKEN_REFRESHED" (rt_userId tokenRecord) (Some (rt_id tokenRecord)) None ;;
  mret (mkTokenPair accessToken (rd_token newRefreshTokenData)).

Definition revokeAllUserRefreshTokens (userId : string) : eff W unit :=
  now ← date_now;
  modify (λ w, set_refreshTokens (update_where (λ r, rt_userId r = userId ∧ rt_revoked r = false) (revokeRow now)
    (clock_at (aticks w)) (refreshTokens w)) w).

Definition activeUser (user : option User) : eff W User :=
  match user with
  | None => throw (UnauthorizedException "User not found")
  | Some u => if negb (us_isActive u) then throw (UnauthorizedException "User account is inactive") else mret u
  end.

Definition getUserFromToken (token : string) : eff W User :=
  payload ← validateAccessToken token;
  user ← gets (λ w, lookup_row (jp_sub payload) (users w));
  activeUser user.

(** ** The strategy behind [JwtAuthGuard] *)

(** The user of a request, with its wallets. *)
Definition jwt_validate (payload : JwtPayload) : eff W (User * list WalletBinding) :=
  user ← gets (λ w, lookup_row (jp_sub payload) (users w));
  wallets ← gets (λ w, find_where (λ b, wb_userId b = jp_sub payload) (bindings w));
  u ← activeUser user;
  mret (u, wallets).

(** The guard takes the bearer token of the request, if there is one. *)
Definition jwtAuthGuard (token : option string) : eff W (User * list WalletBinding) :=
  match token with
  | None => throw (UnauthorizedException "Unauthorized")
  | Some token =>
      now ← date_now;
      match jwt_verify now token with
      | Return payload => jwt_validate payload
      | Throw _ => throw (UnauthorizedException "Unauthorized")
      end
  end.
End JwtAuth.
