(* ===== verification/ApiTokens.v ===== *)
(** [auth/services/api-token.service.ts] and the guards that look at API tokens and roles. *)
From S2P Require Import Prelude Json Repository AuthTypes Nonces JwtAuth.

Definition SALT_ROUNDS : Z := 10.

(** [date.getDate()], [date.setDate(day)] and [date.getDate() + days] where [days] may be the
    text of a variable: [+] then appends the digits. *)
Definition getDate (t : Z) : Z := let '(_, _, d) := civil_from_days (t / ms_per_day) in d.
Definition setDate (day t : Z) : Z := (t + (day - getDate t) * ms_per_day)%Z.
Definition append_digits (n : Z) (digits : list Z) : Z := foldl (λ v d, 10 * v + d)%Z n digits.
Definition plus_days (date : Z) (days : Z + list Z) : Z :=
  match days with inl n => (date + n)%Z | inr digits => append_digits date digits end.

Record ApiTokenCreated := mkApiTokenCreated { ac_token : string; ac_id : string; ac_expiresAt : option Z }.
Record ApiTokenData := mkApiTokenData { td_userId : string; td_role : string; td_tokenId : string }.
(** The columns that a listing selects: not the hash. *)
Record ApiTokenInfo := mkApiTokenInfo {
  ai_id : string; ai_name : string; ai_role : string; ai_expiresAt : option Z; ai_revoked : bool;
  ai_lastUsedAt : option Z; ai_createdAt : Z }.

Definition ForbiddenException (msg : string) : exn := Exn "ForbiddenException" msg.

Section ApiTokens.
Context {DBN DBU DBB DBR DBA DBL : Type}.
Context `{!UserTable DBU, !ApiTable DBA, CLK : Clock, CRY : Crypto, BC : Bcrypt, CFG : AuthConfig}.
Local Abbreviation W := (AuthWorld DBN DBU DBB DBR DBA DBL).
Implicit Types (a : ApiToken) (u : User) (w : W).

Definition default_days : Z + list Z :=
  match API_TOKEN_DEFAULT_EXPIRY_DAYS with Some digits => inr digits | None => inl 90%Z end.

Definition insertApiToken (new : string → ApiToken) : eff W ApiToken := λ w,
  let a := new (fresh_id (apiTokens w)) in
  if taken at_token a (apiTokens w) then (Throw duplicate_key, w) else
  match lookup_row (at_userId a) (users w) with
  | None => (Throw no_such_user, w)
  | Some _ =>
      let t := clock_at (aticks w) in
      (Return (merge_api t None a), set_aticks (S (aticks w)) (set_apiTokens (write t a (apiTokens w)) w))
  end.

(** [bcrypt.hash] draws a salt. *)
Definition hash_token (plainToken : string) : eff W string := λ w,
  (Return (bcrypt_hash (aticks w) plainToken SALT_ROUNDS), advance w).

Definition token_expiry (now : Z) (expiresInDays : option Z) : Z :=
  if bool_decide (or_number expiresInDays 0 ≠ 0)%Z
  then setDate (plus_days (getDate now) (inl (or_number expiresInDays 0))) now
  else setDate (plus_days (getDate now) default_days) now.

Definition createApiToken (userId name role : string) (expiresInDays : option Z) : eff W ApiTokenCreated :=
  uuid1 ← randomUUID;
  uuid2 ← randomUUID;
  let plainToken := remove_dashes ("stl_" +:+ uuid1 +:+ uuid2) in
  hashedToken ← hash_token plainToken;
  now ← date_now;
  let expiresAt := token_expiry now expiresInDays in
  saved ← insertApiToken (λ id, mkApiToken id hashedToken name role userId (Some expiresAt) false None now);
  mret (mkApiTokenCreated plainToken (at_id saved) (at_expiresAt saved)).

(** The tokens that are not revoked, with their users. *)
Definition liveTokens (w : W) : list (ApiToken * option User) :=
  (λ a, (a, lookup_row (at_userId a) (users w))) <$> find_where (λ a, at_revoked a = false) (apiTokens w).

Definition acceptToken a (user : option User) : eff W ApiTokenData :=
  (match at_expiresAt a with
   | Some expiresAt =>
       now ← date_now;
       if bool_decide (now > expiresAt)%Z then throw (UnauthorizedException "API token expired") else mret tt
   | None => mret tt
   end) ;;
  match user with
  | None => throw (TypeError "Cannot read properties of null (reading 'isActive')")
  | Some u =>
      if negb (us_isActive u) then throw (UnauthorizedException "User account is inactive") else
      now ← date_now;
      modify (λ w, set_apiTokens (update_where (λ a', at_id a' = at_id a) (set_at_lastUsedAt (Some now))
        (clock_at (aticks w)) (apiTokens w)) w) ;;
      mret (mkApiTokenData (at_userId a) (at_role a) (at_id a))
  end.

Fixpoint tryTokens (plainToken : string) (tokens : list (ApiToken * option User)) : eff W ApiTokenData :=
  match tokens with
  | [] => throw (UnauthorizedException "Invalid API token")
  | (tokenRecord, user) :: tokens =>
      let isMatch := bcrypt_compare plainToken (at_token tokenRecord) in
      if (isMatch : bool) then acceptToken tokenRecord user else tryTokens plainToken tokens
  end.

Definition validateApiToken (plainToken : string) : eff W ApiTokenData :=
  tokens ← gets liveTokens;
  tryTokens plainToken tokens.

Definition revokeApiToken (tokenId userId : string) : eff W unit :=
  token ← gets (λ w, findOne_where (λ a, at_id a = tokenId ∧ at_userId a = userId) (apiTokens w));
  match token with
  | None => throw (NotFoundException "API token not found")
  | Some _ =>
      modify (λ w, set_apiTokens (update_where (λ a, at_id a = tokenId) (set_at_revoked true)
        (clock_at (aticks w)) (apiTokens w)) w)
  end.

Definition token_info a : ApiTokenInfo :=
  mkApiTokenInfo (at_id a) (at_name a) (at_role a) (at_expiresAt a) (at_revoked a) (at_lastUsedAt a) (at_createdAt a).

Definition listUserApiTokens (userId : string) (w : W) : list ApiTokenInfo :=
  token_info <$> sort_on (λ a, (- at_createdAt a)%Z) (find_where (λ a, at_userId a = userId) (apiTokens w)).

Definition revokeAllUserApiTokens (userId : string) : eff W unit :=
  modify (λ w, set_apiTokens (update_where (λ a, at_userId a = userId ∧ at_revoked a = false) (set_at_revoked true)
    (clock_at (aticks w)) (apiTokens w)) w).

(** ** Guards *)

(** Who a request comes from: the user of an access token, or the data of an API token. *)
Inductive principal :=
| JwtUser (u : User) (wallets : list WalletBinding)
| ApiTokenUser (id role tokenId : string).

(** [request.user.role]: a row of [users] has no such column. *)
Definition role_of (p : principal) : option string :=
  match p with JwtUser _ _ => None | ApiTokenUser _ role _ => Some role end.

(** [auth/guards/api-token.guard.ts] *)
Definition extractTokenFromHeader (authorization : option string) : option string :=
  match authorization with
  | None => None
  | Some header =>
      if bool_decide (header = EmptyString) then None else
      match split_on (Ascii.ascii_of_nat 32) header with
      | type :: token :: _ => if bool_decide (type = "Bearer") then Some token else None
      | _ => None
      end
  end.

Definition apiTokenGuard (authorization : option string) : eff W principal :=
  let token := or_string (extractTokenFromHeader authorization) EmptyString in
  if bool_decide (token = EmptyString) then throw (UnauthorizedException "API token required") else
  try_catch
    (tokenData ← validateApiToken token;
     mret (ApiTokenUser (td_userId tokenData) (td_role tokenData) (td_tokenId tokenData)))
    (λ error, throw (UnauthorizedException "Invalid API token")).

(** [guards/roles.guard.ts]; [None] when no user was attached to the request. *)
Definition rolesGuard (requiredRoles : list string) (user : option principal) : outcome bool :=
  match requiredRoles with
  | [] => Return true
  | _ =>
      let role := or_string (user ≫= role_of) EmptyString in
      if bool_decide (role = EmptyString) then Throw (ForbiddenException "User role not found")
      else if bool_decide (role ∈ requiredRoles) then Return true
      else Throw (ForbiddenException "Insufficient permissions")
  end.
End ApiTokens.
