(* ===== verification/AuthController.v ===== *)
(** [auth/controllers/auth.controller.ts] and [audit/audit.controller.ts]: every request of the
    authentication module, from its guard to its answer, and the hourly clean-up. *)
From S2P Require Import Prelude Json Repository AuthTypes Nonces Wallets JwtAuth ApiTokens.

Record LoginResponse := mkLoginResponse {
  lr_accessToken : string; lr_refreshToken : string;
  lr_id : string; lr_email : option string; lr_username : option string; lr_createdAt : Z }.
Record WalletInfo := mkWalletInfo { wi_id : string; wi_publicKey : string; wi_isPrimary : bool }.
Record ApiTokenResponse := mkApiTokenResponse {
  ar_token : string; ar_id : string; ar_name : string; ar_role : string; ar_expiresAt : option Z }.

Section Controller.
Context {DBN DBU DBB DBR DBA DBL : Type} `{!NonceTable DBN, !UserTable DBU, !BindingTable DBB}.
Context `{!RefreshTable DBR, !ApiTable DBA, !LogTable DBL}.
Context `{CLK : Clock, CRY : Crypto, SIG : Signatures, JWT : Jwt, BC : Bcrypt, CFG : AuthConfig}.
Local Abbreviation W := (AuthWorld DBN DBU DBB DBR DBA DBL).
Implicit Types (u : User) (w : W).

Definition requestNonce (publicKey : string) : eff W NonceChallenge := generateNonce publicKey.

(** What login and binding do first: the signature is over the nonce, which is then used up. *)
Definition checkSignature (publicKey signature nonce : string) : eff W unit :=
  let message := login_message nonce in
  let isValid := verifySignature publicKey signature message in
  if negb isValid then throw (Error "Invalid signature") else mret tt.

(** The user of the wallet, and whether it has just been created. *)
Definition loginUser (publicKey : string) (user : option User) : eff W User :=
  match user with
  | Some u => mret u
  | None =>
      u ← createUserWithWallet publicKey;
      logAction "USER_CREATED" (us_id u) (Some (us_id u)) (Some [("wallet", JString publicKey)]) ;;
      mret u
  end.

Definition login_response (accessToken : string) (refreshTokenData : RefreshTokenData) u : LoginResponse :=
  mkLoginResponse accessToken (rd_token refreshTokenData) (us_id u) (us_email u) (us_username u) (us_createdAt u).

(** What follows the checks. *)
Definition completeLogin (publicKey nonce : string) : eff W LoginResponse :=
  markNonceUsed nonce ;;
  found ← gets (findUserByWallet publicKey);
  user ← loginUser publicKey found;
  updateLastUsed publicKey ;;
  accessToken ← generateAccessToken (us_id user) None;
  refreshTokenData ← generateRefreshToken (us_id user);
  mret (login_response accessToken refreshTokenData user).

Definition walletLogin (publicKey signature nonce : string) : eff W LoginResponse :=
  nonceRecord ← validateNonce nonce publicKey;
  checkSignature publicKey signature nonce ;;
  completeLogin publicKey nonce.

Definition refreshToken (token : string) : eff W TokenPair := refreshAccessToken token.

(** [@UseGuards(JwtAuthGuard)]; the handler gets the user of the request. *)
Definition guarded {A} (bearer : option string) (handler : string → eff W A) : eff W A :=
  user ← jwtAuthGuard bearer;
  handler (us_id user.1).

Definition logout (bearer : option string) : eff W unit :=
  guarded bearer revokeAllUserRefreshTokens.

Definition getCurrentUser (bearer : option string) : eff W (User * list WalletBinding) := jwtAuthGuard bearer.

Definition bindWallet (bearer : option string) (publicKey signature nonce : string) : eff W WalletInfo :=
  guarded bearer (λ userId,
    validateNonce nonce publicKey ;;
    checkSignature publicKey signature nonce ;;
    markNonceUsed nonce ;;
    binding ← bindWalletToUser publicKey userId false;
    mret (mkWalletInfo (wb_id binding) (wb_publicKey binding) (wb_isPrimary binding))).

Definition controller_unbindWallet (bearer : option string) (publicKey : string) : eff W unit :=
  guarded bearer (unbindWallet publicKey).

Definition controller_createApiToken (bearer : option string) (name role : string) (expiresInDays : option Z) :
    eff W ApiTokenResponse :=
  guarded bearer (λ userId,
    tokenData ← createApiToken userId name role expiresInDays;
    mret (mkApiTokenResponse (ac_token tokenData) (ac_id tokenData) name role (ac_expiresAt tokenData))).

Definition listApiTokens (bearer : option string) : eff W (list ApiTokenInfo) :=
  guarded bearer (λ userId, gets (listUserApiTokens userId)).

Definition controller_revokeApiToken (bearer : option string) (tokenId : string) : eff W unit :=
  guarded bearer (revokeApiToken tokenId).

(** [admin/audit/logs], for the role [admin]. *)
Definition auditLogsHandler (bearer : option string) (page limit : positive) (filter : LogFilter) :
    eff W (list AuditLog * Z) :=
  user ← jwtAuthGuard bearer;
  match rolesGuard ["admin"] (Some (JwtUser user.1 user.2)) with
  | Throw e => throw e
  | Return _ => gets (getLogs page limit filter)
  end.

(** ** Requests *)

Inductive auth_request :=
| RequestNonce (publicKey : string)
| WalletLogin (publicKey signature nonce : string)
| Refresh (token : string)
| Logout (bearer : option string)
| CurrentUser (bearer : option string)
| BindWallet (bearer : option string) (publicKey signature nonce : string)
| UnbindWallet (bearer : option string) (publicKey : string)
| CreateToken (bearer : option string) (name role : string) (expiresInDays : option Z)
| ListTokens (bearer : option string)
| RevokeToken (bearer : option string) (tokenId : string)
| PresentApiToken (authorization : option string)
| ReadAuditLogs (bearer : option string) (page limit : positive) (filter : LogFilter)
| CleanupNonces.

Definition serve (r : auth_request) (w : W) : W :=
  match r with
  | RequestNonce publicKey => (requestNonce publicKey w).2
  | WalletLogin publicKey signature nonce => (walletLogin publicKey signature nonce w).2
  | Refresh token => (refreshToken token w).2
  | Logout bearer => (logout bearer w).2
  | CurrentUser bearer => (getCurrentUser bearer w).2
  | BindWallet bearer publicKey signature nonce => (bindWallet bearer publicKey signature nonce w).2
  | UnbindWallet bearer publicKey => (controller_unbindWallet bearer publicKey w).2
  | CreateToken bearer name role expiresInDays => (controller_createApiToken bearer name role expiresInDays w).2
  | ListTokens bearer => (listApiTokens bearer w).2
  | RevokeToken bearer tokenId => (controller_revokeApiToken bearer tokenId w).2
  | PresentApiToken authorization => (apiTokenGuard authorization w).2
  | ReadAuditLogs bearer page limit filter => (auditLogsHandler bearer page limit filter w).2
  | CleanupNonces => (cleanupExpiredNonces w).2
  end.

Inductive auth_step : relation W :=
| auth_serve r w : auth_step w (serve r w).

End Controller.
