(* ===== verification/AuthFacts.v ===== *)
(** What the operations of the authentication module do to its tables: rows that stay,
    flags that are never taken back, columns that stay unique. *)
From S2P Require Import Prelude Json Repository AuthTypes Nonces Wallets JwtAuth ApiTokens AuthController.

Section Facts.
Context {DBN DBU DBB DBR DBA DBL : Type} `{!NonceTable DBN, !UserTable DBU, !BindingTable DBB}.
Context `{!RefreshTable DBR, !ApiTable DBA, !LogTable DBL}.
Context `{CLK : Clock, CRY : Crypto, SIG : Signatures, JWT : Jwt, BC : Bcrypt, CFG : AuthConfig}.
Local Abbreviation W := (AuthWorld DBN DBU DBB DBR DBA DBL).
Implicit Types (w : W).

(** ** Well-formed tables *)

(** Every nonce of the table was drawn before now. *)
Definition drawn (ticks : nat) (n : LoginNonce) : Prop := ∃ i, i < ticks ∧ ln_nonce n = uuid_at i.
Definition exists_user w (userId : string) : Prop := is_Some (lookup_row userId (users w)).

Definition tables_ok w : Prop :=
  (unique ln_nonce (nonces w) ∧ all_rows (drawn (aticks w)) (nonces w)) ∧
  (unique wb_publicKey (bindings w) ∧ all_rows (λ b, exists_user w (wb_userId b)) (bindings w)) ∧
  (unique rt_token (refreshTokens w) ∧ all_rows (λ r, exists_user w (rt_userId r)) (refreshTokens w)) ∧
  (unique at_token (apiTokens w) ∧ all_rows (λ a, exists_user w (at_userId a)) (apiTokens w)).

(** ** The direction of time *)

(** A nonce was there before, not used unless it is now, or is drawn in between. *)
Definition nonces_move w w' : Prop := ∀ n', n' ∈ rows (nonces w') →
  (∃ i, aticks w ≤ i < aticks w' ∧ ln_nonce n' = uuid_at i) ∨
  ∃ n, n ∈ rows (nonces w) ∧ ln_nonce n' = ln_nonce n ∧ (ln_used n = true → ln_used n' = true).

Definition refresh_later (r r' : RefreshToken) : Prop :=
  rt_token r' = rt_token r ∧ rt_userId r' = rt_userId r ∧ rt_expiresAt r' = rt_expiresAt r ∧
  (rt_revoked r = true → rt_revoked r' = true).
Definition api_later (a a' : ApiToken) : Prop :=
  at_token a' = at_token a ∧ at_userId a' = at_userId a ∧ at_role a' = at_role a ∧ at_expiresAt a' = at_expiresAt a ∧
  (at_revoked a = true → at_revoked a' = true).

#[export] Instance refresh_later_preorder : PreOrder refresh_later.
Proof. split; [by intros r|]. intros r1 r2 r3 (?&?&?&?) (?&?&?&?). split_and!; try congruence. auto. Qed.
#[export] Instance api_later_preorder : PreOrder api_later.
Proof. split; [by intros r|]. intros r1 r2 r3 (?&?&?&?&?) (?&?&?&?&?). split_and!; try congruence. auto. Qed.

Record later w w' : Prop := {
  later_ticks : aticks w ≤ aticks w';
  later_nonces : nonces_move w w';
  later_users : rows_move eq (users w) (users w');
  later_refresh : rows_move refresh_later (refreshTokens w) (refreshTokens w');
  later_api : rows_move api_later (apiTokens w) (apiTokens w');
  later_logs : ∀ l, l ∈ rows (auditLogs w) → l ∈ rows (auditLogs w');
  later_ok : tables_ok w → tables_ok w';
}.

Lemma nonces_move_same w w' : nonces w' = nonces w → nonces_move w w'.
Proof. intros Heq n' Hn. rewrite Heq in Hn. right. by exists n'. Qed.

#[export] Instance later_preorder : PreOrder later.
Proof.
  split.
  - intros w. split; try done. by apply nonces_move_same.
  - intros w1 w2 w3 [T1 N1 U1 R1 A1 L1 O1] [T2 N2 U2 R2 A2 L2 O2]. split; try by etrans.
    + intros n' Hn'. destruct (N2 n' Hn') as [(i & ? & ?)|(n & Hn & Heq & Hu)].
      { left. exists i. split; [lia|done]. }
      destruct (N1 n Hn) as [(i & ? & ?)|(n0 & Hn0 & Heq0 & Hu0)].
      { left. exists i. split; [lia|congruence]. }
      right. exists n0. split; [done|]. split; [congruence|auto].
    + auto.
    + auto.
Qed.

(** Nothing but the clock and the bindings, ... *)
Lemma later_tick w n : aticks w ≤ n → later w (set_aticks n w).
Proof.
  intros Hn. split; try done; [by apply nonces_move_same|]. intros ((?&Hd)&?&?&?). split; [|done].
  split; [done|]. intros r Hr. destruct (Hd r Hr) as (i & ? & ?). exists i. split; [cbn; lia|done].
Qed.

Lemma exists_user_mono w w' userId :
  rows_move eq (users w) (users w') → exists_user w userId → exists_user w' userId.
Proof. intros Hu [u Hl]. destruct (Hu _ _ Hl) as (u' & Hl' & _). by exists u'. Qed.

(** ** One operation at a time *)

Lemma moves_date_now : moves later (date_now : eff W Z).
Proof. intros w. apply later_tick. cbn. lia. Qed.
Lemma moves_randomUUID : moves later (randomUUID : eff W string).
Proof. intros w. apply later_tick. cbn. lia. Qed.
Lemma moves_hash_token s : moves later (hash_token s : eff W string).
Proof. intros w. apply later_tick. cbn. lia. Qed.

Lemma moves_logAction a i e m : moves later (logAction a i e m : eff W _).
Proof.
  intros w. split; try done; [cbn; lia|by apply nonces_move_same|apply elem_of_logAction|].
  intros ((?&Hd)&?&?&?). split; [|done]. split; [done|]. intros r Hr. destruct (Hd r Hr) as (j & ? & ?).
  exists j. split; [cbn; lia|done].
Qed.

Lemma moves_markNonceUsed n : moves later (markNonceUsed n : eff W unit).
Proof.
  intros w. pose proof (elem_of_markNonceUsed n w) as Hrows. split; try done.
  - intros n' (r0 & Hr0 & ->)%Hrows. right. exists r0. split; [done|]. by case_decide.
  - intros ((Hu&Hd)&Hrest). split; [|done]. split.
    + apply unique_update; [by intros; rewrite nonce_written|by intros; rewrite !nonce_row_id|done|done].
    + intros r (r0 & Hr0 & ->)%Hrows. destruct (Hd r0 Hr0) as (i & ? & ?). exists i. by case_decide.
Qed.

Lemma moves_cleanup : moves later (cleanupExpiredNonces : eff W unit).
Proof.
  apply moves_bind; [apply _|apply moves_date_now|]. intros now. apply moves_modify. intros w.
  assert (∀ r, r ∈ rows (drop_where (λ r, (ln_expiresAt r < now)%Z) (nonces w)) → r ∈ rows (nonces w)) as Hsub.
  { intros r Hr. by apply elem_of_drop_where in Hr as [? _]. }
  split; try done.
  - intros n' Hn'. right. exists n'. split; [by apply Hsub|done].
  - intros ((Hu&Hd)&Hrest). split; [|done]. split; [by eapply unique_mono|]. intros r Hr. by apply Hd, Hsub.
Qed.

Lemma moves_generateNonce pk : moves later (generateNonce pk : eff W _).
Proof.
  intros w. unfold generateNonce.
  rewrite (bind_run _ _ w (uuid_at (aticks w)) (advance w)) by done.
  rewrite (bind_run _ _ _ (clock_at (aticks (advance w))) (advance (advance w))) by done. cbv beta zeta.
  set (w2 := advance (advance w)). set (new := λ id, mkLoginNonce id _ _ _ _ _).
  destruct (insertNonce_cases new w2) as [Hr|(r & db & Hr & Hnew & Hfresh & Hrows)]; [done| |].
  { rewrite (bind_throw _ _ _ _ _ Hr). apply (later_tick w (S (S (aticks w)))). lia. }
  rewrite (bind_run _ _ _ _ _ Hr). cbn.
  assert (ln_nonce r = uuid_at (aticks w)) as Hnr by by rewrite Hnew.
  split; try done; [cbn; lia| |].
  - intros n' [->|Hn']%Hrows; [left|right; by exists n'].
    exists (aticks w). split; [cbn; lia|done].
  - intros ((Hu&Hd)&Hrest). split; [|done]. split.
    + intros x y [->|Hx]%Hrows [->|Hy]%Hrows Hk; [done| | |by apply Hu]; by destruct (Hfresh _ ltac:(eassumption)).
    + intros x [->|Hx]%Hrows; [exists (aticks w); split; [cbn; lia|done]|].
      destruct (Hd x Hx) as (i & ? & ?). exists i. split; [cbn; lia|done].
Qed.

(** A change of the other tables leaves the nonces and the log alone. *)
Lemma later_others w w' :
  aticks w ≤ aticks w' → nonces w' = nonces w → auditLogs w' = auditLogs w →
  rows_move eq (users w) (users w') → rows_move refresh_later (refreshTokens w) (refreshTokens w') →
  rows_move api_later (apiTokens w) (apiTokens w') →
  (tables_ok w → (unique wb_publicKey (bindings w') ∧ all_rows (λ b, exists_user w (wb_userId b)) (bindings w')) ∧
    (unique rt_token (refreshTokens w') ∧ all_rows (λ r, exists_user w (rt_userId r)) (refreshTokens w')) ∧
    (unique at_token (apiTokens w') ∧ all_rows (λ a, exists_user w (at_userId a)) (apiTokens w'))) →
  later w w'.
Proof.
  intros Ht Hn Hl Hu Hr Ha Hok. split; try done; [by apply nonces_move_same|by rewrite Hl|].
  intros Htab. pose proof Htab as ((Hun&Hd)&_). destruct (Hok Htab) as ((Ub&Fb)&(Ur&Fr)&(Ua&Fa)).
  split_and!; try done.
  - by rewrite Hn.
  - rewrite Hn. intros x Hx. destruct (Hd x Hx) as (i & ? & ?). exists i. split; [lia|done].
  - intros x Hx. by eapply exists_user_mono, Fb.
  - intros x Hx. by eapply exists_user_mono, Fr.
  - intros x Hx. by eapply exists_user_mono, Fa.
Qed.

Lemma moves_saveBinding b : moves later (saveBinding b : eff W _).
Proof.
  intros w. unfold saveBinding. destruct (taken _ _ _) eqn:Ht; [done|].
  destruct (lookup_row (wb_userId b) (users w)) as [u|] eqn:Hu; [|done].
  apply later_others; try done; [cbn; lia|]. intros (_&(Hub&Hfb)&Hrest). split; [|done]. split.
  - apply unique_write; [by intros; rewrite binding_written|done|done].
  - apply all_rows_write; [done|]. rewrite binding_written. cbn. by eexists.
Qed.
Lemma moves_insertBinding new : moves later (insertBinding new : eff W _).
Proof. intros w. apply moves_saveBinding. Qed.

(** Changes of bindings that leave keys and owners. *)
Lemma moves_update_bindings (P : WalletBinding → Prop) `{∀ b, Decision (P b)} f :
  (∀ b, wb_id (f b) = wb_id b ∧ wb_publicKey (f b) = wb_publicKey b ∧ wb_userId (f b) = wb_userId b) →
  moves later (modify (λ w : W, set_bindings (update_where P f (clock_at (aticks w)) (bindings w)) w)).
Proof.
  intros Hf. apply moves_modify. intros w. apply later_others; try done. intros (_&(Hub&Hfb)&Hrest). split; [|done]. split.
  - apply unique_update; try done; intros; [by rewrite binding_written|rewrite !binding_row_id; apply Hf|apply Hf].
  - apply all_rows_update; [intros; rewrite !binding_row_id; apply Hf|done|].
    intros b Hb. rewrite binding_written. cbn. by rewrite (proj2 (proj2 (Hf b))).
Qed.
Lemma moves_clearPrimary userId : moves later (clearPrimary userId : eff W unit).
Proof. by apply moves_update_bindings. Qed.
Lemma moves_removeBinding b : moves later (removeBinding b : eff W unit).
Proof.
  intros w. apply later_others; try done. intros (_&(Hub&Hfb)&Hrest). split; [|done].
  assert (∀ x, x ∈ rows (drop (wb_id b) (bindings w)) → x ∈ rows (bindings w)) as Hsub.
  { intros x Hx. by apply elem_of_drop in Hx as [? _]. }
  split; [by eapply unique_mono|]. intros x Hx. by apply Hfb, Hsub.
Qed.
Lemma moves_insertUser new : (∀ id, us_id (new id) = id) → moves later (insertUser new : eff W _).
Proof.
  intros Hid w. unfold insertUser. apply later_others; try done; [cbn; lia| |by intros (_&Hok)].
  apply rows_move_insert; [apply _|]. rewrite user_row_id. apply Hid.
Qed.

Lemma moves_insertRefreshToken new : (∀ id, rt_id (new id) = id) → moves later (insertRefreshToken new : eff W _).
Proof.
  intros Hid w. unfold insertRefreshToken. set (r := new _). destruct (taken _ _ _) eqn:Ht; [done|].
  destruct (lookup_row (rt_userId r) (users w)) as [u|] eqn:Hu; [|done].
  assert (row_id r = fresh_id (refreshTokens w)) as Hr by (rewrite refresh_row_id; apply Hid).
  apply later_others; try done; [cbn; lia|by apply rows_move_insert; [apply _|]|..].
  intros (_&Hb&(Hur&Hfr)&Ha). split; [done|]. split; [|done]. split.
  - apply unique_write; [by intros; rewrite refresh_written|done|done].
  - apply all_rows_write; [done|]. rewrite refresh_written. cbn. by eexists.
Qed.
Lemma moves_revoke_refresh (P : RefreshToken → Prop) `{∀ r, Decision (P r)} now :
  moves later (modify (λ w : W, set_refreshTokens (update_where P (revokeRow now) (clock_at (aticks w)) (refreshTokens w)) w)).
Proof.
  apply moves_modify. intros w. assert (∀ r, row_id (revokeRow now r) = row_id r) as Hid by (intros; by rewrite !refresh_row_id).
  apply later_others; try done.
  - apply rows_move_update; [apply _|done|]. intros r. by rewrite refresh_written.
  - intros (_&Hb&(Hur&Hfr)&Ha). split; [done|]. split; [|done]. split.
    + apply unique_update; [by intros; rewrite refresh_written|done|done|done].
    + apply all_rows_update; [done|done|]. intros r Hr. by rewrite refresh_written.
Qed.

Lemma moves_insertApiToken new : (∀ id, at_id (new id) = id) → moves later (insertApiToken new : eff W _).
Proof.
  intros Hid w. unfold insertApiToken. set (a := new _). destruct (taken _ _ _) eqn:Ht; [done|].
  destruct (lookup_row (at_userId a) (users w)) as [u|] eqn:Hu; [|done].
  assert (row_id a = fresh_id (apiTokens w)) as Ha by (rewrite api_row_id; apply Hid).
  apply later_others; try done; [cbn; lia|by apply rows_move_insert; [apply _|]|..].
  intros (_&Hb&Hr&(Hua&Hfa)). split; [done|]. split; [done|]. split.
  - apply unique_write; [by intros; rewrite api_written|done|done].
  - apply all_rows_write; [done|]. rewrite api_written. cbn. by eexists.
Qed.
Lemma moves_update_api (P : ApiToken → Prop) `{∀ a, Decision (P a)} f :
  (∀ a, at_id (f a) = at_id a ∧ at_expiresAt (f a) = at_expiresAt a ∧ api_later a (f a)) →
  moves later (modify (λ w : W, set_apiTokens (update_where P f (clock_at (aticks w)) (apiTokens w)) w)).
Proof.
  intros Hf. apply moves_modify. intros w.
  assert (∀ a, row_id (f a) = row_id a) as Hid by (intros; rewrite !api_row_id; apply Hf).
  apply later_others; try done.
  - apply rows_move_update; [apply _|done|]. intros a. rewrite api_written.
    destruct (Hf a) as (_ & He & ? & ? & ? & ? & ?). split_and!; try done. cbn. rewrite He. by destruct (at_expiresAt a).
  - intros (_&Hb&Hr&(Hua&Hfa)). split; [done|]. split; [done|]. split.
    + apply unique_update; [by intros; rewrite api_written|done|apply Hf|done].
    + apply all_rows_update; [done|done|]. intros a Ha. rewrite api_written. cbn.
      destruct (Hf a) as (_ & _ & _ & Hu & _). by rewrite Hu.
Qed.

Hint Resolve later_preorder moves_date_now moves_randomUUID moves_hash_token moves_logAction moves_markNonceUsed
  moves_cleanup moves_generateNonce moves_saveBinding moves_insertBinding moves_clearPrimary moves_removeBinding
  moves_insertUser moves_insertRefreshToken moves_revoke_refresh moves_insertApiToken : moves.

(** ** Every request *)

Lemma moves_validateNonce n pk : moves later (validateNonce n pk : eff W _).
Proof. unfold validateNonce, checkNonce. moves_tac. Qed.
Lemma moves_bindWallet pk id b : moves later (bindWalletToUser pk id b : eff W _).
Proof. unfold bindWalletToUser. moves_tac. Qed.
Lemma moves_unbindWallet pk id : moves later (unbindWallet pk id : eff W _).
Proof. unfold unbindWallet, checkUnbind, checkWalletCount, promoteAnother. moves_tac. Qed.
Lemma moves_updateLastUsed pk : moves later (updateLastUsed pk : eff W _).
Proof. unfold updateLastUsed. moves_tac. by apply moves_update_bindings. Qed.
Lemma moves_createUser pk : moves later (createUserWithWallet pk : eff W _).
Proof. unfold createUserWithWallet, bindWalletToUser. moves_tac. Qed.
Lemma moves_generateAccessToken id o : moves later (generateAccessToken id o : eff W _).
Proof. unfold generateAccessToken. moves_tac. Qed.
Lemma moves_generateRefreshToken id : moves later (generateRefreshToken id : eff W _).
Proof. unfold generateRefreshToken, storeRefreshToken. moves_tac. Qed.
Lemma moves_revokeRefreshToken id : moves later (revokeRefreshToken id : eff W _).
Proof. unfold revokeRefreshToken, markRevoked. moves_tac. Qed.
Lemma moves_jwtAuthGuard bearer : moves later (jwtAuthGuard bearer : eff W _).
Proof. unfold jwtAuthGuard, jwt_validate, activeUser. moves_tac. Qed.

Hint Resolve moves_validateNonce moves_bindWallet moves_unbindWallet moves_updateLastUsed moves_createUser
  moves_generateAccessToken moves_generateRefreshToken moves_revokeRefreshToken moves_jwtAuthGuard : moves.

Lemma moves_walletLogin pk sig n : moves later (walletLogin pk sig n : eff W _).
Proof. unfold walletLogin, checkSignature, completeLogin, loginUser. moves_tac. Qed.
Lemma moves_refreshToken t : moves later (refreshToken t : eff W _).
Proof. unfold refreshToken, refreshAccessToken, checkRefreshToken. moves_tac. Qed.
Lemma moves_logout bearer : moves later (logout bearer : eff W _).
Proof. unfold logout, guarded, revokeAllUserRefreshTokens. moves_tac. Qed.
Lemma moves_bindRequest bearer pk sig n : moves later (bindWallet bearer pk sig n : eff W _).
Proof. unfold bindWallet, guarded, checkSignature. moves_tac. Qed.
Lemma moves_unbindRequest bearer pk : moves later (controller_unbindWallet bearer pk : eff W _).
Proof. unfold controller_unbindWallet, guarded. moves_tac. Qed.
Lemma moves_createApiToken bearer name role days : moves later (controller_createApiToken bearer name role days : eff W _).
Proof. unfold controller_createApiToken, guarded, createApiToken. moves_tac. Qed.
Lemma moves_revokeApiToken bearer id : moves later (controller_revokeApiToken bearer id : eff W _).
Proof. unfold controller_revokeApiToken, guarded, revokeApiToken. moves_tac. by apply moves_update_api. Qed.
Lemma moves_tryTokens s l : moves later (tryTokens s l : eff W _).
Proof. induction l as [|[a u] l IH]; cbn [tryTokens]; unfold acceptToken; moves_tac. by apply moves_update_api. Qed.
Lemma moves_apiTokenGuard h : moves later (apiTokenGuard h : eff W _).
Proof. unfold apiTokenGuard, validateApiToken. moves_tac. apply moves_tryTokens. Qed.
Lemma moves_auditLogs bearer p l f : moves later (auditLogsHandler bearer p l f : eff W _).
Proof. unfold auditLogsHandler. moves_tac. Qed.
Lemma moves_list bearer : moves later (listApiTokens bearer : eff W _).
Proof. unfold listApiTokens, guarded. moves_tac. Qed.

Lemma later_serve r w : later w (serve r w).
Proof.
  destruct r; [apply moves_generateNonce|apply moves_walletLogin|apply moves_refreshToken|apply moves_logout
    |apply moves_jwtAuthGuard|apply moves_bindRequest|apply moves_unbindRequest|apply moves_createApiToken|apply moves_list
    |apply moves_revokeApiToken|apply moves_apiTokenGuard|apply moves_auditLogs|apply moves_cleanup].
Qed.

Lemma later_reachable w w' : rtc auth_step w w' → later w w'.
Proof. induction 1 as [w|w1 w2 w3 [r w] _ IH]; [done|]. etrans; [apply later_serve|exact IH]. Qed.
End Facts.

#[export] Hint Resolve later_preorder moves_date_now moves_randomUUID moves_hash_token moves_logAction moves_markNonceUsed
  moves_cleanup moves_generateNonce moves_saveBinding moves_insertBinding moves_clearPrimary moves_removeBinding
  moves_insertUser moves_insertRefreshToken moves_revoke_refresh moves_insertApiToken moves_validateNonce moves_bindWallet
  moves_unbindWallet moves_updateLastUsed moves_createUser moves_generateAccessToken moves_generateRefreshToken
  moves_revokeRefreshToken moves_jwtAuthGuard : moves.
