(* ===== verification/AuthSafety.v ===== *)
(** What the authentication module promises over any sequence of requests: a nonce logs in once,
    a refresh token is spent by its use, a revoked token stays revoked, every user keeps exactly
    one primary wallet. *)
From S2P Require Import Prelude Json Repository AuthTypes Nonces Wallets JwtAuth ApiTokens AuthController AuthFacts.

Section Safety.
Context {DBN DBU DBB DBR DBA DBL : Type} `{!NonceTable DBN, !UserTable DBU, !BindingTable DBB}.
Context `{!RefreshTable DBR, !ApiTable DBA, !LogTable DBL}.
Context `{CLK : Clock, CRY : Crypto, SIG : Signatures, JWT : Jwt, BC : Bcrypt, CFG : AuthConfig}.
Local Abbreviation W := (AuthWorld DBN DBU DBB DBR DBA DBL).
Implicit Types (w : W).

(** ** Nonces *)

(** No row of the nonce is still good, and none will be drawn. *)
Definition spent (nonce : string) w : Prop :=
  (∃ i, i < aticks w ∧ nonce = uuid_at i) ∧
  ∀ r, r ∈ rows (nonces w) → ln_nonce r = nonce → ln_used r = true.

Lemma spent_later `{!Inj (=) (=) uuid_at} nonce w w' : later w w' → spent nonce w → spent nonce w'.
Proof.
  intros Hl [(i & Hi & Hn) Hused]. pose proof (later_ticks _ _ Hl). split; [exists i; split; [lia|done]|].
  intros r Hr Hrn. destruct (later_nonces _ _ Hl r Hr) as [(j & Hj & Hnj)|(r0 & Hr0 & Heq & Hu)].
  - assert (i = j) by (apply (inj uuid_at); congruence). lia.
  - apply Hu, Hused; [done|congruence].
Qed.

Lemma spent_by_marking nonce w r : tables_ok w → r ∈ rows (nonces w) → ln_nonce r = nonce →
  spent nonce (markNonceUsed nonce w).2.
Proof.
  intros ((_&Hd)&_) Hr Hn. split.
  - destruct (Hd r Hr) as (i & Hi & Heq). exists i. split; [done|congruence].
  - intros x (x0 & Hx0 & ->)%elem_of_markNonceUsed. by case_decide.
Qed.

(** What a login has checked, and the world it goes on in. *)
Lemma walletLogin_checked pk sig nonce w res w1 : walletLogin pk sig nonce w = (Return res, w1) →
  (∃ r, r ∈ rows (nonces w) ∧ ln_nonce r = nonce ∧ ln_publicKey r = pk ∧ ln_used r = false ∧
    (clock_at (aticks w) ≤ ln_expiresAt r)%Z) ∧
  verifySignature pk sig (login_message nonce) = true ∧
  later (markNonceUsed nonce (advance w)).2 w1.
Proof.
  unfold walletLogin, completeLogin. intros (r & wa & Hv & (? & wb & Hs & (? & wc & Hm & Hrest)%bind_returned)%bind_returned)%bind_returned.
  apply validateNonce_returned in Hv as (Hr & Hn & Hp & Hu & Ht & ->).
  unfold checkSignature in Hs. destruct (verifySignature _ _ _) eqn:Hver; [|done]. injection Hs as _ <-.
  split; [by exists r|]. split; [done|]. apply (f_equal snd) in Hm. cbn [snd] in Hm. rewrite <-Hm in Hrest.
  match type of Hrest with ?m _ = _ => assert (moves later m) as Hmove end.
  { unfold loginUser. moves_tac. }
  apply (f_equal snd) in Hrest. cbn [snd] in Hrest. rewrite <-Hrest. exact (Hmove _).
Qed.

Lemma jwtAuthGuard_frame bearer w : nonces (jwtAuthGuard bearer w).2 = nonces w ∧
  bindings (jwtAuthGuard bearer w).2 = bindings w ∧ users (jwtAuthGuard bearer w).2 = users w ∧
  refreshTokens (jwtAuthGuard bearer w).2 = refreshTokens w ∧ apiTokens (jwtAuthGuard bearer w).2 = apiTokens w.
Proof.
  unfold jwtAuthGuard, jwt_validate. destruct bearer as [token|]; [|done].
  rewrite (bind_run _ _ w (clock_at (aticks w)) (advance w)) by done.
  destruct (jwt_verify _ _) as [p|]; [|done]. rewrite !bind_gets. unfold activeUser.
  destruct (lookup_row _ _) as [u|]; [|done]. by destruct (negb _).
Qed.

(** Nobody logs in, and nobody binds a wallet. *)
Definition refuses_nonce (nonce : string) w : Prop := ∀ pk sig,
  (∃ msg, msg ∈ ["Invalid nonce"; "Nonce already used"] ∧
    walletLogin pk sig nonce w = (Throw (UnauthorizedException msg), w)) ∧
  ∀ bearer, ∃ e w', bindWallet bearer pk sig nonce w = (Throw e, w') ∧ bindings w' = bindings w.

(** C6: a nonce logs in once.  A login that succeeds has found a nonce of that wallet that was
    neither used nor expired, and a signature over it that verifies.  From then on, whatever
    requests come in between, the clean-up of expired nonces included, nobody logs in and nobody
    binds a wallet with that nonce. *)
Theorem nonce_single_use `{!Inj (=) (=) uuid_at} pk sig nonce w res w1 w2 : tables_ok w →
  walletLogin pk sig nonce w = (Return res, w1) → rtc auth_step w1 w2 →
  (∃ r, r ∈ rows (nonces w) ∧ ln_nonce r = nonce ∧ ln_publicKey r = pk ∧ ln_used r = false ∧
    (clock_at (aticks w) ≤ ln_expiresAt r)%Z) ∧
  verifySignature pk sig (login_message nonce) = true ∧ refuses_nonce nonce w2.
Proof.
  intros Hok Hlogin Hreach. pose proof (walletLogin_checked _ _ _ _ _ _ Hlogin) as ((r & Hr & Hn & Hp & Hu & Ht) & Hver & Hlater).
  split; [by exists r|]. split; [done|].
  assert (spent nonce w2) as [_ Hspent].
  { eapply spent_later; [by apply later_reachable|]. eapply spent_later; [done|].
    eapply spent_by_marking; [|done|done]. apply (later_ok w); [|done]. apply (later_tick w). lia. }
  intros pk' sig'. split.
  - exists (match findNonce nonce pk' w2 with None => "Invalid nonce" | Some _ => "Nonce already used" end).
    split; [case_match; set_solver|]. unfold walletLogin. by erewrite bind_throw by by apply validateNonce_refused.
  - intros bearer. unfold bindWallet, guarded. destruct (jwtAuthGuard_frame bearer w2) as (Hnon & Hb & _).
    destruct (jwtAuthGuard bearer w2) as [[u|e] w3] eqn:Hg; cbn in Hnon, Hb.
    + rewrite (bind_run _ _ _ _ _ Hg). do 2 eexists. split; [|exact Hb].
      eapply bind_throw. apply validateNonce_refused. by rewrite Hnon.
    + rewrite (bind_throw _ _ _ _ _ Hg). by exists e, w3.
Qed.

(** ** Refresh tokens *)

Definition refuses_refresh (token : string) w : Prop :=
  refreshToken token w = (Throw (UnauthorizedException "Refresh token has been revoked"), w).

Lemma revoked_refused w id r : tables_ok w → lookup_row id (refreshTokens w) = Some r → rt_revoked r = true →
  refuses_refresh (rt_token r) w.
Proof.
  intros (_&_&(Hu&_)&_) Hl Hrev. unfold refuses_refresh, refreshToken, refreshAccessToken, findRefreshToken. rewrite bind_gets.
  apply lookup_row_elem in Hl as [Hr _]. unfold findOne_where.
  destruct (array_find _ _) as [r'|] eqn:Hf.
  - apply array_find_Some in Hf as [Hr' Ht]. assert (r' = r) as -> by by apply Hu.
    cbn [option_bind mbind]. unfold checkRefreshToken. by rewrite Hrev.
  - by destruct (array_find_None _ _ r Hf Hr).
Qed.

Lemma revoked_later w w' id r : tables_ok w → later w w' → lookup_row id (refreshTokens w) = Some r → rt_revoked r = true →
  refuses_refresh (rt_token r) w'.
Proof.
  intros Hok Hl Hr Hrev. destruct (later_refresh _ _ Hl id r Hr) as (r' & Hr' & Ht & _ & _ & Hmono).
  rewrite <-Ht. eapply revoked_refused; [by apply (later_ok _ _ Hl)|exact Hr'|auto].
Qed.

(** The row that a refresh has found. *)
Lemma refreshToken_checked token w p w1 : refreshToken token w = (Return p, w1) →
  ∃ r u, r ∈ rows (refreshTokens w) ∧ rt_token r = token ∧ rt_revoked r = false ∧ (clock_at (aticks w) ≤ rt_expiresAt r)%Z ∧
    lookup_row (rt_userId r) (users w) = Some u ∧ us_isActive u = true ∧
    later (revokeRefreshToken (rt_id r) (advance w)).2 w1.
Proof.
  unfold refreshToken, refreshAccessToken.
  intros (found & wa & Hf & (r & wb & Hc & (? & wc & Hrev & Hrest)%bind_returned)%bind_returned)%bind_returned.
  injection Hf as <- <-. unfold findRefreshToken, findOne_where in Hc.
  destruct (array_find _ _) as [r0|] eqn:Hfind; [|done]. apply array_find_Some in Hfind as [Hr Ht].
  cbn [option_bind mbind] in Hc. unfold checkRefreshToken in Hc. destruct (rt_revoked r0) eqn:Hr0; [done|].
  rewrite (bind_run _ _ w (clock_at (aticks w)) (advance w)) in Hc by done. case_bool_decide; [done|].
  destruct (lookup_row _ _) as [u|] eqn:Hu; [|done]. destruct (us_isActive u) eqn:Ha; [|done]. injection Hc as <- <-.
  exists r0, u. split_and!; try done. apply (f_equal snd) in Hrev. cbn [snd] in Hrev. rewrite <-Hrev in Hrest.
  match type of Hrest with ?m _ = _ => assert (moves later m) as Hmove end.
  { moves_tac. }
  apply (f_equal snd) in Hrest. cbn [snd] in Hrest. rewrite <-Hrest. exact (Hmove _).
Qed.

(** C33: a refresh token is spent by its use.  A refresh that succeeds has found a token that was
    neither revoked nor expired, of an active user; from then on, whatever requests come in
    between, the same token is refused as revoked. *)
Theorem refresh_single_use token w p w1 w2 : tables_ok w →
  refreshToken token w = (Return p, w1) → rtc auth_step w1 w2 →
  (∃ r u, r ∈ rows (refreshTokens w) ∧ rt_token r = token ∧ rt_revoked r = false ∧
    (clock_at (aticks w) ≤ rt_expiresAt r)%Z ∧ lookup_row (rt_userId r) (users w) = Some u ∧ us_isActive u = true) ∧
  refuses_refresh token w2.
Proof.
  intros Hok Href Hreach. apply refreshToken_checked in Href as (r & u & Hr & Ht & Hrev & He & Hu & Ha & Hlater).
  split; [by exists r, u|].
  set (w0 := (revokeRefreshToken (rt_id r) (advance w)).2) in *.
  assert (later w w0) as H0 by (etrans; [by apply (later_tick w (S (aticks w))); lia|apply moves_revokeRefreshToken]).
  assert (∃ r', lookup_row (rt_id r) (refreshTokens w0) = Some r' ∧ rt_token r' = token ∧ rt_revoked r' = true) as (r' & Hr' & <- & Hrev').
  { assert (refreshTokens w0 = update_where (λ x, rt_id x = rt_id r) (revokeRow (clock_at (S (aticks w))))
      (clock_at (S (S (aticks w)))) (refreshTokens w)) as -> by done.
    rewrite lookup_update_where by (intros; by rewrite !refresh_row_id).
    assert (lookup_row (rt_id r) (refreshTokens w) = Some r) as -> by (apply lookup_row_elem; by rewrite refresh_row_id).
    rewrite decide_True by done. eexists. split; [done|]. by rewrite refresh_written. }
  eapply (revoked_later w0); [by apply (later_ok _ _ H0)|etrans; [exact Hlater|by apply later_reachable]|done|done].
Qed.

(** logging out ends the sessions of the user.  After a successful logout, whatever requests come
    in between, every refresh token the user had then is refused as revoked. *)
Theorem logout_revokes bearer w w1 w2 : tables_ok w → logout bearer w = (Return tt, w1) → rtc auth_step w1 w2 →
  ∃ u ws, (jwtAuthGuard bearer w).1 = Return (u, ws) ∧
    ∀ r, r ∈ rows (refreshTokens w) → rt_userId r = us_id u → refuses_refresh (rt_token r) w2.
Proof.
  intros Hok (user & wa & Hg & Hrun)%bind_returned Hreach. exists user.1, user.2. split; [rewrite Hg; by destruct user|].
  intros r Hr Huser. destruct (jwtAuthGuard_frame bearer w) as (_ & _ & _ & Href & _). rewrite Hg in Href. cbn in Href.
  pose proof (moves_jwtAuthGuard bearer w) as Ha. rewrite Hg in Ha. cbn in Ha.
  assert (lookup_row (rt_id r) (refreshTokens wa) = Some r) as Hl by (rewrite Href; apply lookup_row_elem; by rewrite refresh_row_id).
  pose proof (moves_logout bearer w) as H1.
  assert (∃ r', lookup_row (rt_id r) (refreshTokens w1) = Some r' ∧ rt_token r' = rt_token r ∧ rt_revoked r' = true) as (r' & Hr' & <- & Hrev).
  { apply (f_equal snd) in Hrun. cbn [snd] in Hrun.
    assert (refreshTokens w1 = update_where (λ r, rt_userId r = us_id user.1 ∧ rt_revoked r = false)
      (revokeRow (clock_at (aticks wa))) (clock_at (S (aticks wa))) (refreshTokens wa)) as -> by by rewrite <-Hrun.
    rewrite lookup_update_where, Hl by (intros; by rewrite !refresh_row_id). eexists. split; [done|].
    case_decide as Hd; [by rewrite refresh_written|]. split; [done|]. destruct (rt_revoked r); [done|]. by destruct Hd. }
  unfold logout, guarded in H1. rewrite (bind_run _ _ _ _ _ Hg), Hrun in H1. cbn in H1.
  eapply (revoked_later w1); [by apply (later_ok _ _ H1)|by apply later_reachable|done|done].
Qed.
End Safety.
