(* ===== verification/AuthWallets.v ===== *)
(** Wallets and their users under every request: a public key has one owner, a user one primary
    wallet. *)
From S2P Require Import Prelude Json Repository AuthTypes Nonces Wallets JwtAuth ApiTokens AuthController AuthFacts.

Section WalletFacts.
Context {DBN DBU DBB DBR DBA DBL : Type} `{!NonceTable DBN, !UserTable DBU, !BindingTable DBB}.
Context `{!RefreshTable DBR, !ApiTable DBA, !LogTable DBL}.
Context `{CLK : Clock, CRY : Crypto, SIG : Signatures, JWT : Jwt, BC : Bcrypt, CFG : AuthConfig}.
Local Abbreviation W := (AuthWorld DBN DBU DBB DBR DBA DBL).
Implicit Types (w : W) (b : WalletBinding).

(** ** Primary wallets *)

Definition primary_of w (userId : string) b : Prop :=
  b ∈ rows (bindings w) ∧ wb_userId b = userId ∧ wb_isPrimary b = true.
Definition one_primary w : Prop := ∀ u, u ∈ rows (users w) →
  ∃ b, primary_of w (us_id u) b ∧ ∀ b', primary_of w (us_id u) b' → b' = b.

Definition accounts_ok w : Prop := tables_ok w ∧ one_primary w.

(** ** Operations that leave users and wallets alone *)

Definition same_accounts w w' : Prop := bindings w' = bindings w ∧ users w' = users w.
#[export] Instance same_accounts_preorder : PreOrder same_accounts.
Proof. split; [by intros w|]. intros w1 w2 w3 [??] [??]. split; congruence. Qed.

(** They move the tables forward, too. *)
Definition quiet w w' : Prop := later w w' ∧ same_accounts w w'.
#[export] Instance quiet_preorder : PreOrder quiet.
Proof. split; [by intros w|]. intros w1 w2 w3 [??] [??]. split; by etrans. Qed.

Lemma moves_quiet {A} (m : eff W A) : moves later m → moves same_accounts m → moves quiet m.
Proof. intros H1 H2 w. split; [apply H1|apply H2]. Qed.

Lemma quiet_keeps {A} (m : eff W A) : moves quiet m → keeps accounts_ok m anything.
Proof.
  intros Hm. eapply keeps_moves; [exact Hm|]. intros w w' [Hl [Hb Hu]] [Hok Hone]. split; [by apply (later_ok _ _ Hl)|].
  intros u Hu'. rewrite Hu in Hu'. destruct (Hone u Hu') as (b & Hp & Hun). unfold primary_of in *. rewrite Hb. by exists b.
Qed.

Lemma same_insertRefreshToken new : moves same_accounts (insertRefreshToken new : eff W _).
Proof. intros w. unfold insertRefreshToken. destruct (taken _ _ _); [done|]. by destruct (lookup_row _ _). Qed.
Lemma same_insertApiToken new : moves same_accounts (insertApiToken new : eff W _).
Proof. intros w. unfold insertApiToken. destruct (taken _ _ _); [done|]. by destruct (lookup_row _ _). Qed.
Lemma same_insertNonce new : moves same_accounts (insertNonce new : eff W _).
Proof. intros w. unfold insertNonce. by destruct (taken _ _ _). Qed.
Lemma same_modify (f : W → W) : (∀ w, same_accounts w (f w)) → moves same_accounts (modify f).
Proof. apply moves_modify. Qed.
Lemma same_date_now : moves same_accounts (date_now : eff W Z).
Proof. done. Qed.
Lemma same_randomUUID : moves same_accounts (randomUUID : eff W string).
Proof. done. Qed.
Lemma same_hash_token s : moves same_accounts (hash_token s : eff W string).
Proof. done. Qed.
Lemma same_logAction a i e m : moves same_accounts (logAction a i e m : eff W _).
Proof. done. Qed.
Lemma same_markNonceUsed n : moves same_accounts (markNonceUsed n : eff W _).
Proof. done. Qed.

Hint Resolve same_accounts_preorder quiet_preorder same_insertRefreshToken same_insertApiToken same_insertNonce same_date_now
  same_randomUUID same_hash_token same_logAction same_markNonceUsed : moves.
Ltac same_tac := moves_tac; try (by apply same_modify).

Lemma same_jwtAuthGuard bearer : moves same_accounts (jwtAuthGuard bearer : eff W _).
Proof. unfold jwtAuthGuard, jwt_validate, activeUser. same_tac. Qed.
Hint Resolve same_jwtAuthGuard : moves.

Lemma quiet_generateNonce pk : moves quiet (generateNonce pk : eff W _).
Proof. apply moves_quiet; [auto with moves|]. unfold generateNonce. same_tac. Qed.
Lemma quiet_validateNonce n pk : moves quiet (validateNonce n pk : eff W _).
Proof. apply moves_quiet; [auto with moves|]. unfold validateNonce, checkNonce. same_tac. Qed.
Lemma quiet_cleanup : moves quiet (cleanupExpiredNonces : eff W _).
Proof. apply moves_quiet; [auto with moves|]. unfold cleanupExpiredNonces. same_tac. Qed.
Lemma quiet_markNonceUsed n : moves quiet (markNonceUsed n : eff W _).
Proof. apply moves_quiet; auto with moves. Qed.
Lemma quiet_logAction a i e m : moves quiet (logAction a i e m : eff W _).
Proof. apply moves_quiet; auto with moves. Qed.
Lemma quiet_generateAccessToken id o : moves quiet (generateAccessToken id o : eff W _).
Proof. apply moves_quiet; [auto with moves|]. unfold generateAccessToken. same_tac. Qed.
Lemma quiet_generateRefreshToken id : moves quiet (generateRefreshToken id : eff W _).
Proof. apply moves_quiet; [auto with moves|]. unfold generateRefreshToken, storeRefreshToken. same_tac. Qed.
Lemma quiet_refreshToken t : moves quiet (refreshToken t : eff W _).
Proof.
  apply moves_quiet; [apply moves_refreshToken|]. unfold refreshToken, refreshAccessToken, checkRefreshToken, revokeRefreshToken,
    markRevoked, generateAccessToken, generateRefreshToken, storeRefreshToken. same_tac.
Qed.
Lemma quiet_jwtAuthGuard bearer : moves quiet (jwtAuthGuard bearer : eff W _).
Proof. apply moves_quiet; auto with moves. Qed.
Lemma quiet_logout bearer : moves quiet (logout bearer : eff W _).
Proof.
  apply moves_quiet; [apply moves_logout|]. unfold logout, guarded, revokeAllUserRefreshTokens. same_tac.
Qed.
Lemma quiet_createApiToken bearer name role days : moves quiet (controller_createApiToken bearer name role days : eff W _).
Proof.
  apply moves_quiet; [apply moves_createApiToken|]. unfold controller_createApiToken, guarded, createApiToken. same_tac.
Qed.
Lemma quiet_revokeApiToken bearer id : moves quiet (controller_revokeApiToken bearer id : eff W _).
Proof.
  apply moves_quiet; [apply moves_revokeApiToken|]. unfold controller_revokeApiToken, guarded, revokeApiToken. same_tac.
Qed.
Lemma same_tryTokens s l : moves same_accounts (tryTokens s l : eff W _).
Proof. induction l as [|[a u] l IH]; cbn [tryTokens]; unfold acceptToken; same_tac. Qed.
Lemma quiet_apiTokenGuard h : moves quiet (apiTokenGuard h : eff W _).
Proof.
  apply moves_quiet; [apply moves_apiTokenGuard|]. unfold apiTokenGuard, validateApiToken. same_tac. apply same_tryTokens.
Qed.
Lemma quiet_auditLogs bearer p l f : moves quiet (auditLogsHandler bearer p l f : eff W _).
Proof. apply moves_quiet; [apply moves_auditLogs|]. unfold auditLogsHandler. same_tac. Qed.
Lemma quiet_list bearer : moves quiet (listApiTokens bearer : eff W _).
Proof. apply moves_quiet; [apply moves_list|]. unfold listApiTokens, guarded. same_tac. Qed.

Hint Resolve quiet_validateNonce quiet_markNonceUsed quiet_logAction quiet_generateAccessToken quiet_generateRefreshToken
  quiet_jwtAuthGuard : moves.

(** ** Changes that keep the primary wallets *)

(** The rows are changed in columns other than owner and primary flag. *)
Lemma one_primary_map w w' (g : WalletBinding → WalletBinding) :
  (∀ b, wb_userId (g b) = wb_userId b ∧ wb_isPrimary (g b) = wb_isPrimary b) →
  users w' = users w → (∀ b, b ∈ rows (bindings w') ↔ ∃ b0, b0 ∈ rows (bindings w) ∧ b = g b0) →
  one_primary w → one_primary w'.
Proof.
  intros Hg Hu Hrows Hone u Hin. rewrite Hu in Hin. destruct (Hone u Hin) as (b & (Hb & Hbu & Hbp) & Hun).
  destruct (Hg b) as [? ?]. exists (g b). split.
  - split_and!; [apply Hrows; by exists b|congruence|congruence].
  - intros b' ((b0 & Hb0 & ->)%Hrows & ? & ?). destruct (Hg b0). f_equal. apply Hun. split_and!; [done|congruence|congruence].
Qed.

(** The table lost or got only rows that are not primary. *)
Lemma one_primary_same w w' : users w' = users w →
  (∀ b, wb_isPrimary b = true → b ∈ rows (bindings w') ↔ b ∈ rows (bindings w)) → one_primary w → one_primary w'.
Proof.
  intros Hu Hrows Hone u Hin. rewrite Hu in Hin. destruct (Hone u Hin) as (b & (Hb & Hbu & Hbp) & Hun).
  exists b. split; [split_and!; [by apply Hrows|done|done]|].
  intros b' (Hb' & ? & Hp'). apply Hun. split_and!; [by apply Hrows|done|done].
Qed.

Lemma keeps_updateLastUsed pk : keeps accounts_ok (updateLastUsed pk : eff W _) anything.
Proof.
  intros w [Hok Hone]. split; [|done]. split; [by apply (later_ok _ _ (moves_updateLastUsed pk w))|].
  set (f := λ b, if decide (wb_publicKey b = pk) then set_wb_lastUsed (Some (clock_at (aticks w))) b else b).
  apply (one_primary_map w _ f); [intros b; unfold f; by case_decide|done| |done].
  intros b. assert (bindings (updateLastUsed pk w).2 = update_where (λ b, wb_publicKey b = pk)
    (set_wb_lastUsed (Some (clock_at (aticks w)))) (clock_at (S (aticks w))) (bindings w)) as -> by done.
  rewrite elem_of_update_where by (intros; by rewrite !binding_row_id).
  split; intros (b0 & Hb0 & ->); exists b0; (split; [done|]); unfold f; case_decide; try done; by rewrite binding_written.
Qed.

(** ** A first login *)

Lemma findUserByWallet_None pk w : tables_ok w → findUserByWallet pk w = None → findBinding pk w = None.
Proof.
  intros (_&(_&Hf)&_) Hn. unfold findUserByWallet in Hn. destruct (findBinding pk w) as [b|] eqn:Hb; [|done].
  unfold findBinding, findOne_where in Hb. apply array_find_Some in Hb as [Hb _].
  destruct (Hf b Hb) as [u Hu]. cbn in Hn. by rewrite Hu in Hn.
Qed.

Lemma findBinding_free pk w b : findBinding pk w = None → b ∈ rows (bindings w) → wb_publicKey b ≠ pk.
Proof. unfold findBinding. rewrite findOne_where_None. auto. Qed.

(** A binding of a free key to a user. *)
Lemma insertBinding_run pk userId isPrimary now w : findBinding pk w = None → exists_user w userId →
  ∃ b db, insertBinding (λ id, mkWalletBinding id pk userId now isPrimary (Some now)) w =
      (Return b, set_aticks (S (aticks w)) (set_bindings db w)) ∧
    wb_publicKey b = pk ∧ wb_userId b = userId ∧ wb_isPrimary b = isPrimary ∧
    ∀ x, x ∈ rows db ↔ x = b ∨ x ∈ rows (bindings w).
Proof.
  intros Hfree [u Hu]. unfold insertBinding, saveBinding. set (b := mkWalletBinding _ _ _ _ _ _).
  assert (row_id b = fresh_id (bindings w)) as Hb by by rewrite binding_row_id.
  assert (taken wb_publicKey b (bindings w) = false) as ->.
  { apply bool_decide_eq_false_2. intros (x & Hx & _ & Hk)%Exists_exists. by apply (findBinding_free _ _ _ Hfree Hx). }
  change (wb_userId b) with userId. rewrite Hu. do 2 eexists. split; [reflexivity|]. split_and!; [done..|].
  intros x. rewrite elem_of_insert by done. rewrite binding_written. by rewrite <-binding_row_id, Hb, lookup_fresh.
Qed.

Lemma createUser_run pk w : tables_ok w → findBinding pk w = None →
  ∃ u w' b, createUserWithWallet pk w = (Return u, w') ∧ us_isActive u = true ∧
    lookup_row (us_id u) (users w) = None ∧
    (∃ t, lookup_row (us_id u) (users w') = Some (set_us_updatedAt t u)) ∧
    (∀ x, x ∈ rows (users w') → us_id x = us_id u ∨ x ∈ rows (users w)) ∧
    wb_publicKey b = pk ∧ wb_userId b = us_id u ∧ wb_isPrimary b = true ∧
    ∀ x, x ∈ rows (bindings w') ↔ x = b ∨ x ∈ rows (bindings w).
Proof.
  intros (_&(Hub&Hfb)&_) Hfree. unfold createUserWithWallet. set (uid := fresh_id (users w)).
  set (u0 := mkUser uid None None 0 0 true). set (t := clock_at (aticks w)).
  set (w1 := set_aticks (S (aticks w)) (set_users (write t u0 (users w)) w)).
  assert (insertUser (λ id, mkUser id None None 0 0 true) w = (Return (merge_user t t None u0), w1)) as Hins by done.
  rewrite (bind_run _ _ _ _ _ Hins). cbv beta. change (us_id (merge_user t t None u0)) with uid.
  assert (∀ x, x ∈ rows (bindings w) → wb_userId x ≠ uid) as Hnone.
  { intros x Hx Heq. destruct (Hfb x Hx) as [y Hy]. rewrite Heq in Hy. unfold uid in Hy. by rewrite lookup_fresh in Hy. }
  set (w2 := (clearPrimary uid w1).2). set (w3 := advance w2).
  assert (∀ x, x ∈ rows (bindings w2) ↔ x ∈ rows (bindings w)) as Hclear.
  { intros x. unfold w2. change (bindings (clearPrimary uid w1).2) with (update_where (λ b, wb_userId b = uid)
      (set_wb_isPrimary false) (clock_at (aticks w1)) (bindings w)).
    rewrite elem_of_update_where by (intros; by rewrite !binding_row_id). split.
    - intros (y & Hy & ->). by rewrite decide_False by by apply Hnone.
    - intros Hx. exists x. split; [done|]. by rewrite decide_False by by apply Hnone. }
  assert (us_id u0 = uid) as Hu0 by done.
  assert (row_id u0 = fresh_id (users w)) as Hrow by by rewrite user_row_id.
  destruct (insertBinding_run pk uid true (clock_at (aticks w2)) w3) as (b & db & Hb & Hpk & Huser & Hprim & Hrows).
  { apply findOne_where_None. intros x Hx%Hclear. by apply (findBinding_free _ w). }
  { change (users w3) with (write t u0 (users w)). unfold exists_user. cbn. eexists. by apply lookup_insert_row. }
  exists (merge_user t t None u0), (set_aticks (S (aticks w3)) (set_bindings db w3)), b.
  split; [|split_and!; try done].
  - rewrite (bind_run _ _ w1 b (set_aticks (S (aticks w3)) (set_bindings db w3))); [done|]. unfold bindWalletToUser. rewrite bind_gets.
    change (findBinding pk w1) with (findBinding pk w). rewrite Hfree.
    rewrite (bind_run _ _ w1 tt w2) by done. by rewrite (bind_run _ _ w2 (clock_at (aticks w2)) w3) by done.
  - apply lookup_fresh.
  - change (users (set_aticks _ _)) with (write t u0 (users w)). change (us_id _) with uid. unfold uid.
    rewrite lookup_insert_row by done. destruct (user_written t None u0) as [up ->]. by exists up.
  - intros x. change (users (set_aticks _ _)) with (write t u0 (users w)). rewrite elem_of_insert by done.
    intros [->|Hx]; [left|by right]. by destruct (user_written t None u0) as [up ->].
  - intros x. change (bindings (set_aticks _ _)) with db. rewrite Hrows.
    change (bindings w3) with (bindings w2). by rewrite Hclear.
Qed.

Lemma keeps_loginUser pk :
  keeps accounts_ok (found ← gets (findUserByWallet pk); loginUser pk found : eff W User) anything.
Proof.
  intros w Hacc. pose proof Hacc as [Hok Hone]. split; [|done]. rewrite bind_gets.
  destruct (findUserByWallet pk w) as [u|] eqn:Hf; [done|]. cbn [loginUser].
  destruct (createUser_run pk w) as (u & w' & b & Hrun & _ & Hnew & (t & Hu) & Husers & Hpk & Hbu & Hbp & Hrows);
    [done|by apply findUserByWallet_None|].
  rewrite (bind_run _ _ _ _ _ Hrun).
  assert (accounts_ok w') as Hacc'; [|by apply (quiet_keeps _ (quiet_logAction _ _ _ _) w')].
  split; [pose proof (moves_createUser pk w) as Hl; rewrite Hrun in Hl; by apply (later_ok _ _ Hl)|].
  assert (∀ x, x ∈ rows (bindings w) → wb_userId x ≠ us_id u) as Hnone.
  { intros x Hx Heq. destruct Hok as (_&(_&Hfb)&_). destruct (Hfb x Hx) as [y Hy]. congruence. }
  intros x Hx. destruct (decide (us_id x = us_id u)) as [->|Hne].
  - exists b. split; [split_and!; [apply Hrows; by left|done|done]|].
    intros b' ([->|Hb']%Hrows & Hbu' & _); [done|]. by destruct (Hnone b').
  - destruct (Husers x Hx) as [|Hx']; [done|]. destruct (Hone x Hx') as (b0 & (Hb0 & ? & ?) & Hun).
    exists b0. split; [split_and!; [apply Hrows; by right|done|done]|].
    intros b' ([->|Hb']%Hrows & Hbu' & ?); [congruence|by apply Hun].
Qed.

(** ** Binding and unbinding *)

Lemma keeps_bindSecondary pk userId : keeps accounts_ok (bindWalletToUser pk userId false : eff W _) anything.
Proof.
  intros w [Hok Hone]. split; [|done]. split; [by apply (later_ok _ _ (moves_bindWallet pk userId false w))|].
  unfold bindWalletToUser. rewrite bind_gets. destruct (findBinding pk w) as [b|] eqn:Hfree; [done|].
  rewrite bind_mret, (bind_run _ _ w (clock_at (aticks w)) (advance w)) by done.
  destruct (lookup_row userId (users w)) as [u|] eqn:Hu.
  - destruct (insertBinding_run pk userId false (clock_at (aticks w)) (advance w)) as (b & db & -> & _ & _ & Hp & Hrows);
      [done|by exists u|].
    apply (one_primary_same w); [done| |done]. intros x Hx. cbn. rewrite Hrows. split; [|by right].
    intros [->|?]; [congruence|done].
  - unfold insertBinding, saveBinding. cbn. destruct (taken _ _ _); [done|]. by rewrite Hu.
Qed.

Lemma owned_count w userId b : b ∈ rows (bindings w) → wb_userId b = userId →
  count_where (λ b, wb_userId b = userId) (bindings w) ≠ 1%Z →
  ∃ b', b' ∈ rows (bindings w) ∧ wb_userId b' = userId ∧ wb_id b' ≠ wb_id b.
Proof.
  intros Hb Hu Hc. unfold count_where in Hc.
  assert (b ∈ find_where (λ b, wb_userId b = userId) (bindings w)) as Hin by by apply elem_of_find_where.
  destruct (decide (Exists (λ b', wb_id b' ≠ wb_id b) (find_where (λ b, wb_userId b = userId) (bindings w)))) as [He|Hn].
  - apply Exists_exists in He as (b' & Hb' & Hne). apply elem_of_find_where in Hb' as [??]. by exists b'.
  - exfalso. apply Hc. assert (find_where (λ b, wb_userId b = userId) (bindings w) ≡ₚ [b]) as ->; [|done].
    apply NoDup_Permutation; [apply NoDup_find_where|apply NoDup_singleton|]. intros x. rewrite list_elem_of_singleton. split; [|by intros ->].
    intros Hx. pose proof Hx as [_ Hxr]%elem_of_find_where. apply (rows_id_inj (bindings w)); [done|done|]. rewrite !binding_row_id.
    destruct (decide (wb_id x = wb_id b)) as [|Hne]; [done|]. destruct Hn. apply Exists_exists. by exists x.
Qed.

(** Another wallet of the user becomes primary when none is. *)
Lemma promoteAnother_run userId w : tables_ok w →
  (∃ b, b ∈ rows (bindings w) ∧ wb_userId b = userId) →
  ∃ b w', promoteAnother userId w = (Return tt, w') ∧ users w' = users w ∧ b ∈ rows (bindings w) ∧ wb_userId b = userId ∧
    ∀ x, x ∈ rows (bindings w') ↔ x = set_wb_isPrimary true b ∨ (x ∈ rows (bindings w) ∧ wb_id x ≠ wb_id b).
Proof.
  intros (_&(Hub&Hfb)&_) (b0 & Hb0 & Hu0). unfold promoteAnother. rewrite bind_gets.
  destruct (findOne_where _ (bindings w)) as [b|] eqn:Hf.
  2: { rewrite findOne_where_None in Hf. by destruct (Hf b0). }
  unfold findOne_where in Hf. apply array_find_Some in Hf as [Hb Hu]. exists b.
  set (b' := set_wb_isPrimary true b).
  assert (lookup_row (wb_id b) (bindings w) = Some b) as Hl by (apply lookup_row_elem; by rewrite binding_row_id).
  assert (taken wb_publicKey b' (bindings w) = false) as Ht.
  { apply bool_decide_eq_false_2. intros (x & Hx & Hne & Hk)%Exists_exists. rewrite !binding_row_id in Hne.
    apply Hne. by rewrite (Hub x b). }
  destruct (Hfb b Hb) as [u Hlu]. eexists. split.
  - erewrite bind_run; [reflexivity|]. unfold saveBinding. rewrite Ht. cbn. rewrite Hlu. reflexivity.
  - split_and!; [done..|]. intros x. cbn. rewrite elem_of_write, binding_row_id, binding_written. change (wb_id b') with (wb_id b).
    rewrite Hl, binding_row_id. unfold merge_binding, created_at. subst b'. cbn. destruct b as [????? [l|]]; done.
Qed.

Lemma keeps_unbindWallet pk userId : keeps accounts_ok (unbindWallet pk userId : eff W _) anything.
Proof.
  intros w [Hok Hone]. split; [|done]. split; [by apply (later_ok _ _ (moves_unbindWallet pk userId w))|].
  unfold unbindWallet. rewrite bind_gets. destruct (findOwned pk userId w) as [b|] eqn:Hf; [|done].
  unfold findOwned, findOne_where in Hf. apply array_find_Some in Hf as [Hb [_ Hu]].
  cbn [checkUnbind]. rewrite bind_mret, bind_gets. unfold checkWalletCount. case_bool_decide as Hc; [done|].
  rewrite bind_mret. set (w1 := (removeBinding b w).2). rewrite (bind_run _ _ w tt w1) by done.
  assert (∀ x, x ∈ rows (bindings w1) ↔ x ∈ rows (bindings w) ∧ wb_id x ≠ wb_id b) as Hrows.
  { intros x. unfold w1. cbn. rewrite elem_of_drop. by rewrite binding_row_id. }
  destruct (wb_isPrimary b) eqn:Hp.
  - destruct (owned_count w userId b) as (b1 & Hb1 & Hu1 & Hne1); [done..|].
    destruct (promoteAnother_run userId w1) as (b2 & w' & Hrun & Husers & Hb2 & Hu2 & Hrows').
    { by apply (later_ok _ _ (moves_removeBinding b w)). }
    { exists b1. split; [by apply Hrows|done]. }
    rewrite Hrun. cbn. apply Hrows in Hb2 as [Hb2 Hne2]. intros u Hin. rewrite Husers in Hin.
    destruct (Hone u Hin) as (b0 & (Hb0 & Hbu0 & Hbp0) & Hun). destruct (decide (us_id u = userId)) as [Heq|Hneu].
    + assert (b = b0) as <- by (apply Hun; split_and!; [done|congruence|done]).
      exists (set_wb_isPrimary true b2). split; [split_and!; [apply Hrows'; by left|cbn; congruence|done]|].
      intros b' ([->|[[Hb' Hne']%Hrows _]]%Hrows' & ? & ?); [done|].
      destruct Hne'. by rewrite (Hun b') by (split_and!; [done|congruence|done]).
    + exists b0. split; [split_and!; try done|].
      * apply Hrows'. right. split; [apply Hrows; split; [done|]|].
        -- intros Heq. assert (b0 = b) by (apply (rows_id_inj (bindings w)); rewrite ?binding_row_id; done). congruence.
        -- intros Heq. assert (b0 = b2) by (apply (rows_id_inj (bindings w)); rewrite ?binding_row_id; done). congruence.
      * intros b' ([->|[[Hb' _]%Hrows _]]%Hrows' & Hbu' & ?); [cbn in Hbu'; congruence|by apply Hun].
  - apply (one_primary_same w); [done| |done]. intros x Hx. etrans; [apply (Hrows x)|]. split; [by intros []|].
    intros Hxr. split; [done|]. intros Heq. assert (x = b) by (apply (rows_id_inj (bindings w)); rewrite ?binding_row_id; done).
    congruence.
Qed.

(** ** Every request *)

Lemma keeps_guarded {A} bearer (handler : string → eff W A) :
  (∀ id, keeps accounts_ok (handler id) anything) → keeps accounts_ok (guarded bearer handler) anything.
Proof. intros Hh. eapply keeps_bind; [apply quiet_keeps, quiet_jwtAuthGuard|]. auto. Qed.

Lemma keeps_checkSignature pk sig n : keeps accounts_ok (checkSignature pk sig n : eff W _) anything.
Proof. unfold checkSignature. case_match; [apply keeps_throw|by apply keeps_ret]. Qed.

Lemma keeps_walletLogin pk sig n : keeps accounts_ok (walletLogin pk sig n : eff W _) anything.
Proof.
  unfold walletLogin. eapply keeps_bind; [apply quiet_keeps, quiet_validateNonce|]. intros _ _.
  eapply keeps_bind; [apply keeps_checkSignature|]. intros _ _. unfold completeLogin.
  eapply keeps_bind; [apply quiet_keeps, quiet_markNonceUsed|]. intros _ _.
  apply keeps_assoc. eapply keeps_bind; [apply keeps_loginUser|]. intros u _.
  eapply keeps_bind; [apply keeps_updateLastUsed|]. intros _ _.
  apply quiet_keeps. moves_tac.
Qed.

Lemma keeps_bind_request bearer pk sig n : keeps accounts_ok (bindWallet bearer pk sig n : eff W _) anything.
Proof.
  apply keeps_guarded. intros id. eapply keeps_bind; [apply quiet_keeps, quiet_validateNonce|]. intros _ _.
  eapply keeps_bind; [apply keeps_checkSignature|]. intros _ _.
  eapply keeps_bind; [apply quiet_keeps, quiet_markNonceUsed|]. intros _ _.
  eapply keeps_bind; [apply keeps_bindSecondary|]. intros b _. by apply keeps_ret.
Qed.

Lemma accounts_ok_serve r w : accounts_ok w → accounts_ok (serve r w).
Proof.
  intros Hw. assert (∀ A (m : eff W A), keeps accounts_ok m anything → accounts_ok (m w).2) as Hk by (intros A m Hm; by apply Hm).
  destruct r; apply Hk.
  - apply quiet_keeps, quiet_generateNonce.
  - apply keeps_walletLogin.
  - apply quiet_keeps, quiet_refreshToken.
  - apply quiet_keeps, quiet_logout.
  - apply quiet_keeps, quiet_jwtAuthGuard.
  - apply keeps_bind_request.
  - apply keeps_guarded. intros id. apply keeps_unbindWallet.
  - apply quiet_keeps, quiet_createApiToken.
  - apply quiet_keeps, quiet_list.
  - apply quiet_keeps, quiet_revokeApiToken.
  - apply quiet_keeps, quiet_apiTokenGuard.
  - apply quiet_keeps, quiet_auditLogs.
  - apply quiet_keeps, quiet_cleanup.
Qed.

(** C7: accounts stay well-formed.  Whatever requests are served, one after the other, the nonces,
    refresh tokens, API tokens and public keys of the tables stay distinct, every row that belongs
    to a user belongs to one that exists, and every user keeps exactly one primary wallet: a wallet
    is never unbound without another one taking its place. *)
Theorem accounts_ok_reachable w w' : rtc auth_step w w' → accounts_ok w → accounts_ok w'.
Proof. induction 1 as [w|w1 w2 w3 [r w] _ IH]; [done|]. intros Hw. by apply IH, accounts_ok_serve. Qed.
End WalletFacts.
