(* ===== verification/AuthTokens.v ===== *)
(** What the tokens of the authentication module are good for: whom an access token stands for,
    which API tokens a guard accepts, how long they live, and who can read the audit log. *)
From S2P Require Import Prelude Json Repository AuthTypes Nonces Wallets JwtAuth ApiTokens AuthController.
From S2P Require Import AuthFacts AuthSafety AuthWallets.

Section Tokens.
Context {DBN DBU DBB DBR DBA DBL : Type} `{!NonceTable DBN, !UserTable DBU, !BindingTable DBB}.
Context `{!RefreshTable DBR, !ApiTable DBA, !LogTable DBL}.
Context `{CLK : Clock, CRY : Crypto, SIG : Signatures, JWT : Jwt, BC : Bcrypt, CFG : AuthConfig}.
Local Abbreviation W := (AuthWorld DBN DBU DBB DBR DBA DBL).
Implicit Types (w : W).

(** ** Access tokens *)

Lemma findUser_row pk w b u : tables_ok w → b ∈ rows (bindings w) → wb_publicKey b = pk →
  lookup_row (wb_userId b) (users w) = Some u → findUserByWallet pk w = Some u.
Proof.
  intros (_&(Hub&_)&_) Hb Hpk Hu. unfold findUserByWallet, findBinding, findOne_where.
  destruct (array_find _ _) as [b'|] eqn:Hf.
  - apply array_find_Some in Hf as [Hb' Hpk']. by rewrite (Hub b' b) by congruence.
  - by destruct (array_find_None _ _ b Hf Hb).
Qed.

Lemma findUser_Some pk w u : findUserByWallet pk w = Some u →
  ∃ b, b ∈ rows (bindings w) ∧ wb_publicKey b = pk ∧ lookup_row (wb_userId b) (users w) = Some u.
Proof.
  unfold findUserByWallet, findBinding, findOne_where. destruct (array_find _ _) as [b|] eqn:Hf; [|done].
  apply array_find_Some in Hf as [Hb Hpk]. intros Hu. by exists b.
Qed.

Lemma lookup_user_id id (db : DBU) u : lookup_row id db = Some u → us_id u = id.
Proof. intros H. apply lookup_row_id in H. by rewrite user_row_id in H. Qed.

(** The user of a login: the owner of the wallet, or a new active user. *)
Lemma loginUser_spec pk w u w' : tables_ok w →
  (found ← gets (findUserByWallet pk); loginUser pk found : eff W User) w = (Return u, w') →
  ∃ u', lookup_row (us_id u) (users w') = Some u' ∧ findUserByWallet pk w' = Some u' ∧
    match findUserByWallet pk w with
    | Some u0 => u' = u0 ∧ w' = w
    | None => us_isActive u' = true ∧ lookup_row (us_id u) (users w) = None
    end.
Proof.
  intros Hok. rewrite bind_gets. destruct (findUserByWallet pk w) as [u0|] eqn:Hf; cbn [loginUser].
  { intros [= <- <-]. destruct (findUser_Some _ _ _ Hf) as (b & _ & _ & Hu). exists u0.
    by rewrite (lookup_user_id _ _ _ Hu) in *. }
  destruct (createUser_run pk w) as (u1 & w1 & b & Hrun & Ha & Hnew & (t & Hu) & _ & Hpk & Hbu & _ & Hrows);
    [done|by apply findUserByWallet_None|].
  rewrite (bind_run _ _ _ _ _ Hrun). intros [= <- <-]. exists (set_us_updatedAt t u1). split; [done|]. split; [|done].
  pose proof (moves_createUser pk w) as Hl. rewrite Hrun in Hl. apply (findUser_row pk w1 b).
  - by apply (later_ok _ _ Hl).
  - apply Hrows. by left.
  - done.
  - by rewrite Hbu.
Qed.

Lemma findUser_later pk w w' u : later w w' → tables_ok w → bindings w' = bindings w →
  findUserByWallet pk w = Some u → findUserByWallet pk w' = Some u.
Proof.
  intros Hl Hok Hb Hu. destruct (findUser_Some _ _ _ Hu) as (b & Hin & Hpk & Hu').
  apply (findUser_row _ _ b); [by apply (later_ok _ _ Hl)|by rewrite Hb|done|].
  by destruct (later_users _ _ Hl _ _ Hu') as (? & ? & <-).
Qed.

Lemma findUser_lastUsed pk w u : tables_ok w → findUserByWallet pk w = Some u →
  findUserByWallet pk (updateLastUsed pk w).2 = Some u.
Proof.
  intros Hok Hu. destruct (findUser_Some _ _ _ Hu) as (b & Hin & Hpk & Hu').
  set (b' := set_wb_lastUsed (Some (clock_at (aticks w))) b).
  apply (findUser_row _ _ b'); [by apply (later_ok _ _ (moves_updateLastUsed pk w))| |done|done].
  assert (bindings (updateLastUsed pk w).2 = update_where (λ b, wb_publicKey b = pk)
    (set_wb_lastUsed (Some (clock_at (aticks w)))) (clock_at (S (aticks w))) (bindings w)) as -> by done.
  apply elem_of_update_where; [by intros; rewrite !binding_row_id|]. exists b. split; [done|].
  rewrite decide_True by done. by rewrite binding_written.
Qed.

Lemma moves_loginUser pk found : moves later (loginUser pk found : eff W _).
Proof. unfold loginUser. moves_tac. Qed.

(** What the guard makes of the access token of a user. *)
Definition stands_for (u : User) (token : string) w : Prop :=
  (jwtAuthGuard (Some token) w).1 =
    if us_isActive u then Return (u, userWallets (us_id u) w)
    else Throw (UnauthorizedException "User account is inactive").

(** The guard on a token that is still alive, for a user that is there. *)
Lemma jwtAuthGuard_run `{!JwtLaws} t id o w u : lookup_row id (users w) = Some u →
  (t ≤ clock_at (aticks w) < t + lifetime access_expiration)%Z →
  (jwtAuthGuard (Some (jwt_sign t (mkJwtPayload id o) access_expiration)) w).1 =
    if us_isActive u then Return (u, userWallets id w) else Throw (UnauthorizedException "User account is inactive").
Proof.
  intros Hu Ht. unfold jwtAuthGuard. rewrite (bind_run _ _ w (clock_at (aticks w)) (advance w)) by done.
  rewrite verify_sign by done. unfold jwt_validate. rewrite !bind_gets. cbn [jp_sub users set_aticks].
  change (users (advance w)) with (users w). rewrite Hu. cbn [activeUser]. by destruct (us_isActive u).
Qed.

(** a login stands for the owner of the wallet.  Whoever logs in with a wallet is its owner, or
    a new active user when it has none; and as long as the access token lives, whatever requests
    come in between, the guard takes it for exactly that user, unless the user is inactive: the
    login does not look at that, but the guard does. *)
Theorem login_authenticates `{!JwtLaws} pk sig nonce w res w1 : tables_ok w →
  walletLogin pk sig nonce w = (Return res, w1) →
  ∃ u i, aticks w ≤ i < aticks w1 ∧ findUserByWallet pk w1 = Some u ∧ lr_id res = us_id u ∧
    match findUserByWallet pk w with
    | Some owner => u = owner
    | None => us_isActive u = true ∧ lookup_row (us_id u) (users w) = None
    end ∧
    ∀ w2, rtc auth_step w1 w2 → (clock_at i ≤ clock_at (aticks w2) < clock_at i + lifetime access_expiration)%Z →
      stands_for u (lr_accessToken res) w2.
Proof.
  intros Hok Hlogin. unfold walletLogin, completeLogin in Hlogin.
  apply bind_returned in Hlogin as (r & wa & Hv & (? & wb & Hs & (? & wc & Hm & Hrest)%bind_returned)%bind_returned).
  rewrite bind_assoc in Hrest.
  apply bind_returned in Hrest as (u & wd & Hu & Hrest).
  assert (quiet w wc) as [Hc [Hbc Huc]].
  { unfold checkSignature in Hs. destruct (verifySignature _ _ _); [|done]. injection Hs as _ <-.
    pose proof (quiet_validateNonce nonce pk w) as Hq. rewrite Hv in Hq. etrans; [exact Hq|].
    pose proof (quiet_markNonceUsed nonce wa) as Hq'. rewrite Hm in Hq'. exact Hq'. }
  assert (findUserByWallet pk wc = findUserByWallet pk w) as Hfc by (unfold findUserByWallet, findBinding; by rewrite Hbc, Huc).
  destruct (loginUser_spec pk wc u wd) as (u' & Hlu & Hfd & Hcase); [by apply (later_ok _ _ Hc)|done|].
  assert (later w wd) as Hd.
  { etrans; [exact Hc|]. rewrite bind_gets in Hu. pose proof (moves_loginUser pk (findUserByWallet pk wc) wc) as Hq.
    by rewrite Hu in Hq. }
  pose proof (later_ok _ _ Hd Hok) as Hokd.
  apply bind_returned in Hrest as (? & we & Hl & Hrest). apply (f_equal snd) in Hl. cbn [snd] in Hl. subst we.
  set (we := (updateLastUsed pk wd).2) in *.
  assert (later wd we) as He by apply moves_updateLastUsed. pose proof (later_ok _ _ He Hokd) as Hoke.
  apply bind_returned in Hrest as (tok & wf & Ha & (rd & wg & Hr & Hret)%bind_returned).
  injection Ha as <- <-. injection Hret as <- <-. set (wf := advance we) in *.
  assert (quiet wf wg) as [H6 [Hb6 Hu6]].
  { apply (f_equal snd) in Hr. cbn [snd] in Hr. rewrite <-Hr. apply quiet_generateRefreshToken. }
  assert (quiet we wg) as [H1 [Hb1 _]].
  { etrans; [|split; [exact H6|by split]].
    split; [apply (later_tick we (S (aticks we))); lia|done]. }
  exists u', (aticks we). cbn [lr_id lr_accessToken login_response].
  rewrite (lookup_user_id _ _ _ Hlu). split_and!; [| | |done| |].
  - apply later_ticks. by etrans.
  - pose proof (later_ticks _ _ H6). change (aticks wf) with (S (aticks we)) in *. lia.
  - apply (findUser_later _ we); [done..|]. by apply findUser_lastUsed.
  - rewrite Hfc, Huc in Hcase. by destruct (findUserByWallet pk w) as [owner|]; [destruct Hcase|].
  - intros w2 H2%later_reachable Ht. unfold stands_for. rewrite (lookup_user_id _ _ _ Hlu). apply jwtAuthGuard_run; [|done].
    destruct (later_users wd w2) with (us_id u) u' as (? & ? & <-); [|done|done].
    etrans; [exact He|]. by etrans.
Qed.

(** ** API tokens *)

Definition good_until (expiresAt : option Z) (now : Z) : Prop :=
  match expiresAt with Some t => (now ≤ t)%Z | None => True end.

Lemma acceptToken_returned a o w d w' : acceptToken a o w = (Return d, w') →
  good_until (at_expiresAt a) (clock_at (aticks w)) ∧ (∃ u, o = Some u ∧ us_isActive u = true) ∧
  d = mkApiTokenData (at_userId a) (at_role a) (at_id a).
Proof.
  unfold acceptToken. intros (x & w1 & He & Hrest)%bind_returned. split; [|].
  - unfold good_until. destruct (at_expiresAt a) as [t|]; [|done].
    rewrite (bind_run _ _ w (clock_at (aticks w)) (advance w)) in He by done. case_bool_decide; [done|lia].
  - destruct o as [u|]; [|done]. destruct (us_isActive u) eqn:Hu; cbn in Hrest; [|done].
    injection Hrest as <- <-. split; [by exists u|done].
Qed.

Lemma tryTokens_returned s l w d w' : tryTokens s l w = (Return d, w') →
  ∃ a o, (a, o) ∈ l ∧ bcrypt_compare s (at_token a) = true ∧ acceptToken a o w = (Return d, w').
Proof.
  induction l as [|[a o] l IH]; cbn [tryTokens]; [done|]. destruct (bcrypt_compare _ _) eqn:Hc.
  - intros H. exists a, o. split; [left|done].
  - intros (a' & o' & ? & ?)%IH. exists a', o'. split; [by right|done].
Qed.

Lemma tryTokens_only s l w a o : (a, o) ∈ l → bcrypt_compare s (at_token a) = true →
  (∀ a' o', (a', o') ∈ l → bcrypt_compare s (at_token a') = true → (a', o') = (a, o)) →
  tryTokens s l w = acceptToken a o w.
Proof.
  induction l as [|[a1 o1] l IH]; intros Hin Hc Honly; [by apply elem_of_nil in Hin|]. cbn [tryTokens].
  destruct (bcrypt_compare s (at_token a1)) eqn:Hc1.
  - pose proof (Honly a1 o1 ltac:(left) Hc1) as [= -> ->]. done.
  - apply elem_of_cons in Hin as [[= -> ->]|Hin]; [congruence|]. apply IH; [done..|]. intros a' o' ?. apply Honly. by right.
Qed.

Lemma elem_of_liveTokens a o w : (a, o) ∈ liveTokens w ↔
  a ∈ rows (apiTokens w) ∧ at_revoked a = false ∧ o = lookup_row (at_userId a) (users w).
Proof.
  unfold liveTokens. rewrite list_elem_of_fmap. split.
  - intros (x & [= -> ->] & Hx). apply elem_of_find_where in Hx as [??]. done.
  - intros (? & ? & ->). exists a. split; [done|]. by apply elem_of_find_where.
Qed.

(** What the guard has checked of a request that it lets through. *)
Lemma apiTokenGuard_returned h w p w' : apiTokenGuard h w = (Return p, w') →
  ∃ token a u, extractTokenFromHeader h = Some token ∧ a ∈ rows (apiTokens w) ∧
    bcrypt_compare token (at_token a) = true ∧ at_revoked a = false ∧ good_until (at_expiresAt a) (clock_at (aticks w)) ∧
    lookup_row (at_userId a) (users w) = Some u ∧ us_isActive u = true ∧ p = ApiTokenUser (at_userId a) (at_role a) (at_id a).
Proof.
  unfold apiTokenGuard. destruct (extractTokenFromHeader h) as [token|]; cbn [or_string]; [|done].
  destruct (bool_decide (token = EmptyString)) eqn:Hne; cbn; [done|]. rewrite Hne.
  intros (d & w1 & (l & w0 & [= <- <-] & Hrun)%bind_returned & [= <- <-])%(try_returned _ (λ _, _))%bind_returned.
  apply tryTokens_returned in Hrun as (a & o & Hin & Hc & Ha). apply elem_of_liveTokens in Hin as (Hr & Hrev & ->).
  apply acceptToken_returned in Ha as (Hg & (u & Hu & Hact) & ->). by exists token, a, u.
Qed.

(** a revoked API token opens nothing.  The guard lets a request through only with a token that
    matches the hash of a row that is not revoked and not expired, for an active user, and gives
    the request the user and role of that row; and once a user has revoked a token, whatever
    requests come in between, the guard never again stands for that token. *)
Theorem api_token_revoked bearer id w w1 w2 h p w3 :
  controller_revokeApiToken bearer id w = (Return tt, w1) → rtc auth_step w1 w2 →
  apiTokenGuard h w2 = (Return p, w3) →
  ∃ token a u, extractTokenFromHeader h = Some token ∧ a ∈ rows (apiTokens w2) ∧ at_id a ≠ id ∧
    bcrypt_compare token (at_token a) = true ∧ at_revoked a = false ∧ good_until (at_expiresAt a) (clock_at (aticks w2)) ∧
    lookup_row (at_userId a) (users w2) = Some u ∧ us_isActive u = true ∧ p = ApiTokenUser (at_userId a) (at_role a) (at_id a).
Proof.
  intros (user & wa & _ & (o & wb & [= <- <-] & Hrev)%bind_returned)%bind_returned Hreach%later_reachable Hg.
  apply apiTokenGuard_returned in Hg as (token & a & u & ? & Ha & ? & Hna & ? & ? & ? & ?). exists token, a, u.
  split_and!; try done. intros <-. unfold findOne_where in Hrev.
  destruct (array_find _ _) as [a0|] eqn:Hf; [|done]. apply array_find_Some in Hf as [Ha0 [Hid _]].
  assert (lookup_row (at_id a) (apiTokens wa) = Some a0) as Hl by (apply lookup_row_elem; by rewrite api_row_id).
  assert (∃ a1, lookup_row (at_id a) (apiTokens w1) = Some a1 ∧ at_revoked a1 = true) as (a1 & Ha1 & Hr1).
  { injection Hrev as <-. cbn [apiTokens set_apiTokens]. rewrite lookup_update_where, Hl by (intros; by rewrite !api_row_id).
    eexists. split; [done|]. rewrite decide_True by done. by rewrite api_written. }
  destruct (later_api _ _ Hreach _ _ Ha1) as (a2 & Ha2 & _ & _ & _ & _ & Hmono).
  assert (lookup_row (at_id a) (apiTokens w2) = Some a) as Hl2 by (apply lookup_row_elem; by rewrite api_row_id).
  rewrite Hl2 in Ha2. injection Ha2 as <-. rewrite Hmono in Hna; done.
Qed.

(** ** Lifetimes *)

Lemma getDate_range t : (1 ≤ getDate t ≤ 31)%Z.
Proof.
  unfold getDate, civil_from_days. cbv zeta. set (z := (t / ms_per_day + 719468)%Z). clearbody z.
  set (doe := (z mod 146097)%Z). assert (0 ≤ doe < 146097)%Z as Hdoe by (apply Z.mod_pos_bound; lia). clearbody doe.
  cbv beta iota. set (doy := (doe - _)%Z). assert (0 ≤ doy ≤ 365)%Z as Hdoy.
  { subst doy. Z.to_euclidean_division_equations. lia. }
  clearbody doy. Z.to_euclidean_division_equations. lia.
Qed.

Definition digits_value (digits : list Z) : Z := append_digits 0 digits.
Lemma append_digits_value digits n : append_digits n digits = (n * 10 ^ Z.of_nat (length digits) + digits_value digits)%Z.
Proof.
  unfold digits_value. revert n. induction digits as [|d l IH]; intros n; cbn [append_digits foldl length]; [cbn; lia|].
  unfold append_digits in *. rewrite (IH (10 * n + d)%Z), (IH (10 * 0 + d)%Z).
  rewrite Nat2Z.inj_succ, Z.pow_succ_r by lia. lia.
Qed.

(** the default lifetime of an API token.  A token for a number of days lives that long, and
    without the variable the default is 90 days; but a default of the environment is a text that
    [+] appends to the day of the month.  With the setting 90 a token made on day [d] of a month
    lives [99 * d + 90] days, between 189 and 3159. *)
Theorem createApiToken_expiry userId name role days w res w' :
  createApiToken userId name role days w = (Return res, w') →
  ∃ e, ac_expiresAt res = Some e ∧ let now := clock_at (3 + aticks w) in
    (or_number days 0 ≠ 0 → e = now + or_number days 0 * ms_per_day)%Z ∧
    (or_number days 0 = 0 → match API_TOKEN_DEFAULT_EXPIRY_DAYS with
     | None => e = now + 90 * ms_per_day
     | Some digits =>
         e = now + (getDate now * (10 ^ Z.of_nat (length digits) - 1) + digits_value digits) * ms_per_day ∧
         (digits = [9; 0] → e = now + (99 * getDate now + 90) * ms_per_day ∧
                            now + 189 * ms_per_day ≤ e ≤ now + 3159 * ms_per_day)
     end)%Z.
Proof.
  unfold createApiToken.
  intros (u1 & wa & [= <- <-] & (u2 & wb & [= <- <-] & (hash & wc & [= <- <-] & (now & wd & [= <- <-] & Hrest)%bind_returned)%bind_returned)%bind_returned)%bind_returned.
  apply bind_returned in Hrest as (saved & we & Hs & [= <- <-]). cbn in Hs. unfold insertApiToken in Hs.
  destruct (taken _ _ _); [done|]. destruct (lookup_row _ _); [|done]. injection Hs as <- <-.
  cbn [ac_expiresAt at_expiresAt merge_api merge_column set_at_createdAt set_at_lastUsedAt set_at_expiresAt].
  eexists. split; [done|]. cbn zeta. set (now := clock_at _). unfold token_expiry, setDate, plus_days, default_days.
  pose proof (getDate_range now) as Hd. split; intros H0.
  - rewrite bool_decide_eq_true_2 by done. lia.
  - rewrite bool_decide_eq_false_2 by lia. destruct API_TOKEN_DEFAULT_EXPIRY_DAYS as [digits|]; [|lia].
    rewrite append_digits_value. split; [lia|]. intros ->.
    change (digits_value [9; 0])%Z with 90%Z. change (10 ^ Z.of_nat (length [9; 0]))%Z with 100%Z.
    unfold ms_per_day. lia.
Qed.

(** ** Roles *)

(** nobody reads the audit log.  The handler wants the role admin, but the user that the access
    token guard attaches has no role at all: whoever asks is turned away, by the first guard or by
    the second.  The role guard itself would let an API token with that role pass. *)
Theorem audit_logs_unreachable bearer page limit filter w :
  (auditLogsHandler bearer page limit filter w).1 =
    match (jwtAuthGuard bearer w).1 with
    | Return _ => Throw (ForbiddenException "User role not found")
    | Throw e => Throw e
    end ∧
  ∀ id tokenId, rolesGuard ["admin"] (Some (ApiTokenUser id "admin" tokenId)) = Return true.
Proof.
  split; [|done]. unfold auditLogsHandler, mbind, eff_bind. by destruct (jwtAuthGuard bearer w) as [[u|e] w1].
Qed.
End Tokens.
