(* ===== verification/AuthRaces.v ===== *)
(** Logins and unbindings that run side by side: the methods of the authentication module cut at
    their awaits, and what they can do to each other. *)
From S2P Require Import Prelude Async Json Repository AuthTypes Nonces Wallets JwtAuth ApiTokens AuthController.
From S2P Require Import AuthFacts AuthWallets AuthTokens.

Section Races.
Context {DBN DBU DBB DBR DBA DBL : Type} `{!NonceTable DBN, !UserTable DBU, !BindingTable DBB}.
Context `{!RefreshTable DBR, !ApiTable DBA, !LogTable DBL}.
Context `{CLK : Clock, CRY : Crypto, SIG : Signatures, JWT : Jwt, BC : Bcrypt, CFG : AuthConfig}.
Local Abbreviation W := (AuthWorld DBN DBU DBB DBR DBA DBL).
Local Abbreviation task := (task W).
Implicit Types (w : W) (b : WalletBinding).

(** ** The methods as tasks *)

Definition bindWalletToUser_task (publicKey userId : string) (isPrimary : bool) : task WalletBinding :=
  existingBinding ← atomic (gets (findBinding publicKey));
  match existingBinding with
  | Some _ => atomic (throw (ConflictException "Wallet already bound to an account"))
  | None =>
      (if isPrimary then atomic (clearPrimary userId) else mret tt) ;;
      now ← atomic date_now;
      atomic (insertBinding (λ id, mkWalletBinding id publicKey userId now isPrimary (Some now)))
  end.

Definition createUserWithWallet_task (publicKey : string) : task User :=
  savedUser ← atomic (insertUser (λ id, mkUser id None None 0 0 true));
  bindWalletToUser_task publicKey (us_id savedUser) true ;;
  mret savedUser.

Definition loginUser_task (publicKey : string) (user : option User) : task User :=
  match user with
  | Some u => mret u
  | None =>
      u ← createUserWithWallet_task publicKey;
      atomic (logAction "USER_CREATED" (us_id u) (Some (us_id u)) (Some [("wallet", JString publicKey)])) ;;
      mret u
  end.

Definition generateRefreshToken_task (userId : string) : task RefreshTokenData :=
  saved ← atomic (storeRefreshToken userId);
  user ← atomic (gets (λ w : W, lookup_row userId (users w)));
  atomic (logAction "REFRESH_TOKEN_CREATED" userId (Some (rt_id saved))
    (Some [("expiresAt", JString (iso_time (rt_expiresAt saved)))])) ;;
  mret (mkRefreshTokenData (rt_token saved) (rt_id saved) (rt_expiresAt saved)).

Definition completeLogin_task (publicKey nonce : string) : task LoginResponse :=
  atomic (markNonceUsed nonce) ;;
  found ← atomic (gets (findUserByWallet publicKey));
  user ← loginUser_task publicKey found;
  atomic (updateLastUsed publicKey) ;;
  accessToken ← atomic (generateAccessToken (us_id user) None);
  refreshTokenData ← generateRefreshToken_task (us_id user);
  mret (login_response accessToken refreshTokenData user).

Definition walletLogin_task (publicKey signature nonce : string) : task LoginResponse :=
  loginNonce ← atomic (gets (findNonce nonce publicKey));
  atomic (checkNonce loginNonce) ;;
  atomic (checkSignature publicKey signature nonce) ;;
  completeLogin_task publicKey nonce.

Definition finishUnbind_task (userId : string) b : task unit :=
  if wb_isPrimary b then
    anotherWallet ← atomic (gets (λ w : W, findOne_where (λ b, wb_userId b = userId) (bindings w)));
    match anotherWallet with
    | Some b => atomic (saveBinding (set_wb_isPrimary true b)) ;; mret tt
    | None => mret tt
    end
  else mret tt.

Definition unbindWallet_task (publicKey userId : string) : task unit :=
  found ← atomic (gets (findOwned publicKey userId));
  binding ← atomic (checkUnbind found);
  userWalletCount ← atomic (gets (λ w : W, count_where (λ b, wb_userId b = userId) (bindings w)));
  atomic (checkWalletCount userWalletCount) ;;
  atomic (removeBinding binding) ;;
  finishUnbind_task userId binding.

(** ** A task on its own does what the method does *)

Lemma run_completeLogin pk n w : run_task (completeLogin_task pk n) w = completeLogin pk n w.
Proof.
  unfold completeLogin_task, completeLogin, generateRefreshToken_task, generateRefreshToken. run_tac.
  unfold loginUser_task, loginUser, createUserWithWallet_task, createUserWithWallet, bindWalletToUser_task, bindWalletToUser.
  match goal with |- context [match ?o with Some _ => _ | None => _ end] => destruct o end; [done|]. run_tac.
Qed.

Lemma run_walletLogin pk sig n w : run_task (walletLogin_task pk sig n) w = walletLogin pk sig n w.
Proof.
  unfold walletLogin_task, walletLogin, validateNonce. rewrite <-bind_assoc. run_tac. apply run_completeLogin.
Qed.

Lemma run_unbindWallet pk userId w : run_task (unbindWallet_task pk userId) w = unbindWallet pk userId w.
Proof.
  unfold unbindWallet_task, finishUnbind_task, unbindWallet, promoteAnother. run_tac.
  match goal with |- context [match ?o with Some _ => _ | None => _ end] => destruct o end; run_tac.
Qed.

(** ** One nonce, two logins *)

(** Every refresh token of the table was drawn before now. *)
Definition tokens_drawn w : Prop :=
  ∀ r, r ∈ rows (refreshTokens w) → ∃ i, i < aticks w ∧ rt_token r = uuid_at i.

Lemma storeRefreshToken_run `{!Inj (=) (=) uuid_at} userId w u : tokens_drawn w →
  lookup_row userId (users w) = Some u →
  ∃ r db, storeRefreshToken userId w = (Return r, set_aticks (3 + aticks w) (set_refreshTokens db w)) ∧
    rt_token r = uuid_at (aticks w) ∧ rt_userId r = userId ∧ rt_revoked r = false ∧
    ∀ x, x ∈ rows db ↔ x = r ∨ x ∈ rows (refreshTokens w).
Proof.
  intros Hd Hu. unfold storeRefreshToken.
  rewrite (bind_run _ _ w (uuid_at (aticks w)) (advance w)) by done.
  rewrite (bind_run _ _ (advance w) (clock_at (aticks (advance w))) (advance (advance w))) by done. cbv beta zeta.
  unfold insertRefreshToken. set (w2 := advance (advance w)). set (r := mkRefreshToken _ _ _ _ _ _ _).
  assert (row_id r = fresh_id (refreshTokens w2)) as Hr by by rewrite refresh_row_id.
  assert (taken rt_token r (refreshTokens w2) = false) as ->.
  { apply bool_decide_eq_false_2. intros (x & Hx & _ & Hk)%Exists_exists. destruct (Hd x Hx) as (i & Hi & Hxi).
    assert (i = aticks w) by (apply (inj uuid_at); rewrite <-Hxi, Hk; done). lia. }
  change (lookup_row (rt_userId r) (users w2)) with (lookup_row userId (users w)). rewrite Hu.
  do 2 eexists. split; [reflexivity|]. split_and!; [done..|]. intros x. rewrite elem_of_insert by done. by rewrite refresh_written.
Qed.

(** What follows the checks succeeds for the owner of a wallet, and stores a new refresh token. *)
Lemma completeLogin_run `{!Inj (=) (=) uuid_at} pk n w u : tables_ok w → tokens_drawn w →
  findUserByWallet pk w = Some u →
  ∃ res w' r, completeLogin pk n w = (Return res, w') ∧ tables_ok w' ∧ tokens_drawn w' ∧ findUserByWallet pk w' = Some u ∧
    rt_userId r = us_id u ∧ rt_revoked r = false ∧ lr_refreshToken res = rt_token r ∧ r ∉ rows (refreshTokens w) ∧
    ∀ x, x ∈ rows (refreshTokens w') ↔ x = r ∨ x ∈ rows (refreshTokens w).
Proof.
  intros Hok Hd Hu. unfold completeLogin. set (w1 := (markNonceUsed n w).2).
  rewrite (bind_run _ _ w tt w1), bind_gets by done. change (findUserByWallet pk w1) with (findUserByWallet pk w).
  rewrite Hu. cbn [loginUser]. rewrite bind_mret. set (w2 := (updateLastUsed pk w1).2).
  rewrite (bind_run _ _ w1 tt w2) by done.
  assert (later w w1) as H1 by apply moves_markNonceUsed. assert (later w1 w2) as H2 by apply moves_updateLastUsed.
  pose proof (later_ok _ _ H1 Hok) as Hok1. pose proof (later_ok _ _ H2 Hok1) as Hok2.
  assert (findUserByWallet pk w2 = Some u) as Hu2 by by apply findUser_lastUsed.
  destruct (findUser_Some _ _ _ Hu2) as (b & _ & _ & Hlu). pose proof (lookup_user_id _ _ _ Hlu) as Hid. rewrite <-Hid in Hlu.
  rewrite (bind_run _ _ w2 (jwt_sign (clock_at (aticks w2)) (mkJwtPayload (us_id u) None) access_expiration) (advance w2)) by done.
  set (w3 := advance w2). destruct (storeRefreshToken_run (us_id u) w3 u) as (r & db & Hstore & Htok & Hru & Hrev & Hrows).
  { intros x Hx. destruct (Hd x Hx) as (i & Hi & Hxi). exists i. split; [change (aticks w3) with (S (S (aticks w))); lia|done]. }
  { exact Hlu. }
  set (w4 := set_aticks (3 + aticks w3) (set_refreshTokens db w3)) in *.
  set (w5 := (logAction "REFRESH_TOKEN_CREATED" (us_id u) (Some (rt_id r))
    (Some [("expiresAt", JString (iso_time (rt_expiresAt r)))]) w4).2).
  assert (generateRefreshToken (us_id u) w3 = (Return (mkRefreshTokenData (rt_token r) (rt_id r) (rt_expiresAt r)), w5)) as Hgen.
  { unfold generateRefreshToken. by rewrite (bind_run _ _ _ _ _ Hstore). }
  rewrite (bind_run _ _ _ _ _ Hgen).
  assert (later w2 w5) as H5.
  { pose proof (moves_generateRefreshToken (us_id u) w3) as Hq. rewrite Hgen in Hq. etrans; [|exact Hq].
    apply (later_tick w2 (S (aticks w2))). lia. }
  assert (∀ x, x ∈ rows (refreshTokens w5) ↔ x = r ∨ x ∈ rows (refreshTokens w)) as Hrows' by exact Hrows.
  exists (login_response (jwt_sign (clock_at (aticks w2)) (mkJwtPayload (us_id u) None) access_expiration)
    (mkRefreshTokenData (rt_token r) (rt_id r) (rt_expiresAt r)) u), w5, r.
  split_and!; try done. 1: by apply (later_ok _ _ H5).
  - intros x [->|Hx]%Hrows'; [exists (aticks w3); split; [change (aticks w5) with (S (3 + aticks w3)); lia|done]|].
    destruct (Hd x Hx) as (i & Hi & ?). exists i. split; [change (aticks w5) with (6 + aticks w); lia|done].
  - intros Hx. destruct (Hd r Hx) as (i & Hi & Hxi). rewrite Htok in Hxi.
    assert (aticks w3 = i) as Heq by by apply (inj uuid_at). change (aticks w3) with (S (S (aticks w))) in Heq. lia.
Qed.

(** a nonce can log in twice after all, when two logins run side by side.  Both of them look the
    nonce up before either marks it as used; then both succeed, and the owner of the wallet has two
    new refresh tokens where the nonce was meant for one session. *)
Theorem nonce_double_login `{!Inj (=) (=) uuid_at} pk sig nonce w n u : tables_ok w → tokens_drawn w →
  findNonce nonce pk w = Some n → ln_used n = false →
  (clock_at (aticks w) ≤ ln_expiresAt n)%Z → (clock_at (S (aticks w)) ≤ ln_expiresAt n)%Z →
  verifySignature pk sig (login_message nonce) = true → findUserByWallet pk w = Some u →
  let login := walletLogin_task pk sig nonce ≫= λ _, mret tt in
  ∃ w' r1 r2, rtc pool_step ([login; login], w) ([Done (Return tt); Done (Return tt)], w') ∧
    r1 ≠ r2 ∧ r1 ∈ rows (refreshTokens w') ∧ r2 ∈ rows (refreshTokens w') ∧
    r1 ∉ rows (refreshTokens w) ∧ r2 ∉ rows (refreshTokens w) ∧
    rt_userId r1 = us_id u ∧ rt_userId r2 = us_id u ∧ rt_revoked r1 = false ∧ rt_revoked r2 = false.
Proof.
  intros Hok Hd Hn Hused Ht0 Ht1 Hver Hu login.
  set (rest := completeLogin_task pk nonce ≫= λ _ : LoginResponse, (mret tt : task unit)).
  set (w1 := advance w). set (w2 := advance w1).
  assert (∀ w', findNonce nonce pk w' = Some n → (clock_at (aticks w') ≤ ln_expiresAt n)%Z →
    checkNonce (Some n) w' = (Return n, advance w')) as Hcheck.
  { intros w' _ Ht. unfold checkNonce. rewrite Hused. rewrite (bind_run _ _ w' (clock_at (aticks w')) (advance w')) by done.
    by rewrite bool_decide_eq_false_2 by lia. }
  assert (∀ w', checkSignature pk sig nonce w' = (Return tt, w')) as Hsig.
  { intros w'. unfold checkSignature. by rewrite Hver. }
  assert (rtc pool_step ([login; login], w) ([rest; rest], w2)) as Hchecked.
  { assert (play [0; 0; 0; 1; 1; 1] ([login; login], w) = ([rest; rest], w2)) as <-; [|apply play_steps].
    erewrite play_piece by done. cbn [insert list_insert]. rewrite Hn.
    erewrite play_piece; [|done|by apply Hcheck]. cbn [insert list_insert].
    erewrite play_piece; [|done|by apply Hsig]. cbn [insert list_insert].
    erewrite play_piece by done. cbn [insert list_insert]. change (findNonce nonce pk (advance w)) with (findNonce nonce pk w). rewrite Hn.
    erewrite play_piece; [|done|by apply Hcheck]. cbn [insert list_insert].
    erewrite play_piece; [|done|by apply Hsig]. done. }
  assert (later w w2) as H2 by (apply (later_tick w (2 + aticks w)); lia).
  destruct (completeLogin_run pk nonce w2 u) as (res1 & w3 & r1 & Hrun1 & Hok3 & Hd3 & Hu3 & Hru1 & Hrev1 & _ & Hnew1 & Hrows1).
  { by apply (later_ok _ _ H2). }
  { intros x Hx. destruct (Hd x Hx) as (i & ? & ?). exists i. split; [cbn; lia|done]. }
  { done. }
  destruct (completeLogin_run pk nonce w3 u) as (res2 & w4 & r2 & Hrun2 & _ & _ & _ & Hru2 & Hrev2 & _ & Hnew2 & Hrows2); [done..|].
  assert (∀ w' res w'', completeLogin pk nonce w' = (Return res, w'') → run_task rest w' = (Return tt, w'')) as Hrest.
  { intros w' res w'' Hr. unfold rest. rewrite run_bind. rewrite (bind_run _ _ w' res w''); [done|]. by rewrite run_completeLogin. }
  exists w4, r1, r2. split_and!; try done.
  - etrans; [exact Hchecked|]. etrans; [apply (run_alone _ 0 rest w2); done|]. rewrite (Hrest _ _ _ Hrun1).
    cbn [insert list_insert fst snd]. etrans; [apply (run_alone _ 1 rest w3); done|]. rewrite (Hrest _ _ _ Hrun2). done.
  - intros ->. apply Hnew2, Hrows1. by left.
  - apply Hrows2. right. apply Hrows1. by left.
  - apply Hrows2. by left.
  - intros Hx. apply Hnew2, Hrows1. by right.
Qed.

(** ** The last two wallets of a user *)

(** What each of two unbindings finds when both look before either removes. *)
Lemma unbind_checks userId w b n : tables_ok w → b ∈ rows (bindings w) → wb_userId b = userId →
  count_where (λ b, wb_userId b = userId) (bindings w) = n → n ≠ 1%Z → ∀ i ts,
  ts !! i = Some (unbindWallet_task (wb_publicKey b) userId) →
  play [i; i; i; i] (ts, w) = (<[i := atomic (removeBinding b) ;; finishUnbind_task userId b]> ts, w).
Proof.
  intros (_&(Hub&_)&_) Hb Hu Hn Hne i ts Hi. assert (i < length ts) as Hlt by by eapply lookup_lt_Some.
  assert (findOwned (wb_publicKey b) userId w = Some b) as Hf.
  { unfold findOwned, findOne_where. destruct (array_find _ _) as [b'|] eqn:Hf.
    - apply array_find_Some in Hf as [Hb' [Hk _]]. f_equal. by apply Hub.
    - by destruct (array_find_None _ _ b Hf Hb). }
  erewrite play_piece; [|exact Hi|reflexivity]. rewrite Hf.
  erewrite play_piece; [|by apply list_lookup_insert_eq|reflexivity]. rewrite list_insert_insert_eq.
  erewrite play_piece; [|by apply list_lookup_insert_eq|reflexivity]. rewrite list_insert_insert_eq, Hn.
  erewrite play_piece; [|by apply list_lookup_insert_eq|].
  2: { unfold checkWalletCount. by rewrite bool_decide_eq_false_2. }
  by rewrite list_insert_insert_eq.
Qed.

Lemma count_two userId w b1 b2 : wb_id b1 ≠ wb_id b2 → (∀ b, b ∈ userWallets userId w ↔ b = b1 ∨ b = b2) →
  count_where (λ b, wb_userId b = userId) (bindings w) = 2%Z.
Proof.
  intros Hne Hw. unfold count_where. assert (userWallets userId w ≡ₚ [b1; b2]) as Hp.
  { apply NoDup_Permutation; [apply NoDup_find_where| |].
    - apply NoDup_cons. split; [|apply NoDup_singleton]. by intros ->%list_elem_of_singleton.
    - intros x. rewrite Hw. set_solver. }
  unfold userWallets in Hp. by rewrite Hp.
Qed.

Lemma finishUnbind_none userId b w : (∀ x, x ∈ rows (bindings w) → wb_userId x ≠ userId) →
  run_task (finishUnbind_task userId b) w = (Return tt, w).
Proof.
  intros Hnone. unfold finishUnbind_task. destruct (wb_isPrimary b); [|done]. rewrite run_bind.
  rewrite (bind_run _ _ w None w); [done|]. rewrite run_atomic. unfold gets. do 2 f_equal. by apply findOne_where_None.
Qed.

(** a user can lose the last wallet when two are unbound side by side.  Each of the two requests
    counts both wallets before the other removes one; both succeed, and the user is left without any
    wallet to log in with, although each request on its own would have refused to remove the last. *)
Theorem unbind_race w userId b1 b2 : tables_ok w → wb_id b1 ≠ wb_id b2 →
  (∀ b, b ∈ userWallets userId w ↔ b = b1 ∨ b = b2) →
  ∃ w', rtc pool_step ([unbindWallet_task (wb_publicKey b1) userId; unbindWallet_task (wb_publicKey b2) userId], w)
      ([Done (Return tt); Done (Return tt)], w') ∧
    userWallets userId w' = [] ∧ users w' = users w.
Proof.
  intros Hok Hne Hw. pose proof (count_two _ _ _ _ Hne Hw) as Hcount.
  assert (∀ b, b ∈ rows (bindings w) ∧ wb_userId b = userId ↔ b = b1 ∨ b = b2) as Hin.
  { intros b. rewrite <-Hw. unfold userWallets. rewrite elem_of_find_where. naive_solver. }
  destruct (proj2 (Hin b1)) as [H1 Hu1]; [by left|]. destruct (proj2 (Hin b2)) as [H2 Hu2]; [by right|].
  set (wa := (removeBinding b1 w).2). set (wz := (removeBinding b2 wa).2).
  assert (∀ x, x ∈ rows (bindings wz) → wb_userId x ≠ userId) as Hnone.
  { intros x Hx Hu. unfold wz, wa in Hx. cbn in Hx. rewrite !elem_of_drop, !binding_row_id in Hx.
    destruct Hx as [[Hx Hx1] Hx2]. by destruct (proj1 (Hin x)) as [-> | ->]. }
  exists wz. split; [|split; [|done]].
  - etrans; [apply (play_steps ([0; 0; 0; 0] ++ [1; 1; 1; 1] ++ [0; 1]))|]. rewrite !play_app.
    rewrite (unbind_checks userId w b1 2) by done. cbn [insert list_insert].
    rewrite (unbind_checks userId w b2 2) by done. cbn [insert list_insert].
    do 2 (erewrite play_piece by done; cbn [insert list_insert]).
    etrans; [apply (run_alone _ 0 (finishUnbind_task userId b1) wz); done|]. rewrite finishUnbind_none by done.
    etrans; [apply (run_alone _ 1 (finishUnbind_task userId b2) wz); done|]. by rewrite finishUnbind_none.
  - unfold userWallets. destruct (find_where _ (bindings wz)) as [|x l] eqn:Hl; [done|].
    assert (x ∈ find_where (λ b, wb_userId b = userId) (bindings wz)) as [Hu Hx]%elem_of_find_where by (rewrite Hl; left).
    by destruct (Hnone x Hx).
Qed.
End Races.
