(* ===== verification/ServerEdge.v ===== *)
(** The edge of the server: presence and rooms over sockets ([websocket/]), the guards that hand out
    access by token and role ([auth/guards/], [guards/], [auth/rbac.config.ts]) with the routes
    they guard, health checks ([health/]) and what [main.ts] demands of its environment. *)
From S2P Require Import Prelude Async Json JsonParse Redis Repository AuthTypes Nonces Wallets JwtAuth ApiTokens AuthController StellarTypes StellarConsumers StellarEvents WebhookDelivery StellarMonitor.
From Stdlib Require Import Ascii.
Open Scope Z_scope.

(** * [PresenceService] and [WebsocketGateway] *)

(** What is sent to everybody in a room; nobody is in a room whose name is no text. *)
Record Emission := mkEmission { em_room : option string; em_event : string; em_payload : jsval }.
(** [handshake.auth.userId] is what the client says it is; it may be missing. *)
Record GatewayClient := mkGatewayClient { cl_id : string; cl_userId : option string }.

Record GatewayWorld (DB : Type) := mkGatewayWorld {
  gw_redis : DB; gw_ticks : nat;
  gw_joined : gset (string * string);    (* socket, room: the rooms of the socket server *)
  gw_sent : list Emission }.
Arguments mkGatewayWorld {_} _ _ _ _.
Arguments gw_redis {_} _.
Arguments gw_ticks {_} _.
Arguments gw_joined {_} _.
Arguments gw_sent {_} _.
#[export] Instance GatewayWorld_redis DB : HasRedis DB (GatewayWorld DB) := {|
  redis := gw_redis; set_redis s w := mkGatewayWorld s (gw_ticks w) (gw_joined w) (gw_sent w) |}.
#[export] Instance GatewayWorld_ticking DB : Ticking (GatewayWorld DB) := {|
  tick := gw_ticks; advance w := mkGatewayWorld (gw_redis w) (S (gw_ticks w)) (gw_joined w) (gw_sent w) |}.
#[export] Instance GatewayWorld_lens DB : RedisLens DB (GatewayWorld DB).
Proof. by split. Qed.

Definition online_key : string := "presence:online".
Definition socket_key (userId : string) : string := "user:" +:+ userId +:+ ":socket".
Definition room_key (roomId : string) : string := "room:" +:+ roomId +:+ ":users".

Section Presence.
Context {DB : Type} `{!Redis DB, !RedisServer}.
Local Abbreviation W := (GatewayWorld DB).

(** The client of Redis refuses an argument that is no text. *)
Definition text_argument (s : option string) : eff W string :=
  match s with Some s => mret s | None => throw (TypeError "Invalid argument type") end.

Definition userConnected (userId : option string) (socketId : string) : eff W unit :=
  u ← text_argument userId;
  command (cmd_sAdd online_key u) ;;
  command (cmd_set (socket_key u) socketId).
Definition userDisconnected (userId : option string) : eff W unit :=
  u ← text_argument userId;
  command (cmd_sRem online_key u) ;;
  command (cmd_del [socket_key u]) ;; mret tt.
Definition presence_joinRoom (userId : option string) (roomId : string) : eff W unit :=
  u ← text_argument userId;
  command (cmd_sAdd (room_key roomId) u) ;; mret tt.
Definition getRoomUsers (roomId : string) : eff W (list string) := command (cmd_sMembers (room_key roomId)).

Definition gateway_handleConnection (client : GatewayClient) : eff W unit := userConnected (cl_userId client) (cl_id client).
Definition gateway_handleDisconnect (client : GatewayClient) : eff W unit := userDisconnected (cl_userId client).
Definition join_socket (client : GatewayClient) (roomId : string) : eff W unit :=
  modify (λ w, mkGatewayWorld (gw_redis w) (gw_ticks w) ({[(cl_id client, roomId)]} ∪ gw_joined w) (gw_sent w)).
Definition emit_to_room (e : Emission) : eff W unit :=
  modify (λ w, mkGatewayWorld (gw_redis w) (gw_ticks w) (gw_joined w) (gw_sent w ++ [e])).
Definition joinRoom (client : GatewayClient) (roomId : string) : eff W unit :=
  presence_joinRoom (cl_userId client) roomId ;;
  join_socket client roomId ;;
  users ← getRoomUsers roomId;
  emit_to_room (mkEmission (Some roomId) "presence:update" (JObject [("roomId", JString roomId); ("users", JArray (JString <$> users))])).
(** The payload, an object, is what the client sent, and is sent on as it is. *)
Definition message_room (payload : jsobj) : option string := match assoc "roomId" payload with Some (JString r) => Some r | _ => None end.
Definition gateway_handleMessage (client : GatewayClient) (payload : jsobj) : eff W unit :=
  emit_to_room (mkEmission (message_room payload) "message" (JObject payload)).
End Presence.

(** ** What presence promises

    Who is online, the last socket of each user, the users of each room, and what was sent. *)
Record Presence := mkPresence {
  pr_online : gset string; pr_socket : gmap string string; pr_rooms : gmap string (gset string);
  pr_joined : gset (string * string); pr_sent : list Emission }.
Definition room_of (r : string) (s : Presence) : gset string := default ∅ (pr_rooms s !! r).

Inductive gateway_event :=
| Connect (socketId userId : string)
| Disconnect (socketId userId : string)
| Join (socketId userId roomId : string)
| Say (socketId userId : string) (payload : jsobj).

Definition presence_step (e : gateway_event) (s : Presence) : Presence :=
  match e with
  | Connect socketId u => mkPresence ({[u]} ∪ pr_online s) (<[u := socketId]> (pr_socket s)) (pr_rooms s) (pr_joined s) (pr_sent s)
  | Disconnect _ u => mkPresence (pr_online s ∖ {[u]}) (delete u (pr_socket s)) (pr_rooms s) (pr_joined s) (pr_sent s)
  | Join socketId u r =>
      let users := {[u]} ∪ room_of r s in
      mkPresence (pr_online s) (pr_socket s) (<[r := users]> (pr_rooms s)) ({[(socketId, r)]} ∪ pr_joined s)
        (pr_sent s ++ [mkEmission (Some r) "presence:update" (JObject [("roomId", JString r); ("users", JArray (JString <$> elements users))])])
  | Say _ _ payload =>
      mkPresence (pr_online s) (pr_socket s) (pr_rooms s) (pr_joined s)
        (pr_sent s ++ [mkEmission (message_room payload) "message" (JObject payload)])
  end.

Section PresenceFacts.
Context {DB : Type} `{!Redis DB, !RedisLaws DB, !RedisServer, !RedisUp, !MonotoneServer}.
Local Abbreviation W := (GatewayWorld DB).

Definition gateway_step (e : gateway_event) : eff W unit :=
  match e with
  | Connect socketId u => gateway_handleConnection (mkGatewayClient socketId (Some u))
  | Disconnect socketId u => gateway_handleDisconnect (mkGatewayClient socketId (Some u))
  | Join socketId u r => joinRoom (mkGatewayClient socketId (Some u)) r
  | Say socketId u payload => gateway_handleMessage (mkGatewayClient socketId (Some u)) payload
  end.

(** A set as the server keeps it. *)
Definition set_entry (l : gset string) : option entry := if decide (l = ∅) then None else Some (mkEntry (RSet l) None).
Definition text_entry (o : option string) : option entry := (λ v, mkEntry (RText v) None) <$> o.

(** What the server and the sockets hold for a state of presence. *)
Definition represents (w : W) (s : Presence) : Prop :=
  held online_key w = set_entry (pr_online s) ∧ (∀ u, held (socket_key u) w = text_entry (pr_socket s !! u)) ∧
  (∀ r, held (room_key r) w = set_entry (room_of r s)) ∧ gw_joined w = pr_joined s ∧ gw_sent w = pr_sent s.

Lemma seen_set t l : seen_at t (set_entry l) = set_entry l.
Proof. unfold set_entry. by case_decide. Qed.
Lemma seen_text t o : seen_at t (text_entry o) = text_entry o.
Proof. by destruct o. Qed.
Lemma append_suffix u u' t : u +:+ t = u' +:+ t → u = u'.
Proof.
  assert (∀ s a, t ≠ String a (s +:+ t)) as Hlen.
  { intros v a Ht. apply (f_equal String.length) in Ht. cbn in Ht. rewrite string_length_app in Ht. lia. }
  revert u'. induction u as [|a u IH]; intros [|a' u'] Heq; [done|by apply Hlen in Heq|symmetry in Heq; by apply Hlen in Heq|].
  injection Heq as -> Heq. f_equal. by apply IH.
Qed.
Lemma socket_key_inj u u' : socket_key u = socket_key u' → u = u'.
Proof. intros Heq. injection Heq as Heq. exact (append_suffix _ _ ":socket" Heq). Qed.
Lemma room_key_inj r r' : room_key r = room_key r' → r = r'.
Proof. intros Heq. injection Heq as Heq. exact (append_suffix _ _ ":users" Heq). Qed.

Lemma command_frame {A} (c : Z → DB → outcome A * DB) (w : W) :
  gw_joined (command c w).2 = gw_joined w ∧ gw_sent (command c w).2 = gw_sent w.
Proof. unfold command. destruct (server_fault (tick w)); [done|]. by destruct (c (server_at (tick w)) (redis w)). Qed.

(** A command that leaves [o] at [k] and every other key as it was. *)
Definition leaves_at {A} (m : eff W A) (w : W) (a : A) (k : string) (o : option entry) : Prop := ∃ w', m w = (Return a, w') ∧
  held k w' = o ∧ (∀ k' e, k' ≠ k → held k' w = e → (∀ t, seen_at t e = e) → held k' w' = e) ∧
  gw_joined w' = gw_joined w ∧ gw_sent w' = gw_sent w.
Lemma leaves_intro {A} (c : Z → DB → outcome A * DB) w a k o s :
  c (server_at (tick w)) (redis w) = (Return a, s) → (∀ k', k' ≠ k → spares k' c) → (∀ t, server_at (tick w) ≤ t → live t k s = o) →
  leaves_at (command c) w a k o.
Proof.
  intros Hc Hs Ho. exists (command c w).2. split_and!.
  - by rewrite command_up, Hc.
  - rewrite (held_run k c w _ _ (redis_up _) Hc). apply Ho, server_mono. lia.
  - intros k' e Hk He Hseen. rewrite held_spared by by apply Hs. by rewrite He, Hseen.
  - apply command_frame.
  - apply command_frame.
Qed.
Lemma live_put_same t k v (s : DB) : live t k (put k v None s) = Some (mkEntry v None).
Proof. rewrite live_put. by rewrite decide_True. Qed.
Lemma set_entry_some l : l ≠ ∅ → set_entry l = Some (mkEntry (RSet l) None).
Proof. intros Hl. unfold set_entry. by rewrite decide_False. Qed.

Lemma leaves_sAdd k v l w : held k w = set_entry l → ∃ n, leaves_at (command (cmd_sAdd k v)) w n k (set_entry ({[v]} ∪ l)).
Proof.
  intros Hh. rewrite (set_entry_some (_ ∪ _)) by set_solver. unfold set_entry in Hh.
  case_decide; eexists; (eapply leaves_intro; [unfold cmd_sAdd; fold (held k w); by rewrite Hh|auto with spares|intros t _]).
  - subst l. rewrite union_empty_r_L. apply live_put_same.
  - apply live_put_same.
Qed.
Lemma leaves_sRem k v l w : held k w = set_entry l → ∃ n, leaves_at (command (cmd_sRem k v)) w n k (set_entry (l ∖ {[v]})).
Proof.
  intros Hh. unfold set_entry in Hh. case_decide as Hl; eexists;
    (eapply leaves_intro; [unfold cmd_sRem; fold (held k w); by rewrite Hh|auto with spares|intros t Ht]).
  - subst l. rewrite (live_later _ t) by exact Ht. fold (held k w). rewrite Hh. unfold set_entry. rewrite decide_True by set_solver. done.
  - unfold set_entry. case_decide; [by rewrite live_write_eq|apply live_put_same].
Qed.
Lemma leaves_set k v w : leaves_at (command (cmd_set k v)) w tt k (text_entry (Some v)).
Proof. eapply leaves_intro; [done|auto with spares|intros t _]. apply live_put_same. Qed.
Lemma leaves_del k w : ∃ n, leaves_at (command (cmd_del [k])) w n k None.
Proof.
  eexists. eapply leaves_intro; [reflexivity| |intros t _; cbn; by rewrite live_write_eq].
  intros k' Hk. apply spares_del. set_solver.
Qed.
Lemma leaves_sMembers k l w : held k w = set_entry l → leaves_at (command (cmd_sMembers k)) w (elements l) k (set_entry l).
Proof.
  intros Hh. eapply leaves_intro; [|auto with spares|].
  - unfold cmd_sMembers. fold (held k w). rewrite Hh. unfold set_entry. by case_decide; [subst l; rewrite elements_empty|].
  - intros t Ht. rewrite (live_later _ t) by exact Ht. fold (held k w). rewrite Hh. apply seen_set.
Qed.


(** The keys of presence are apart. *)
Lemma online_not_socket u : online_key ≠ socket_key u.
Proof. done. Qed.
Lemma online_not_room r : online_key ≠ room_key r.
Proof. done. Qed.
Lemma socket_not_room u r : socket_key u ≠ room_key r.
Proof. done. Qed.

(** A command on one of the keys, and what presence is then. *)
Lemma represents_online {A} (m : eff W A) w a l s : represents w s → leaves_at m w a online_key (set_entry l) → ∃ w', m w = (Return a, w') ∧
  represents w' (mkPresence l (pr_socket s) (pr_rooms s) (pr_joined s) (pr_sent s)).
Proof.
  intros (Ho & Hs & Hr & Hj & Hm) (w' & Hrun & Hk & Hother & Hj' & Hm'). exists w'. split; [done|]. split_and!; cbn; try congruence.
  - intros u. apply Hother; [by apply not_eq_sym, online_not_socket|apply Hs|intros; apply seen_text].
  - intros r. apply Hother; [by apply not_eq_sym, online_not_room|apply Hr|intros; apply seen_set].
Qed.
Lemma represents_socket {A} (m : eff W A) w a u o s : represents w s → leaves_at m w a (socket_key u) (text_entry o) → ∃ w', m w = (Return a, w') ∧
  represents w' (mkPresence (pr_online s) (partial_alter (λ _, o) u (pr_socket s)) (pr_rooms s) (pr_joined s) (pr_sent s)).
Proof.
  intros (Ho & Hs & Hr & Hj & Hm) (w' & Hrun & Hk & Hother & Hj' & Hm'). exists w'. split; [done|]. split_and!; cbn; try congruence.
  - apply Hother; [apply online_not_socket|done|intros; apply seen_set].
  - intros u'. destruct (decide (u = u')) as [<-|Hne]; [by rewrite lookup_partial_alter_eq|]. rewrite lookup_partial_alter_ne by done.
    apply Hother; [intros Heq%socket_key_inj; congruence|apply Hs|intros; apply seen_text].
  - intros r. apply Hother; [by apply not_eq_sym, socket_not_room|apply Hr|intros; apply seen_set].
Qed.
Lemma represents_room {A} (m : eff W A) w a r l s : represents w s → leaves_at m w a (room_key r) (set_entry l) → ∃ w', m w = (Return a, w') ∧
  represents w' (mkPresence (pr_online s) (pr_socket s) (<[r := l]> (pr_rooms s)) (pr_joined s) (pr_sent s)).
Proof.
  intros (Ho & Hs & Hr & Hj & Hm) (w' & Hrun & Hk & Hother & Hj' & Hm'). exists w'. split; [done|]. split_and!; cbn; try congruence.
  - apply Hother; [apply online_not_room|done|intros; apply seen_set].
  - intros u. apply Hother; [apply socket_not_room|apply Hs|intros; apply seen_text].
  - intros r'. unfold room_of. cbn. destruct (decide (r = r')) as [<-|Hne]; [by rewrite lookup_insert_eq|]. rewrite lookup_insert_ne by done.
    apply Hother; [intros Heq%room_key_inj; congruence|apply Hr|intros; apply seen_set].
Qed.

(** C18: presence is what its events say: each handler of the gateway, from a server and sockets that hold
    a state of presence, returns and leaves what [presence_step] makes of it.  A user is online from
    the first event that connects it to the first one that disconnects any of its sockets; nobody
    ever leaves a room; a message goes to any room that it names, joined or not,
    with whatever else it says. *)
Theorem gateway_refines e (w : W) s (Hs : represents w s) :
  ∃ w', gateway_step e w = (Return tt, w') ∧ represents w' (presence_step e s).
Proof.
  destruct e as [id u|id u|id u r|id u payload]; cbn [gateway_step].
  - destruct (leaves_sAdd online_key u _ w (proj1 Hs)) as [n Hadd].
    destruct (represents_online _ _ _ _ _ Hs Hadd) as (w1 & Hrun & Hs1).
    destruct (represents_socket _ _ _ _ _ _ Hs1 (leaves_set (socket_key u) id w1)) as (w2 & Hrun2 & Hs2).
    exists w2. unfold gateway_handleConnection, userConnected. cbn [text_argument cl_userId cl_id]. rewrite bind_mret, (bind_run _ _ _ _ _ Hrun). by split.
  - destruct (leaves_sRem online_key u _ w (proj1 Hs)) as [n Hrem].
    destruct (represents_online _ _ _ _ _ Hs Hrem) as (w1 & Hrun & Hs1). destruct (leaves_del (socket_key u) w1) as [n' Hdel].
    destruct (represents_socket _ _ _ u None _ Hs1 Hdel) as (w2 & Hrun2 & Hs2).
    exists w2. unfold gateway_handleDisconnect, userDisconnected. cbn [text_argument cl_userId]. rewrite bind_mret, (bind_run _ _ _ _ _ Hrun), (bind_run _ _ _ _ _ Hrun2). by split.
  - destruct (leaves_sAdd (room_key r) u _ w (proj1 (proj2 (proj2 Hs)) r)) as [n Hadd].
    destruct (represents_room _ _ _ _ _ _ Hs Hadd) as (w1 & Hrun & Hs1).
    set (w2 := (join_socket (mkGatewayClient id (Some u)) r w1).2).
    assert (represents w2 (mkPresence (pr_online s) (pr_socket s) (<[r := {[u]} ∪ room_of r s]> (pr_rooms s)) ({[(id, r)]} ∪ pr_joined s) (pr_sent s))) as Hs2.
    { destruct Hs1 as (? & ? & ? & Hj & ?). split_and!; try done. cbn. by rewrite Hj. }
    pose proof (proj1 (proj2 (proj2 Hs2)) r) as Hroom. unfold room_of in Hroom at 1. cbn in Hroom. rewrite lookup_insert_eq in Hroom.
    destruct (represents_room _ _ _ _ _ _ Hs2 (leaves_sMembers _ _ _ Hroom)) as (w3 & Hrun3 & Hs3). cbn in Hs3. rewrite insert_insert_eq in Hs3.
    exists (emit_to_room (mkEmission (Some r) "presence:update" (JObject [("roomId", JString r); ("users", JArray (JString <$> elements ({[u]} ∪ room_of r s)))])) w3).2.
    unfold joinRoom, presence_joinRoom. cbn [text_argument cl_userId]. rewrite <-bind_assoc, bind_mret.
    rewrite <-bind_assoc, (bind_run _ _ _ _ _ Hrun), bind_mret.
    rewrite (bind_run (join_socket _ _) _ w1 tt w2) by done. rewrite (bind_run (getRoomUsers r) _ w2 _ w3 Hrun3). split; [done|].
    destruct Hs3 as (? & ? & ? & ? & Hm). split_and!; try done. cbn. by rewrite Hm.
  - eexists. split; [reflexivity|]. destruct Hs as (? & ? & ? & ? & Hm). split_and!; try done. cbn. by rewrite Hm.
Qed.
End PresenceFacts.

(** ** [RedisIoAdapter] *)

(** [process.env] *)
Definition Environment := string → option string.
Definition redisUrl (env : Environment) : string :=
  or_string (env "REDIS_URL") ("redis://" +:+ or_string (env "REDIS_HOST") "localhost" +:+ ":" +:+ or_string (env "REDIS_PORT") "6379").
Definition maxRetries : Z := 5.
(** The milliseconds to wait, or the error that gives up. *)
Definition reconnectStrategy (retries : Z) : exn + Z :=
  if bool_decide (maxRetries ≤ retries) then inl (Error "Redis connection max retries reached")
  else inr (Z.min (1000 * 2 ^ retries) 30000).

(** Whether the server gets the adapter of Redis: the outcomes are those of the two connections. *)
Definition connectToRedis (pub sub : outcome unit) : bool := returned pub && returned sub.
Definition createIOServer {Server} (adapter : bool) (base : Server) (with_adapter : Server → Server) : Server :=
  if adapter then with_adapter base else base.

Lemma reconnect_bounded retries : 0 ≤ retries →
  match reconnectStrategy retries with
  | inl _ => 5 ≤ retries
  | inr ms => retries < 5 ∧ ms = 1000 * 2 ^ retries ∧ 1000 ≤ ms ≤ 16000
  end.
Proof.
  intros Hr. unfold reconnectStrategy, maxRetries. case_bool_decide; [done|].
  assert (retries = 0 ∨ retries = 1 ∨ retries = 2 ∨ retries = 3 ∨ retries = 4) as Hcases by lia.
  by repeat destruct Hcases as [->|Hcases]; [..|subst].
Qed.

(** * Roles *)

Module Role.
Inductive t := USER | MODERATOR | ADMIN | SUPERADMIN.
Definition text (r : t) : string :=
  match r with USER => "user" | MODERATOR => "moderator" | ADMIN => "admin" | SUPERADMIN => "superadmin" end.
End Role.
Module Permission.
Inductive t := VIEW_AUDIT_LOGS | REQUEUE_JOBS | REGISTER_WEBHOOKS | MODERATE_CONTENT.
(** [Object.values(Permission)] *)
Definition all : list t := [VIEW_AUDIT_LOGS; REQUEUE_JOBS; REGISTER_WEBHOOKS; MODERATE_CONTENT].
End Permission.

Definition RBAC_CONFIG (r : Role.t) : list Permission.t :=
  match r with
  | Role.USER => []
  | Role.MODERATOR => [Permission.MODERATE_CONTENT]
  | Role.ADMIN => [Permission.MODERATE_CONTENT; Permission.VIEW_AUDIT_LOGS; Permission.REQUEUE_JOBS]
  | Role.SUPERADMIN => Permission.all
  end.

(** [auth/guards/roles.guard.ts] *)
Definition authRolesGuard (requiredRoles : list string) (user : option principal) : outcome bool :=
  match requiredRoles with
  | [] => Return true
  | _ =>
      let role := or_string (user ≫= role_of) EmptyString in
      if bool_decide (role = EmptyString) then Throw (ForbiddenException "User role not found")
      else if bool_decide (role ∈ requiredRoles) then Return true
      else Throw (ForbiddenException ("Required role: " +:+ join " or " requiredRoles +:+ ". User has: " +:+ role))
  end.

(** ** Routes for roles

    The role guard is global ([APP_GUARD] in [app.module.ts]), and global guards run before those of a
    controller: no user is attached to the request yet. *)
Section Routes.
Context {W : Type}.
Definition role_route {A} (roles : list Role.t) (route : eff W A) : eff W A :=
  match rolesGuard (Role.text <$> roles) None with
  | Throw e => throw e
  | Return _ => route
  end.

(** [AdminController] *)
Definition message (text : string) : eff W jsval := mret (JObject [("message", JString text)]).
Definition admin_getAuditLogs : eff W jsval := role_route [Role.ADMIN; Role.SUPERADMIN] (message "Audit logs accessed").
Definition admin_requeue : eff W jsval := role_route [Role.ADMIN; Role.SUPERADMIN] (message "Job requeued").
Definition admin_moderateContent : eff W jsval := role_route [Role.MODERATOR; Role.ADMIN; Role.SUPERADMIN] (message "Content moderated").
Definition admin_registerWebhook : eff W jsval := role_route [Role.SUPERADMIN] (message "Webhook registered").
End Routes.

(** ** [WsJwtAuthGuard] *)

Record Handshake := mkHandshake { hs_auth_token : option string; hs_authorization : option string; hs_query_token : option string }.
Definition extractTokenFromHandshake (h : Handshake) : option string :=
  if given (hs_auth_token h) then hs_auth_token h else
  match hs_authorization h with
  | Some authHeader =>
      if String.prefix "Bearer " authHeader then Some (String.substring 7 (String.length authHeader) authHeader)
      else if given (hs_query_token h) then hs_query_token h else None
  | None => if given (hs_query_token h) then hs_query_token h else None
  end.

Section Sockets.
Context {W : Type} `{!Ticking W, CLK : Clock, JWT : Jwt}.
(** The payload is what the guard leaves at [client.data.user] when it lets a message through. *)
Definition ws_canActivate (h : Handshake) : eff W JwtPayload :=
  match extractTokenFromHandshake h with
  | Some token =>
      if bool_decide (token = EmptyString) then throw (UnauthorizedException "Authentication token required") else
      now ← date_now;
      match jwt_verify now token with
      | Return payload => mret payload
      | Throw _ => throw (UnauthorizedException "Invalid or expired token")
      end
  | None => throw (UnauthorizedException "Authentication token required")
  end.
End Sockets.

(** * Health *)

Record HealthCheck := mkHealthCheck { hc_status : string; hc_message : option string; hc_monitor : option MonitorStatus }.
Record HealthReport := mkHealthReport { hr_status : string; hr_timestamp : Z; hr_checks : list (string * HealthCheck) }.
(** What is answered: the report, or the exception for status 503 that carries it. *)
Inductive health_answer := Ready (report : HealthReport) | ServiceUnavailable (report : HealthReport).

Section Health.
Context {W : Type} `{!Ticking W, CLK : Clock}.
(** [SELECT 1] on the database, [PING] on Redis, and the status of the monitor. *)
Context (query ping : eff W unit) (monitor : eff W MonitorStatus).

Definition getLiveness : eff W (string * Z) := t ← date_now; mret ("ok", t).

Definition failed_check (e : exn) : HealthCheck := mkHealthCheck "error" (Some (exn_message e)) None.
Definition service_check (o : outcome unit) : HealthCheck :=
  match o with Return _ => mkHealthCheck "ok" None None | Throw e => failed_check e end.
Definition monitor_check (o : outcome MonitorStatus) : HealthCheck :=
  match o with
  | Return s => mkHealthCheck (if ms_isMonitoring s then "ok" else "degraded") None (Some s)
  | Throw e => failed_check e
  end.
Definition getReadiness : eff W health_answer :=
  database ← attempt query;
  redis ← attempt ping;
  status ← attempt monitor;
  let allHealthy := returned database && returned redis in
  timestamp ← date_now;
  let response := mkHealthReport (if allHealthy then "ok" else "error") timestamp
    [("database", service_check database); ("redis", service_check redis); ("stellarMonitor", monitor_check status)] in
  mret (if allHealthy then Ready response else ServiceUnavailable response).
End Health.

(** * Start *)

Definition REQUIRED_ENV_VARS : list string := ["JWT_SECRET"; "DB_HOST"; "REDIS_URL"].
Definition newline : string := chr 10.
Definition validateRequiredEnv (env : Environment) : outcome unit :=
  let missing := filter (λ key, given (env key) = false) REQUIRED_ENV_VARS in
  if bool_decide (0 < length missing)%nat then
    Throw (Error ("Missing required environment variables: " +:+ join ", " missing +:+ "." +:+ newline +:+
      "Set them in your .env file or export them before starting the server." +:+ newline +:+
      "Required: JWT_SECRET, DB_HOST, REDIS_URL (or REDIS_HOST + REDIS_PORT)"))
  else Return tt.

(** ** The clients of Redis

    Creating, connecting and closing a client is the library's; it can throw. *)
Record RedisClients (C : Type) := mkRedisClients { rc_client : C; rc_pubClient : C; rc_subClient : C }.
Arguments mkRedisClients {_} _ _ _.
Arguments rc_client {_} _.
Arguments rc_pubClient {_} _.
Arguments rc_subClient {_} _.
Definition clients {C} (cs : RedisClients C) : list C := [rc_client cs; rc_pubClient cs; rc_subClient cs].

Section RedisClient.
Context {W C : Type} (createClient : string → eff W C) (connect quit : C → eff W unit) (isOpen : C → W → bool).
(** The fields of the service. *)
Context (service_clients : W → option (RedisClients C)) (set_clients : RedisClients C → W → W).
Definition client_url (env : Environment) : string := or_string (env "REDIS_URL") "redis://localhost:6379".
Definition redis_onModuleInit (env : Environment) : eff W unit :=
  client ← createClient (client_url env);
  pubClient ← createClient (client_url env);
  subClient ← createClient (client_url env);
  let cs := mkRedisClients client pubClient subClient in
  modify (set_clients cs) ;;
  promise_all (connect <$> clients cs).
Definition redis_onModuleDestroy : eff W unit :=
  cs ← gets service_clients;
  match cs with
  | Some cs => promise_all (quit <$> clients cs)
  | None => throw (TypeError "Cannot read properties of undefined (reading 'quit')")
  end.
(** [redisClient.ts] *)
Definition connectRedis (redisClient : C) : eff W unit :=
  already ← gets (isOpen redisClient);
  if (already : bool) then mret tt else connect redisClient.
End RedisClient.

(** ** [main.ts]

    What the framework does is a parameter; any of it can throw.  The hooks, the pipe and the
    documentation are set up in one piece. *)
Record Framework (W App Adapter : Type) := mkFramework {
  fw_create : eff W App; fw_setup : App → eff W unit; fw_adapter : App → eff W Adapter;
  fw_useWebSocketAdapter : App → Adapter → eff W unit; fw_useThrottleGuard : App → eff W unit;
  fw_listen : App → string → eff W unit; fw_close : App → eff W unit }.
Arguments fw_create {_ _ _} _.
Arguments fw_setup {_ _ _} _ _.
Arguments fw_adapter {_ _ _} _ _.
Arguments fw_useWebSocketAdapter {_ _ _} _ _ _.
Arguments fw_useThrottleGuard {_ _ _} _ _.
Arguments fw_listen {_ _ _} _ _ _.
Arguments fw_close {_ _ _} _ _.

(** The variable [app], and the code the process has ended with. *)
Class HasProcess (App W : Type) := {
  the_app : W → option App; hold_app : App → W → W; exited : W → option Z; set_exited : Z → W → W }.

Section Bootstrap.
Context {W App Adapter : Type} `{!HasProcess App W} (fw : Framework W App Adapter).

(** [process.exit(code)] *)
Definition process_exit (code : Z) : eff W unit := modify (set_exited (App := App) code).
Definition listening_port (env : Environment) : string := default "3000" (env "PORT").
Definition bootstrap (env : Environment) : eff W unit :=
  of_outcome (validateRequiredEnv env) ;;
  app ← fw_create fw;
  modify (hold_app app : W → W) ;;
  fw_setup fw app ;;
  redisIoAdapter ← fw_adapter fw app;
  fw_useWebSocketAdapter fw app redisIoAdapter ;;
  fw_useThrottleGuard fw app ;;
  fw_listen fw app (listening_port env).
Definition start (env : Environment) : eff W unit :=
  started ← attempt (bootstrap env);
  match started with Return _ => mret tt | Throw _ => process_exit 1 end.
Definition handleShutdown : eff W unit :=
  app ← gets (the_app : W → option App);
  match app with Some app => attempt (fw_close fw app) ;; mret tt | None => mret tt end ;;
  process_exit 0.
End Bootstrap.

(** * What holds at the edge *)

(** no route that names a role can be reached, by anybody, with any token: the global role guard runs
    before the guard that attaches the user and turns the request away, with nothing done -- the
    audit log and the four routes for administrators alike. *)
Theorem role_routes_closed {A W} roles (route : eff W A) (w : W) (Hroles : roles ≠ []) :
  let refused {B} : outcome B := Throw (ForbiddenException "User role not found") in
  role_route roles route w = (refused, w) ∧
  Forall (λ m : eff W jsval, m w = (refused, w)) [admin_getAuditLogs; admin_requeue; admin_moderateContent; admin_registerWebhook].
Proof. split; [by destruct roles|]. by repeat constructor. Qed.

Section EdgeFacts.
Context {W : Type} `{!Ticking W, CLK : Clock}.

(** the server says it is ready exactly if the database and Redis have both answered; every check is
    made, whichever failed before, the monitor of the ledger is only reported, and a refusal carries
    the same report, with the message of each failure. *)
Theorem readiness_spec (query ping : eff W unit) (monitor : eff W MonitorStatus) (w : W) :
  let w1 := (query w).2 in let w2 := (ping w1).2 in let w3 := (monitor w2).2 in
  let ok := returned (query w).1 && returned (ping w1).1 in
  ∃ report, getReadiness query ping monitor w = (Return (if ok then Ready report else ServiceUnavailable report), advance w3) ∧
    hr_status report = (if ok then "ok" else "error") ∧ hr_timestamp report = clock_at (tick w3) ∧
    (∀ e, (query w).1 = Throw e → assoc "database" (hr_checks report) = Some (mkHealthCheck "error" (Some (exn_message e)) None)) ∧
    (∀ e, (ping w1).1 = Throw e → assoc "redis" (hr_checks report) = Some (mkHealthCheck "error" (Some (exn_message e)) None)) ∧
    assoc "stellarMonitor" (hr_checks report) = Some (monitor_check (monitor w2).1).
Proof.
  cbv zeta. unfold getReadiness. rewrite bind_attempt. destruct (query w) as [o1 w1]. rewrite bind_attempt. cbn [fst snd].
  destruct (ping w1) as [o2 w2]. rewrite bind_attempt. cbn [fst snd]. destruct (monitor w2) as [o3 w3]. cbn [fst snd].
  eexists. split; [reflexivity|]. split_and!; [done..| | |done]; by intros e ->.
Qed.

End EdgeFacts.

(** the program starts exactly with the three variables it names, and none of them empty: without
    [REDIS_URL] it does not, whatever the host and the port of Redis, of which its message speaks. *)
Theorem start_demands env : validateRequiredEnv env = Return tt ↔
  given (env "JWT_SECRET") = true ∧ given (env "DB_HOST") = true ∧ given (env "REDIS_URL") = true.
Proof.
  unfold validateRequiredEnv, REQUIRED_ENV_VARS. rewrite !filter_cons, filter_nil.
  destruct (given (env "JWT_SECRET")), (given (env "DB_HOST")), (given (env "REDIS_URL")); split; try done; by intros (? & ? & ?).
Qed.

Section StartFacts.
Context {W App Adapter : Type} `{!HasProcess App W} (fw : Framework W App Adapter).

(** a server that cannot start says so and ends with 1, a signal ends it with 0: whatever the framework
    throws while it starts is the reason to exit, without the three variables before anything
    is created; closing is tried whenever there is an application, and its failure changes nothing. *)
Theorem start_and_stop env (w : W) :
  (start fw env w = (Return tt, match bootstrap fw env w with
                                | (Return _, w') => w'
                                | (Throw _, w') => set_exited (App := App) 1 w'
                                end)) ∧
  (∀ e, validateRequiredEnv env = Throw e → start fw env w = (Return tt, set_exited (App := App) 1 w)) ∧
  handleShutdown fw w =
    (Return tt, set_exited (App := App) 0 (match the_app w : option App with Some app => (fw_close fw app w).2 | None => w end)).
Proof.
  split_and!.
  - unfold start. rewrite bind_attempt. by destruct (bootstrap fw env w) as [[?|e] w'].
  - intros e He. unfold start. rewrite bind_attempt. unfold bootstrap. by rewrite He.
  - unfold handleShutdown. rewrite (bind_run _ _ w (the_app w) w) by done. destruct (the_app w) as [app|] eqn:Happ; [|done].
    rewrite <-bind_assoc, bind_attempt. by destruct (fw_close fw app w) as [o w'].
Qed.
End StartFacts.

Section RedisStart.
Context {W C : Type} (createClient : string → eff W C) (connect quit : C → eff W unit).
Context (service_clients : W → option (RedisClients C)) (set_clients : RedisClients C → W → W).

(** the clients are those of the service before the first of them connects; each is connected, whichever
    of the others fails, and the start fails with the first of the failures. *)
Theorem redis_connects env (w w1 w2 w3 : W) c1 c2 c3
    (H1 : createClient (client_url env) w = (Return c1, w1)) (H2 : createClient (client_url env) w1 = (Return c2, w2))
    (H3 : createClient (client_url env) w2 = (Return c3, w3)) :
  let u0 := set_clients (mkRedisClients c1 c2 c3) w3 in
  let u1 := (connect c1 u0).2 in let u2 := (connect c2 u1).2 in
  let results := [(connect c1 u0).1; (connect c2 u1).1; (connect c3 u2).1] in
  redis_onModuleInit createClient connect set_clients env w =
  (default (Return tt) (List.find (λ o, negb (returned o)) results), (connect c3 u2).2).
Proof.
  cbv zeta. unfold redis_onModuleInit.
  rewrite (bind_run _ _ w c1 w1), (bind_run _ _ w1 c2 w2), (bind_run _ _ w2 c3 w3) by done.
  rewrite (bind_run (modify _) _ w3 tt (set_clients (mkRedisClients c1 c2 c3) w3)) by done. set (u0 := set_clients _ w3).
  unfold clients. cbn [fmap list_fmap rc_client rc_pubClient rc_subClient]. rewrite promise_all_cons.
  destruct (connect c1 u0) as [o1 u1]. cbn [fst snd]. rewrite promise_all_cons. destruct (connect c2 u1) as [o2 u2]. cbn [fst snd].
  rewrite promise_all_cons. destruct (connect c3 u2) as [o3 u3]. by destruct o1 as [[]|], o2 as [[]|], o3 as [[]|].
Qed.
End RedisStart.
