(* ===== verification/Witnesses.v ===== *)
(** Concrete inputs at which the hypotheses of the theorems hold: tables in memory, a
    clock that advances one second with every reading, a hash that leaves its argument as it
    is, and small registries, consumers and networks. *)
From S2P Require Import Prelude Json Repository WorkflowTypes StateMachine Idempotency WorkflowExecution.
From S2P Require Import ExecutionFacts ExecutionRuns ExecutionControl Compensation Recovery Monitoring.
From S2P Require Import ExampleWorkflows WorkflowService Engine StellarTypes StellarConsumers StellarEvents WebhookDelivery.
From S2P Require Import Async DeliveryRaces.
Open Scope nat_scope.

(** * The environment *)

Definition sample_clock : Clock := λ n, (1000 * Z.of_nat n)%Z.
Definition sample_random : Random := λ _, 0%Z.
Definition sample_crypto : Crypto := {| sha256_hex s := s; uuid_at n := pretty n |}.
#[local] Existing Instance sample_clock.
#[local] Existing Instance sample_random.
#[local] Existing Instance sample_crypto.
#[local] Existing Instance mem_workflow_table.
#[local] Existing Instance mem_step_table.
#[local] Existing Instance mem_event_table.
#[local] Existing Instance mem_consumer_table.

Lemma sample_random_range : RandomRange.
Proof. intros n. by split. Qed.

Abbreviation Engine := (World (gmap string Workflow) (gmap string WorkflowStep)).
Abbreviation Registry := (gmap string (WorkflowDefinition Engine)).

Definition empty_engine : Engine := mkWorld ∅ ∅ 0 [].

Definition down : exn := Error "down".

(** A step whose first attempt fails, and one that never does. *)
Definition quote_step : StepDefinition Engine :=
  mkStepDefinition "quote" (λ _ ctx, if bool_decide (ctx_retryCount ctx < 1)%Z then throw down else mret (JNumber 1))
    None true None None None.
Definition trade_step : StepDefinition Engine :=
  mkStepDefinition "trade" (λ _ _, mret (JString "ok")) None false (Some 2%Z) None None.
Definition sample_definition : WorkflowDefinition Engine :=
  mkWorkflowDefinition WorkflowType.TRADE_EXECUTION "trade" "" [quote_step; trade_step] None None None None.
Definition sample_registry : Registry := registerWorkflowDefinition sample_definition ∅.

Definition failures (sd : StepDefinition Engine) : Z :=
  if bool_decide (sd_name sd = "quote") then 1%Z else 0%Z.

Lemma quote_flaky m : flaky quote_step m 1 down (λ v, v = JNumber 1).
Proof.
  intros input ctx w _. cbn. case_bool_decide; do 2 eexists; (split; [reflexivity|]); (split; [by split_and!|]);
    [done|by eexists].
Qed.
Lemma trade_flaky m : flaky trade_step m 0 down (λ v, v = JString "ok").
Proof.
  intros input ctx w Hc. do 2 eexists. split; [reflexivity|]. split; [by split_and!|].
  rewrite bool_decide_eq_false_2 by lia. by eexists.
Qed.
Lemma sample_flaky : Forall (flaky_as failures (λ _, down)) (wd_steps sample_definition).
Proof.
  constructor; [|constructor; [|constructor]]; (split; [done|]); (split; [done|]); eexists;
    [apply quote_flaky|apply trade_flaky].
Qed.

(** A workflow row and a step row to start from. *)
Definition sample_workflow (state : WorkflowState.t) : Workflow :=
  mkWorkflow "w1" "key" "trade_execution" state None None [] None None 0 1 None None None None 0 3 None true false 0 0.
Definition sample_step (state : StepState.t) : WorkflowStep :=
  mkWorkflowStep "s1" "w1" "trade" 0 state None None None 0 2 None None None None None true false None None None
    false None 0 0.
Definition engine_with (wf : Workflow) (s : WorkflowStep) : Engine :=
  mkWorld {["w1" := wf]} {["s1" := s]} 0 [].

(** * Witnesses *)

(** ** State machine and keys *)

#[local] Instance nat_ticking : Ticking nat := {| tick n := n; advance := S |}.

Lemma calculateNextRetryTime_bounds_witness :
  ∃ t, calculateNextRetryTime 2 1000 0 = (Return t, 2) ∧
    (clock_at 1 + 1000 * 2 ^ 2 ≤ t)%Z ∧ (10 * (t - clock_at 1) ≤ 11 * (1000 * 2 ^ 2))%Z.
Proof. exact (@calculateNextRetryTime_bounds nat _ _ _ sample_random_range 2 1000 0 ltac:(lia) ltac:(lia)). Defined.

Lemma workflow_key_canonical_witness :
  generateWorkflowIdempotencyKey "t" "u" [("a", JNull); ("b", JBool true)] None 5 =
  generateWorkflowIdempotencyKey "t" "u" [("b", JBool true); ("a", JNull)] None 6.
Proof.
  apply workflow_key_canonical; [|apply Permutation_swap|done].
  apply (bool_decide_unpack (NoDup ["a"; "b"])). vm_compute. exact I.
Defined.

Lemma workflow_key_ignores_nested_witness :
  generateWorkflowIdempotencyKey "t" "u" [("order", JObject [("amount", JNumber 1)])] None 0 =
  generateWorkflowIdempotencyKey "t" "u" [("order", JObject [("amount", JNumber 2)])] None 0.
Proof. apply workflow_key_ignores_nested; apply (bool_decide_unpack ("order" ∉ ["amount"])); vm_compute; exact I. Defined.

(** A hash without colons. *)
Definition flat_crypto : Crypto := {| sha256_hex _ := "00"; uuid_at n := pretty n |}.

Lemma parse_generated_key_witness :
  parseIdempotencyKey (@generateWorkflowIdempotencyKey flat_crypto "trade" "bob" [] None 0) =
    mkParsedKey KWorkflow "workflow" "trade:bob" (Some "00") ∧
  parseIdempotencyKey (@generateStepIdempotencyKey flat_crypto "k" "quote" JNull) =
    mkParsedKey KStep "step" "quote" (Some "00").
Proof.
  apply (@parse_generated_key flat_crypto "trade" "bob" [] None 0%Z "k" "quote" JNull); by intros.
Defined.

(** A cache of one entry. *)
Definition one_cache : idempotency_cache (option jsval) :=
  {| cache_get _ := gets (λ w, default JUndefined w); cache_set _ v := modify (λ _, Some v) |}.

Lemma checkIdempotency_once_witness :
  checkIdempotency "k" (mret (JNumber 7)) (Some one_cache) None = (Return (mkChecked (JNumber 7) false), Some (JNumber 7)) ∧
  checkIdempotency "k" (throw down) (Some one_cache) (Some (JNumber 7)) =
    (Return (mkChecked (JNumber 7) true), Some (JNumber 7)).
Proof. by apply (checkIdempotency_once "k" (mret (JNumber 7)) (throw down) one_cache None None (Some (JNumber 7)) (JNumber 7)). Defined.

(** ** Execution *)

Lemma executeStep_terminates_witness :
  let step := sample_step StepState.PENDING in
  let wf := sample_workflow WorkflowState.RUNNING in
  let w' := (executeStep wf step (Some trade_step) empty_engine).2 in
  calls w' = [mkCall "w1" "trade" 0] ∧
  ∃ n, n ≤ 2 ∧ calls w' = calls_made (Some trade_step) "w1" "trade" 0 n.
Proof.
  split; [vm_compute; reflexivity|].
  destruct (executeStep_terminates (sample_workflow WorkflowState.RUNNING) (sample_step StepState.PENDING) (Some trade_step) empty_engine)
    as [Hcalls _]. destruct Hcalls as (n & Hn & Hcalls); [by intros sd [= <-]|]. exists n. split; [exact Hn|exact Hcalls].
Defined.

Lemma executeStep_retries_witness :
  let step := sample_step StepState.PENDING in
  let wf := sample_workflow WorkflowState.RUNNING in
  ∃ o w', executeStep wf step (Some quote_step) (engine_with wf step) = (o, w') ∧
    settled wf step 0 1 down (λ v, v = JNumber 1) (engine_with wf step) o w'.
Proof. apply executeStep_retries; [apply quote_flaky|done|done|done]. Defined.

Lemma executeWorkflow_final_state_witness :
  let wf := sample_workflow WorkflowState.PENDING in
  ∃ o w' r, executeWorkflow sample_registry wf (engine_with wf (sample_step StepState.PENDING)) = (o, w') ∧
    lookup_row "w1" (wfs w') = Some r ∧
    match o with
    | Return wf' => wf_state r = WorkflowState.COMPLETED ∧ wf_state wf' = WorkflowState.COMPLETED ∧ wf_id wf' = "w1"
    | Throw e => wf_state r = WorkflowState.FAILED ∧ wf_failureReason r = Some (exn_message e)
    end.
Proof.
  apply (executeWorkflow_final_state sample_registry (sample_workflow WorkflowState.PENDING) sample_definition); done.
Defined.

Lemma startWorkflow_run_witness : ∃ o w',
  startWorkflow sample_registry "trade_execution" [("amount", JNumber 5)] None None None empty_engine = (o, w') ∧
  run_result failures (λ _, down) (fresh_id (wfs empty_engine)) (wd_steps sample_definition) o empty_engine w'.
Proof.
  apply (startWorkflow_run failures (λ _, down) sample_registry sample_definition); [done|apply sample_flaky| |done].
  intros s Hs. by apply elem_of_nil in Hs.
Defined.

Definition sample_radix : RadixText := λ _ k, "0." +:+ pretty k.
#[local] Existing Instance sample_radix.
(** Whole numbers have a text, and no text is a number. *)
Definition sample_numbers : NumberText := {|
  text_number _ := Number.nan;
  number_value x := match x with SpecFloat.S754_nan | SpecFloat.S754_infinity _ => JNull | _ => JNumber (Number.floor x) end |}.
#[local] Existing Instance sample_numbers.

Definition token_input : jsobj := [("contractCode", JString "code"); ("contractName", JString "Token")].

(** A complete request for a deployment. *)
Lemma registered_workflows_fail_witness : ∃ w' r,
  startWorkflow (service_onModuleInit ∅) "contract_deployment" token_input None None None empty_engine =
    (Throw (Error "Step validate_contract_code failed after 2 retries: Contract code and name are required"), w') ∧
  lookup_row (fresh_id (wfs empty_engine)) (wfs w') = Some r ∧ wf_state r = WorkflowState.FAILED ∧
  wf_failureReason r = Some "Step validate_contract_code failed after 2 retries: Contract code and name are required" ∧
  st_state <$> sort_on st_stepIndex (stepsOf (fresh_id (wfs empty_engine)) w') =
    [StepState.FAILED; StepState.PENDING; StepState.PENDING; StepState.PENDING] ∧
  calls w' = [mkCall (fresh_id (wfs empty_engine)) "validate_contract_code" 0;
              mkCall (fresh_id (wfs empty_engine)) "validate_contract_code" 1].
Proof.
  apply (registered_workflows_fail ∅ "contract_deployment" "validate_contract_code" 3
    "Contract code and name are required" token_input None None None empty_engine); [done| |done].
  intros s Hs. by apply elem_of_nil in Hs.
Defined.

Lemma examples_as_meant_witness :
  let context := mkContext "w1" "key" None None "t" 0 0 None in
  gives (λ outputs, ∃ address, ∀ name, name ∈ ["deploy_contract"; "verify_contract"; "index_contract"] →
      ∃ output, assoc name outputs = Some output ∧ optional_property output "contractAddress" = JString address)
    (chained (wd_steps contractDeploymentWorkflow) (JObject token_input) context [] : eff Engine jsobj) ∧
  gives_or (λ outputs, ∃ tts delivered,
      assoc "await_tts_completion" outputs = Some tts ∧ assoc "deliver_final_result" outputs = Some delivered ∧
      truthy (optional_property tts "audioUrl") = true ∧
      optional_property delivered "audioUrl" = optional_property tts "audioUrl")
    times_out (chained (wd_steps aiJobChainWorkflow) (JObject [("audioUrl", JString "a.mp3")]) context [] : eff Engine jsobj).
Proof.
  intros context. split.
  - by eapply (proj1 (examples_as_meant (JObject token_input) context)).
  - by eapply (proj2 (examples_as_meant (JObject [("audioUrl", JString "a.mp3")]) context)).
Defined.

Definition trade_input (amount : jsval) : jsval := JObject [("tokenA", JString "XLM"); ("tokenB", JString "USDC"); ("amount", amount)].

(** The balance that is drawn is 0 here: 5 is too much, and an amount that is no number passes. *)
Example trade_refused :
  (check_balance (trade_input (JNumber 5)) (mkContext "w1" "key" None None "t" 0 0 None) empty_engine).1 =
  Throw (Error "Insufficient balance. Required: 5, Available: 0").
Proof. vm_compute. reflexivity. Qed.
Example fractions_cut : Number.floor (Number.times (Number.scaled 1000 0) n0_99) = 990%Z ∧
  Number.floor (Number.times (Number.scaled (-5) 0) (Number.scaled 1 (-1))) = (-3)%Z.
Proof. by vm_compute. Qed.

Lemma trade_as_meant_witness :
  let context := mkContext "w1" "key" None None "t" 0 0 None in
  gives_or (λ outputs, ∃ trade portfolio hash,
      assoc "execute_trade" outputs = Some trade ∧ assoc "update_portfolio" outputs = Some portfolio ∧
      optional_property trade "tradeHash" = JString ("0x" +:+ hash) ∧
      optional_property portfolio "lastTradeHash" = optional_property trade "tradeHash" ∧
      optional_property portfolio "tokenBBalance" = optional_property trade "receivedAmount")
    (insufficient (JNumber 5)) (chained (wd_steps tradeExecutionWorkflow) (trade_input (JNumber 5)) context [] : eff Engine jsobj).
Proof.
  intros context. exact (trade_as_meant (RANGE := sample_random_range) (trade_input (JNumber 5)) context (JString "XLM") (JString "USDC") (JNumber 5)
    (conj eq_refl eq_refl) (conj eq_refl eq_refl) (conj eq_refl eq_refl) eq_refl).
Defined.

Lemma unread_amount_trades_witness :
  let input := trade_input (JString "all") in let context := mkContext "w1" "key" None None "t" 0 0 None in
  gives (λ out, optional_property out "isValid" = JBool true) (validate_trade_params input context : eff Engine jsval) ∧
  gives (λ out, optional_property out "sufficient" = JBool true) (check_balance input context : eff Engine jsval) ∧
  gives (λ out, optional_property out "executedAmount" = JNull) (execute_trade input context : eff Engine jsval).
Proof.
  exact (unread_amount_trades (trade_input (JString "all")) (mkContext "w1" "key" None None "t" 0 0 None) (JString "XLM") (JString "USDC") (JString "all")
    (conj eq_refl eq_refl) (conj eq_refl eq_refl) (conj eq_refl eq_refl) eq_refl).
Defined.

Definition sample_key : string := start_key "trade_execution" [] None None 0.
Definition keyed_engine : Engine :=
  engine_with (mkWorkflow "w1" sample_key "trade_execution" WorkflowState.FAILED None None [] None None 0 1 None None
    None None 0 3 None true false 0 0) (sample_step StepState.FAILED).

Lemma startWorkflow_duplicate_witness : ∃ existing,
  startWorkflow sample_registry "trade_execution" [] None None None keyed_engine = (Return existing, advance keyed_engine) ∧
  same_tables keyed_engine (advance keyed_engine) ∧ existing ∈ rows (wfs keyed_engine) ∧
  wf_idempotencyKey existing = sample_key.
Proof.
  apply (startWorkflow_duplicate sample_registry sample_definition "trade_execution" [] None None None keyed_engine
    (mkWorkflow "w1" sample_key "trade_execution" WorkflowState.FAILED None None [] None None 0 1 None None
    None None 0 3 None true false 0 0)); [done|left|done].
Defined.

(** ** Compensation and monitoring *)

Definition compensable_engine : Engine :=
  engine_with (sample_workflow WorkflowState.FAILED) (sample_step StepState.COMPLETED).

Lemma compensates_once_witness :
  let w' := (compensateWorkflow "w1" compensable_engine).2 in
  requiresCompensation "w1" w' = (Return false, w') ∧ "w1" ∉ wf_id <$> getCompensatableWorkflows w' ∧
  ∃ e, compensateWorkflow "w1" w' = (Throw e, w').
Proof. apply (compensates_once "w1" compensable_engine). left. vm_compute. reflexivity. Defined.

Lemma getWorkflowTimeline_sorted_witness :
  ∃ timeline, getWorkflowTimeline "w1" compensable_engine = (Return timeline, compensable_engine) ∧
    StronglySorted (λ e e', te_timestamp e ≤ te_timestamp e')%Z timeline ∧
    ∀ s e, s ∈ stepsOf "w1" compensable_engine → e ∈ step_events s → e ∈ timeline.
Proof. apply (getWorkflowTimeline_sorted "w1" (sample_workflow WorkflowState.FAILED) compensable_engine). done. Defined.

Lemma cancelled_timeline_witness :
  let w := engine_with (sample_workflow WorkflowState.PENDING) (sample_step StepState.PENDING) in
  ∃ w', cancelWorkflow "w1" w = (Return tt, w') ∧
    ∃ msg, getWorkflowTimeline "w1" w' = (Throw (TypeError msg), w').
Proof.
  apply (cancelled_timeline "w1" (sample_workflow WorkflowState.PENDING)
    (engine_with (sample_workflow WorkflowState.PENDING) (sample_step StepState.PENDING))); done.
Defined.

(** ** Queries and the engine *)

Lemma search_contains_witness : plain "key" = true ∧
  (search_where "key" (sample_workflow WorkflowState.FAILED) ↔
    (∃ a b, wf_idempotencyKey (sample_workflow WorkflowState.FAILED) = a +:+ "key" +:+ b) ∨
    (∃ a b, wf_walletAddress (sample_workflow WorkflowState.FAILED) = Some (a +:+ "key" +:+ b))).
Proof. split; [done|]. by apply search_contains. Defined.

Lemma sample_executes type d : sample_registry !! type = Some d → executes_ok d.
Proof.
  unfold sample_registry, registerWorkflowDefinition. rewrite lookup_insert_Some, lookup_empty.
  intros [[_ <-]|[_ ?]]; [|done]. intros sd Hsd input ctx. apply keeps_untouched. intros w.
  unfold sample_definition in Hsd. cbn in Hsd. rewrite !elem_of_cons, elem_of_nil in Hsd.
  destruct Hsd as [->|[->|[]]]; [|done]. cbn. by case_bool_decide.
Qed.

Definition started : Engine :=
  handle sample_registry (StartWorkflow "trade_execution" [] None None None) empty_engine.

Lemma engine_tables_ok_witness : tables_ok (handle sample_registry RecoverOrphans started).
Proof.
  apply (engine_tables_ok sample_registry empty_engine); [apply sample_executes|done|done|].
  eapply rtc_l; [apply (engine_request _ (StartWorkflow "trade_execution" [] None None None))|].
  apply rtc_once, (engine_request _ RecoverOrphans).
Defined.

Lemma retry_queue_empty_witness : processRetryQueue sample_registry started = (Return 0%Z, advance started).
Proof.
  apply (retry_queue_empty sample_registry empty_engine); [apply sample_executes|done|done|].
  apply rtc_once, (engine_request _ (StartWorkflow "trade_execution" [] None None None)).
Defined.

(** ** The Stellar monitor *)

Abbreviation Stellar := (Monitor (gmap string StellarEvent) (gmap string WebhookConsumer)).

Definition sample_consumer (id : string) : WebhookConsumer :=
  mkWebhookConsumer id "hook" ("https://" +:+ id) None ConsumerStatus.ACTIVE 5 5000 true
    (if bool_decide (id = "c1") then 1 else 2)%Z 0 None None None 0 0.
Definition sample_event : StellarEvent :=
  mkStellarEvent "e1" EventType.PAYMENT 7 0 "hash" "source" [] DeliveryStatus.PENDING 0 None None None None 0 0 None false.
Definition stellar_with (queue : list item) : Stellar :=
  mkMonitor {["e1" := sample_event]} {["c1" := sample_consumer "c1"; "c2" := sample_consumer "c2"]} 0 queue [] false [].

(** A network where nobody answers, and one where everybody does. *)
Definition dead_network : Network := {| http_post _ _ := HttpError None "timeout"; hmac_sha256 _ p := p |}.
Definition live_network : Network := {| http_post _ _ := HttpOk 200; hmac_sha256 _ p := p |}.

Lemma delivery_statistics_witness : ∃ w' r,
  deliveries "c1" [false; true; false] (stellar_with []) = (Return tt, w') ∧ only_consumer "c1" (stellar_with []) w' ∧
  lookup_row "c1" (consumers w') = Some r ∧ delivered_series (sample_consumer "c1") [false; true; false] r.
Proof. apply delivery_statistics. vm_compute. reflexivity. Defined.

Lemma suspension_without_consecutive_failures_witness : ∃ w' r,
  deliveries "c1" (two_of_three 10) (stellar_with []) = (Return tt, w') ∧ lookup_row "c1" (consumers w') = Some r ∧
  co_status r = ConsumerStatus.SUSPENDED ∧ co_isActive r = false.
Proof. apply (suspension_without_consecutive_failures "c1" (sample_consumer "c1")); vm_compute; reflexivity. Defined.

Definition no_consumers : Stellar := mkMonitor ∅ ∅ 0 [] [] false [].

Lemma consumers_invariant_witness :
  consumers_ok (run_op (CreateOp (mkCreateConsumerDto "hook" "https://a" None None None None)) no_consumers).
Proof.
  apply consumers_invariant; [exact I|].
  split; [intros c Hc|intros c c' Hc]; by apply elem_of_nil in Hc.
Defined.

Lemma retries_until_suspension_witness : ∃ w' ps row,
  (@processQueue _ _ _ _ _ dead_network ;; @repeatedly _ _ 11 (@timerFires _ _ _ _ _ dead_network 0))
    (stellar_with [mkItem sample_event (sample_consumer "c1")]) = (Return tt, w') ∧
  posts w' = [] ++ ps ∧ length ps = 11 ∧ Forall (request_for sample_event "https://c1") ps ∧
  deliveryQueue w' = [] ∧ timers w' = [] ∧ events w' = {["e1" := sample_event]} ∧
  lookup_row "c1" (consumers w') = Some row ∧ co_isActive row = false ∧ co_status row = ConsumerStatus.SUSPENDED.
Proof.
  apply (@retries_until_suspension _ _ _ _ _ dead_network sample_event (sample_consumer "c1") (sample_consumer "c1")
    (stellar_with [mkItem sample_event (sample_consumer "c1")])); try done.
  intros n p _. by exists None, "timeout".
Defined.

(** ** Deliveries side by side *)

Definition race_batch : list item := [mkItem sample_event (sample_consumer "c1"); mkItem sample_event (sample_consumer "c2")].
Abbreviation race_tasks network := (@batch_tasks _ _ mem_event_table mem_consumer_table sample_clock network race_batch).

Lemma sample_active : getActiveConsumers (stellar_with []) = [sample_consumer "c1"; sample_consumer "c2"].
Proof. vm_compute. reflexivity. Qed.

Lemma consumers_survive_races_witness : let w' := (play [0; 1; 0; 1; 0; 1] (race_tasks dead_network, stellar_with [])).2 in
  consumers_ok w' ∧ ∀ id, co_url <$> lookup_row id (consumers w') = co_url <$> lookup_row id (consumers (stellar_with [])).
Proof.
  cbv zeta. destruct (play _ _) as [ts w'] eqn:Hplay.
  apply (@consumers_survive_races _ _ _ _ _ dead_network race_batch (stellar_with []) ts w').
  - rewrite <-Hplay. apply play_steps.
  - assert (rows (consumers (stellar_with [])) = [sample_consumer "c1"; sample_consumer "c2"]) as Hrows
      by (vm_compute; reflexivity).
    unfold consumers_ok. rewrite Hrows. split.
    + intros c [->| ->%list_elem_of_singleton]%elem_of_cons; cbn; lia.
    + intros c c' [->| ->%list_elem_of_singleton]%elem_of_cons [->| ->%list_elem_of_singleton]%elem_of_cons; done.
Defined.

Lemma never_processed_witness : let p := play [0; 0; 0; 1; 1; 0; 0; 0; 0; 0; 0] (race_tasks live_network, stellar_with []) in
  (∃ r', lookup_row "e1" (events p.2) = Some r' ∧ ev_isProcessed r' = false) ∧
  Forall (λ t, ∀ x, t ≠ Done (Throw x)) p.1.
Proof.
  cbv zeta. destruct (play _ _) as [ts w'] eqn:Hplay.
  apply (@never_processed _ _ _ _ _ live_network sample_event [sample_consumer "c1"; sample_consumer "c2"]
    (stellar_with []) sample_event ts w').
  - intros n p. by exists 200%Z.
  - done.
  - rewrite sample_active. cbn. lia.
  - vm_compute. reflexivity.
  - done.
  - rewrite sample_active. repeat constructor; done || set_solver.
  - rewrite <-Hplay. apply play_steps.
Defined.

(** The two deliveries of an event take turns, and come to their ends. *)
Lemma event_delivered_witness : ∃ w1 ts w' r' ids,
  @queue_and_claim _ _ _ _ _ sample_event (stellar_with []) = (Return race_batch, w1) ∧
  play (concat (replicate 12 [0; 1])) (race_tasks live_network, w1) = (ts, w') ∧
  length (posts w') = 2 ∧ lookup_row "e1" (events w') = Some r' ∧ ev_deliveredTo r' = Some ids ∧ ids ≠ [] ∧
  ev_deliveryAttempts r' = Z.of_nat (length ids) ∧ ev_isProcessed r' = false.
Proof.
  pose proof (@event_delivered _ _ _ _ _ live_network sample_event sample_event (stellar_with [])) as H.
  cbv zeta in H. rewrite sample_active in H.
  destruct H as (w1 & Hq & _ & Hend); [by intros n p; exists 200%Z|vm_compute; reflexivity|reflexivity..|by repeat constructor|cbn; lia|].
  destruct (play (concat (replicate 12 [0; 1])) (race_tasks live_network, w1)) as [ts w'] eqn:Hplay.
  assert (w1 = (@queue_and_claim _ _ _ _ _ sample_event (stellar_with [])).2) as Hw1 by by rewrite Hq.
  destruct (Hend ts w') as (_ & (ps & sent & Hp & Hs & Hf) & _ & _ & r' & ids & Hr' & _ & Hto & Hne & _ & _ & Hat & Hpr).
  - rewrite <-Hplay. apply play_steps.
  - assert (task_done <$> ts = [true; true]) as Hdone.
    { assert (ts = (play (concat (replicate 12 [0; 1])) (race_tasks live_network, w1)).1) as -> by by rewrite Hplay.
      rewrite Hw1. vm_compute. reflexivity. }
    assert (Forall (λ b, b = true) (task_done <$> ts)) as Hall by (rewrite Hdone; by repeat constructor).
    by apply Forall_fmap in Hall.
  - exists w1, ts, w', r', ids. split; [exact Hq|]. split; [exact Hplay|]. split.
    { rewrite Hp. apply Forall2_length in Hf. apply Permutation_length in Hs. cbn. cbn in Hs. congruence. }
    split; [exact Hr'|]. split; [exact Hto|]. split; [exact Hne|]. split; [exact Hat|rewrite Hpr; reflexivity].
Defined.

Lemma delivery_lost_update_witness : ∃ order w' row,
  play order (race_tasks live_network, stellar_with []) = ([Done (Return tt); Done (Return tt)], w') ∧
  length (posts w') = 2 ∧ lookup_row "e1" (events w') = Some row ∧
  ev_deliveryAttempts row = 1%Z ∧ ev_deliveredTo row = Some ["c2"].
Proof.
  apply (@delivery_lost_update _ _ _ _ _ live_network sample_event (sample_consumer "c1") (sample_consumer "c2")
    (stellar_with []) sample_event); try done.
  - intros n p. by exists 200%Z.
  - rewrite sample_active. set_solver.
  - rewrite sample_active. set_solver.
Defined.
