(* ===== verification/AuthWitnesses.v ===== *)
(** Concrete inputs for the theorems about authentication: one user with two wallets, a nonce, a
    refresh token and an API token, tables in memory, and cryptography that can be computed. *)
From S2P Require Import Prelude Async Json Repository AuthTypes Nonces Wallets JwtAuth ApiTokens AuthController.
From S2P Require Import AuthFacts AuthSafety AuthWallets AuthTokens AuthRaces.
Open Scope nat_scope.

(** * The environment *)

#[local] Existing Instance mem_nonce_table.
#[local] Existing Instance mem_user_table.
#[local] Existing Instance mem_binding_table.
#[local] Existing Instance mem_refresh_table.
#[local] Existing Instance mem_api_table.
#[local] Existing Instance mem_log_table.

Definition auth_clock : Clock := λ n, Z.of_nat n.
Definition auth_crypto : Crypto := {| sha256_hex s := s; uuid_at n := pretty n |}.
#[local] Existing Instance auth_clock.
#[local] Existing Instance auth_crypto.

Lemma auth_uuids : Inj (=) (=) (@uuid_at auth_crypto).
Proof. intros n m. apply (inj pretty). Qed.

(** Every signature verifies. *)
Definition open_signatures : Signatures := {|
  bytes := string; decodeEd25519PublicKey := Return; from_base64 s := s; from_utf8 s := s;
  verify_detached _ _ _ := Return true |}.
#[local] Existing Instance open_signatures.

(** A token is its payload, each string ending in a mark. *)
Fixpoint mark (s rest : string) : string :=
  match s with EmptyString => String (Ascii.ascii_of_nat 48) rest
             | String a s => String (Ascii.ascii_of_nat 49) (String a (mark s rest)) end.
Fixpoint unmark (s : string) : string * string :=
  match s with
  | String b (String a s) => if bool_decide (b = Ascii.ascii_of_nat 49)
      then (String a (unmark s).1, (unmark s).2) else (EmptyString, String a s)
  | String _ s => (EmptyString, s)
  | EmptyString => (EmptyString, EmptyString)
  end.
Lemma unmark_mark s rest : unmark (mark s rest) = (s, rest).
Proof.
  induction s as [|a s IH]; cbn [mark]; [by destruct rest|].
  cbn [unmark]. rewrite bool_decide_eq_true_2 by done. by rewrite IH.
Qed.

Definition plain_jwt : Jwt := {|
  jwt_sign _ p _ := mark (jp_sub p) (match jp_walletId p with None => EmptyString | Some s => mark s "w" end);
  jwt_verify _ s := let '(sub, rest) := unmark s in
    Return (mkJwtPayload sub (if bool_decide (rest = EmptyString) then None else Some (unmark rest).1)) |}.
#[local] Existing Instance plain_jwt.
Definition plain_jwt_laws : JwtLaws.
Proof.
  refine {| lifetime _ := 900000%Z |}. intros t t' [sub [s|]] life _; cbn; rewrite unmark_mark; [|done].
  rewrite bool_decide_eq_false_2 by by destruct s. by rewrite unmark_mark.
Defined.
#[local] Existing Instance plain_jwt_laws.

Definition plain_bcrypt : Bcrypt := {| bcrypt_hash _ s _ := s; bcrypt_compare s h := bool_decide (s = h) |}.
#[local] Existing Instance plain_bcrypt.
(** The settings of [.env.example]. *)
Definition example_config : AuthConfig := {| JWT_ACCESS_EXPIRATION := Some "15m"; API_TOKEN_DEFAULT_EXPIRY_DAYS := Some [9; 0]%Z |}.
#[local] Existing Instance example_config.

Abbreviation Auth := (AuthWorld (gmap string LoginNonce) (gmap string User) (gmap string WalletBinding)
  (gmap string RefreshToken) (gmap string ApiToken) (gmap string AuditLog)).

Definition alice : User := mkUser "u1" None None 0 0 true.
Definition wallet1 : WalletBinding := mkWalletBinding "b1" "GA" "u1" 0 true None.
Definition wallet2 : WalletBinding := mkWalletBinding "b2" "GB" "u1" 0 false None.
Definition nonce1 : LoginNonce := mkLoginNonce "n1" "0" "GA" 1000 false 0.
Definition session1 : RefreshToken := mkRefreshToken "r1" "1" "u1" 1000 false None 0.
Definition key1 : ApiToken := mkApiToken "a1" "stl" "worker" "worker" "u1" None false None 0.
Definition key2 : ApiToken := mkApiToken "a2" "other" "ai" "ai-service" "u1" None false None 0.
Definition auth_world : Auth :=
  mkAuthWorld {["n1" := nonce1]} {["u1" := alice]} {["b1" := wallet1; "b2" := wallet2]}
    {["r1" := session1]} {["a1" := key1; "a2" := key2]} ∅ 2.
(** The access token of a login. *)
Definition alice_token : option string := Some (jwt_sign 0 (mkJwtPayload "u1" None) "15m").

Lemma auth_world_ok : tables_ok auth_world.
Proof.
  split_and!; try (apply unique_rows; apply (bool_decide_unpack (NoDup _)); vm_compute; exact I); apply all_rows_Forall.
  - replace (rows (nonces auth_world)) with [nonce1] by (vm_compute; reflexivity). constructor; [|done].
    exists 0. split; [cbn; lia|done].
  - replace (rows (bindings auth_world)) with [wallet1; wallet2] by (vm_compute; reflexivity).
    repeat constructor; by exists alice.
  - replace (rows (refreshTokens auth_world)) with [session1] by (vm_compute; reflexivity). constructor; [|done]. by exists alice.
  - replace (rows (apiTokens auth_world)) with [key1; key2] by (vm_compute; reflexivity). repeat constructor; by exists alice.
Qed.

Lemma auth_world_accounts : accounts_ok auth_world.
Proof.
  split; [apply auth_world_ok|]. intros u Hu.
  replace (rows (users auth_world)) with [alice] in Hu by (vm_compute; reflexivity). apply list_elem_of_singleton in Hu as ->.
  assert (rows (bindings auth_world) = [wallet1; wallet2]) as Hrows by (vm_compute; reflexivity).
  exists wallet1. unfold primary_of. rewrite Hrows. split; [split_and!; [left|done|done]|].
  by intros b ([->| ->%list_elem_of_singleton]%elem_of_cons & _ & Hp).
Qed.

(** Runs a method that is known to return here. *)
Ltac runs m res w1 Hrun :=
  let Hr := fresh in
  assert (returned m.1 = true) as Hr by (vm_compute; reflexivity);
  destruct m as [[res|?] w1] eqn:Hrun; [clear Hr|cbn in Hr; discriminate].

(** * Witnesses *)

Lemma nonce_single_use_witness :
  let w2 := serve CleanupNonces (walletLogin "GA" "" "0" auth_world).2 in
  ∃ msg, msg ∈ ["Invalid nonce"; "Nonce already used"] ∧
    walletLogin "GA" "" "0" w2 = (Throw (UnauthorizedException msg), w2).
Proof.
  cbv zeta. runs (walletLogin "GA" "" "0" auth_world) res w1 Hrun.
  destruct (@nonce_single_use _ _ _ _ _ _ _ _ _ _ _ _ _ _ _ _ _ _ auth_uuids "GA" "" "0" auth_world res w1
    (serve CleanupNonces w1) auth_world_ok Hrun) as (_ & _ & H).
  - apply rtc_once. apply (auth_serve CleanupNonces).
  - exact (proj1 (H "GA" "")).
Defined.

Lemma refresh_single_use_witness :
  refuses_refresh "1" (serve (RequestNonce "GA") (refreshToken "1" auth_world).2).
Proof.
  runs (refreshToken "1" auth_world) p w1 Hrun.
  apply (refresh_single_use "1" auth_world p w1 (serve (RequestNonce "GA") w1) auth_world_ok Hrun).
  apply rtc_once. apply (auth_serve (RequestNonce "GA")).
Defined.

Lemma logout_revokes_witness : refuses_refresh "1" (serve CleanupNonces (logout alice_token auth_world).2).
Proof.
  runs (logout alice_token auth_world) x w1 Hrun. destruct x.
  destruct (logout_revokes alice_token auth_world w1 (serve CleanupNonces w1) auth_world_ok Hrun) as (u & ws & Hg & H).
  - apply rtc_once. apply (auth_serve CleanupNonces).
  - vm_compute in Hg. injection Hg as <- <-. apply (H session1); [|done].
    replace (rows (refreshTokens auth_world)) with [session1] by (vm_compute; reflexivity). left.
Defined.

Lemma accounts_ok_reachable_witness :
  accounts_ok (serve (UnbindWallet alice_token "GA") auth_world) ∧
  rows (bindings (serve (UnbindWallet alice_token "GA") auth_world)) = [set_wb_isPrimary true wallet2].
Proof.
  split; [|vm_compute; reflexivity]. apply (accounts_ok_reachable auth_world); [|apply auth_world_accounts].
  apply rtc_once. apply (auth_serve (UnbindWallet alice_token "GA")).
Defined.

Lemma login_authenticates_witness : ∃ res w1,
  walletLogin "GA" "" "0" auth_world = (Return res, w1) ∧
  (jwtAuthGuard (Some (lr_accessToken res)) w1).1 = Return (alice, userWallets "u1" w1).
Proof.
  runs (walletLogin "GA" "" "0" auth_world) res w1 Hrun.
  exists res, w1. split; [done|].
  destruct (login_authenticates "GA" "" "0" auth_world res w1 auth_world_ok Hrun) as (u & i & Hi & _ & _ & Hu & Hg).
  replace (findUserByWallet "GA" auth_world) with (Some alice) in Hu by (vm_compute; reflexivity). subst u.
  unfold stands_for in Hg. apply (Hg w1); [done|]. unfold clock_at, auth_clock. change (lifetime access_expiration) with 900000%Z.
  assert (aticks (walletLogin "GA" "" "0" auth_world).2 = 9) as Ht by (vm_compute; reflexivity).
  rewrite Hrun in Ht. cbn [snd] in Ht. rewrite Ht.
  change (aticks auth_world) with 2 in Hi. lia.
Defined.

Lemma api_token_revoked_witness : ∃ p,
  (apiTokenGuard (Some "Bearer other") (controller_revokeApiToken alice_token "a1" auth_world).2).1 = Return p ∧
  (apiTokenGuard (Some "Bearer stl") (controller_revokeApiToken alice_token "a1" auth_world).2).1 =
    Throw (UnauthorizedException "Invalid API token") ∧
  ∃ a, at_id a ≠ "a1" ∧ p = ApiTokenUser (at_userId a) (at_role a) (at_id a).
Proof.
  runs (controller_revokeApiToken alice_token "a1" auth_world) x w1 Hrun. destruct x.
  assert (returned (apiTokenGuard (Some "Bearer other") w1).1 = true ∧
    (apiTokenGuard (Some "Bearer stl") w1).1 = Throw (UnauthorizedException "Invalid API token")) as [Hr Hstl].
  { apply (f_equal snd) in Hrun. cbn [snd] in Hrun. rewrite <-Hrun. split; vm_compute; reflexivity. }
  destruct (apiTokenGuard (Some "Bearer other") w1) as [[p|e] w3] eqn:Hg; [|done].
  exists p. cbn [fst snd]. split; [by rewrite Hg|]. split; [done|].
  destruct (api_token_revoked alice_token "a1" auth_world w1 w1 (Some "Bearer other") p w3 Hrun ltac:(constructor) Hg)
      as (token & a & u & _ & _ & Hne & _ & _ & _ & _ & _ & Hp). by exists a.
Defined.

Lemma createApiToken_expiry_witness : ∃ res w' e,
  createApiToken "u1" "svc" "worker" None auth_world = (Return res, w') ∧ ac_expiresAt res = Some e ∧
  (189 * ms_per_day ≤ e - clock_at 5)%Z.
Proof.
  runs (createApiToken "u1" "svc" "worker" None auth_world) res w' Hrun.
  destruct (createApiToken_expiry "u1" "svc" "worker" None auth_world res w' Hrun) as (e & He & _ & Hd).
  exists res, w', e. split; [done|]. split; [done|]. destruct (Hd eq_refl) as [_ H90]. destruct (H90 eq_refl) as [_ Hb].
  change (3 + aticks auth_world) with 5 in Hb. lia.
Defined.

Lemma nonce_double_login_witness :
  let login := walletLogin_task "GA" "" "0" ≫= λ _, mret tt in
  ∃ w' r1 r2, rtc pool_step ([login; login], auth_world) ([Done (Return tt); Done (Return tt)], w') ∧
    r1 ≠ r2 ∧ r1 ∈ rows (refreshTokens w') ∧ r2 ∈ rows (refreshTokens w') ∧
    r1 ∉ rows (refreshTokens auth_world) ∧ r2 ∉ rows (refreshTokens auth_world) ∧
    rt_userId r1 = "u1" ∧ rt_userId r2 = "u1" ∧ rt_revoked r1 = false ∧ rt_revoked r2 = false.
Proof.
  apply (@nonce_double_login _ _ _ _ _ _ _ _ _ _ _ _ _ _ _ _ _ auth_uuids "GA" "" "0" auth_world nonce1 alice); try (vm_compute; done).
  - apply auth_world_ok.
  - intros r Hr. replace (rows (refreshTokens auth_world)) with [session1] in Hr by (vm_compute; reflexivity).
    apply list_elem_of_singleton in Hr as ->. exists 1. split; [cbn; lia|done].
Defined.

Lemma unbind_race_witness :
  ∃ w', rtc pool_step ([unbindWallet_task "GA" "u1"; unbindWallet_task "GB" "u1"], auth_world)
      ([Done (Return tt); Done (Return tt)], w') ∧
    userWallets "u1" w' = [] ∧ users w' = users auth_world.
Proof.
  apply (unbind_race auth_world "u1" wallet1 wallet2); [apply auth_world_ok|done|].
  intros b. replace (userWallets "u1" auth_world) with [wallet1; wallet2] by (vm_compute; reflexivity). set_solver.
Defined.
