(* ===== verification/RedisWitnesses.v ===== *)
(** Concrete inputs for the theorems about throttling, rate limits and the AI service: a Redis
    in memory, clocks that tick or stand still, and a model that never answers. *)
From S2P Require Import Prelude Async Json JsonParse Redis CacheFacts Throttle ThrottleBans RateLimit AiService AiRaces.
Open Scope Z_scope.

(** A run is its outcome and the world it leaves. *)
Lemma pair_of {A B} (p : A * B) a : p.1 = a → p = (a, p.2).
Proof. by intros <-; destruct p. Qed.

(** * Throttling *)

(** A server whose clock counts its commands and that never fails, and one that fails once. *)
Definition steady_server : RedisServer := {| server_at n := Z.of_nat n; server_fault _ := None |}.
Definition failing_server (at_ : nat) : RedisServer :=
  {| server_at n := Z.of_nat n; server_fault n := if decide (n = at_) then Some (Error "Socket closed unexpectedly") else None |}.
Definition steady_up : @RedisUp steady_server := λ _, eq_refl.
Definition steady_mono : @MonotoneServer steady_server := λ n m H, proj1 (Nat2Z.inj_le n m) H.
Definition failing_mono k : @MonotoneServer (failing_server k) := λ n m H, proj1 (Nat2Z.inj_le n m) H.

Definition login_request : ThrottledRequest := mkThrottledRequest "10.0.0.1" None "/auth/login".
Definition empty_http : HttpWorld entries := mkHttpWorld ∅ [] 0.

(** Seven logins of one client: five pass, as the limit says. *)
Lemma throttle_window_witness :
  let '(os, _) := @serve_requests entries _ steady_server (replicate 7 login_request) empty_http in
  admitted (rate_key login_request) 5 (replicate 7 login_request) os <= 5.
Proof.
  destruct (@serve_requests entries _ steady_server (replicate 7 login_request) empty_http) as [os w'] eqn:Hrun.
  apply (@throttle_window entries _ _ steady_server steady_mono login_request (replicate 7 login_request) empty_http w' os Hrun).
  - assert (tick w' = tick (@serve_requests entries _ steady_server (replicate 7 login_request) empty_http).2) as -> by by rewrite Hrun.
    vm_compute. reflexivity.
  - exact I.
  - reflexivity.
Defined.

Lemma ban_bounded_witness :
  let '(_, w') := @serve_requests entries _ steady_server (replicate 9 login_request) empty_http in
  ∀ e, @held entries _ _ _ _ steady_server (buildBanKey "10.0.0.1") w' = Some e →
    ∃ d, e = mkEntry (RText "1") (Some d) ∧ d <= Z.of_nat (tick w') + 32 * 60 * 1000.
Proof.
  destruct (@serve_requests entries _ steady_server (replicate 9 login_request) empty_http) as [os w'] eqn:Hrun.
  apply (@ban_bounded entries _ _ steady_server steady_up steady_mono (replicate 9 login_request) empty_http w' os "10.0.0.1"); [|exact Hrun].
  intros k. reflexivity.
Defined.

(** The third command is the EXPIRE of the first login. *)
Lemma expire_failure_locks_witness :
  ∃ w1, @throttle_canActivate entries _ (failing_server 2) login_request empty_http =
      (Throw (Error "Socket closed unexpectedly"), w1) ∧
    ∀ reqs os w2, @serve_requests entries _ (failing_server 2) reqs w1 = (os, w2) →
      admitted (rate_key login_request) 5 reqs os < 5.
Proof.
  apply (@expire_failure_locks entries _ _ (failing_server 2) (failing_mono 2) login_request empty_http); reflexivity.
Defined.

(** * Rate limits *)

Definition ticking_clock : Clock := λ n, Z.of_nat n.
Definition stopped_clock : Clock := λ _, 7.
Definition empty_redis : RedisWorld entries := mkRedisWorld ∅ 0.

Lemma rate_limit_window_witness :
  granted "ip:10.0.0.1:login" (replicate 4 (mkRateCheck "ip:10.0.0.1:login" 3 60))
    (@check_all entries _ steady_server ticking_clock (replicate 4 (mkRateCheck "ip:10.0.0.1:login" 3 60)) empty_redis).1 <= 3.
Proof.
  apply (@rate_limit_window entries _ _ steady_server ticking_clock steady_up steady_mono _ _ 60); [lia|lia|reflexivity|reflexivity| | |].
  - intros i j Hi _. apply (proj1 (Nat2Z.inj_lt i j)). lia.
  - apply Forall_replicate. by intros _.
  - exists ∅. split; [by left|]. by intros v s.
Defined.

Lemma rate_limit_same_millisecond_witness :
  (@check_all entries _ steady_server stopped_clock (replicate 50 (mkRateCheck "ip:10.0.0.1:login" 5 60)) empty_redis).1 = replicate 50 true.
Proof.
  apply (@rate_limit_same_millisecond entries _ _ steady_server stopped_clock steady_up steady_mono _ _ _ 50 7);
    [lia|lia|reflexivity|done|reflexivity].
Defined.

(** * The AI service *)

Definition plain_crypto : Crypto := {| sha256_hex s := s; uuid_at n := pretty n |}.
(** A hash of sixty-four hexadecimal digits, the low ones first. *)
Fixpoint hex_text (n : nat) (h : N) : string :=
  match n with
  | O => EmptyString
  | S n => String (default (Ascii.ascii_of_nat 48) (String.get (N.to_nat (h mod 16)) "0123456789abcdef")) (hex_text n (h / 16))
  end.
Fixpoint text_number (h : N) (s : string) : N :=
  match s with EmptyString => h | String a s => text_number (h * 257 + Ascii.N_of_ascii a) s end.
Definition digest_crypto : Crypto := {| sha256_hex s := hex_text 64 (text_number 1 s); uuid_at n := pretty n |}.
Lemma digest_hex : @Sha256Hex digest_crypto.
Proof.
  assert (∀ n h, String.length (hex_text n h) = n ∧ all_chars hex_char (hex_text n h) = true) as Hn; [|intros s; apply Hn].
  intros n. induction n as [|n IH]; intros h; [done|]. destruct (IH (h / 16)%N) as [Hl Hh]. cbn [hex_text String.length all_chars]. rewrite Hl, Hh.
  split; [done|]. rewrite andb_true_r. assert (h mod 16 < 16)%N as Hm by by apply N.mod_lt. revert Hm. generalize (h mod 16)%N. intros x Hx.
  assert (x = 0 ∨ x = 1 ∨ x = 2 ∨ x = 3 ∨ x = 4 ∨ x = 5 ∨ x = 6 ∨ x = 7 ∨ x = 8 ∨ x = 9 ∨ x = 10 ∨ x = 11 ∨ x = 12 ∨ x = 13 ∨ x = 14 ∨ x = 15)%N as H by lia.
  by repeat destruct H as [->|H]; [..|subst].
Qed.
(** A model that never answers. *)
Definition dead_model : OpenAi := λ _ _ _ _ _, Throw (Error "timeout of 30000ms exceeded").
Definition module_config : AiConfig :=
  {| OPENAI_API_KEY := Some "sk"; AI_TIMEOUT_MS := None; OPENAI_MODEL := None; redis_client := false |}.
#[local] Existing Instance steady_server.
#[local] Existing Instance ticking_clock.
#[local] Existing Instance plain_crypto.
#[local] Existing Instance dead_model.
#[local] Existing Instance module_config.

Definition new_ai (n : nat) (c : CircuitBreakerState) : AiWorld entries := mkAiWorld c ∅ ∅ ∅ [] n.

Lemma outage_posts_bounded_witness :
  let w := new_ai 0 new_breaker in let w' := generate_all (replicate 8 "hi") w in
  Z.of_nat (length (posted w')) - Z.of_nat (length (posted w)) <= 5 + (clock_at (tick w') - clock_at (tick w)) / 60000.
Proof.
  apply (outage_posts_bounded (replicate 8 "hi") (new_ai 0 new_breaker)).
  - intros i j Hij. by apply (proj1 (Nat2Z.inj_le i j)).
  - done.
  - by split; [split|].
  - done.
Defined.

Lemma breaker_survives_races_witness :
  breaker_ok (cb (play [0; 1; 1; 0]%nat (generate_task <$> ["a"; "b"], new_ai 0 new_breaker)).2).
Proof.
  destruct (play [0; 1; 1; 0]%nat (generate_task <$> ["a"; "b"], new_ai 0 new_breaker)) as [ts' w'] eqn:Hplay.
  apply (breaker_survives_races ["a"; "b"] (new_ai 0 new_breaker) ts' w'); [by split; [split|]|].
  rewrite <-Hplay. apply play_steps.
Defined.

Lemma half_open_floods_witness :
  ∃ ts' w', rtc pool_step (generate_task <$> ["a"; "b"], new_ai 60000 (mkCircuitBreakerState 5 (Some 0) CircuitState.opened)) (ts', w') ∧
    posted w' = ["a"; "b"].
Proof.
  destruct (half_open_floods ["a"; "b"] (new_ai 60000 (mkCircuitBreakerState 5 (Some 0) CircuitState.opened)))
    as (ts' & w' & Hsteps & Hp & _); [done|vm_compute; discriminate|].
  by exists ts', w'.
Defined.

Lemma outage_poisons_cache_witness :
  ∃ w2, handlePrompt (mkAiRequestDto "hi" None) (new_ai 0 new_breaker) = (Return (mkPromptReply (Some unavailable) (Some false) None), w2) ∧
    ∀ dtos, handlePrompt (mkAiRequestDto "hi" None) (handle_all dtos w2) =
      (Return (mkPromptReply (Some unavailable) (Some true) None), handle_all dtos w2).
Proof.
  destruct (openai_generate "hi" (new_ai 0 new_breaker)) as [o w1] eqn:Hrun.
  apply (outage_poisons_cache "hi" (new_ai 0 new_breaker) w1 (Error "timeout of 30000ms exceeded")); [done| |done|].
  - intros key [s Hs]. discriminate Hs.
  - rewrite Hrun. f_equal. apply (f_equal fst) in Hrun. vm_compute in Hrun. by rewrite <-Hrun.
Defined.
