(* ===== verification/VoiceWitnesses.v ===== *)
(** Concrete inputs for the theorems about voice sessions: a Redis in memory with one user who talks. *)
From S2P Require Import Prelude Async Json JsonParse Redis VoiceTypes VoiceSessions VoiceFacts VoiceTasks VoiceStates VoiceRuns VoiceLimit RedisWitnesses.
Open Scope Z_scope.

#[local] Existing Instance steady_server.
#[local] Existing Instance ticking_clock.
#[local] Existing Instance plain_crypto.
Definition ticking_positive : PositiveClock := Zle_0_nat.
#[local] Existing Instance steady_mono.
#[local] Existing Instance steady_up.
#[local] Existing Instance ticking_positive.

Lemma empty_sessions_ok : sessions_ok empty_redis.
Proof. intros id e He. discriminate He. Qed.

(** A session that is created and begins to think. *)
Definition talk : list voice_request :=
  [Create "u" FeatureContext.TRADING None None; UpdateState "2" ConversationState.LISTENING; UpdateState "2" ConversationState.THINKING].
Definition talking : RedisWorld entries := voice_run talk empty_redis.
Lemma talking_ok : sessions_ok talking.
Proof. unfold talking, talk. cbn [voice_run foldl]. do 3 apply ok_request. apply empty_sessions_ok. Qed.

Lemma voice_sessions_ok_witness :
  sessions_ok (play [0; 1; 0; 1; 0]%nat (voice_task <$> [Terminate "2"; Ping "2"], talking)).2.
Proof.
  destruct (play [0; 1; 0; 1; 0]%nat (voice_task <$> [Terminate "2"; Ping "2"], talking)) as [ts' w'] eqn:Hplay.
  apply (voice_sessions_ok [Terminate "2"; Ping "2"] talking ts' w'); [apply talking_ok|]. rewrite <-Hplay. apply play_steps.
Defined.

Lemma requests_follow_table_witness :
  session_step (Interrupt "2") (session_at "2" talking) (session_at "2" (voice_request_run (Interrupt "2") talking).2).
Proof. apply (requests_follow_table (Interrupt "2") talking "2"), talking_ok. Defined.

Lemma cleanup_stale_spec_witness :
  ∃ n w', cleanupStaleSessions 1 talking = (Return n, w') ∧
    (∀ id, (∀ s, session_at id talking = Some s → clock_at (tick talking) - default (vs_createdAt s) (vs_lastPingAt s) <= HEARTBEAT_TIMEOUT_MS) →
       held (session_key id) w' = seen_at (server_at (tick w')) (held (session_key id) talking)).
Proof.
  destruct (cleanup_stale_spec 1 talking talking_ok) as (n & w' & Hrun & _ & Hkept); [intros τ; eexists; reflexivity|].
  exists n, w'. split; [exact Hrun|exact Hkept].
Defined.

Definition sample_session : VoiceSession := {|
  vs_id := "2"; vs_userId := "u"; vs_walletAddress := None; vs_context := FeatureContext.TRADING; vs_state := ConversationState.IDLE;
  vs_messages := [mkVoiceMessage "m" "hi" 5 true None]; vs_createdAt := 1; vs_lastActivityAt := 5; vs_lastPingAt := Some 4; vs_ttl := 3600;
  vs_socketId := Some "so"; vs_metadata := None |}.

Lemma saved_session_is_read_witness : ((saveSession sample_session ;; getSession "2") empty_redis).1 = Return (Some (stored sample_session)).
Proof.
  apply (saved_session_is_read sample_session empty_redis); [|apply empty_sessions_ok|reflexivity].
  split_and!; try done. split_and!; try done; [by intros t [= <-]|by repeat constructor].
Defined.

Lemma interrupt_and_resume_witness : ∃ s, session_at "2" talking = Some s ∧ vs_state s = ConversationState.THINKING ∧
  answers (interruptSession "2" talking) "2" ConversationState.THINKING (Some ConversationState.INTERRUPTED).
Proof.
  assert (vs_state <$> session_at "2" talking = Some ConversationState.THINKING) as Hst by (vm_compute; reflexivity).
  assert (session_of_entry (seen_at (server_at (S (tick talking))) (held (session_key "2") talking)) = session_at "2" talking) as Hlater
    by (vm_compute; reflexivity).
  destruct (session_at "2" talking) as [s|] eqn:Hs; [|discriminate Hst]. exists s. split; [reflexivity|].
  injection Hst as Hth. split; [exact Hth|].
  pose proof (interrupt_and_resume "2" s talking talking_ok (conj Hs Hlater)) as [Hi _]. rewrite Hth in Hi. exact Hi.
Defined.

Lemma session_limit_witness : (size (listed "u" (voice_run (replicate 5 (Create "u" FeatureContext.GENERAL None None)) empty_redis)) ≤ 3)%nat.
Proof.
  assert (Inj (=) (=) uuid_at) as Hinj by (intros n m; apply (inj pretty)).
  apply (session_limit (replicate 5 (Create "u" FeatureContext.GENERAL None None)) empty_redis "u").
  split; [apply empty_sessions_ok|]. split; [intros u; vm_compute; lia|]. intros u n _. apply not_elem_of_empty.
Defined.
