(* ===== verification/LlmWitnesses.v ===== *)
(** Concrete inputs for the theorems about quotas, the language model and streams. *)
From S2P Require Import Prelude Async Json JsonParse Redis VoiceTypes VoiceSessions VoiceTasks VoiceQuota VoiceQuotaFacts LlmCache LlmFacts Streaming StreamingFacts VoiceGateway RedisWitnesses.
Open Scope Z_scope.

#[local] Existing Instance steady_server.
#[local] Existing Instance ticking_clock.
#[local] Existing Instance digest_crypto.
#[local] Existing Instance digest_hex.
#[local] Existing Instance steady_mono.
#[local] Existing Instance steady_up.
(** Chance that always draws zero. *)
#[export] Instance constant_random : Random := λ _, 0.
#[export] Instance constant_range : RandomRange.
Proof. by intros n. Qed.

(** Requests of two users, to be answered without the cache; twenty of the first pass. *)
Definition prompts : list llm_request :=
  mkLlmRequest "v" "t" "hi" no_options :: replicate 25 (mkLlmRequest "u" "s" "hi" (mkLlmResponseOptions None (Some false) None None)).
Lemma quota_per_minute_witness : charges "u" prompts (respond_all prompts empty_redis).1 = 20 ∧ charges "u" prompts (respond_all prompts empty_redis).1 <= 20.
Proof.
  split; [vm_compute; reflexivity|].
  pose proof (quota_per_minute "u" 0 prompts empty_redis) as H.
  destruct (respond_all prompts empty_redis) as [os w'] eqn:Hrun.
  assert (tick w' = tick (respond_all prompts empty_redis).2) as Ht by by rewrite Hrun.
  assert (Z.of_nat (tick (respond_all prompts empty_redis).2) < 60000) as Hlt by (vm_compute; reflexivity).
  apply H; [|rewrite Ht; exact Hlt|reflexivity].
  intros n Hn. change (Z.of_nat n / 60000 = 0). rewrite Ht in Hn. apply Z.div_small. lia.
Defined.

Lemma resetUserQuota_spec_witness : ∃ w', resetUserQuota "u" (setUserMonthlyQuota "u" (Some 5) empty_redis).2 = (Return tt, w') ∧
  held (limitKey "u") w' = None.
Proof.
  destruct (resetUserQuota_spec "u" (setUserMonthlyQuota "u" (Some 5) empty_redis).2 eq_refl) as (w' & Hrun & _ & Hlimit & _).
  exists w'. split; [exact Hrun|exact Hlimit].
Defined.

(** The same question of two users, and others in between. *)
Definition question : llm_request := mkLlmRequest "u" "s" " What is staking?" no_options.
Definition others : list llm_request := [mkLlmRequest "v" "t" "hi" no_options; question; mkLlmRequest "w" "x" "force-fail" no_options].
Definition question_again : llm_request := mkLlmRequest "v" "t" "what is STAKING? " no_options.
Definition asked : outcome LlmResponse * RedisWorld entries := respond question empty_redis.
Definition then_asked : list (outcome LlmResponse) * RedisWorld entries := respond_all others asked.2.
Definition asked_again : outcome LlmResponse * RedisWorld entries := respond question_again then_asked.2.
Lemma repeated_prompt_witness : ∃ r r', asked.1 = Return r ∧ asked_again.1 = Return r' ∧ lr_content r' = lr_content r ∧ lr_cached r' = true.
Proof.
  assert (∃ r, asked.1 = Return r ∧ lr_cached r = false) as (r & Hr & Hc) by (eexists; split; vm_compute; reflexivity).
  assert (∃ r', asked_again.1 = Return r') as (r' & Hr') by (eexists; vm_compute; reflexivity).
  exists r, r'. split; [exact Hr|]. split; [exact Hr'|].
  destruct (repeated_prompt question others question_again r r' then_asked.1 empty_redis asked.2 then_asked.2 asked_again.2)
    as (Htext & Hcached & _).
  - exact (pair_of asked _ Hr).
  - exact Hc.
  - exact (pair_of then_asked _ eq_refl).
  - exact (pair_of asked_again _ Hr').
  - reflexivity.
  - reflexivity.
  - reflexivity.
  - reflexivity.
  - reflexivity.
  - vm_compute. reflexivity.
  - left. vm_compute. reflexivity.
  - left. vm_compute. reflexivity.
  - split; [exact Htext|exact Hcached].
Defined.

(** * Streams *)

Definition empty_voice : VoiceWorld entries := mkVoiceWorld ∅ 0 [] [] [].
Definition my_client : Client := mkClient "c" (Some "u") None None.
(** The client has made a session, whose id is [3], and sends a message. *)
Definition in_session : VoiceWorld entries :=
  (run_task (gateway_createSession my_client (mkCreateSessionDto "u" FeatureContext.TRADING None None)) empty_voice).2.

Lemma message_for_own_session_witness :
  ∃ x, vw_timers (run_task (handleMessage my_client "hi") in_session).2 = [mkTimer "3" x "hi"].
Proof.
  destruct (run_task (handleMessage my_client "hi") in_session) as [o w'] eqn:Hrun.
  assert (vw_timers in_session = []) as H0 by (vm_compute; reflexivity).
  assert (length (vw_timers (run_task (handleMessage my_client "hi") in_session).2) = 1%nat) as H1 by (vm_compute; reflexivity).
  assert ((getUserActiveSession (user_of my_client) in_session).1 = Return (Some "3")) as H3 by (vm_compute; reflexivity).
  destruct (message_for_own_session my_client "hi" in_session w' o Hrun) as [Ht|(sid & x & se & w1 & w2 & Hget & _ & _ & _ & Ht)].
  - rewrite Hrun in H1. cbn [snd] in H1. rewrite Ht, H0 in H1. discriminate H1.
  - exists x. rewrite Hget in H3. injection H3 as <-. cbn [snd]. rewrite Ht, H0. reflexivity.
Defined.

Definition open_stream : VoiceWorld entries := (put_stream (mkStreamingResponse "x" "s" [] 0 None false) "x" empty_voice).2.
Definition any_session : VoiceSession := {|
  vs_id := "s"; vs_userId := "u"; vs_walletAddress := None; vs_context := FeatureContext.GENERAL; vs_state := ConversationState.IDLE;
  vs_messages := []; vs_createdAt := 0; vs_lastActivityAt := 0; vs_lastPingAt := None; vs_ttl := 3600; vs_socketId := None; vs_metadata := None |}.
Lemma stream_in_full_witness : ∃ chunks w',
  run_task (send_words any_session "s" "x" EmptyString true (words_of "You may stake it.")) open_stream = (Return true, w') ∧
  sc_content <$> chunks = ["You"; "You may"; "You may stake"; "You may stake it."] ∧
  sc_isComplete <$> chunks = [false; false; false; true].
Proof.
  destruct (stream_in_full any_session "s" "x" "You may stake it." open_stream) as (chunks & w' & Hrun & _ & Hc & Hl & _).
  - eexists. split; reflexivity.
  - exists chunks, w'. split; [exact Hrun|]. split; [rewrite Hc; reflexivity|rewrite Hl; reflexivity].
Defined.

(** ** Runs of the system *)

(** What happens next: a call, the [i]-th timer, or a number of pieces of the [i]-th task. *)
Inductive happening := Called (c : voice_call) | Fired (i : nat) | Ran (n i : nat).
Definition happen (p : list (task (VoiceWorld entries) unit) * VoiceWorld entries) (h : happening) :=
  match h with
  | Called c => (p.1 ++ [call_task c], p.2)
  | Fired i =>
      match vw_timers p.2 !! i with
      | Some t => (p.1 ++ [generateStreamingResponse (ti_sessionId t) (ti_streamId t) (ti_userMessage t)],
                   set_voice_timers (take i (vw_timers p.2) ++ drop (S i) (vw_timers p.2)) p.2)
      | None => p
      end
  | Ran n i => play (replicate n i) p
  end.
Lemma happen_steps hs p : rtc voice_step p (foldl happen p hs).
Proof.
  revert p. induction hs as [|h hs IH]; intros p; [done|]. cbn [foldl]. transitivity (happen p h); [|apply IH].
  destruct p as [ts w], h as [c|i|n i]; cbn [happen fst snd].
  - apply rtc_once, step_call.
  - destruct (vw_timers w !! i) as [t|] eqn:Ht; [|done]. apply rtc_once, step_timer. by rewrite take_drop_middle.
  - eapply (rtc_subrel pool_step voice_step); [intros p p'; apply step_piece|apply play_steps].
Qed.

Definition kind_of (s : Sent) : string :=
  match s with
  | ToRoom _ (Thinking _ _) => "thinking"
  | ToRoom _ (Responding _ _) => "responding"
  | ToRoom _ (Chunk _ _ c) => sc_content c
  | ToRoom _ (Interrupted _ _) => "interrupted"
  | ToRoom _ (Complete _ _ _) => "complete"
  | ToClient _ _ => "client"
  end.

(** A session with a stream that is interrupted after two words. *)
Definition interrupted_stream : list happening :=
  [Called (OfSession (Create "u" FeatureContext.TRADING None None)); Ran 9 0;
   Called (StartStream "2" "hi"); Ran 9 1; Fired 0; Ran 6 2; Called (InterruptStream "2" None); Ran 9 3; Ran 9 2].
Definition interrupted_run := foldl happen ([], empty_voice) interrupted_stream.

Lemma chunks_only_while_open_witness : chunks_open (sent interrupted_run.2) ∧
  kind_of <$> sent interrupted_run.2 = ["thinking"; "responding"; "I"; "I understand"; "interrupted"].
Proof.
  split; [|vm_compute; reflexivity]. destruct interrupted_run as [ts' w'] eqn:Hrun.
  apply (chunks_only_while_open empty_voice ts' w'); [reflexivity|reflexivity|]. rewrite <-Hrun. apply happen_steps.
Defined.

(** The same stream, interrupted while its end is being recorded. *)
Definition interrupted_at (n : nat) : list (task (VoiceWorld entries) unit) * VoiceWorld entries :=
  foldl happen ([], empty_voice)
  [Called (OfSession (Create "u" FeatureContext.TRADING None None)); Ran 9 0;
   Called (StartStream "2" "hi"); Ran 9 1; Fired 0; Ran n 2; Called (InterruptStream "2" None); Ran 9 3; Ran 9 2].

(** The client is told that the stream is complete after it was told that it is interrupted. *)
Example complete_after_interrupted : drop 14 (kind_of <$> sent (interrupted_at 18).2) = ["interrupted"; "complete"].
Proof. vm_compute. reflexivity. Qed.

(** The first message of a session does not make it think: an idle session has no edge to THINKING. *)
Example first_message_stays_idle :
  match (getSession "3" (run_task (handleMessage my_client "hi") in_session).2).1 with
  | Return (Some s) => vs_state s = ConversationState.IDLE ∧ length (vs_messages s) = 1%nat
  | _ => False
  end.
Proof. vm_compute. split; reflexivity. Qed.

(** The user [u] makes a session for the user [v], and cannot talk in it. *)
Example session_for_another :
  sent (run_task (handleMessage my_client "hi")
    (run_task (gateway_createSession my_client (mkCreateSessionDto "v" FeatureContext.TRADING None None)) empty_voice).2).2 =
  [ToClient "c" (Joined "3"); ToClient "c" (SessionCreated (mkVoiceSession "3" "v" None FeatureContext.TRADING ConversationState.IDLE [] 2 2 None 3600 None None));
   ToClient "c" (Failed None "Invalid session")].
Proof. vm_compute. reflexivity. Qed.
