(* ===== verification/MarketWitnesses.v ===== *)
(** Concrete inputs for the theorems about the market data. *)
From S2P Require Import Prelude Json JsonParse Redis CacheFacts VoiceSessions VoiceQuota MarketCache MarketData MarketFacts RedisWitnesses.
From Stdlib Require Import QArith Ascii.
Open Scope Z_scope.

#[local] Existing Instance steady_server.
#[local] Existing Instance ticking_clock.
#[local] Existing Instance steady_mono.
#[local] Existing Instance steady_up.
#[local] Existing Instance digest_crypto.
#[local] Existing Instance digest_hex.

Definition empty_market : MarketWorld entries := mkMarketWorld ∅ 0 [].
Definition a_price : jsval := asset_json XLM.
Definition priced : MarketWorld entries := (market_set "XLM:native" a_price CacheNamespace.PRICE_DATA None empty_market).2.

Lemma cached_value_is_read_witness : ∃ w3, market_get "XLM:native" CacheNamespace.PRICE_DATA priced = (Return a_price, w3).
Proof.
  destruct (json_text a_price) as [t|] eqn:Ht; [|discriminate Ht].
  destruct (cached_value_is_read "XLM:native" a_price t CacheNamespace.PRICE_DATA None empty_market priced priced (Return tt)) as (u & w3 & Hu & Hget).
  - exact Ht.
  - reflexivity.
  - apply (pair_of (market_set "XLM:native" a_price CacheNamespace.PRICE_DATA None empty_market)). vm_compute. reflexivity.
  - split; [lia|]. vm_compute. reflexivity.
  - vm_compute. reflexivity.
  - left. vm_compute. reflexivity.
  - left. vm_compute. reflexivity.
  - exists w3. injection Hu as <-. exact Hget.
Defined.

Definition fetched : outcome jsval * MarketWorld entries := getMarketSnapshot ["XLM"; "USDC"] false empty_market.
Lemma snapshot_served_again_witness : ∃ v w3, fetched.1 = Return v ∧
  getMarketSnapshot ["USDC"; "XLM"] false fetched.2 = (Return (spread_with v "cached" (JBool true)), w3).
Proof.
  assert (∃ v, fetched.1 = Return v ∧ property v "cached" = Return (JBool false)) as (v & Hv & Hfresh)
    by (eexists; split; vm_compute; reflexivity).
  exists v. destruct (snapshot_served_again ["XLM"; "USDC"] ["USDC"; "XLM"] false v empty_market fetched.2 fetched.2) as (t & w3 & _ & Hagain).
  - exact (pair_of fetched _ Hv).
  - exact Hfresh.
  - apply Permutation_swap.
  - split; [lia|]. vm_compute. reflexivity.
  - vm_compute. reflexivity.
  - left. vm_compute. reflexivity.
  - left. vm_compute. reflexivity.
  - exists w3. split; [exact Hv|exact Hagain].
Defined.

Lemma invalidateNamespace_spec_witness : ∃ (ks : list string) w', invalidateNamespace CacheNamespace.PRICE_DATA priced = (Return (Z.of_nat (length ks)), w') ∧
  held (market_generateCacheKey "XLM:native" CacheNamespace.PRICE_DATA) w' = None.
Proof.
  destruct (invalidateNamespace_spec CacheNamespace.PRICE_DATA priced eq_refl) as (ks & w' & Hrun & _ & Hgone & _).
  exists ks, w'. split; [exact Hrun|]. exact (Hgone (String.substring 0 16 (sha256_hex "XLM:native"))).
Defined.

(** After the update of XLM its price is still in the cache. *)
Lemma asset_update_keeps_prices_witness : ∃ w', handleAssetUpdate "XLM" "native" "price" priced = (Return tt, w') ∧
  leaves (market_generateCacheKey "XLM:native" CacheNamespace.PRICE_DATA) priced w'.
Proof.
  destruct (asset_update_keeps_prices "X"%char "LM" "native" "price" priced eq_refl eq_refl) as (w' & Hrun & _ & Hkept).
  exists w'. split; [exact Hrun|exact (Hkept "XLM:native")].
Defined.
