(* ===== verification/QueueWitnesses.v ===== *)
(** Concrete inputs for the theorems about the queues, with a library that keeps the jobs it is given, and about the jobs
    of the voice module, with a disk whose second file fails. *)
From S2P Require Import Prelude Async Json JsonParse Redis CacheFacts QueueService QueueFacts RedisWitnesses.
Open Scope Z_scope.

#[local] Existing Instance steady_server.
#[local] Existing Instance ticking_clock.
#[local] Existing Instance steady_mono.
#[local] Existing Instance steady_up.

(** Only a job with data of an object is taken. *)
Definition toy_job (queue : string) (name data : jsval) (options : jsobj) (n : nat) : Job := {|
  job_id := pretty n; job_name := match name with JString s => s | _ => "__default__" end; job_data := data; job_queue := queue;
  job_attempts := match assoc "attempts" options with Some (JNumber a) => Some a | _ => None end;
  job_backoff := js_undefined (assoc "backoff" options); attemptsMade := 0; job_progress := JNumber 0; returnvalue := JNull; failedReason := None;
  job_timestamp := 0; processedOn := None; finishedOn := None |}.
#[local] Instance toy_bull : Bull (list Job) := {|
  bull_add queue name data options n jobs :=
    match data with
    | JObject _ => let job := toy_job queue name data options n in (Return job, jobs ++ [job])
    | _ => (Throw (Error "Missing data"), jobs)
    end;
  bull_getJob queue id jobs := Return (find (λ job, bool_decide (job_queue job = queue ∧ job_id job = id)) jobs);
  bull_getState _ _ := Return "waiting";
  bull_getJobs queue _ jobs := Return (filter (λ job, job_queue job = queue) jobs);
  bull_clean _ _ _ jobs := (Return [], jobs);
  bull_getJobCounts _ _ := Return (mkJobCounts None None None None None);
  bull_progress _ _ jobs := (Return tt, jobs) |}.

Definition a_job (id : string) (data : jsval) : Job := {|
  job_id := id; job_name := id; job_data := data; job_queue := "process-tts"; job_attempts := Some 2; job_backoff := JUndefined; attemptsMade := 2;
  job_progress := JNumber 0; returnvalue := JNull; failedReason := Some "timeout"; job_timestamp := 0; processedOn := None; finishedOn := None |}.
Definition empty_queue : QueueWorld entries (list Job) := mkQueueWorld ∅ 0 [].
Fixpoint failures (jobs : list Job) (w : QueueWorld entries (list Job)) : QueueWorld entries (list Job) :=
  match jobs with [] => w | job :: jobs => failures jobs (handleJobFailure job "timeout" w).2 end.
Definition tts : string := "process-tts".
(** The names on the list of failed jobs, and of the jobs added. *)
Definition waiting (w : QueueWorld entries (list Job)) : list (outcome jsval) :=
  (λ s, match JSON_parse s with Return v => property v "name" | Throw e => Throw e end) <$> list_at (dlq_key tts) w.
Definition added (w : QueueWorld entries (list Job)) : list string := job_name <$> qw_bull w.

Definition four_failed : QueueWorld entries (list Job) :=
  failures [a_job "a" (JObject []); a_job "b" (JObject []); a_job "c" (JObject []); a_job "d" (JObject [])] empty_queue.

(** Another job has failed before: both come back. *)
Definition one_failed : QueueWorld entries (list Job) := (handleJobFailure (a_job "z" (JObject [])) "refused" empty_queue).2.
Lemma failed_job_comes_back_witness : let w1 := (handleJobFailure (a_job "a" (JObject [("text", JString "hi")])) "timeout" one_failed).2 in ∃ js job' w3,
  requeueFromDLQ tts 10 w1 = (Return (js ++ [job']), w3) ∧ length js = 1%nat ∧ list_at (dlq_key tts) w3 = [].
Proof.
  intros w1. destruct (failed_job_comes_back (a_job "a" (JObject [("text", JString "hi")])) "timeout" 10 one_failed) as (text & js & w2 & w3 & _ & _ & _ & Hlen & Hback).
  - discriminate.
  - apply (bool_decide_eq_true_1 (tts ∈ validQueues)). vm_compute. reflexivity.
  - right. eexists. vm_compute. reflexivity.
  - vm_compute. reflexivity.
  - intros item w' Hin. assert (list_at (dlq_key tts) one_failed = [default EmptyString (json_text (dlq_item (a_job "z" (JObject [])) "refused" 2 2 0))]) as Hl by (vm_compute; reflexivity).
    change (item ∈ list_at (dlq_key tts) one_failed) in Hin. rewrite Hl in Hin. apply list_elem_of_singleton in Hin as ->. vm_compute. reflexivity.
  - exists js. eexists _, w3. split; [apply Hback|]. split; [rewrite Hlen; vm_compute; reflexivity|apply Hback].
Defined.

(** The job that throws is taken off the list, and the one that was requeued stays there. *)
Example requeue_drops_the_wrong_item :
  let w := failures [a_job "bad" (JString "text"); a_job "good" (JObject [])] empty_queue in
  let w' := (requeueFromDLQ tts 10 w).2 in
  waiting w = [Return (JString "bad"); Return (JString "good")] ∧ added w' = ["good"] ∧ waiting w' = [Return (JString "good")].
Proof. vm_compute. done. Qed.

(** Two requeues at once of two jobs each: both add the first two, and all four leave the list. *)
Definition requeue_run : task (QueueWorld entries (list Job)) unit := requeueFromDLQ_task tts 2 ≫= λ _, mret tt.
Example racing_requeues_lose :
  let w' := (play [0; 1; 0; 0; 0; 1; 1; 1; 0; 1]%nat ([requeue_run; requeue_run], four_failed)).2 in
  added w' = ["a"; "b"; "a"; "b"] ∧ waiting w' = [].
Proof. vm_compute. done. Qed.

(** * Jobs of the voice module *)

From S2P Require Import Repository VoiceJobs.

#[local] Instance counting_clock : Clock := λ n, Z.of_nat n.
#[local] Instance hash_is_text : Crypto := {| sha256_hex s := s; uuid_at n := pretty n |}.
#[local] Instance flaky_disk : JobEnvironment := {|
  process_cwd := "/app"; path_join := join "/"; disk n := if decide (n = 3)%nat then Throw (Error "ENOSPC") else Return tt; queue_takes _ := Return tt |}.
#[local] Existing Instance mem_job_table.
Definition no_jobs : JobWorld (gmap string VoiceJob) := mkJobWorld ∅ 0 [].

Lemma text_spoken_once_witness : ∃ id w1, processTTS "hello" no_jobs = (Return id, w1) ∧ queued w1 = [("process-tts", id)].
Proof.
  destruct (text_spoken_once "hello" no_jobs) as (id & w1 & w2 & Hrun & _ & Hq & _).
  - reflexivity.
  - reflexivity.
  - exists id, w1. split; [exact Hrun|exact Hq].
Defined.

Definition spoken : outcome string * JobWorld (gmap string VoiceJob) := processTTS "hello" no_jobs.
Definition spoken_id : string := match spoken.1 with Return id => id | Throw _ => EmptyString end.
(** The first call fails and the second does the job: it is completed after one failure. *)
Example second_try : (λ j, (vj_status j, vj_retryCount j)) <$> lookup_row spoken_id (jobs (bull_runs 3 (handleTTS spoken_id) spoken.2).2) = Some (VoiceJobStatus.COMPLETED, 1).
Proof. vm_compute. reflexivity. Qed.

(** * Processors *)

From S2P Require Import QueueProcessors Tracing TelemetryFacts TracingFacts ServerEdge.
From Stdlib Require Import QArith.
Open Scope Z_scope.

#[local] Instance no_chance : Random := λ _, 0.
#[local] Instance plain_radix : RadixText := λ _ n, pretty n.

Lemma progress_returns job n (q : list Job) : (bull_progress job n q).1 = Return tt.
Proof. reflexivity. Qed.
Lemma tts_reports_witness : reports (DB:=entries) (Q:=list Job) (a_job "7" JNull) [10; 30; 50; 80; 100]
  (λ v, ∃ time, v = JObject [("success", JBool true);
    ("data", JObject [("audioUrl", JString "/audio/7.mp3"); ("duration", tenths 2); ("voiceId", JString "anna"); ("language", JString "en");
                      ("speed", JNumber 1); ("sessionId", JUndefined); ("processedAt", time)])])
  (handleProcessTts (a_job "7" JNull) (mkProcessTtsData (Some "  hello   world* ") (Some "anna") None None None)).
Proof.
  apply (tts_reports (DB:=entries) (Q:=list Job) (a_job "7" JNull) (progress_returns _)
    (mkProcessTtsData (Some "  hello   world* ") (Some "anna") None None None)).
Defined.
Lemma deploy_reports_witness : stops (DB:=entries) (Q:=list Job) (a_job "8" JNull) [10] (Error "Missing required fields: contractName, contractCode, network")
  (handleDeployContract (a_job "8" JNull) (mkDeployContractData (Some "Token") (Some EmptyString) (Some "testnet") None)).
Proof.
  apply (deploy_reports (DB:=entries) (Q:=list Job) (a_job "8" JNull) (progress_returns _) (mkDeployContractData (Some "Token") (Some EmptyString) (Some "testnet") None)).
Defined.
(** Two items of forty fail; a limit of zero asks for ten. *)
Lemma news_reports_witness : reports (DB:=entries) (Q:=list Job) (a_job "9" JNull) [10; 20; 50; 75; 100]
  (λ v, ∃ indexed failed time, indexed + failed = 40 ∧ failed = 2 ∧
     v = JObject [("success", JBool true);
       ("data", JObject [("source", JString "Reuters"); ("indexedCount", JNumber indexed); ("failedCount", JNumber failed);
                         ("lastIndexedAt", time); ("itemsProcessed", JNumber 40)])])
  (handleIndexMarketNews (a_job "9" JNull) (mkIndexMarketNewsData (Some "Reuters") None None (Some 40))).
Proof.
  apply (news_reports (DB:=entries) (Q:=list Job) (a_job "9" JNull) (progress_returns _) (mkIndexMarketNewsData (Some "Reuters") None None (Some 40))).
Defined.

(** * Telemetry *)

#[local] Instance half_sampled : TracingSettings := {| SERVICE_NAME := None; samplingRate := Some (1 # 2)%Q |}.
Definition no_telemetry : Telemetry := mkTelemetry [] ∅ ∅ ∅ ∅ [] [].
Definition silent_world : TracedWorld unit := mkTracedWorld no_telemetry tt 0.
Definition no_stack (e : exn) : string := EmptyString.

(** A service that has the trace [t], whose span is [s0]. *)
Definition root_span : TraceContext := mkTraceContext "t" "s0" None true (Some "ann") "api" 0 None.
Definition traced_world : TracedWorld unit := mkTracedWorld (mkTelemetry [root_span] {["t" := 0%nat]} ∅ ∅ ∅ [] []) tt 1.

Lemma trace_roundtrip_witness : ∃ r c' w', extractTraceContext (header_entries (injectTraceContext root_span)) silent_world = (Return r, w') ∧
  tc_traceId c' = "t" ∧ tc_parentSpanId c' = Some "s0" ∧ tc_userId c' = Some "ann".
Proof.
  destruct (trace_roundtrip root_span silent_world) as (r & c' & w' & Hrun & _ & _ & Ht & Hp & Hu & _).
  - split; [reflexivity|discriminate].
  - split; [reflexivity|discriminate].
  - exists r, c', w'. split; [exact Hrun|]. split; [exact Ht|]. split; [exact Hp|exact Hu].
Defined.
(** An identifier with dashes, as a client may send one, is cut at the first of them. *)
Example dashed_trace_lost :
  let c := mkTraceContext "4bf9-2f35" "s0" None true None "api" 0 None in
  let w := (extractTraceContext (header_entries (injectTraceContext c)) silent_world).2 in
  (λ c, (tc_traceId c, tc_parentSpanId c)) <$> tl_contexts (tw_telemetry w) = [("4bf9", Some "2f35")].
Proof. vm_compute. reflexivity. Qed.

Lemma spans_chain_witness : ∃ rs cs w', child_spans 2 "t" traced_world = (Return rs, w') ∧ rs = [1; 2]%nat ∧ chain_of root_span cs ∧ length cs = 2%nat.
Proof.
  destruct (spans_chain "t" 2 traced_world 0 root_span) as (rs & cs & w' & Hrun & Hrs & _ & Hlen & Hch & _).
  - discriminate.
  - reflexivity.
  - reflexivity.
  - reflexivity.
  - exists rs, cs, w'. split; [exact Hrun|]. split; [exact Hrs|]. split; [exact Hch|exact Hlen].
Defined.

(** Two sockets, one of which is closed twice. *)
Definition some_sockets : list socket_event :=
  [Connected (mkTracedSocket "a" [] "10.0.0.1"); Connected (mkTracedSocket "b" [] "10.0.0.2"); Message "a" "chat" None;
   Disconnected "a" "left"; Disconnected "a" "left"].
Lemma connections_counted_witness : ∃ w', foreach some_sockets (socket_step "/") silent_world = (Return tt, w') ∧
  active_gauge "/" w' - active_gauge "/" silent_world = open_count w' - open_count silent_world.
Proof.
  destruct (connections_counted "/" some_sockets silent_world) as (w' & Hrun & Hg & _).
  - split; [apply (bool_decide_unpack _); vm_compute; exact I|]. split; [apply (bool_decide_unpack _); vm_compute; exact I|]. exact I.
  - exists w'. split; [exact Hrun|exact Hg].
Defined.
Example one_is_left : let w' := (foreach some_sockets (socket_step "/") silent_world).2 in
  active_gauge "/" w' = 1 ∧ open_count w' = 1 ∧ opened_total "/" w' = 2 ∧ closed_total "/" w' = 1.
Proof. by vm_compute. Qed.

(** Jobs that wait once and then succeed, or fail when their data is a text. *)
Definition waiting_processor (name : string) (job : Job) : task (TracedWorld unit) jsval :=
  atomic (delay 1000) ≫= λ _, match job_data job with JString s => Done (Throw (Error s)) | v => mret v end.
Definition three_jobs : list (string * Job) :=
  [("tts", a_job "1" JNull); ("tts", a_job "2" (JString "no voice")); ("news", a_job "3" JNull)].
(** The first job is over, the second has failed, the third is running. *)
Definition mixed : list (task (TracedWorld unit) unit) * TracedWorld unit :=
  play [0; 1; 2; 0; 1; 2; 0; 1; 0; 1]%nat (wrapped_jobs no_stack waiting_processor three_jobs, silent_world).
Lemma jobs_accounted_witness : ∃ phases, phases.*1 = ["tts"; "tts"; "news"] ∧ ∀ name,
  world_count name JobsActive mixed.2 = world_count name JobsActive silent_world + phase_num name Phase.Running phases.
Proof.
  destruct (jobs_accounted no_stack waiting_processor three_jobs silent_world mixed.1 mixed.2) as (phases & Hn & _ & Hc).
  - repeat constructor.
  - rewrite <-surjective_pairing. apply play_steps.
  - exists phases. split; [exact Hn|]. intros name. apply (Hc name).
Defined.
Example mixed_counts :
  (λ n, (world_count n JobsActive mixed.2, world_count n JobsTotal mixed.2, world_count n JobsCompleted mixed.2, world_count n JobsFailed mixed.2))
  <$> ["tts"; "news"] = [(0, 2, 1, 1); (1, 0, 0, 0)].
Proof. vm_compute. reflexivity. Qed.

Definition a_request : HttpRequest := mkHttpRequest "GET" "/users/7" "/users/7" (Some "/users/:id") None [("content-length", "12")].
Definition no_header (k v : string) : eff (TracedWorld unit) unit := mret tt.
Lemma intercept_transparent_witness :
  ∃ w', intercept no_stack (λ _, 200) no_header a_request (λ _, throw (NotFoundException "no user")) silent_world =
    (Throw (NotFoundException "no user"), w') ∧
  told "http_request_errors_total" [("route", "GET /users/:id")] is_inc (tl_metrics (tw_telemetry w')) = 1.
Proof.
  destruct (intercept_transparent no_stack (λ _, 200) no_header a_request (λ _, throw (NotFoundException "no user")) silent_world)
    as (r & w1 & o & w2 & w' & Hh & Hi & _).
  - intros k v w. exists w. split; reflexivity.
  - exists w'. injection Hh as <- <-. split; [exact Hi|].
    assert (w' = (intercept no_stack (λ _, 200) no_header a_request (λ _, throw (NotFoundException "no user")) silent_world).2) as ->
      by by rewrite Hi.
    vm_compute. reflexivity.
Defined.

Lemma metrics_registered_witness : ∃ l w', recordHttpRequest "GET" "/a" 200 (1 # 10)%Q (Some 0) (Some 5) silent_world = (Return tt, w') ∧
  tl_metrics (tw_telemetry w') = l ∧ Forall (λ c, well_told c = true) l.
Proof.
  destruct (metrics_registered (recordHttpRequest "GET" "/a" 200 (1 # 10)%Q (Some 0) (Some 5)) silent_world) as (l & w' & Hrun & Hl & Hw & _).
  - apply do_recordHttpRequest.
  - exists l, w'. split; [exact Hrun|]. split; [exact Hl|exact Hw].
Defined.

(** A secret one level down is logged. *)
Example nested_secret_logged :
  sanitizeJobData (JObject [("password", JString "x"); ("user", JObject [("password", JString "y")])]) =
  JObject [("password", JString "[REDACTED]"); ("user", JObject [("password", JString "y")])].
Proof. vm_compute. reflexivity. Qed.

(** * Presence *)

Definition nobody : Presence := mkPresence ∅ ∅ ∅ ∅ [].
Definition quiet_gateway : GatewayWorld entries := mkGatewayWorld ∅ 0 ∅ [].
Lemma gateway_refines_witness : ∃ w', gateway_step (Connect "s1" "ann") quiet_gateway = (Return tt, w') ∧
  represents w' (presence_step (Connect "s1" "ann") nobody).
Proof. apply (gateway_refines (Connect "s1" "ann") quiet_gateway nobody). repeat split. Defined.

(** A user with two sockets is offline as soon as one of them closes, and its last socket is forgotten. *)
Example two_sockets_one_user :
  let s := foldl (λ s e, presence_step e s) nobody [Connect "s1" "ann"; Connect "s2" "ann"; Disconnect "s1" "ann"] in
  pr_online s = ∅ ∧ pr_socket s = ∅.
Proof. vm_compute. done. Qed.
(** Nobody has to be in a room to speak to it. *)
Example stranger_speaks : let s := presence_step (Say "s9" "eve" [("roomId", JString "farmers"); ("message", JString "hello")]) nobody in
  em_room <$> pr_sent s = [Some "farmers"] ∧ pr_joined s = ∅.
Proof. vm_compute. done. Qed.
