(* ===== verification/MonitorWitnesses.v ===== *)
(** Concrete inputs for the theorems about the event monitor: a client of Horizon that only keeps the list of
    its open streams. *)
From S2P Require Import Prelude Async Json JsonParse Repository StellarTypes StellarConsumers StellarEvents WebhookDelivery StellarMonitor StellarMonitorFacts Witnesses.
Open Scope Z_scope.

#[local] Existing Instance sample_clock.
#[local] Existing Instance sample_crypto.
#[local] Existing Instance mem_event_table.
#[local] Existing Instance mem_consumer_table.
#[local] Existing Instance live_network.
#[local] Instance one_quotient : FloatText := λ _ _, "0.05".

(** A new handle is one more than the greatest. *)
Definition next_handle (h : list (nat * StreamKind.t)) : nat := S (foldr Nat.max 0%nat h.*1).
#[local] Instance list_horizon : Horizon (list (nat * StreamKind.t)) := {|
  serverURL := "https://horizon-testnet.stellar.org";
  latest_ledgers _ := Return [1000];
  stream_open k h := (Return (next_handle h), h ++ [(next_handle h, k)]);
  stream_close n h := (Return tt, filter (λ s, s.1 ≠ n) h);
  open_streams h := h |}.
Lemma handles_below (l : list nat) n : n ∈ l → (n ≤ foldr Nat.max 0 l)%nat.
Proof. induction l as [|m l IH]; [by intros ?%elem_of_nil|]. intros [->|H]%elem_of_cons; cbn; [lia|]. specialize (IH H). lia. Qed.
#[local] Instance list_horizon_laws : HorizonLaws (list (nat * StreamKind.t)).
Proof.
  split.
  - intros k h. do 2 eexists. split; [reflexivity|]. split; [|done]. intros Hin%handles_below. cbn in Hin. unfold next_handle in Hin. lia.
  - intros n h. by eexists.
Qed.

Abbreviation SampleWatch := (Watch (gmap string StellarEvent) (gmap string WebhookConsumer) (list (nat * StreamKind.t))).
Definition watch_off : SampleWatch := mkWatch (stellar_with []) [] None None false 0 [].

Lemma watch_off_ok : watch_ok watch_off.
Proof. split; [by intros _ []|]. split; [done|apply NoDup_nil_2]. Qed.

Definition a_payment (attr : option TransactionAttr) : HorizonPaymentOperation :=
  mkHorizonPaymentOperation "2024-02-29T23:59:59Z" "hash" "native" None None "GA" "GB" "12.5000000" attr.
Definition an_attr : TransactionAttr := mkTransactionAttr 1001 None None.

Lemma monitor_watches_once_witness :
  once (on_events [Start; Stop; PaymentMessage (a_payment (Some an_attr)); Start; Start] watch_off).
Proof.
  apply (monitor_watches_once watch_off [Start; Stop; PaymentMessage (a_payment (Some an_attr)); Start; Start]).
  - reflexivity.
  - intros []; reflexivity.
  - reflexivity.
  - reflexivity.
Defined.
Example two_streams :
  streams (on_events [Start; Stop; PaymentMessage (a_payment (Some an_attr)); Start; Start] watch_off) = [(1%nat, StreamKind.PAYMENTS); (2%nat, StreamKind.OFFERS)].
Proof. vm_compute. reflexivity. Qed.

(** The stream of payments reports an error, and its timer fires: two streams of payments are open then. *)
Definition watch_restarting : SampleWatch := on_events [Start; StreamError StreamKind.PAYMENTS] watch_off.
Lemma restarted_stream_stays_open_witness : ∃ n, field StreamKind.PAYMENTS watch_restarting = Some n ∧
  (n, StreamKind.PAYMENTS) ∈ streams (on_events [Stop] (on_event (Restart 0) watch_restarting)).
Proof.
  destruct (restarted_stream_stays_open watch_restarting 0 StreamKind.PAYMENTS) as (n & n' & Hn & _ & _ & Hstays).
  - exact (ok_events _ _ watch_off_ok).
  - vm_compute. reflexivity.
  - vm_compute. reflexivity.
  - exists n. split; [exact Hn|exact (Hstays [Stop])].
Defined.
Example stream_left_open : streams (on_events [Restart 0; Stop] watch_restarting) = [(1%nat, StreamKind.PAYMENTS)].
Proof. vm_compute. reflexivity. Qed.

Lemma stop_during_start_witness : ∃ w',
  rtc pool_step ([startMonitoring_task; atomic stopMonitoring], watch_off) ([Done (Return tt); Done (Return tt)], w') ∧
  isMonitoring w' = false ∧ length (streams w') = 2%nat.
Proof.
  destruct (stop_during_start watch_off 1000 []) as (w' & n & m & Hsteps & Hoff & Hs & _).
  - reflexivity.
  - intros []; reflexivity.
  - reflexivity.
  - exists w'. split; [exact Hsteps|]. split; [exact Hoff|]. rewrite Hs. reflexivity.
Defined.

(** Horizon sends no transaction unless it is asked to: such a payment leaves no trace but a line in the log. *)
Example payment_without_transaction : events (handlePaymentEvent (a_payment None) (stellar_with [])).2 = events (stellar_with []).
Proof. reflexivity. Qed.
Example offer_types : determineOfferType (mkHorizonManageOfferOperation "manage_sell_offer" "GA" "" "" (Some "7") "0.0000000" "1" "native" None None "native" None None None) = "delete"
  ∧ parses_to_zero "10" = false ∧ parses_to_zero "-0.00e5" = true ∧ parses_to_zero "" = false.
Proof. vm_compute. done. Qed.
